(* ===== verification/_CoqProject ===== *)
-Q . S2P
Prelude.v
MCache.v
Node.v
LinkedBuffer.v
BufferInv.v
BufferRead.v
BufferBlocks.v
BufferMem.v
BufferLink.v
BufferCopy.v
BufferSpec.v
FixedBuffer.v
AutoPostpone.v
SafeJob.v
Closer.v
AsyncTimer.v
Options.v
Threads.v
Track.v
Timer.v
Kernel.v
DescCache.v
IOVec.v
Poller.v
PollerSpec.v
SysType.v
Monitor.v
Stat.v
Balance.v
Kqueue.v
NetFD.v
TcpService.v
TcpConn.v
TcpGuard.v
TcpInv.v
TcpWrite.v
TcpRead.v
TcpSafety.v
TcpClose.v
TcpClosing.v
NetAddr.v
Reuseport.v
Listeners.v
TcpSetup.v
SockDarwin.v
StreamConn.v
Tls.v
UdpPacket.v
UdpBsd.v
UdpConn.v
WebSocket.v
WsRead.v
WsSetup.v
Service.v
UdpService.v
