(* ===== verification/Prelude.v ===== *)
(** * tnet: a verification library

    tnet (src/) is an event loop networking library for Go: pollers watch sockets
    with epoll, connections keep what was received and what is still to be sent in
    linked buffers, and users read and write through methods that may be called from
    any number of goroutines.  This development models the 64 bit builds of its core,
    that of Linux throughout and that of BSD where it differs in the poller and in UDP,
    and proves what makes it correct.  This file is the root: it documents
    the whole and holds what the other files share (machine integers, outcomes and
    the state monad, lists and slices, automation).

    ** How the program hangs together

    A block of bytes comes from the block cache (internal/cache/mcache) into a node
    of a linked buffer (internal/buffer).  A connection (tcpconn.go, udpconn.go) has
    two buffers.  Its socket (netfd.go, netfd_linux.go) is registered with a poller
    (internal/poller) through a descriptor of the descriptor cache.  When the socket
    becomes readable the poller runs the connection's callback, which fills the input
    buffer and wakes readers or starts the user's handler; a write goes to the output
    buffer and from there to the socket, at once or when the poller reports that it
    is writable.  Locks of one atomic word (internal/locker), jobs
    (internal/safejob, closer.go) and a trigger channel coordinate the goroutines.  Idle
    timeouts live on a time wheel (internal/asynctimer), deadlines in timers
    (internal/timer), counters in metrics.  A service (tcpservice.go) owns a
    listener and the table of its connections.  The WebSocket extension writes frames
    to a connection.

    ** How Go is modelled

    A value of a struct is a record, a method a function on it in the monad
    [M S A = S -> outcome (A * S)]: it returns, panics (nil dereference, index out of
    range, explicit panic) or runs out of the model's fuel.  Go errors are values
    ([result]).  [uint32] and [uint64] fields wrap around ([u32], [u64], [x ⊞ y]);
    [int] is [Z], since lengths stay far from its bounds, except where the source
    converts it.  A byte slice is its memory up to its capacity with its length, so
    that stale bytes are visible; where aliasing matters (the nodes of a buffer, the
    descriptors of a poller, the pooled message headers of recvmsg) there is an
    explicit heap.  Methods of a shared object that several goroutines may run are
    programs of atomic actions ([SafeJob.prog], [Threads.thread]); a [pool]
    interleaves any number of them, and [Threads.run_alone] is one that nobody disturbs.  A method that holds one lock from beginning to
    end is one action.

    Not under src/, hence parameters: the kernel ([Kernel.Kernel], with the promises of
    its manual pages in [KernelLaws], for UDP in [UdpPacket] and for opening sockets in
    [TcpSetup.SockKernel]), the choices of
    sync.Pool, of select and of the task pool (oracles in the state), user handlers,
    the table of network interfaces, crypto/tls ([Tls.TlsLib]), the WebSocket frame
    library with its handshakes and the raw connection under it.  Every theorem with such a hypothesis has a witness on a
    concrete instance.

    ** Files

    Memory and buffers
    - [MCache]: internal/cache/mcache/mcache.go; [malloc_returns_len].
    - [Node], [LinkedBuffer]: internal/buffer/node.go and buffer.go, every method.
    - [BufferInv], [BufferRead], [BufferBlocks], [BufferMem], [BufferLink],
      [BufferCopy]: the representation invariant [rep] and that each group of
      methods preserves it.
    - [BufferSpec]: the contracts.  [buffer_refines_queue] and
      [buffer_refines_packet_queue] say that every sequence of operations answers as a
      queue of bytes, or of packets, does, without a panic; further theorems on
      errors, limits, filling, releasing and freeing.
    - [FixedBuffer]: fixed_buffer.go; [fixed_buffer_contract].
    - [IOVec]: internal/iovec.
    - [SysType]: internal/cache/systype; [SlicePool] is what a pool of slices promises,
      and [pooled_slices_are_private] follows the three pools through any history.

    Coordination
    - [SafeJob]: internal/locker and internal/safejob; closed jobs never run,
      exclusive jobs run alone, no deadlock, for every interleaving.
    - [Closer]: closer.go; [closed_connection_runs_no_job].
    - [Threads]: pools of goroutines, the proof rule [wp], and how it carries
      invariants ([pool_invariant]) and obligations ([pool_progress]) to executions.
    - [Track]: the rule [track] for executions in which actions may panic, which also
      speaks of what an action touches ([ignores]) and why a goroutine waits.
    - [AutoPostpone]: metrics and internal/autopostpone.
    - [Monitor]: the goroutine that watches the number of connections, and the
      metrics of a period.
    - [Stat]: internal/stat.
    - [Options]: options.go; [last_option_wins] says that a service is configured
      field by field with the last option that sets the field.

    Time
    - [AsyncTimer]: the time wheel, for every order of events; when timers fire.
    - [Timer]: deadlines.

    Input and output
    - [Kernel]: the system calls and one scripted kernel.
    - [DescCache], [Poller], [PollerSpec]: internal/poller with epoll; descriptors
      are never shared and are recycled, pollers are picked fairly.
    - [Balance]: the registry of load balancers and the poller managers.
    - [Kqueue]: the poller of BSD; [pollers_agree].
    - [NetFD]: netfd.go.
    - [NetAddr]: internal/netutil/addr.go; [sockaddr_roundtrip].
    - [Reuseport]: internal/reuseport, over the table of descriptors of the process.
    - [Listeners]: internal/netutil/fd.go, listening and making TCP services, and the
      descriptors that files own.

    TCP
    - [TcpConn]: tcpconn.go, every reading, writing, waiting and closing method.
    - [TcpInv], [TcpWrite], [TcpRead]: the invariant of an open connection under any
      number of goroutines, and one lemma per action and method.
    - [TcpSafety]: [tcp_keeps_data_in_order] (safety) and [tcp_never_sleeps_on_data]
      (no lost wake-up, nothing left unsent when nobody can go on).
    - [TcpClose]: closing a connection that nothing else uses, which releases all it
      holds ([close_releases_everything]), and what the reads of a closed connection
      answer ([closed_connection_refines_queue]).
    - [TcpGuard], [TcpClosing]: closing a connection that others use, for every
      interleaving and through the end of [Close]: [TcpGuard] gives every goroutine a
      role (its phase in each job, its progress with closing) and proves the rules of
      the steps, [TcpClosing] follows every method; [tcp_no_use_after_free],
      [tcp_channels_closed_once], [tcp_close_leaves_no_sleeper].
    - [TcpSetup]: where connections come from: accept with the hooks of a service
      (tcplistener.go, tcpservice.go), dialling (dialer.go) and the socket options of
      internal/netutil; [accept_outcomes].
    - [SockDarwin]: keep-alive and accept where there is no accept4.
    - [TcpService]: the state a service shares; [accept_backoff].
    - [Service]: Serve, Restart, accepting, closing and draining as concurrent
      programs; [restart_drains_the_service].

    UDP and WebSocket
    - [UdpPacket]: netfd_linux.go, the message headers and the framing of packets;
      sending and receiving in order, and the framing round trip.
    - [UdpBsd]: netfd_bsd.go, the same without batches.
    - [UdpConn]: udpconn.go; what a read and a write do.
    - [UdpService]: udpservice.go, the UDP half of dialer.go;
      [udp_serve_closes_everything].
    - [WebSocket]: the write side of extensions/websocket/conn.go;
      [ws_frames_stay_whole].
    - [WsRead]: its read side; [ws_read_is_a_byte_stream].

    Layers over a connection
    - [StreamConn]: the interface of a TCP connection that layers rely on, with its laws
      and its setters of handlers and timeouts, and the proof that dialled connections
      of [TcpConn] keep them.
    - [Tls]: src/tls; dialling, serving and the settings of a connection, proved
      against the interface.
    - [WsSetup]: client.go, server.go, options.go and the settings of conn.go in
      src/extensions/websocket; [ws_dial_outcomes], [ws_upgrades_once].

    ** Fuel

    Loops over a chain of nodes take [loop_fuel], a bound computed from the number of
    nodes, and the theorems about them show that they return.  The tick of the time wheel and the
    loops of the poller recurse on lists.  The waiting loops of connections are
    endless in the source: they take any number of rounds, and a goroutine that has
    used them up counts as one that can go on, never as one that has returned.
    The waiting loop of a service panics in the model when its rounds are used up;
    [restart_drains_the_service] shows that one round more than there are broadcasts
    to come is enough.  Reads of WebSocket messages return with all fuel from some
    amount on.

    ** What the model showed

    Executions in which the code does not do what it means to are theorems too; the
    ones about concurrency are concrete schedules.  Among them: a block of capacity
    one that is filed in the wrong class ([malloc_after_free_of_capacity_one_panics]), a copying
    write that is cut short ([safe_write_is_cut_at_maxFillLen]), idle timers that fire
    late ([refreshed_timer_fires_late]), a hang-up that detaches another connection
    ([stale_hangup_detaches_new_connection]), an empty datagram that crashes the
    process ([empty_datagram_crashes_exact_mode]), a queued packet that is overwritten
    ([exact_mode_overwrites_queued_packet]) or never sent ([udp_packet_is_stuck]), a
    poller that waits for itself ([udp_sync_handler_error_deadlocks] for UDP,
    [own_close_never_returns] for TCP in nonblocking mode), WebSocket
    frames that split each other ([combined_write_splits_a_frame],
    [pong_splits_a_frame]) or end reading ([mismatched_message_ends_reading]), a
    connection that outlives its service ([late_connection_survives_close]), one that is
    leaked while it is set up ([failed_no_delay_leaks_connection]), a service that refuses
    everybody ([short_idle_timeout_refuses_connections]), files that close descriptors
    they do not own any more ([restart_file_closes_listener],
    [failed_wrap_closes_a_later_socket]) and dials that cannot succeed
    ([wss_without_timeout_never_connects]) or verify another host
    ([second_dial_verifies_first_host]).

    ** Not modelled

    32 bit platforms and the number of SO_REUSEPORT on other systems (other layouts and
    constants of the same interfaces); printing metrics and logging (output only); the
    writer of HTTP headers for a WebSocket handshake; the examples; the declarations of
    interfaces.

    The theorems of [TcpSafety] about data and wake-ups follow a connection until
    somebody closes it; those of [TcpClosing] go on, about who touches the buffers and
    who still waits, not about the bytes.  The memory model is sequentially consistent, as Go's is for programs that
    synchronise through atomics, channels and locks. *)

From stdpp Require Import base gmap list numbers strings.

(** ** Machine integers

    Go's unsigned types wrap around; they are kept as [Z] together with the
    wrap-around function of their width.  Go's [int] is 64 bits wide on every
    platform tnet supports; lengths never come near its bounds, so it is a plain
    [Z] except where the source converts it. *)

Definition u8 (z : Z) : Z := z `mod` 2 ^ 8.
Definition u16 (z : Z) : Z := z `mod` 2 ^ 16.
Definition u32 (z : Z) : Z := z `mod` 2 ^ 32.
Definition u64 (z : Z) : Z := z `mod` 2 ^ 64.

(** Reinterpretation of a 64 bit word as a signed Go [int]. *)
Definition i64 (z : Z) : Z :=
  let v := u64 z in if decide (v < 2 ^ 63)%Z then v else (v - 2 ^ 64)%Z.

(** Reinterpretation of a 32 bit word as a Go [int32]. *)
Definition i32 (z : Z) : Z :=
  let v := u32 z in if decide (v < 2 ^ 31)%Z then v else (v - 2 ^ 32)%Z.

(** Arithmetic of [uint32] counters with Go [int]s: [x + uint32(y)]. *)
Declare Scope go_scope.
Notation "x ⊞ y" := (u32 (x + u32 y)%Z) (at level 50, left associativity) : go_scope.
Notation "x ⊟ y" := (u32 (x - u32 y)%Z) (at level 50, left associativity) : go_scope.
Global Open Scope go_scope.

Lemma u32_small z : (0 ≤ z < 2 ^ 32)%Z → u32 z = z.
Proof. intros. unfold u32. by apply Z.mod_small. Qed.

Lemma i32_small z : (0 ≤ z < 2 ^ 31)%Z → i32 z = z.
Proof.
  intros. unfold i32. rewrite u32_small by lia. by rewrite decide_True by lia.
Qed.

Lemma u32_range z : (0 ≤ u32 z < 2 ^ 32)%Z.
Proof. unfold u32. apply Z.mod_pos_bound. lia. Qed.

Lemma u32_add_l a b : u32 (u32 a + b) = u32 (a + b).
Proof. unfold u32. by rewrite Zplus_mod_idemp_l. Qed.

Lemma u32_add_r a b : u32 (a + u32 b) = u32 (a + b).
Proof. unfold u32. by rewrite Zplus_mod_idemp_r. Qed.

Lemma u32_sub_l a b : u32 (u32 a - b) = u32 (a - b).
Proof. unfold u32. by rewrite Zminus_mod_idemp_l. Qed.

Lemma u32_sub_r a b : u32 (a - u32 b) = u32 (a - b).
Proof. unfold u32. by rewrite Zminus_mod_idemp_r. Qed.

Lemma u64_small z : (0 ≤ z < 2 ^ 64)%Z → u64 z = z.
Proof. intros. unfold u64. by apply Z.mod_small. Qed.

Lemma i64_small z : (0 ≤ z < 2 ^ 63)%Z → i64 z = z.
Proof.
  intros. unfold i64. rewrite u64_small by lia. case_decide; lia.
Qed.

(** ** Outcomes of Go code

    A Go function either returns, panics (nil dereference, index out of range,
    integer division by zero, explicit [panic]) or, in the model, exhausts the
    fuel of a loop.  Go [error] results are ordinary values (a [sum]) and not
    outcomes. *)

Inductive outcome (A : Type) : Type :=
| Ret (a : A)
| Panic
| NoFuel.
Arguments Ret {A} a.
Arguments Panic {A}.
Arguments NoFuel {A}.

(** State passing computations: the methods of a Go struct, reading and writing
    the fields of their receiver. *)
Definition M (S A : Type) : Type := S → outcome (A * S).

#[export] Instance M_ret S : MRet (M S) := λ A a s, Ret (a, s).
#[export] Instance M_bind S : MBind (M S) := λ A B f m s,
  match m s with
  | Ret (a, s') => f a s'
  | Panic => Panic
  | NoFuel => NoFuel
  end.

Definition get {S} : M S S := λ s, Ret (s, s).
Definition put {S} (s' : S) : M S () := λ _, Ret ((), s').
Definition modify {S} (f : S → S) : M S () := λ s, Ret ((), f s).
Definition gets {S A} (f : S → A) : M S A := λ s, Ret (f s, s).
Definition panic {S A} : M S A := λ _, Panic.
Definition nofuel {S A} : M S A := λ _, NoFuel.

(** Running a computation on a component of a larger state (a method call on an
    embedded struct). *)
Definition zoom {S T A} (proj : S → T) (upd : T → S → S) (m : M T A) : M S A := λ s,
  match m (proj s) with
  | Ret (a, t) => Ret (a, upd t s)
  | Panic => Panic
  | NoFuel => NoFuel
  end.

Lemma bind_Ret {S A B} (m : M S A) (f : A → M S B) s a s' :
  m s = Ret (a, s') → (m ≫= f) s = f a s'.
Proof. intros H. unfold mbind, M_bind. by rewrite H. Qed.

Lemma zoom_Ret {S T A} (proj : S → T) upd (m : M T A) s a t :
  m (proj s) = Ret (a, t) → zoom proj upd m s = Ret (a, upd t s).
Proof. intros H. unfold zoom. by rewrite H. Qed.

Lemma bind_assoc_run {S A B C} (m : M S A) (f : A → M S B) (g : B → M S C) s :
  ((m ≫= f) ≫= g) s = (m ≫= λ a, f a ≫= g) s.
Proof. unfold mbind, M_bind. by destruct (m s) as [[a s']| |]. Qed.

(** Running the model, one monadic step at a time: a step that only computes, and a
    step whose result is given by a fact. *)
Ltac mpure := erewrite bind_Ret by reflexivity.
Ltac mrun H := erewrite bind_Ret by (exact H).

(** ** Lists indexed by [Z] *)

Definition zlen {A} (l : list A) : Z := Z.of_nat (length l).
Definition ztake {A} (n : Z) (l : list A) : list A := take (Z.to_nat n) l.
Definition zdrop {A} (n : Z) (l : list A) : list A := drop (Z.to_nat n) l.
(** [l[lo:hi]] *)
Definition zsub {A} (lo hi : Z) (l : list A) : list A := ztake (hi - lo) (zdrop lo l).
Definition sumZ (l : list Z) : Z := foldr Z.add 0%Z l.

Section ZLists.
Context {A : Type}.
Implicit Types l k : list A.
Local Open Scope Z_scope.

Lemma zlen_nonneg l : 0 ≤ zlen l.
Proof. unfold zlen. lia. Qed.

Lemma zlen_nil : zlen (@nil A) = 0.
Proof. done. Qed.

Lemma zlen_cons x l : zlen (x :: l) = 1 + zlen l.
Proof. unfold zlen. rewrite length_cons. lia. Qed.

Lemma zlen_app l k : zlen (l ++ k) = zlen l + zlen k.
Proof. unfold zlen. rewrite length_app. lia. Qed.

Lemma zlen_0_inv l : zlen l = 0 → l = [].
Proof. unfold zlen. destruct l; simpl; [done|lia]. Qed.

Lemma zlen_ztake n l : 0 ≤ n → zlen (ztake n l) = Z.min n (zlen l).
Proof. unfold zlen, ztake. rewrite length_take. lia. Qed.

Lemma zlen_zdrop n l : 0 ≤ n → zlen (zdrop n l) = Z.max 0 (zlen l - n).
Proof. unfold zlen, zdrop. rewrite length_drop. lia. Qed.

Lemma zlen_zsub lo hi l :
  0 ≤ lo ≤ hi → hi ≤ zlen l → zlen (zsub lo hi l) = hi - lo.
Proof. intros. unfold zsub. rewrite zlen_ztake, zlen_zdrop; lia. Qed.

Lemma zlen_replicate n (x : A) : zlen (replicate n x) = Z.of_nat n.
Proof. unfold zlen. by rewrite length_replicate. Qed.

Lemma ztake_0 l : ztake 0 l = [].
Proof. done. Qed.

Lemma ztake_nonpos n l : n ≤ 0 → ztake n l = [].
Proof. intros. unfold ztake. by replace (Z.to_nat n) with 0%nat by lia. Qed.

Lemma zdrop_0 l : zdrop 0 l = l.
Proof. done. Qed.

Lemma zdrop_nonpos n l : n ≤ 0 → zdrop n l = l.
Proof. intros. unfold zdrop. by replace (Z.to_nat n) with 0%nat by lia. Qed.

Lemma ztake_ge n l : zlen l ≤ n → ztake n l = l.
Proof. unfold zlen, ztake. intros. apply take_ge. lia. Qed.

Lemma zdrop_ge n l : zlen l ≤ n → zdrop n l = [].
Proof. unfold zlen, zdrop. intros. apply drop_ge. lia. Qed.

Lemma ztake_zdrop n l : ztake n l ++ zdrop n l = l.
Proof. apply take_drop. Qed.

Lemma ztake_app_le n l k : n ≤ zlen l → ztake n (l ++ k) = ztake n l.
Proof. unfold zlen, ztake. intros. apply take_app_le. lia. Qed.

Lemma ztake_app_ge n l k : zlen l ≤ n → ztake n (l ++ k) = l ++ ztake (n - zlen l) k.
Proof.
  unfold zlen, ztake. intros. rewrite take_app_ge by lia.
  do 2 f_equal. lia.
Qed.

Lemma zdrop_app_le n l k : n ≤ zlen l → zdrop n (l ++ k) = zdrop n l ++ k.
Proof. unfold zlen, zdrop. intros. apply drop_app_le. lia. Qed.

Lemma zdrop_app_ge n l k : zlen l ≤ n → zdrop n (l ++ k) = zdrop (n - zlen l) k.
Proof.
  unfold zlen, zdrop. intros. rewrite drop_app_ge by lia. f_equal. lia.
Qed.

Lemma ztake_app_exact l k : ztake (zlen l) (l ++ k) = l.
Proof. rewrite ztake_app_le by lia. by apply ztake_ge. Qed.

Lemma zdrop_app_exact l k : zdrop (zlen l) (l ++ k) = k.
Proof. rewrite zdrop_app_ge by lia. by rewrite Z.sub_diag. Qed.

Lemma zdrop_zdrop a b l : 0 ≤ a → 0 ≤ b → zdrop a (zdrop b l) = zdrop (a + b) l.
Proof. intros. unfold zdrop. rewrite drop_drop. f_equal. lia. Qed.

Lemma ztake_ztake a b l : a ≤ b → ztake a (ztake b l) = ztake a l.
Proof. intros. unfold ztake. rewrite take_take. f_equal. lia. Qed.

Lemma ztake_add a b l :
  0 ≤ a → 0 ≤ b → ztake (a + b) l = ztake a l ++ ztake b (zdrop a l).
Proof.
  intros. unfold ztake, zdrop.
  rewrite take_take_drop. f_equal. lia.
Qed.

Lemma zsub_0 lo l : zsub lo lo l = [].
Proof. unfold zsub. by rewrite Z.sub_diag. Qed.

Lemma zsub_split lo mid hi l :
  0 ≤ lo ≤ mid → mid ≤ hi → zsub lo hi l = zsub lo mid l ++ zsub mid hi l.
Proof.
  intros. unfold zsub.
  replace (hi - lo) with ((mid - lo) + (hi - mid)) by lia.
  rewrite ztake_add, zdrop_zdrop by lia. do 3 f_equal. lia.
Qed.

Lemma ztake_zsub n lo hi l :
  0 ≤ n → n ≤ hi - lo → ztake n (zsub lo hi l) = zsub lo (lo + n) l.
Proof.
  intros. unfold zsub. rewrite ztake_ztake by lia. f_equal. lia.
Qed.

Lemma zdrop_zsub n lo hi l :
  0 ≤ lo → 0 ≤ n → lo + n ≤ hi → zdrop n (zsub lo hi l) = zsub (lo + n) hi l.
Proof.
  intros. unfold zsub, ztake, zdrop. rewrite skipn_firstn_comm, drop_drop.
  f_equal; [lia|]. f_equal; lia.
Qed.

End ZLists.

Lemma sumZ_app l k : sumZ (l ++ k) = (sumZ l + sumZ k)%Z.
Proof. induction l as [|x l IH]; simpl; [done|]. unfold sumZ in *. simpl. lia. Qed.

(** *** Automation for lengths

    [zlist] pushes [zlen] to the leaves; [zlen_lia] also knows that lengths are not
    negative.  [tnet] holds the facts about slices that most proofs need. *)

Create HintDb zlist.
Create HintDb tnet.
#[export] Hint Rewrite @zlen_nil @zlen_cons @zlen_app @zlen_replicate : zlist.
#[export] Hint Rewrite @zlen_ztake @zlen_zdrop using lia : zlist.
#[export] Hint Resolve zlen_nonneg : tnet.

Ltac zlen_nonnegs :=
  repeat match goal with
    | |- context [zlen ?l] =>
        match goal with
        | _ : (0 ≤ zlen l)%Z |- _ => fail 1
        | _ => pose proof (zlen_nonneg l)
        end
    end.
Ltac zlen_lia := autorewrite with zlist; zlen_nonnegs; lia.

(** ** Go byte slices

    A slice value is its backing array from the slice's first element up to its
    capacity, with its length: [len s = s_len s], [cap s = zlen (s_arr s)].  Bytes
    beyond the length are memory that is reachable by reslicing, so stale data of
    a recycled block is visible in the model as it is in Go.  A nil slice is
    [None] where the source distinguishes it. *)

Definition byte := Z.

Record slice : Type := Slice { s_arr : list byte; s_len : Z }.

Definition s_cap (s : slice) : Z := zlen (s_arr s).
Definition s_bytes (s : slice) : list byte := ztake (s_len s) (s_arr s).
Definition slice_ok (s : slice) : Prop := (0 ≤ s_len s ≤ s_cap s)%Z.

(** A slice whose length is its capacity, as [make([]byte, len)] filled in. *)
Definition of_bytes (l : list byte) : slice := Slice l (zlen l).

(** [make([]byte, n, c)] *)
Definition make_bytes (n c : Z) : option slice :=
  if decide (0 ≤ n ≤ c)%Z then Some (Slice (replicate (Z.to_nat c) 0%Z) n) else None.

(** [s[lo:hi]]; [None] is the run-time panic. *)
Definition reslice (s : slice) (lo hi : Z) : option slice :=
  if decide (0 ≤ lo ≤ hi ∧ hi ≤ s_cap s)%Z
  then Some (Slice (zdrop lo (s_arr s)) (hi - lo)) else None.

(** [copy(s[off:], bs)]: the bytes that fit are stored from [off] on. *)
Definition overwrite (s : slice) (off : Z) (bs : list byte) : slice :=
  let k := Z.min (zlen bs) (s_len s - off) in
  Slice (ztake off (s_arr s) ++ ztake k bs ++ zdrop (off + k) (s_arr s)) (s_len s).

Section Slices.
Local Open Scope Z_scope.
Implicit Types s : slice.

Lemma s_bytes_of_bytes l : s_bytes (of_bytes l) = l.
Proof. unfold s_bytes, of_bytes. simpl. by apply ztake_ge. Qed.

Lemma of_bytes_ok l : slice_ok (of_bytes l).
Proof. unfold slice_ok, of_bytes, s_cap. simpl. pose proof (zlen_nonneg l). lia. Qed.

Lemma zlen_s_bytes s : slice_ok s → zlen (s_bytes s) = s_len s.
Proof. unfold slice_ok, s_cap, s_bytes. intros. rewrite zlen_ztake; lia. Qed.

Lemma reslice_bytes s lo hi s' :
  reslice s lo hi = Some s' → s_bytes s' = zsub lo hi (s_arr s) ∧ slice_ok s'.
Proof.
  unfold reslice, slice_ok, s_cap, s_bytes. case_decide; [|done].
  intros; simplify_eq/=. rewrite zlen_zdrop by lia. split; [done|lia].
Qed.

Lemma reslice_Some s lo hi :
  0 ≤ lo ≤ hi → hi ≤ s_cap s →
  reslice s lo hi = Some (Slice (zdrop lo (s_arr s)) (hi - lo)).
Proof. intros. unfold reslice. by rewrite decide_True by lia. Qed.

Lemma overwrite_len s off bs : s_len (overwrite s off bs) = s_len s.
Proof. done. Qed.

Lemma overwrite_cap s off bs :
  slice_ok s → 0 ≤ off ≤ s_len s → s_cap (overwrite s off bs) = s_cap s.
Proof.
  unfold slice_ok, s_cap, overwrite. simpl. intros.
  pose proof (zlen_nonneg bs).
  rewrite !zlen_app, !zlen_ztake, zlen_zdrop by lia. lia.
Qed.

Lemma overwrite_ok s off bs :
  slice_ok s → 0 ≤ off ≤ s_len s → slice_ok (overwrite s off bs).
Proof.
  intros Hs ?. unfold slice_ok. rewrite overwrite_cap by done. exact Hs.
Qed.

(** What lies below [off] is untouched, what is stored is read back. *)
Lemma overwrite_below s off bs lo hi :
  slice_ok s → 0 ≤ lo ≤ hi → hi ≤ off → off ≤ s_len s →
  zsub lo hi (s_arr (overwrite s off bs)) = zsub lo hi (s_arr s).
Proof.
  unfold slice_ok, s_cap, overwrite. simpl. intros.
  assert (zlen (ztake off (s_arr s)) = off) by (rewrite zlen_ztake; lia).
  unfold zsub. rewrite zdrop_app_le by lia.
  rewrite ztake_app_le by (rewrite zlen_zdrop; lia).
  rewrite <-(ztake_zdrop off (s_arr s)) at 2.
  rewrite zdrop_app_le by lia.
  by rewrite ztake_app_le by (rewrite zlen_zdrop; lia).
Qed.

Lemma overwrite_written s off bs :
  slice_ok s → 0 ≤ off ≤ s_len s → zlen bs ≤ s_len s - off →
  zsub off (off + zlen bs) (s_arr (overwrite s off bs)) = bs.
Proof.
  unfold slice_ok, s_cap, overwrite. simpl. intros.
  assert (zlen (ztake off (s_arr s)) = off) by (rewrite zlen_ztake; lia).
  unfold zsub. rewrite Z.min_l by lia.
  rewrite zdrop_app_ge by lia. rewrite (ztake_ge (zlen bs) bs) by lia.
  replace (off - zlen (ztake off (s_arr s))) with 0 by lia. rewrite zdrop_0.
  replace (off + zlen bs - off) with (zlen bs) by lia. apply ztake_app_exact.
Qed.

End Slices.

#[export] Hint Resolve of_bytes_ok overwrite_ok : tnet.

(** ** Go's [(value, error)] results *)

Inductive result (E A : Type) : Type :=
| Ok (a : A)
| Err (e : E).
Arguments Ok {E A} a.
Arguments Err {E A} e.
