(* ===== verification/MCache.v ===== *)
(** * Block cache (src/internal/cache/mcache/mcache.go)

    [caches] is an array of 25 [sync.Pool]s; class [i] is meant to hold slices of
    capacity [2^i].  [Malloc] takes a slice of the smallest sufficient class,
    [Free] returns it.  A [sync.Pool] may return any of its items or call [New]
    (it drops items at garbage collections), so the choice is an oracle [pick]
    that is part of the state and arbitrary in every theorem. *)

From stdpp Require Import base gmap list numbers.
From S2P Require Import Prelude.

Local Open Scope Z_scope.

(** ** Data *)

Definition maxSize : Z := 25.

Record mcache : Type := MCache {
  caches : list (list slice);
  pick : nat → nat → option nat
}.

(** The initial pools, all empty; their [New] makes [make([]byte, 0, 1<<i)]. *)
Definition init_mcache (pk : nat → nat → option nat) : mcache :=
  MCache (replicate (Z.to_nat maxSize) []) pk.

Definition pool_new (i : nat) : slice := Slice (replicate (2 ^ i)%nat 0) 0.

(** [sync.Pool.Get] *)
Definition pool_get (i : nat) (choice : option nat) (pool : list slice)
    : slice * list slice :=
  match choice with
  | Some j =>
      match pool !! j with
      | Some s => (s, delete j pool)
      | None => (pool_new i, pool)
      end
  | None => (pool_new i, pool)
  end.

(** ** Operations *)

(** [math/bits.Len] of a 64 bit word. *)
Definition bits_Len (x : Z) : Z := if decide (x = 0) then 0 else Z.log2 x + 1.

Definition log2 (x : Z) : Z := bits_Len (u64 x) - 1.

Definition isPowerOfTwo (x : Z) : bool := bool_decide (Z.land x (x - 1) = 0).

Definition CalIndex (capacity : Z) : Z :=
  if decide (capacity = 0) then 0
  else
    let idx := log2 capacity in
    if bool_decide (capacity ≠ 1) && isPowerOfTwo capacity then idx else idx + 1.

Definition Malloc (size : Z) (capacity : list Z) : M mcache slice := λ m,
  if decide (1 < zlen capacity) then Panic
  else
    let c := match capacity with
             | c0 :: _ => if decide (c0 > size) then c0 else size
             | [] => size
             end in
    let idx := CalIndex c in
    if decide (maxSize ≤ idx) then
      match make_bytes size c with
      | Some s => Ret (s, m)
      | None => Panic
      end
    else
      match caches m !! Z.to_nat idx with
      | None => Panic
      | Some pool =>
          let (ret, pool') :=
            pool_get (Z.to_nat idx) (pick m (Z.to_nat idx) (length pool)) pool in
          match reslice ret 0 size with
          | Some s => Ret (s, MCache (<[Z.to_nat idx := pool']> (caches m)) (pick m))
          | None => Panic
          end
      end.

(** [p[:0]] keeps the backing array. *)
Definition Free (p : slice) (m : mcache) : mcache :=
  let c := s_cap p in
  if isPowerOfTwo c then
    let idx := CalIndex c in
    if decide (maxSize ≤ idx) then m
    else MCache (alter (cons (Slice (s_arr p) 0)) (Z.to_nat idx) (caches m)) (pick m)
  else m.

(** ** Size classes *)

Lemma log2_spec x : 0 < x < 2 ^ 63 → log2 x = Z.log2 x.
Proof.
  intros. unfold log2, bits_Len. rewrite u64_small by lia.
  rewrite decide_False by lia. lia.
Qed.

Lemma land_pred_pow2 k : 0 ≤ k → Z.land (2 ^ k) (2 ^ k - 1) = 0.
Proof.
  intros. replace (2 ^ k - 1) with (Z.ones k) by (rewrite Z.ones_equiv; lia).
  rewrite Z.land_ones by lia. apply Z.mod_same. lia.
Qed.

(** [x & (x-1) = 0] characterises the powers of two. *)
Lemma isPowerOfTwo_spec x :
  0 < x → isPowerOfTwo x = true ↔ x = 2 ^ Z.log2 x.
Proof.
  intros Hx. unfold isPowerOfTwo. rewrite bool_decide_eq_true. split.
  - intros Hl. destruct (Z.log2_spec x Hx) as [Hlo Hhi].
    destruct (decide (x = 2 ^ Z.log2 x)) as [|Hne]; [done|exfalso].
    assert (Z.testbit (Z.land x (x - 1)) (Z.log2 x) = true) as Hb.
    { rewrite Z.land_spec, Z.bit_log2 by done.
      assert (Z.log2 (x - 1) = Z.log2 x) as <-.
      { apply Z.log2_unique; [apply Z.log2_nonneg|]. lia. }
      simpl. apply Z.bit_log2. pose proof (Z.pow_pos_nonneg 2 (Z.log2 x)).
      pose proof (Z.log2_nonneg x). lia. }
    rewrite Hl, Z.bits_0 in Hb. done.
  - intros ->. apply land_pred_pow2, Z.log2_nonneg.
Qed.

(** The class of a capacity is large enough for it. *)
Lemma CalIndex_covers c :
  0 ≤ c < 2 ^ 63 → 0 ≤ CalIndex c ∧ c ≤ 2 ^ CalIndex c.
Proof.
  intros Hc. unfold CalIndex. case_decide; [subst; simpl; lia|].
  rewrite log2_spec by lia.
  pose proof (Z.log2_nonneg c). pose proof (Z.log2_spec c ltac:(lia)) as [Hlo Hhi].
  destruct (bool_decide (c ≠ 1) && isPowerOfTwo c) eqn:E.
  - apply andb_true_iff in E as [_ E]. apply isPowerOfTwo_spec in E; lia.
  - replace (Z.log2 c + 1) with (Z.succ (Z.log2 c)) by lia. lia.
Qed.

(** ... and no more than twice too large. *)
Lemma CalIndex_tight c : 2 ≤ c < 2 ^ 63 → 2 ^ CalIndex c < 2 * c.
Proof.
  intros Hc. unfold CalIndex. rewrite decide_False by lia.
  rewrite log2_spec by lia.
  pose proof (Z.log2_nonneg c). pose proof (Z.log2_spec c ltac:(lia)) as [Hlo Hhi].
  destruct (bool_decide (c ≠ 1) && isPowerOfTwo c) eqn:E; [lia|].
  rewrite Z.pow_add_r by lia.
  destruct (decide (c = 2 ^ Z.log2 c)) as [Heq|]; [|lia].
  assert (isPowerOfTwo c = true) by (apply isPowerOfTwo_spec; [lia|done]).
  rewrite bool_decide_eq_true_2 in E by lia. simplify_eq/=. congruence.
Qed.

Lemma CalIndex_pos c : 1 ≤ c < 2 ^ 63 → 1 ≤ CalIndex c.
Proof.
  intros. unfold CalIndex. rewrite decide_False by lia. rewrite log2_spec by lia.
  destruct (bool_decide (c ≠ 1) && isPowerOfTwo c) eqn:E.
  - apply andb_true_iff in E as [E%bool_decide_eq_true_1 _].
    apply Z.log2_le_mono with (a := 2) (b := c). lia.
  - pose proof (Z.log2_nonneg c). lia.
Qed.

Lemma CalIndex_pow2 c : 2 ≤ c < 2 ^ 63 → isPowerOfTwo c = true → 2 ^ CalIndex c = c.
Proof.
  intros Hc Hp. unfold CalIndex. rewrite decide_False by lia.
  rewrite Hp, bool_decide_eq_true_2 by lia. simpl.
  rewrite log2_spec by lia. symmetry. apply isPowerOfTwo_spec; [lia|done].
Qed.

(** ** Invariant

    Every slice pooled in class [i] has capacity at least [2^i]; class 0 serves
    requests of size 0 only, and may also hold slices without any capacity. *)

Definition class_need (i : nat) : Z := match i with O => 0 | _ => 2 ^ Z.of_nat i end.

Definition pool_ok (i : nat) (pool : list slice) : Prop :=
  Forall (λ s, class_need i ≤ s_cap s < 2 ^ 63) pool.

Definition mcache_ok (m : mcache) : Prop :=
  length (caches m) = Z.to_nat maxSize ∧
  ∀ i pool, caches m !! i = Some pool → pool_ok i pool.

Lemma s_cap_pool_new i : s_cap (pool_new i) = 2 ^ Z.of_nat i.
Proof.
  unfold pool_new, s_cap. simpl. rewrite zlen_replicate.
  rewrite Nat2Z.inj_pow. done.
Qed.

Lemma pool_get_ok i ch pool s pool' :
  (i < 63)%nat → pool_ok i pool → pool_get i ch pool = (s, pool') →
  class_need i ≤ s_cap s < 2 ^ 63 ∧ pool_ok i pool'.
Proof.
  unfold pool_get, pool_ok. intros Hi Hok Hg.
  assert (class_need i ≤ s_cap (pool_new i) < 2 ^ 63).
  { rewrite s_cap_pool_new. pose proof (Z.pow_lt_mono_r 2 (Z.of_nat i) 63).
    unfold class_need; destruct i; lia. }
  destruct ch as [j|]; [|by simplify_eq].
  destruct (pool !! j) as [x|] eqn:Hj; simplify_eq; [|done].
  split; [by eapply (Forall_lookup_1 _ _ _ _ Hok Hj)|by apply Forall_delete].
Qed.

Lemma init_mcache_ok pk : mcache_ok (init_mcache pk).
Proof.
  split; [done|]. intros i pool [-> _]%lookup_replicate. by apply Forall_nil.
Qed.

(** A request of class [i] fits into what the class holds. *)
Lemma class_need_covers size :
  0 ≤ size < 2 ^ 63 → size ≤ class_need (Z.to_nat (CalIndex size)).
Proof.
  intros Hsz. destruct (decide (size = 0)) as [->|]; [done|].
  destruct (CalIndex_covers size Hsz). pose proof (CalIndex_pos size ltac:(lia)).
  unfold class_need. destruct (Z.to_nat (CalIndex size)) as [|k] eqn:E; [lia|].
  replace (Z.of_nat (S k)) with (CalIndex size) by lia. done.
Qed.

(** [Malloc(size)] for the sizes the program asks for. *)
Lemma Malloc_ok size m :
  mcache_ok m → 0 ≤ size < 2 ^ 63 →
  ∃ s m', Malloc size [] m = Ret (s, m') ∧ mcache_ok m' ∧
          s_len s = size ∧ slice_ok s ∧ s_cap s < 2 ^ 63 ∧ (1 ≤ size → 2 ≤ s_cap s).
Proof.
  intros [Hlen Hok] Hsz. destruct (CalIndex_covers size Hsz) as [Hi Hcov].
  unfold Malloc. rewrite decide_False by (unfold zlen; simpl; lia).
  case_decide as Hbig.
  - unfold make_bytes. rewrite decide_True by lia.
    eexists _, m. split; [done|]. unfold slice_ok, s_cap. simpl.
    rewrite zlen_replicate. repeat split; try done; try lia.
    intros. destruct (decide (size = 1)) as [->|]; [by vm_compute in Hbig|lia].
  - assert (is_Some (caches m !! Z.to_nat (CalIndex size))) as [pool Hp].
    { apply lookup_lt_is_Some. unfold maxSize in *. lia. }
    rewrite Hp. destruct (pool_get _ _ _) as [ret pool'] eqn:Hg.
    apply pool_get_ok in Hg as [Hcap Hok'];
      [|by apply lookup_lt_Some in Hp; unfold maxSize in *; lia|by eapply Hok].
    pose proof (class_need_covers size Hsz).
    rewrite reslice_Some by lia. eexists _, _. split; [done|].
    split.
    { split; simpl; [by rewrite length_insert|]. intros i p Hip.
      apply list_lookup_insert_Some in Hip as [(<- & <- & _)|[_ ?]]; [done|by eapply Hok]. }
    unfold slice_ok, s_cap. simpl. rewrite zdrop_0. fold (s_cap ret).
    split; [lia|]. split; [lia|]. split; [lia|]. intros.
    pose proof (CalIndex_pos size ltac:(lia)).
    unfold class_need in Hcap. destruct (Z.to_nat (CalIndex size)) as [|k] eqn:E; [lia|].
    pose proof (Z.pow_le_mono_r 2 1 (Z.of_nat (S k))). lia.
Qed.

Lemma Free_ok p m :
  mcache_ok m → s_cap p ≠ 1 → s_cap p < 2 ^ 63 → mcache_ok (Free p m).
Proof.
  intros [Hlen Hok] Hne Hlt. unfold Free.
  destruct (isPowerOfTwo (s_cap p)) eqn:Hp; [|done].
  case_decide as Hbig; [done|].
  split; simpl; [by rewrite length_alter|]. intros i pool Hi.
  rewrite list_lookup_alter in Hi.
  case_decide as He; [|by eapply Hok].
  apply fmap_Some in Hi as (pool0 & Hp0 & ->). subst i.
  apply Forall_cons_2; [|by eapply Hok].
  change (s_cap (Slice (s_arr p) 0)) with (s_cap p).
  pose proof (zlen_nonneg (s_arr p)) as Hnn. fold (s_cap p) in Hnn.
  destruct (decide (s_cap p = 0)) as [Hz|].
  { by rewrite Hz. }
  pose proof (CalIndex_pow2 (s_cap p) ltac:(lia) Hp) as Hpow.
  pose proof (CalIndex_pos (s_cap p) ltac:(lia)).
  unfold class_need. destruct (Z.to_nat (CalIndex (s_cap p))) as [|k] eqn:E; [lia|].
  replace (Z.of_nat (S k)) with (CalIndex (s_cap p)) by lia. lia.
Qed.

(** ** Properties *)

(** from any pool state whose classes hold slices that are large enough,
    [Malloc(size)] returns a slice of exactly [size] bytes, for every size, and
    the pools stay in order; with a positive size the slice can be handed to
    [Free] again. *)
Theorem malloc_returns_len (size : Z) (m : mcache) (Hm : mcache_ok m)
    (Hsz : 0 ≤ size < 2 ^ 63) :
  ∃ s m', Malloc size [] m = Ret (s, m') ∧ mcache_ok m' ∧ s_len s = size ∧
          size ≤ s_cap s ∧ (1 ≤ size → mcache_ok (Free s m')).
Proof.
  destruct (Malloc_ok size m Hm Hsz) as (s & m' & Hr & Hm' & Hl & Hok & Hlt & Hc).
  unfold slice_ok in Hok. exists s, m'.
  do 3 (split; [done|]). split; [lia|]. intros. apply Free_ok; [done|lia|done].
Qed.

Lemma malloc_returns_len_witness :
  ∃ s m', Malloc 5 [] (init_mcache (λ _ _, Some 0%nat)) = Ret (s, m') ∧ mcache_ok m' ∧
          s_len s = 5 ∧ 5 ≤ s_cap s ∧ (1 ≤ 5 → mcache_ok (Free s m')).
Proof.
  apply (malloc_returns_len 5 (init_mcache (λ _ _, Some 0%nat))).
  - apply init_mcache_ok.
  - lia.
Defined.

(** The class that [CalIndex] computes for a capacity is the smallest power
    of two that holds it (except that a capacity of one is served from the class
    of two). *)
Theorem cal_index_smallest_class (c : Z) (Hc : 2 ≤ c < 2 ^ 63) :
  2 ^ (CalIndex c - 1) < c ≤ 2 ^ CalIndex c.
Proof.
  pose proof (CalIndex_covers c ltac:(lia)). pose proof (CalIndex_pos c ltac:(lia)).
  pose proof (CalIndex_tight c Hc) as Ht.
  replace (CalIndex c) with (1 + (CalIndex c - 1)) in Ht at 1 by lia.
  rewrite Z.pow_add_r in Ht by lia. lia.
Qed.

Lemma cal_index_smallest_class_witness :
  2 ^ (CalIndex 400 - 1) < 400 ≤ 2 ^ CalIndex 400 ∧ CalIndex 400 = 9.
Proof. split; [apply (cal_index_smallest_class 400); lia | vm_compute; done]. Defined.

(** a slice of capacity one is filed under the class of slices of capacity
    two: after [Malloc(0)] and [Free] of its result, [Malloc(2)] panics when the
    pool hands that slice out. *)
Theorem malloc_after_free_of_capacity_one_panics :
  let m0 := init_mcache (λ _ _, Some 0%nat) in
  ∃ s m1, Malloc 0 [] m0 = Ret (s, m1) ∧ s_cap s = 1 ∧ Malloc 2 [] (Free s m1) = Panic.
Proof.
  eexists _, _. split; [reflexivity|]. split; reflexivity.
Qed.
