(* ===== verification/Node.v ===== *)
(** * Buffer nodes (src/internal/buffer/node.go)

    A [node] holds one contiguous block with a read offset [r] and a write offset
    [w] (both [uint32]).  Methods of [*node] are functions on node values; the
    heap that holds the nodes is in LinkedBuffer. *)

From stdpp Require Import base gmap list numbers.
From S2P Require Import Prelude MCache.

Local Open Scope Z_scope.

(** ** Data *)

(** The package's error values; [ErrReader] is an error of the data source. *)
Inductive err : Type :=
| ErrNoEnoughData
| ErrNodeFull
| ErrInvalidParam
| ErrBufferFull
| ErrReader (errno : Z).

#[export] Instance err_eq_dec : EqDecision err.
Proof. solve_decision. Defined.

(** Addresses of nodes. *)
Abbreviation loc := positive.

Record node : Type := Node {
  n_next : option loc;
  n_block : option slice;
  n_r : Z;
  n_w : Z;
  n_recycle : bool
}.

(** [&node{}], what the node pool's [New] and [reset] produce. *)
Definition zero_node : node := Node None None 0 0 false.

Definition with_next (p : option loc) (n : node) : node :=
  Node p (n_block n) (n_r n) (n_w n) (n_recycle n).
Definition with_r (v : Z) (n : node) : node :=
  Node (n_next n) (n_block n) v (n_w n) (n_recycle n).
Definition with_w (v : Z) (n : node) : node :=
  Node (n_next n) (n_block n) (n_r n) v (n_recycle n).
Definition with_block (s : option slice) (n : node) : node :=
  Node (n_next n) s (n_r n) (n_w n) (n_recycle n).
Definition with_recycle (f : bool) (n : node) : node :=
  Node (n_next n) (n_block n) (n_r n) (n_w n) f.

(** ** Operations *)

Definition node_len (n : node) : Z := u32 (n_w n - n_r n).

Definition node_cap (n : node) : Z :=
  match n_block n with Some s => s_len s | None => 0 end.

Definition node_rest (n : node) : Z := node_cap n - n_w n.

Definition node_isFull (n : node) : bool := bool_decide (n_w n = node_cap n).

(** [n.block[lo:hi]]; slicing a nil slice at [0:0] gives a nil slice. *)
Definition block_sub (n : node) (lo hi : Z) : outcome slice :=
  match reslice (default (Slice [] 0) (n_block n)) lo hi with
  | Some s => Ret s
  | None => Panic
  end.

Definition node_peek (n : node) (num : Z) : outcome (result err slice) :=
  if decide (num > node_len n) then Ret (Err ErrNoEnoughData)
  else
    match block_sub n (n_r n) (n_r n + num) with
    | Ret p => Ret (Ok p)
    | Panic => Panic
    | NoFuel => NoFuel
    end.

Definition node_readn (n : node) (num : Z) : outcome (result err slice * node) :=
  if decide (num > node_len n) then Ret (Err ErrNoEnoughData, n)
  else
    match block_sub n (n_r n) (n_r n + num) with
    | Ret p => Ret (Ok p, with_r (n_r n ⊞ num) n)
    | Panic => Panic
    | NoFuel => NoFuel
    end.

Definition node_skip (n : node) (num : Z) : result err () * node :=
  if decide (num > node_len n) then (Err ErrNoEnoughData, n)
  else (Ok (), with_r (n_r n ⊞ num) n).

Definition node_add (n : node) (wlen : Z) : result err () * node :=
  if node_isFull n then (Err ErrNodeFull, n)
  else if decide (n_w n + wlen > node_cap n) then (Err ErrNodeFull, n)
  else (Ok (), with_w (n_w n ⊞ wlen) n).

Definition node_allocBlockN (size : Z) (n : node) : M mcache node := λ m,
  match Malloc size [] m with
  | Ret (s, m') => Ret (with_recycle true (with_block (Some s) n), m')
  | Panic => Panic
  | NoFuel => NoFuel
  end.

Definition node_setBlock (b : slice) (n : node) (m : mcache) : node * mcache :=
  let m' :=
    match n_recycle n, n_block n with
    | true, Some old => Free old m
    | _, _ => m
    end in
  (with_recycle false (with_w (u32 (s_len b)) (with_block (Some b) n)), m').

Definition node_reset (n : node) (m : mcache) : node * mcache :=
  let m' :=
    if n_recycle n then Free (default (Slice [] 0) (n_block n)) m else m in
  (zero_node, m').

(** ** Well-formed nodes and their contents *)

(** The bytes written and not yet read. *)
Definition node_bytes (n : node) : list byte :=
  match n_block n with
  | Some s => zsub (n_r n) (n_w n) (s_arr s)
  | None => []
  end.

Record node_ok (n : node) : Prop := {
  nok_rw : 0 ≤ n_r n ≤ n_w n;
  nok_wcap : n_w n ≤ node_cap n;
  nok_cap : node_cap n < 2 ^ 32;
  nok_slice : ∀ s, n_block n = Some s → slice_ok s;
  nok_recycle : n_recycle n = true →
    ∃ s, n_block n = Some s ∧ 2 ≤ s_cap s < 2 ^ 63
}.

(** A node that still waits for data: nothing written, some space. *)
Record node_idle (n : node) : Prop := {
  nid_r : n_r n = 0;
  nid_w : n_w n = 0;
  nid_cap : 0 < node_cap n
}.

Section NodeLemmas.
Implicit Types n : node.

Lemma node_len_spec n : node_ok n → node_len n = n_w n - n_r n.
Proof. intros [? ? ? _ _]. unfold node_len. apply u32_small. lia. Qed.

Lemma node_len_bounds n : node_ok n → 0 ≤ node_len n < 2 ^ 32.
Proof. intros. apply u32_range. Qed.

Lemma zlen_node_bytes n : node_ok n → zlen (node_bytes n) = node_len n.
Proof.
  intros Hn. rewrite node_len_spec by done. destruct Hn as [? ? ? Hs _].
  unfold node_bytes, node_cap in *. destruct (n_block n) as [s|].
  - specialize (Hs s eq_refl). unfold slice_ok, s_cap in Hs.
    rewrite zlen_zsub; lia.
  - rewrite zlen_nil. lia.
Qed.

Lemma node_bytes_nil n : node_ok n → node_len n = 0 → node_bytes n = [].
Proof. intros. apply zlen_0_inv. by rewrite zlen_node_bytes. Qed.

Lemma zero_node_ok : node_ok zero_node.
Proof. split; simpl; unfold node_cap; simpl; try lia; done. Qed.

Lemma node_idle_len n : node_idle n → node_len n = 0.
Proof. intros [Hr Hw _]. unfold node_len. by rewrite Hr, Hw. Qed.

Lemma node_idle_bytes n : node_idle n → node_bytes n = [].
Proof. intros [Hr Hw _]. unfold node_bytes. destruct (n_block n); [|done]. by rewrite Hr, Hw. Qed.

(** Reading offsets move within [r..w]. *)
Lemma with_r_ok n k : node_ok n → n_r n ≤ k ≤ n_w n → node_ok (with_r k n).
Proof. intros [? ? ? ? ?] ?. split; simpl; try done. lia. Qed.

Lemma node_bytes_with_r n k :
  node_ok n → n_r n ≤ k ≤ n_w n →
  node_bytes (with_r k n) = zdrop (k - n_r n) (node_bytes n).
Proof.
  intros [? ? ? ? ?] ?. unfold node_bytes. simpl.
  destruct (n_block n); [|unfold zdrop; by rewrite drop_nil].
  rewrite zdrop_zsub by lia. f_equal. lia.
Qed.

Lemma node_len_with_r n k :
  node_ok n → n_r n ≤ k ≤ n_w n → node_len (with_r k n) = n_w n - k.
Proof. intros. rewrite node_len_spec by (by apply with_r_ok). done. Qed.

Lemma block_sub_ok n num :
  node_ok n → 0 ≤ num ≤ node_len n →
  ∃ p, block_sub n (n_r n) (n_r n + num) = Ret p ∧ slice_ok p ∧
       s_bytes p = ztake num (node_bytes n).
Proof.
  intros Hn Hnum. rewrite node_len_spec in Hnum by done.
  destruct Hn as [? ? ? Hs _]. unfold block_sub, node_bytes, node_cap in *.
  destruct (n_block n) as [s|]; simpl.
  - specialize (Hs s eq_refl). unfold slice_ok in Hs.
    rewrite reslice_Some by lia. eexists. split; [done|].
    edestruct (reslice_bytes s (n_r n) (n_r n + num)) as [Hb Hok];
      [by rewrite reslice_Some by lia|].
    split; [done|]. rewrite Hb. by rewrite ztake_zsub by lia.
  - replace (n_r n) with 0 by lia. replace num with 0 by lia.
    eexists. split; [done|]. done.
Qed.

Lemma node_peek_ok n num :
  node_ok n → 0 ≤ num ≤ node_len n →
  ∃ p, node_peek n num = Ret (Ok p) ∧ s_bytes p = ztake num (node_bytes n).
Proof.
  intros Hn Hnum. unfold node_peek. rewrite decide_False by lia.
  destruct (block_sub_ok n num Hn Hnum) as (p & -> & _ & ?). by exists p.
Qed.

Lemma advance_r n num :
  node_ok n → 0 ≤ num ≤ node_len n → n_r n ⊞ num = n_r n + num.
Proof.
  intros Hn Hnum. rewrite node_len_spec in Hnum by done.
  destruct Hn as [? ? ? _ _]. rewrite u32_add_r. apply u32_small. lia.
Qed.

Lemma node_readn_ok n num :
  node_ok n → 0 ≤ num ≤ node_len n →
  ∃ p, node_readn n num = Ret (Ok p, with_r (n_r n + num) n) ∧
       slice_ok p ∧ s_bytes p = ztake num (node_bytes n).
Proof.
  intros Hn Hnum. unfold node_readn. rewrite decide_False by lia.
  destruct (block_sub_ok n num Hn Hnum) as (p & -> & ? & ?).
  rewrite advance_r by done. by exists p.
Qed.

Lemma node_skip_ok n num :
  node_ok n → 0 ≤ num ≤ node_len n → node_skip n num = (Ok (), with_r (n_r n + num) n).
Proof.
  intros Hn Hnum. unfold node_skip. rewrite decide_False by lia.
  by rewrite advance_r by done.
Qed.

End NodeLemmas.
