(* ===== verification/LinkedBuffer.v ===== *)
(** * Linked buffers (src/internal/buffer/buffer.go)

    The model of [Buffer]: its fields, the heap of its nodes, the block cache it
    allocates from and the package variables it reads.  Pointers between nodes are
    kept as addresses; a dereference of nil or of a node that was given back to
    the pool is a panic, so a theorem that an operation returns says in particular
    that it uses neither.  Loops over the chain run on fuel [loop_fuel], and every
    theorem about them shows that it is not exhausted.

    [rlock]/[wlock] serialise readers and writers; each method below is one
    critical section.  This file holds the definitions only. *)

From stdpp Require Import base gmap list numbers.
From S2P Require Import Prelude MCache Node.

Local Open Scope Z_scope.

(** ** Data *)

Definition defaultBlockSize : Z := 4096.
Definition defaultMaxBufferSize : Z := 10 * 1024 * 1024.
Definition maxNodeBlockSize : Z := 128 * 1024.
(** systype.MaxLen *)
Definition MaxLen : Z := 64.

(** The package variables of the buffer package. *)
Record config : Type := Config {
  blockSize : Z;
  maxFillLen : Z;
  MaxBufferSize : Z;
  cleanUp : bool
}.

Definition default_config : config :=
  Config defaultBlockSize (defaultBlockSize * MaxLen) defaultMaxBufferSize false.

Record Buffer : Type := MkBuffer {
  head : option loc;
  tail : option loc;
  rnode : option loc;
  wnode : option loc;
  rlen : Z;
  wlen : Z;
  nodeBlockSize : Z;
  enableAutoNodeBlockSize : bool;
  heap : gmap loc node;
  nextloc : loc;
  mc : mcache;
  cfg : config
}.

Definition set_head (v : option loc) (b : Buffer) : Buffer :=
    MkBuffer v (tail b) (rnode b) (wnode b) (rlen b) (wlen b) (nodeBlockSize b)
    (enableAutoNodeBlockSize b) (heap b) (nextloc b) (mc b) (cfg b).
Definition set_tail (v : option loc) (b : Buffer) : Buffer :=
    MkBuffer (head b) v (rnode b) (wnode b) (rlen b) (wlen b) (nodeBlockSize b)
    (enableAutoNodeBlockSize b) (heap b) (nextloc b) (mc b) (cfg b).
Definition set_rnode (v : option loc) (b : Buffer) : Buffer :=
    MkBuffer (head b) (tail b) v (wnode b) (rlen b) (wlen b) (nodeBlockSize b)
    (enableAutoNodeBlockSize b) (heap b) (nextloc b) (mc b) (cfg b).
Definition set_wnode (v : option loc) (b : Buffer) : Buffer :=
    MkBuffer (head b) (tail b) (rnode b) v (rlen b) (wlen b) (nodeBlockSize b)
    (enableAutoNodeBlockSize b) (heap b) (nextloc b) (mc b) (cfg b).
Definition set_rlen (v : Z) (b : Buffer) : Buffer :=
    MkBuffer (head b) (tail b) (rnode b) (wnode b) v (wlen b) (nodeBlockSize b)
    (enableAutoNodeBlockSize b) (heap b) (nextloc b) (mc b) (cfg b).
Definition set_wlen (v : Z) (b : Buffer) : Buffer :=
    MkBuffer (head b) (tail b) (rnode b) (wnode b) (rlen b) v (nodeBlockSize b)
    (enableAutoNodeBlockSize b) (heap b) (nextloc b) (mc b) (cfg b).
Definition set_nodeBlockSize (v : Z) (b : Buffer) : Buffer :=
    MkBuffer (head b) (tail b) (rnode b) (wnode b) (rlen b) (wlen b) v
    (enableAutoNodeBlockSize b) (heap b) (nextloc b) (mc b) (cfg b).
Definition set_enableAutoNodeBlockSize (v : bool) (b : Buffer) : Buffer :=
    MkBuffer (head b) (tail b) (rnode b) (wnode b) (rlen b) (wlen b) (nodeBlockSize b) v
    (heap b) (nextloc b) (mc b) (cfg b).
Definition set_heap (v : gmap loc node) (b : Buffer) : Buffer :=
    MkBuffer (head b) (tail b) (rnode b) (wnode b) (rlen b) (wlen b) (nodeBlockSize b)
    (enableAutoNodeBlockSize b) v (nextloc b) (mc b) (cfg b).
Definition set_nextloc (v : loc) (b : Buffer) : Buffer :=
    MkBuffer (head b) (tail b) (rnode b) (wnode b) (rlen b) (wlen b) (nodeBlockSize b)
    (enableAutoNodeBlockSize b) (heap b) v (mc b) (cfg b).
Definition set_mc (v : mcache) (b : Buffer) : Buffer :=
    MkBuffer (head b) (tail b) (rnode b) (wnode b) (rlen b) (wlen b) (nodeBlockSize b)
    (enableAutoNodeBlockSize b) (heap b) (nextloc b) v (cfg b).

(** The zero value of the struct, as the buffer pool's [New] makes it. *)
Definition zero_buffer (m : mcache) (c : config) : Buffer :=
  MkBuffer None None None None 0 0 0 false ∅ 1%positive m c.

Abbreviation MB := (M Buffer).

(** ** The heap of nodes and the node pool *)

Definition load (p : option loc) : MB node := λ b,
  match p with
  | None => Panic
  | Some l =>
      match heap b !! l with
      | None => Panic
      | Some n => Ret (n, b)
      end
  end.

Definition store (p : option loc) (n : node) : MB () := λ b,
  match p with
  | None => Panic
  | Some l => Ret ((), set_heap (<[l := n]> (heap b)) b)
  end.

Definition lift {A} (o : outcome A) : MB A := λ b,
  match o with Ret a => Ret (a, b) | Panic => Panic | NoFuel => NoFuel end.

(** Enough for two iterations per node and the final test. *)
Definition loop_fuel (b : Buffer) : nat := 2 * size (heap b) + 2.

Definition allocNode : MB (option loc) := λ b,
  let l := nextloc b in
  Ret (Some l, set_nextloc (Pos.succ l) (set_heap (<[l := zero_node]> (heap b)) b)).

Definition allocNodeBlock (sz : Z) : MB (option loc) :=
  p ← allocNode;
  n ← load p;
  n' ← zoom mc set_mc (node_allocBlockN sz n);
  _ ← store p n';
  mret p.

Definition freeNode (p : option loc) : MB () :=
  match p with
  | None => mret ()
  | Some l =>
      n ← load p;
      modify (λ b, set_heap (delete l (heap b)) (set_mc (node_reset n (mc b)).2 b))
  end.

Definition newDumpNode : MB (option loc) :=
  p ← allocNode;
  n ← load p;
  _ ← store p (with_r 0 (with_w 0 n));
  mret p.

(** ** Lengths *)

Definition LenRead : MB Z := gets rlen.
Definition LenWrite : MB Z := gets wlen.

Definition rlen_Add (d : Z) : MB () := modify (λ b, set_rlen (rlen b ⊞ d) b).
Definition rlen_Sub (d : Z) : MB () := modify (λ b, set_rlen (rlen b ⊟ d) b).
Definition wlen_Add (d : Z) : MB () := modify (λ b, set_wlen (wlen b ⊞ d) b).
Definition wlen_Sub (d : Z) : MB () := modify (λ b, set_wlen (wlen b ⊟ d) b).

(** ** Initialisation and release of the whole chain *)

Definition set_all_nodes (p : option loc) (b : Buffer) : Buffer :=
  set_tail p (set_wnode p (set_rnode p (set_head p b))).

Definition SetAutoNodeBlockSize (enable : bool) : MB () :=
  modify (set_enableAutoNodeBlockSize enable).

Definition Initialize : MB () :=
  dumpNode ← newDumpNode;
  _ ← modify (set_all_nodes dumpNode);
  _ ← modify (λ b, set_nodeBlockSize (u32 (blockSize (cfg b))) b);
  SetAutoNodeBlockSize true.

Definition New (m : mcache) (c : config) : outcome (() * Buffer) :=
  Initialize (zero_buffer m c).

(** [for pNode := b.head; pNode != nil; { next := pNode.next; freeNode(pNode); .. }] *)
Fixpoint free_loop (fuel : nat) (p : option loc) : MB () :=
  match fuel with
  | O => nofuel
  | S fuel =>
      match p with
      | None => mret ()
      | Some _ =>
          n ← load p;
          _ ← freeNode p;
          free_loop fuel (n_next n)
      end
  end.

Definition reset : MB () :=
  modify (λ b, set_all_nodes None (set_wlen 0 (set_rlen 0 b))).

Definition BufferFree : MB () :=
  b ← get;
  _ ← free_loop (loop_fuel b) (head b);
  reset.

(** ** Reading *)

(** [for b.rnode.len() == 0 { b.rnode = b.rnode.next }] *)
Fixpoint find_rnode (fuel : nat) : MB () :=
  match fuel with
  | O => nofuel
  | S fuel =>
      p ← gets rnode;
      n ← load p;
      if decide (node_len n = 0) then
        _ ← modify (set_rnode (n_next n));
        find_rnode fuel
      else mret ()
  end.

Definition clip (ack offset n : Z) : Z :=
  if decide (ack + offset > n) then n - ack else offset.

(** The copying loop of [Peek]; [res] is [res[:ack]]. *)
Fixpoint peek_loop (fuel : nat) (n ack : Z) (p : option loc) (res : list byte)
    : MB (result err slice) :=
  match fuel with
  | O => nofuel
  | S fuel =>
      if decide (ack < n ∧ p ≠ None) then
        nd ← load p;
        if decide (node_len nd = 0) then peek_loop fuel n ack (n_next nd) res
        else
          let offset := clip ack (node_len nd) n in
          rs ← lift (node_peek nd offset);
          match rs with
          | Err e => mret (Err e)
          | Ok s => peek_loop fuel n (ack + offset) (n_next nd) (res ++ s_bytes s)
          end
      else mret (Ok (Slice (res ++ replicate (Z.to_nat (n - ack)) 0) ack))
  end.

Definition Peek (n : Z) : MB (result err slice) :=
  if decide (n < 0) then mret (Err ErrInvalidParam)
  else if decide (n = 0) then mret (Ok (Slice [] 0))
  else
    l ← LenRead;
    if decide (l < n) then mret (Err ErrNoEnoughData)
    else
      b ← get;
      _ ← find_rnode (loop_fuel b);
      p ← gets rnode;
      nd ← load p;
      if decide (node_len nd >= n) then lift (node_peek nd n)
      else peek_loop (loop_fuel b) n 0 p [].

(** The loop of [Skip]: returns [ack] and the node it stopped at. *)
Fixpoint skip_loop (fuel : nat) (n ack : Z) (p : option loc)
    : MB (result err (Z * option loc)) :=
  match fuel with
  | O => nofuel
  | S fuel =>
      if decide (ack < n ∧ p ≠ None) then
        nd ← load p;
        if decide (node_len nd = 0) then skip_loop fuel n ack (n_next nd)
        else
          let offset := clip ack (node_len nd) n in
          let (r, nd') := node_skip nd offset in
          _ ← store p nd';
          match r with
          | Err e => mret (Err e)
          | Ok _ => skip_loop fuel n (ack + offset) p
          end
      else mret (Ok (ack, p))
  end.

Definition Skip (n : Z) : MB (result err ()) :=
  if decide (n < 0) then mret (Err ErrInvalidParam)
  else
    l ← LenRead;
    if decide (l < n) then mret (Err ErrNoEnoughData)
    else
      p ← gets rnode;
      nd ← load p;
      if decide (node_len nd >= n) then
        let (r, nd') := node_skip nd n in
        _ ← store p nd';
        match r with
        | Err e => mret (Err e)
        | Ok _ => _ ← rlen_Sub n; mret (Ok ())
        end
      else
        b ← get;
        rs ← skip_loop (loop_fuel b) n 0 p;
        match rs with
        | Err e => mret (Err e)
        | Ok (ack, p') =>
            _ ← modify (set_rnode p');
            _ ← rlen_Sub ack;
            mret (Ok ())
        end.

(** The copying loop shared (textually) by [Next] and [Read]. *)
Fixpoint readn_loop (fuel : nat) (n ack : Z) (p : option loc) (res : list byte)
    : MB (result err (Z * option loc * list byte)) :=
  match fuel with
  | O => nofuel
  | S fuel =>
      if decide (ack < n ∧ p ≠ None) then
        nd ← load p;
        if decide (node_len nd = 0) then readn_loop fuel n ack (n_next nd) res
        else
          let offset := clip ack (node_len nd) n in
          rs ← lift (node_readn nd offset);
          let (r, nd') := rs : result err slice * node in
          _ ← store p nd';
          match r with
          | Err e => mret (Err e)
          | Ok s => readn_loop fuel n (ack + offset) p (res ++ s_bytes s)
          end
      else mret (Ok (ack, p, res))
  end.

Definition Next (n : Z) : MB (result err slice) :=
  if decide (n < 0) then mret (Err ErrInvalidParam)
  else if decide (n = 0) then mret (Ok (Slice [] 0))
  else
    l ← LenRead;
    if decide (l < n) then mret (Err ErrNoEnoughData)
    else
      b ← get;
      _ ← find_rnode (loop_fuel b);
      p ← gets rnode;
      nd ← load p;
      if decide (node_len nd >= n) then
        rs ← lift (node_readn nd n);
        let (r, nd') := rs : result err slice * node in
        _ ← store p nd';
        match r with
        | Err e => mret (Err e)
        | Ok s => _ ← rlen_Sub n; mret (Ok s)
        end
      else
        rs ← readn_loop (loop_fuel b) n 0 p [];
        match rs with
        | Err e => mret (Err e)
        | Ok (ack, p', res) =>
            _ ← modify (set_rnode p');
            _ ← rlen_Sub ack;
            mret (Ok (Slice (res ++ replicate (Z.to_nat (n - ack)) 0) ack))
        end.

(** [PeekBlocks(data)]: the slices stored in [data[0..blocks)], [ndata] being
    [len(data)]. *)
Fixpoint peek_blocks_loop (fuel : nat) (ndata rest : Z) (p : option loc)
    (acc : list slice) : MB (list slice) :=
  match fuel with
  | O => nofuel
  | S fuel =>
      if decide (zlen acc < ndata ∧ rest > 0) then
        nd ← load p;
        let l := node_len nd in
        if decide (l = 0) then peek_blocks_loop fuel ndata rest (n_next nd) acc
        else
          let l := if decide (l > rest) then rest else l in
          s ← lift (block_sub nd (n_r nd) (n_r nd + l));
          peek_blocks_loop fuel ndata (rest - l) (n_next nd) (acc ++ [s])
      else mret acc
  end.

Definition PeekBlocks (ndata : Z) : MB (list slice) :=
  if decide (ndata = 0) then mret []
  else
    l ← LenRead;
    if decide (l = 0) then mret []
    else
      b ← get;
      peek_blocks_loop (loop_fuel b) ndata l (rnode b) [].

Definition ReadBlock : MB (result err slice) :=
  l ← LenRead;
  if decide (l <= 0) then mret (Err ErrNoEnoughData)
  else
    b ← get;
    _ ← find_rnode (loop_fuel b);
    p ← gets rnode;
    nd ← load p;
    let l := node_len nd in
    rs ← lift (node_readn nd l);
    let (r, nd') := rs : result err slice * node in
    _ ← store p nd';
    match r with
    | Err e => mret (Err e)
    | Ok s => _ ← rlen_Sub l; mret (Ok s)
    end.

(** The loop of [SkipBlocks]: [ack] bytes and [ackn] blocks so far. *)
Fixpoint skip_blocks_loop (fuel : nat) (n ack ackn : Z) (p : option loc)
    : MB (result err (Z * Z * option loc)) :=
  match fuel with
  | O => nofuel
  | S fuel =>
      if decide (ackn < n ∧ p ≠ None) then
        nd ← load p;
        if decide (node_len nd = 0) then skip_blocks_loop fuel n ack ackn (n_next nd)
        else
          let l := node_len nd in
          let (r, nd') := node_skip nd l in
          _ ← store p nd';
          match r with
          | Err e => mret (Err e)
          | Ok _ => skip_blocks_loop fuel n (ack + l) (ackn + 1) p
          end
      else mret (Ok (ack, ackn, p))
  end.

Definition SkipBlocks (n : Z) : MB (result err ()) :=
  if decide (n < 0) then mret (Err ErrInvalidParam)
  else
    l ← LenRead;
    if decide (l <= 0) then mret (Err ErrNoEnoughData)
    else
      b ← get;
      rs ← skip_blocks_loop (loop_fuel b) n 0 0 (rnode b);
      match rs with
      | Err e => mret (Err e)
      | Ok (ack, ackn, p') =>
          if decide (ackn ≠ n) then mret (Err ErrNoEnoughData)
          else
            _ ← modify (set_rnode p');
            _ ← rlen_Sub ack;
            mret (Ok ())
      end.

(** ** Giving memory back *)

Definition CleanUpWithLock : MB () :=
  b ← get;
  _ ← free_loop (loop_fuel b) (head b);
  dumpNode ← newDumpNode;
  _ ← modify (set_all_nodes dumpNode);
  _ ← modify (set_wlen 0);
  modify (λ b, set_nodeBlockSize (u32 (blockSize (cfg b))) b).

Definition OptimizeMemory : MB () :=
  l ← LenRead;
  if decide (l ≠ 0) then mret ()
  else
    b ← get;
    if cleanUp (cfg b) then CleanUpWithLock
    else
      p ← gets wnode;
      nd ← load p;
      _ ← wlen_Add (n_w nd);
      let nd := with_w 0 (with_r 0 nd) in
      store p (if n_recycle nd then nd else with_block None nd).

(** [for b.head != b.rnode { .. freeNode(h) }], summing the capacities. *)
Fixpoint release_loop (fuel : nat) (readLength : Z) : MB Z :=
  match fuel with
  | O => nofuel
  | S fuel =>
      b ← get;
      if decide (head b ≠ rnode b) then
        h ← load (head b);
        _ ← modify (set_head (n_next h));
        _ ← freeNode (head b);
        release_loop fuel (readLength + node_cap h)
      else mret readLength
  end.

(** [for nodeBlockSize < readLength && nodeBlockSize*2 <= max { nodeBlockSize <<= 1 }];
    a positive [uint32] doubles at most 32 times. *)
Fixpoint grow_loop (fuel : nat) (readLength nbs : Z) : outcome Z :=
  match fuel with
  | O => NoFuel
  | S fuel =>
      if decide (nbs < readLength ∧ u32 (nbs * 2) <= maxNodeBlockSize)
      then grow_loop fuel readLength (u32 (Z.shiftl nbs 1)) else Ret nbs
  end.

(** [Release]'s automatic adjustment of the block size. *)
Definition adjust_block_size (readLength : Z) : MB () :=
  b ← get;
  if enableAutoNodeBlockSize b && bool_decide (readLength <= maxNodeBlockSize) then
    nbs ← lift (grow_loop 32 readLength (nodeBlockSize b));
    modify (set_nodeBlockSize nbs)
  else mret ().

Definition Release : MB () :=
  b ← get;
  nd ← load (rnode b);
  readLength ← release_loop (loop_fuel b) (node_cap nd);
  _ ← adjust_block_size readLength;
  OptimizeMemory.

(** [Read(p)] with [plen = len(p)]: the count and the bytes stored in [p];
    [Release] is deferred. *)
Definition Read_body (plen : Z) : MB (result err (Z * list byte)) :=
  l ← LenRead;
  let n := if decide (l < plen) then l else plen in
  p ← gets rnode;
  nd ← load p;
  if decide (node_len nd >= n) then
    rs ← lift (node_readn nd n);
    let (r, nd') := rs : result err slice * node in
    _ ← store p nd';
    match r with
    | Err e => mret (Err e)
    | Ok s => _ ← rlen_Sub n; mret (Ok (n, s_bytes s))
    end
  else
    b ← get;
    rs ← readn_loop (loop_fuel b) n 0 p [];
    match rs with
    | Err e => mret (Err e)
    | Ok (ack, p', res) =>
        _ ← modify (set_rnode p');
        _ ← rlen_Sub ack;
        mret (Ok (n, res))
    end.

Definition Read (plen : Z) : MB (result err (Z * list byte)) :=
  if decide (plen = 0) then mret (Ok (0, []))
  else
    r ← Read_body plen;
    _ ← Release;
    mret r.

(** ** Adding nodes *)

Definition addNode : MB () :=
  b ← get;
  p ← allocNodeBlock (nodeBlockSize b);
  t ← gets tail;
  tn ← load t;
  _ ← store t (with_next p tn);
  _ ← modify (set_tail p);
  n ← load p;
  _ ← wlen_Add (node_rest n);
  rlen_Add (node_len n).

Record chain : Type := Chain {
  c_head : option loc;
  c_tail : option loc;
  c_dataLen : Z
}.

(** [chain.initialize]; [prev] is the node linked last. *)
Fixpoint chain_initialize (recycle : bool) (bs : list slice) (c : chain)
    (prev : option loc) : MB chain :=
  match bs with
  | [] => mret c
  | p :: bs =>
      if decide (s_len p = 0) then chain_initialize recycle bs c prev
      else
        l ← allocNode;
        n ← load l;
        m ← gets mc;
        let (n', m') := node_setBlock p (with_recycle recycle n) m in
        _ ← modify (set_mc m');
        _ ← store l n';
        _ ← match prev with
            | None => mret ()
            | Some _ => pn ← load prev; store prev (with_next l pn)
            end;
        chain_initialize recycle bs
          (Chain (match c_head c with None => l | Some h => Some h end) l
                 (c_dataLen c + s_len p)) l
  end.

Definition addChain (c : chain) : MB () :=
  p ← gets wnode;
  n ← load p;
  _ ← store p (with_next (c_head c) n);
  _ ← modify (set_wnode (c_tail c));
  _ ← modify (set_tail (c_tail c));
  rlen_Add (c_dataLen c).

(** ** Writing by reference *)

(** The loop of [linkWithExistingNodes]: slices not linked yet, the count
    linked, their length and the space lost. *)
Fixpoint link_loop (fuel : nat) (p : option loc) (bs : list slice) (linked length wl : Z)
    : MB (Z * Z * Z) :=
  match fuel with
  | O => nofuel
  | S fuel =>
      match p, bs with
      | None, _ | _, [] => mret (linked, length, wl)
      | Some _, s :: bs' =>
          n ← load p;
          if decide (n_w n ≠ 0) then link_loop fuel (n_next n) bs linked length wl
          else
            m ← gets mc;
            let (n', m') := node_setBlock s n m in
            _ ← modify (set_mc m');
            _ ← store p n';
            _ ← modify (set_wnode p);
            link_loop fuel (n_next n) bs' (linked + 1) (length + s_len s) (wl + node_rest n)
      end
  end.

Definition linkWithExistingNodes (bs : list slice) : MB (Z * Z) :=
  b ← get;
  rs ← link_loop (loop_fuel b) (wnode b) bs 0 0 0;
  let '(linked, length, wl) := rs : Z * Z * Z in
  _ ← rlen_Add length;
  _ ← wlen_Sub wl;
  mret (linked, length).

Definition linkWithNewNodes (bs : list slice) : MB Z :=
  c ← chain_initialize false bs (Chain None None 0) None;
  if decide (c_dataLen c = 0) then mret 0
  else
    _ ← addChain c;
    mret (c_dataLen c).

Definition linkFromLocked (bs : list slice) : MB Z :=
  rs ← linkWithExistingNodes bs;
  let '(linked, length) := rs : Z * Z in
  if decide (linked < zlen bs) then
    l ← linkWithNewNodes (zdrop linked bs);
    mret (length + l)
  else mret length.

Definition linkFrom (bs : list slice) : MB Z := linkFromLocked bs.

(** ** Writing by copy *)

Definition byteSlicesLen (bs : list slice) : Z := sumZ (map s_len bs).

Definition prepareFill : MB () :=
  b ← get;
  n ← load (wnode b);
  if negb (node_isFull n) then mret ()
  else
    match n_next n with
    | Some _ => modify (set_wnode (n_next n))
    | None =>
        _ ← addNode;
        b ← get;
        n ← load (wnode b);
        modify (set_wnode (n_next n))
    end.

Definition calNodesNum (n nbs : Z) : Z := (n + nbs - 1) `quot` nbs.

Definition calNodes (n : Z) : MB Z :=
  b ← get;
  let reqLen := if decide (n > maxFillLen (cfg b)) then maxFillLen (cfg b) else n in
  wn ← load (wnode b);
  let reqLen := reqLen - node_rest wn in
  if decide (reqLen <= 0) then mret 1
  else if decide (nodeBlockSize b = 0) then panic
  else mret (calNodesNum reqLen (nodeBlockSize b) + 1).

(** [for pNode := b.wnode; pNode != nil; pNode = pNode.next { existedN++ }] *)
Fixpoint count_nodes (fuel : nat) (p : option loc) (existedN : Z) : MB Z :=
  match fuel with
  | O => nofuel
  | S fuel =>
      match p with
      | None => mret existedN
      | Some _ => n ← load p; count_nodes fuel (n_next n) (existedN + 1)
      end
  end.

Fixpoint add_nodes (k : nat) : MB () :=
  match k with
  | O => mret ()
  | S k => _ ← addNode; add_nodes k
  end.

Definition malloc (nodeNum : Z) : MB () :=
  b ← get;
  existedN ← count_nodes (loop_fuel b) (wnode b) 0;
  if decide (existedN >= nodeNum) then mret ()
  else add_nodes (Z.to_nat (nodeNum - existedN)).

(** [copy(pNode.block[pNode.w:], bs)] on the node [p]; the count copied. *)
Definition copy_to_node (p : option loc) (bs : list byte) : MB Z :=
  n ← load p;
  match n_block n with
  | None => mret 0
  | Some s =>
      _ ← lift (match reslice s (n_w n) (s_len s) with Some _ => Ret () | None => Panic end);
      _ ← store p (with_block (Some (overwrite s (n_w n) bs)) n);
      mret (Z.min (zlen bs) (node_rest n))
  end.

(** The loop of [copyFromSingleByteSlice], from [copied] bytes on. *)
Fixpoint copy_loop (fuel : nat) (p : option loc) (buf : list byte) (copied : Z) : MB Z :=
  match fuel with
  | O => nofuel
  | S fuel =>
      match p with
      | None => mret copied
      | Some _ =>
          k ← copy_to_node p (zdrop copied buf);
          let copied := copied + k in
          if decide (copied >= zlen buf) then mret copied
          else
            n ← load p;
            copy_loop fuel (n_next n) buf copied
      end
  end.

(** The loop of [adjust]. *)
Fixpoint adjust_loop (fuel : nat) (dataLen : Z) (p : option loc) : MB (option loc) :=
  match fuel with
  | O => nofuel
  | S fuel =>
      match p with
      | None => mret None
      | Some _ =>
          n ← load p;
          let rest := node_rest n in
          if decide (rest >= dataLen) then
            _ ← store p (with_w (n_w n ⊞ dataLen) n);
            mret p
          else
            _ ← store p (with_w (n_w n ⊞ rest) n);
            adjust_loop fuel (dataLen - rest) (n_next n)
      end
  end.

Definition adjust (n : Z) : MB () :=
  b ← get;
  p ← adjust_loop (loop_fuel b) n (wnode b);
  _ ← modify (set_wnode p);
  _ ← wlen_Sub n;
  rlen_Add n.

Definition copyFromSingleByteSlice (buf : slice) : MB Z :=
  b ← get;
  copied ← copy_loop (loop_fuel b) (wnode b) (s_bytes buf) 0;
  _ ← adjust copied;
  mret copied.

Fixpoint copy_all (bs : list slice) (copied : Z) : MB Z :=
  match bs with
  | [] => mret copied
  | s :: bs =>
      k ← copyFromSingleByteSlice s;
      copy_all bs (copied + k)
  end.

Definition copyFromLocked (length : Z) (bs : list slice) : MB Z :=
  _ ← prepareFill;
  k ← calNodes length;
  _ ← malloc k;
  copy_all bs 0.

Definition copyFrom (bs : list slice) : MB Z := copyFromLocked (byteSlicesLen bs) bs.

Definition Writev (safeWrite : bool) (bs : list slice) : MB Z :=
  if safeWrite then copyFrom bs else linkFrom bs.

Definition Write (safeWrite : bool) (p : slice) : MB Z := Writev safeWrite [p].

Definition WritevLimited (safeWrite : bool) (limit : Z) (bs : list slice)
    : MB (result err Z) :=
  if decide (limit <= 0) then
    n ← Writev safeWrite bs;
    mret (Ok n)
  else
    let length := byteSlicesLen bs in
    if decide (length = 0) then mret (Ok 0)
    else
      l ← LenRead;
      if decide (length > limit - l) then mret (Err ErrBufferFull)
      else if safeWrite then
        n ← copyFromLocked length bs; mret (Ok n)
      else
        n ← linkFromLocked bs; mret (Ok n).

(** ** Filling from a data source *)

(** [countNodeAndFillByteVec]: the slices [pNode.block[pNode.w:]] from [wnode] on. *)
Fixpoint byte_vec_loop (fuel : nat) (p : option loc) (acc : list slice)
    : MB (list slice) :=
  match fuel with
  | O => nofuel
  | S fuel =>
      match p with
      | None => mret acc
      | Some _ =>
          n ← load p;
          s ← lift (block_sub n (n_w n) (node_cap n));
          byte_vec_loop fuel (n_next n) (acc ++ [s])
      end
  end.

Definition countNodeAndFillByteVec (byteVec : list slice) : MB (list slice) :=
  b ← get;
  byte_vec_loop (loop_fuel b) (wnode b) byteVec.

(** What [readv] does to the blocks: the received bytes are stored into the
    vectors in order, each filled before the next one is used. *)
Fixpoint scatter_loop (fuel : nat) (p : option loc) (data : list byte) : MB () :=
  match fuel with
  | O => nofuel
  | S fuel =>
      match p with
      | None => mret ()
      | Some _ =>
          if decide (data = []) then mret ()
          else
            k ← copy_to_node p data;
            n ← load p;
            scatter_loop fuel (n_next n) (zdrop k data)
      end
  end.

(** [Fill] up to the call of the reader: the vectors it offers.  [byteVec] is what
    [ioData.ByteVec] holds before the call (nothing, after the poller's [Reset]). *)
Definition fill_prepare (n : Z) (byteVec : list slice) : MB (result err (list slice)) :=
  l ← LenRead;
  b ← get;
  if decide (l > MaxBufferSize (cfg b)) then mret (Err ErrBufferFull)
  else
    _ ← prepareFill;
    nodeNum ← calNodes n;
    _ ← malloc nodeNum;
    bv ← countNodeAndFillByteVec byteVec;
    (* SetIOVec takes the address of the first byte of every vector. *)
    if decide (Exists (λ s, s_len s = 0) bv) then panic else mret (Ok bv).

(** The bytes arrive in the vectors, and [adjust] accounts for them. *)
Definition fill_finish (byteVec : list slice) (data : list byte) : MB () :=
  b ← get;
  _ ← scatter_loop (loop_fuel b) (wnode b) (zdrop (sumZ (map s_len byteVec)) data);
  adjust (zlen data).

(** A data source that depends on nothing: from the lengths of the vectors to an
    error or the bytes received. *)
Definition Fill (readv : list Z → result Z (list byte)) (n : Z) (byteVec : list slice)
    : MB (result err ()) :=
  r ← fill_prepare n byteVec;
  match r with
  | Err e => mret (Err e)
  | Ok bv =>
      match readv (map s_len bv) with
      | Err e => mret (Err (ErrReader e))
      | Ok data => _ ← fill_finish byteVec data; mret (Ok ())
      end
  end.

(** A reader with a state of its own, [Reader.Readv] of the source; its error is
    passed on. *)
Definition FillFrom {S E} (readv : list Z → M S (result E (list byte))) (n : Z) (byteVec : list slice)
    : M (Buffer * S) (result (err + E) ()) :=
  let on_buffer {A} (m : MB A) : M (Buffer * S) A := zoom fst (λ b s, (b, s.2)) m in
  r ← on_buffer (fill_prepare n byteVec);
  match r with
  | Err e => mret (Err (inl e))
  | Ok bv =>
      d ← zoom snd (λ t s, (s.1, t)) (readv (map s_len bv));
      match d with
      | Err e => mret (Err (inr e))
      | Ok data => _ ← on_buffer (fill_finish byteVec data); mret (Ok ())
      end
  end.
