(* ===== verification/BufferInv.v ===== *)
(** * Representation invariant of linked buffers

    A buffer represents a ghost list of nodes, from [head] to [tail], with the
    positions of [rnode] and [wnode] in it.  [rep] states how the pointers, the
    heap and the counters agree with that list; [content] is the byte sequence
    that the buffer holds.  This file proves the invariant's structural lemmas
    (loads and stores through pointers) and its initialisation. *)

From stdpp Require Import base gmap list numbers.
From S2P Require Import Prelude MCache Node LinkedBuffer.

Local Open Scope Z_scope.

Implicit Types (b : Buffer) (nd : node) (l : loc) (p : option loc).

(** ** Ghost chains *)

Abbreviation nodes := (list (loc * node)).

(** The address of the [i]-th node; nil past the end. *)
Definition addr (ns : nodes) (i : nat) : option loc := fst <$> ns !! i.

Fixpoint content (ns : nodes) : list byte :=
  match ns with
  | [] => []
  | (_, nd) :: ns => node_bytes nd ++ content ns
  end.

Record shape (h : gmap loc node) (ns : nodes) : Prop := {
  sh_nodup : NoDup ns.*1;
  sh_look i l nd : ns !! i = Some (l, nd) → h !! l = Some nd ∧ n_next nd = addr ns (S i);
  sh_dom : dom h = list_to_set ns.*1
}.

Definition all_ok (ns : nodes) : Prop := Forall (λ x, node_ok x.2) ns.

(** The block sizes a buffer may allocate with: [blockSize] doubled a few times. *)
Definition nbs_ok (c : config) (nbs : Z) : Prop := 0 < nbs ∧ blockSize c ≤ nbs < 2 ^ 31.

Record config_ok (c : config) : Prop := {
  cok_block : 0 < blockSize c < 2 ^ 31;
  cok_fill : 0 ≤ maxFillLen c < 2 ^ 31
}.

Record rep (b : Buffer) (ns : nodes) (ri wi : nat) : Prop := {
  rp_shape : shape (heap b) ns;
  rp_ok : all_ok ns;
  rp_head : head b = addr ns 0;
  rp_tail : tail b = addr ns (length ns - 1);
  rp_rnode : rnode b = addr ns ri;
  rp_wnode : wnode b = addr ns wi;
  rp_ri : (ri ≤ wi)%nat;
  rp_wi : (wi < length ns)%nat;
  rp_read : Forall (λ x, node_len x.2 = 0) (take ri ns);
  rp_idle : Forall (λ x, node_idle x.2) (drop (S wi) ns);
  rp_rlen : rlen b = zlen (content ns);
  rp_bound : zlen (content ns) < 2 ^ 32;
  rp_nbs : nbs_ok (cfg b) (nodeBlockSize b);
  rp_cfg : config_ok (cfg b);
  rp_mc : mcache_ok (mc b);
  rp_fresh l : is_Some (heap b !! l) → (l < nextloc b)%positive
}.

(** The abstraction relation: [b] is well formed and holds [data].  With [wo] the
    write node is the last one, which is the case in buffers that are written with
    [Write]/[Writev] only and never with [Fill]. *)
Definition holds (wo : bool) (b : Buffer) (data : list byte) : Prop :=
  ∃ ns ri wi, rep b ns ri wi ∧ content ns = data ∧ (wo = true → S wi = length ns).

(** ** Lemmas on ghost chains *)

Lemma content_app ns ns' : content (ns ++ ns') = content ns ++ content ns'.
Proof.
  induction ns as [|[l nd] ns IH]; simpl; [done|]. by rewrite IH, app_assoc.
Qed.

Lemma content_drop_S ns i l nd :
  ns !! i = Some (l, nd) → content (drop i ns) = node_bytes nd ++ content (drop (S i) ns).
Proof. intros. by erewrite drop_S by done. Qed.

Lemma content_empty ns :
  Forall (λ x, node_len x.2 = 0) ns → all_ok ns → content ns = [].
Proof.
  induction ns as [|[l nd] ns IH]; intros He Ho; [done|].
  apply Forall_cons_1 in He as [? ?]. apply Forall_cons_1 in Ho as [? ?]. simpl in *.
  rewrite node_bytes_nil, IH by done. done.
Qed.

Lemma content_idle ns : Forall (λ x, node_idle x.2) ns → content ns = [].
Proof.
  induction 1 as [|[l nd] ns ? ? IH]; [done|]. simpl in *.
  by rewrite node_idle_bytes, IH by done.
Qed.

Lemma all_ok_lookup ns i l nd : all_ok ns → ns !! i = Some (l, nd) → node_ok nd.
Proof. intros H Hi. exact (Forall_lookup_1 _ _ _ _ H Hi). Qed.

Lemma all_ok_insert ns i l nd : all_ok ns → node_ok nd → all_ok (<[i := (l, nd)]> ns).
Proof. intros. by apply Forall_insert. Qed.

Lemma addr_Some ns i l nd : ns !! i = Some (l, nd) → addr ns i = Some l.
Proof. unfold addr. by intros ->. Qed.

Lemma addr_None ns i : addr ns i = None ↔ (length ns ≤ i)%nat.
Proof. unfold addr. rewrite fmap_None. apply lookup_ge_None. Qed.

Lemma addr_insert ns i j l nd nd' :
  ns !! i = Some (l, nd) → addr (<[i := (l, nd')]> ns) j = addr ns j.
Proof.
  intros Hi. unfold addr. destruct (decide (i = j)) as [->|].
  - rewrite list_lookup_insert_eq by (by eapply lookup_lt_Some). by rewrite Hi.
  - by rewrite list_lookup_insert_ne.
Qed.

Lemma fst_insert ns i l nd nd' :
  ns !! i = Some (l, nd) → (<[i := (l, nd')]> ns).*1 = ns.*1.
Proof.
  intros Hi. rewrite list_fmap_insert. simpl. apply list_insert_id.
  by rewrite list_lookup_fmap, Hi.
Qed.

Lemma addr_inj ns i j :
  NoDup ns.*1 → (i < length ns)%nat → addr ns i = addr ns j → i = j.
Proof.
  intros Hnd Hi Ha. assert (is_Some (addr ns i)) as [l Hl].
  { destruct (addr ns i) eqn:E; [done|]. apply addr_None in E. lia. }
  unfold addr in *. rewrite <-!list_lookup_fmap in *.
  eapply NoDup_lookup; [done|exact Hl|congruence].
Qed.

Lemma shape_lookup h ns i l nd : shape h ns → ns !! i = Some (l, nd) → h !! l = Some nd.
Proof. intros Hs Hi. by destruct (sh_look _ _ Hs i l nd Hi). Qed.

Lemma shape_next h ns i l nd : shape h ns → ns !! i = Some (l, nd) → n_next nd = addr ns (S i).
Proof. intros Hs Hi. by destruct (sh_look _ _ Hs i l nd Hi). Qed.

Lemma shape_size h ns : shape h ns → size h = length ns.
Proof.
  intros Hs. rewrite <-size_dom, (sh_dom _ _ Hs).
  rewrite size_list_to_set by apply Hs. by rewrite length_fmap.
Qed.

(** Replacing the [i]-th node by one with the same successor. *)
Lemma shape_insert h ns i l nd nd' :
  shape h ns → ns !! i = Some (l, nd) → n_next nd' = n_next nd →
  shape (<[l := nd']> h) (<[i := (l, nd')]> ns).
Proof.
  intros Hs Hi Hn. pose proof (sh_nodup _ _ Hs) as Hnd. split.
  - by erewrite fst_insert by done.
  - intros j l' nd'' Hj. erewrite addr_insert by done.
    apply list_lookup_insert_Some in Hj as [(<- & ? & _)|[Hne Hj]]; simplify_eq.
    + rewrite lookup_insert_eq, Hn. split; [done|]. by eapply shape_next.
    + destruct (sh_look _ _ Hs j l' nd'' Hj) as [? ?]. split; [|done].
      rewrite lookup_insert_ne; [done|]. intros ->. apply Hne.
      apply (addr_inj ns); [done|by eapply lookup_lt_Some|].
      by erewrite !addr_Some by done.
  - rewrite dom_insert_L. erewrite fst_insert by done. rewrite <-(sh_dom _ _ Hs).
    apply shape_lookup with (1 := Hs) in Hi.
    apply elem_of_dom_2 in Hi. set_solver.
Qed.

(** ** Loads and stores through chain pointers *)

Lemma load_addr b ns i l nd :
  shape (heap b) ns → ns !! i = Some (l, nd) → load (addr ns i) b = Ret (nd, b).
Proof.
  intros Hs Hi. erewrite addr_Some by done. simpl.
  by rewrite (shape_lookup _ _ _ _ _ Hs Hi).
Qed.

Lemma store_addr b ns i l nd nd' :
  ns !! i = Some (l, nd) →
  store (addr ns i) nd' b = Ret ((), set_heap (<[l := nd']> (heap b)) b).
Proof. intros Hi. by erewrite addr_Some by done. Qed.

Lemma set_heap_heap h b : heap (set_heap h b) = h.
Proof. done. Qed.

Lemma set_heap_set_heap h h' b : set_heap h (set_heap h' b) = set_heap h b.
Proof. done. Qed.

Lemma set_heap_id b : set_heap (heap b) b = b.
Proof. by destruct b. Qed.

(** Existence of the node at a valid position. *)
Lemma node_at (ns : nodes) i : (i < length ns)%nat → ∃ l nd, ns !! i = Some (l, nd).
Proof. intros [[l nd] ?]%lookup_lt_is_Some. eauto. Qed.

(** ** Consuming nodes: read offsets advance, nothing else changes *)

Definition adv1 (x y : loc * node) : Prop :=
  y.1 = x.1 ∧ ∃ k, n_r x.2 ≤ k ≤ n_w x.2 ∧ y.2 = with_r k x.2.

Definition adv (ns ns' : nodes) : Prop := Forall2 adv1 ns ns'.

Lemma adv_refl ns : all_ok ns → adv ns ns.
Proof.
  intros Ho. apply Forall_Forall2_diag. eapply Forall_impl; [|exact Ho].
  intros [l nd] Hn. split; [done|]. exists (n_r nd). destruct Hn as [? ? ? ? ?].
  simpl in *. split; [lia|]. by destruct nd.
Qed.

Lemma adv1_trans x y z : adv1 x y → adv1 y z → adv1 x z.
Proof.
  destruct x as [l nd], y as [l' nd'], z as [l'' nd''].
  intros [? (k & Hk & Hy)] [? (k' & Hk' & Hz)]. simpl in *. subst. simpl in *.
  split; [done|]. exists k'. simpl. split; [lia|done].
Qed.

Lemma adv_trans ns ns' ns'' : adv ns ns' → adv ns' ns'' → adv ns ns''.
Proof.
  intros H. revert ns''. induction H; intros ns'' H'; inversion H'; subst; constructor.
  - by eapply adv1_trans.
  - by apply IHForall2.
Qed.

Lemma adv_length ns ns' : adv ns ns' → length ns' = length ns.
Proof. intros H. symmetry. by eapply Forall2_length. Qed.

Lemma adv_fst ns ns' : adv ns ns' → ns'.*1 = ns.*1.
Proof.
  induction 1 as [|x y ns ns' [? _] _ IH]; [done|]. rewrite !fmap_cons. by f_equal.
Qed.

Lemma adv_addr ns ns' i : adv ns ns' → addr ns' i = addr ns i.
Proof.
  intros H. unfold addr. rewrite <-!list_lookup_fmap. by rewrite (adv_fst _ _ H).
Qed.

Lemma adv_ok ns ns' : adv ns ns' → all_ok ns → all_ok ns'.
Proof.
  induction 1 as [|x y ns ns' [? (k & ? & ?)] _ IH]; intros Ho; [done|].
  apply Forall_cons_1 in Ho as [Hx Ho]. constructor; [|by apply IH].
  destruct y as [ly ny]. simpl in *. subst ny. by apply with_r_ok.
Qed.

Lemma adv_take i ns ns' : adv ns ns' → adv (take i ns) (take i ns').
Proof. intros. by apply Forall2_take. Qed.

Lemma adv_drop i ns ns' : adv ns ns' → adv (drop i ns) (drop i ns').
Proof. intros. by apply Forall2_drop. Qed.

Lemma adv_insert ns i l nd k :
  all_ok ns → ns !! i = Some (l, nd) → n_r nd ≤ k ≤ n_w nd →
  adv ns (<[i := (l, with_r k nd)]> ns).
Proof.
  intros Ho Hi Hk. rewrite <-(list_insert_id ns i (l, nd)) at 1 by done.
  apply Forall2_insert; [by apply adv_refl|]. split; [done|]. by exists k.
Qed.

(** A node with nothing to read stays so. *)
Lemma adv_empty ns ns' :
  adv ns ns' → all_ok ns →
  Forall (λ x, node_len x.2 = 0) ns → Forall (λ x, node_len x.2 = 0) ns'.
Proof.
  induction 1 as [|x y ns ns' [? (k & Hk & Hy)] _ IH]; intros Ho He; [done|].
  apply Forall_cons_1 in Ho as [Hx Ho]. apply Forall_cons_1 in He as [He0 He]. constructor; [|by apply IH].
  rewrite Hy. rewrite node_len_with_r by done. rewrite node_len_spec in He0 by done. lia.
Qed.

Lemma adv_idle ns ns' :
  adv ns ns' → Forall (λ x, node_idle x.2) ns → Forall (λ x, node_idle x.2) ns'.
Proof.
  induction 1 as [|x y ns ns' [? (k & Hk & Hy)] _ IH]; intros He; [done|].
  apply Forall_cons_1 in He as [[Hr Hw Hc] He]. constructor; [|by apply IH].
  rewrite Hy. split; simpl; [lia|done|]. by unfold node_cap in *.
Qed.

(** ** Re-establishing the invariant after reads *)

Lemma rep_content_split b ns ri wi :
  rep b ns ri wi → content ns = content (drop ri ns).
Proof.
  intros H. rewrite <-(take_drop ri ns) at 1. rewrite content_app.
  rewrite content_empty; [done|apply H|].
  apply Forall_take, H.
Qed.

(** A node that holds data lies at or before the write node. *)
Lemma rep_data_le_wi b ns ri wi i l nd :
  rep b ns ri wi → ns !! i = Some (l, nd) → node_len nd ≠ 0 → (i ≤ wi)%nat.
Proof.
  intros H Hi Hn. destruct (decide (i ≤ wi)%nat) as [|Hgt]; [done|exfalso].
  apply Hn, node_idle_len.
  apply (Forall_lookup_1 _ _ (i - S wi) (l, nd) (rp_idle _ _ _ _ H)).
  rewrite lookup_drop. by replace (S wi + _)%nat with i by lia.
Qed.

(** After a read: nodes advanced, [rnode] moved to a position before which
    everything is consumed, [rlen] decreased accordingly. *)
Lemma rep_after_read b ns ri wi ns' ri' h' :
  rep b ns ri wi →
  shape h' ns' → adv ns ns' →
  (ri' ≤ wi)%nat →
  Forall (λ x, node_len x.2 = 0) (take ri' ns') →
  rep (set_rlen (zlen (content ns')) (set_rnode (addr ns' ri') (set_heap h' b))) ns' ri' wi.
Proof.
  intros H Hs Ha Hri Hrd. pose proof (adv_length _ _ Ha) as Hlen.
  assert (zlen (content ns') ≤ zlen (content ns)) as Hle.
  { pose proof (rp_ok _ _ _ _ H) as Ho. clear -Ha Ho.
    induction Ha as [|[l nd] [l' nd'] ns ns' [? (k & Hk & Hy)] _ IH]; [done|].
    apply Forall_cons_1 in Ho as [Hx Ho]. simpl in *. rewrite !zlen_app. subst nd'.
    rewrite node_bytes_with_r by done. specialize (IH Ho).
    destruct Hx as [? ? ? ? ?].
    rewrite zlen_zdrop by lia. pose proof (zlen_nonneg (node_bytes nd)). lia. }
  pose proof (rp_bound _ _ _ _ H).
  destruct H. split; simpl; try done; try lia.
  - by eapply adv_ok.
  - by rewrite (adv_addr _ _ 0 Ha).
  - by rewrite Hlen, (adv_addr _ _ _ Ha).
  - by rewrite (adv_addr _ _ wi Ha).
  - eapply adv_idle; [|done]. by apply adv_drop.
  - intros l Hl. apply rp_fresh0. apply elem_of_dom. apply elem_of_dom in Hl.
    rewrite (sh_dom _ _ rp_shape0), <-(adv_fst _ _ Ha), <-(sh_dom _ _ Hs). done.
Qed.

(** Moving [rnode] over consumed nodes only. *)
Lemma rep_set_rnode b ns ri wi ri' :
  rep b ns ri wi → (ri' ≤ wi)%nat → Forall (λ x, node_len x.2 = 0) (take ri' ns) →
  rep (set_rnode (addr ns ri') b) ns ri' wi.
Proof. intros [] ? ?. by split. Qed.

(** ** Running the model: one monadic step at a time *)

Lemma lift_Ret {A} (o : outcome A) a b : o = Ret a → lift o b = Ret (a, b).
Proof. by intros ->. Qed.

(** A load through a chain pointer whose node is known. *)
Ltac mload := erewrite bind_Ret by (eapply load_addr; eassumption).
(** A node operation whose result is given by a fact. *)
Ltac mlift H := erewrite bind_Ret by (apply lift_Ret; exact H).
(** A store through a chain pointer. *)
Ltac mstore := erewrite bind_Ret by (eapply store_addr; eassumption).
