(* ===== verification/BufferRead.v ===== *)
(** * Reading from linked buffers

    Every read operation of [LinkedBuffer] against the invariant: from a buffer
    that [holds] some bytes it returns (no panic, no exhausted fuel), yields the
    right prefix of those bytes and leaves a buffer that holds the rest. *)

From stdpp Require Import base gmap list numbers.
From S2P Require Import Prelude MCache Node LinkedBuffer BufferInv.

Local Open Scope Z_scope.

Implicit Types (b : Buffer) (nd : node) (l : loc) (p : option loc).

(** ** Fuel *)

Lemma loop_fuel_shape b ns : shape (heap b) ns → loop_fuel b = (2 * length ns + 2)%nat.
Proof. intros H. unfold loop_fuel. by rewrite (shape_size _ _ H). Qed.

(** ** The search for the first node with data *)

Lemma rep_next_nonempty b ns ri wi l nd :
  rep b ns ri wi → ns !! ri = Some (l, nd) → node_len nd = 0 → content ns ≠ [] →
  (S ri ≤ wi)%nat.
Proof.
  intros H Hi Hz Hc. pose proof (rp_ri _ _ _ _ H).
  destruct (decide (ri = wi)) as [->|]; [|lia]. exfalso. apply Hc.
  rewrite (rep_content_split _ _ _ _ H). erewrite content_drop_S by done.
  rewrite (content_idle _ (rp_idle _ _ _ _ H)).
  rewrite node_bytes_nil; [done| |done]. by eapply all_ok_lookup; [apply H|].
Qed.

Lemma take_S_Forall {A} (P : A → Prop) (xs : list A) i x :
  xs !! i = Some x → P x → Forall P (take i xs) → Forall P (take (S i) xs).
Proof. intros Hi Hx Hf. erewrite take_S_r by done. apply Forall_app_2; [done|]. by constructor. Qed.

Lemma find_rnode_ok fuel b ns ri wi :
  rep b ns ri wi → content ns ≠ [] → (length ns - ri < fuel)%nat →
  ∃ ri' l nd,
    find_rnode fuel b = Ret ((), set_rnode (addr ns ri') b) ∧
    rep (set_rnode (addr ns ri') b) ns ri' wi ∧
    ns !! ri' = Some (l, nd) ∧ node_len nd ≠ 0.
Proof.
  revert b ri. induction fuel as [|fuel IH]; intros b ri H Hc Hf; [lia|].
  destruct (node_at ns ri) as (l & nd & Hi).
  { pose proof (rp_ri _ _ _ _ H). pose proof (rp_wi _ _ _ _ H). lia. }
  cbn [find_rnode]. mpure. rewrite (rp_rnode _ _ _ _ H).
  pose proof (rp_shape _ _ _ _ H) as Hs. mload.
  case_decide as Hz.
  - mpure. rewrite (shape_next _ _ _ _ _ Hs Hi).
    pose proof (rep_next_nonempty _ _ _ _ _ _ H Hi Hz Hc).
    assert (rep (set_rnode (addr ns (S ri)) b) ns (S ri) wi) as H'.
    { apply rep_set_rnode with (ri := ri); [done|done|].
      eapply take_S_Forall; [done|done|apply H]. }
    pose proof (rp_wi _ _ _ _ H).
    destruct (IH _ _ H' Hc ltac:(lia)) as (ri' & l' & nd' & Hr & Hrep & Hi' & Hn').
    exists ri', l', nd'. by rewrite Hr.
  - exists ri, l, nd. split; [|split; [|done]].
    + f_equal. f_equal. rewrite <-(rp_rnode _ _ _ _ H). by destruct b.
    + apply rep_set_rnode with (ri := ri); [done|apply H|apply H].
Qed.

(** ** The consuming loop *)

Lemma clip_spec ack len n :
  0 < len → 0 ≤ ack < n → clip ack len n = Z.min len (n - ack).
Proof. intros. unfold clip. case_decide; lia. Qed.

(** What the consuming loops do from position [i] on: [k] bytes are consumed and
    the loop stops at [j], everything before [j] being read. *)
Record consumed (ns ns' : nodes) (i j : nat) (k : Z) : Prop := {
  co_adv : adv ns ns';
  co_take : take i ns' = take i ns;
  co_ij : (i ≤ j)%nat;
  co_empty m l nd : (i ≤ m < j)%nat → ns' !! m = Some (l, nd) → node_len nd = 0;
  co_data : content (drop i ns') = zdrop k (content (drop i ns));
  co_stop : k = 0 ∧ j = i ∨ ∃ l nd, ns !! j = Some (l, nd) ∧ node_len nd ≠ 0
}.

Lemma consumed_refl ns i : all_ok ns → consumed ns ns i i 0.
Proof. intros. split; try done; [by apply adv_refl|lia|by left]. Qed.

(** Taking [m] bytes of the node at [i]. *)
Lemma consumed_one ns i l nd m :
  ns !! i = Some (l, nd) → all_ok ns → 0 < m ≤ node_len nd →
  consumed ns (<[i := (l, with_r (n_r nd + m) nd)]> ns) i i m.
Proof.
  intros Hi Ho Hm. pose proof (all_ok_lookup _ _ _ _ Ho Hi) as Hn.
  pose proof (node_len_spec _ Hn) as Hlen.
  split; [by apply adv_insert; [| |lia]|by rewrite take_insert_ge by lia|lia| | |].
  - intros; lia.
  - rewrite (content_drop_S _ i l (with_r (n_r nd + m) nd))
      by (apply list_lookup_insert_eq; by eapply lookup_lt_Some).
    rewrite drop_insert_lt by lia. rewrite (content_drop_S _ _ _ _ Hi). rewrite node_bytes_with_r by (done || lia).
    rewrite zdrop_app_le by (rewrite zlen_node_bytes by done; lia).
    do 2 f_equal. lia.
  - right. exists l, nd. split; [done|lia].
Qed.

(** Passing from a node with nothing to read to the next one. *)
Lemma consumed_pass ns ns' i j k l nd :
  ns !! i = Some (l, nd) → all_ok ns → node_len nd = 0 → 0 < k →
  consumed ns ns' (S i) j k → consumed ns ns' i j k.
Proof.
  intros Hi Ho Hz Hk [Ha Ht Hij He Hd Hst].
  assert (ns' !! i = Some (l, nd)) as Hi'.
  { rewrite <-(lookup_take_lt ns' (S i)) by lia. rewrite Ht.
    by rewrite lookup_take_lt by lia. }
  assert (node_bytes nd = []) as Hb
    by (apply node_bytes_nil; [by eapply all_ok_lookup|done]).
  split; [done| |lia| | |].
  - replace i with (i `min` S i)%nat by lia. rewrite <-!take_take. by rewrite Ht.
  - intros m lm ndm Hm Hlm. destruct (decide (m = i)) as [->|]; [by simplify_eq|].
    eapply He; [|done]. lia.
  - rewrite (content_drop_S _ _ _ _ Hi), (content_drop_S _ _ _ _ Hi'), Hb. done.
  - right. destruct Hst as [[? ?]|?]; [lia|done].
Qed.

(** Consuming in two stages that start at the same node. *)
Lemma consumed_trans ns ns1 ns2 i j k m :
  all_ok ns → 0 ≤ m → 0 ≤ k → consumed ns ns1 i i m → consumed ns1 ns2 i j k →
  consumed ns ns2 i j (m + k).
Proof.
  intros Ho Hm Hk [Ha Ht _ He Hd Hst] [Ha' Ht' Hij' He' Hd' Hst']. split.
  - by eapply adv_trans.
  - by rewrite Ht'.
  - done.
  - done.
  - rewrite Hd', Hd. rewrite zdrop_zdrop by lia. f_equal. lia.
  - destruct Hst' as [[-> ->]|(l & nd & Hj & Hn)].
    + rewrite Z.add_0_r. done.
    + right. destruct (Forall2_lookup_r _ _ _ _ _ Ha Hj) as ([l0 nd0] & Hj0 & Hadv).
      exists l0, nd0. split; [done|]. intros Hz0. apply Hn.
      destruct Hadv as [_ (q & Hq & Hy)]. simpl in *. subst nd.
      pose proof (all_ok_lookup _ _ _ _ Ho Hj0) as Hok.
      rewrite node_len_with_r by done. rewrite node_len_spec in Hz0 by done. lia.
Qed.

(** What reading [m] bytes of node [i] does to the chain. *)
Lemma consume_node h ns i l nd m :
  shape h ns → all_ok ns → ns !! i = Some (l, nd) → 0 < m ≤ node_len nd →
  let nd' := with_r (n_r nd + m) nd in
  let ns1 := <[i := (l, nd')]> ns in
  shape (<[l := nd']> h) ns1 ∧ all_ok ns1 ∧ consumed ns ns1 i i m ∧
  addr ns i = addr ns1 i ∧ ns1 !! i = Some (l, nd') ∧ length ns1 = length ns ∧
  (m = node_len nd → node_len nd' = 0).
Proof.
  intros Hs Ho Hi Hm nd' ns1. pose proof (all_ok_lookup _ _ _ _ Ho Hi) as Hnd.
  pose proof (consumed_one ns i l nd m Hi Ho Hm) as Hc. pose proof (node_len_spec nd Hnd). destruct Hnd.
  split; [by eapply shape_insert|]. split; [by eapply adv_ok; [apply Hc|]|]. split; [exact Hc|].
  split; [symmetry; by eapply addr_insert|].
  split; [apply list_lookup_insert_eq; by eapply lookup_lt_Some|]. split; [apply length_insert|].
  intros ->. unfold nd'. rewrite node_len_with_r by (done || lia). lia.
Qed.

(** The rounds of the loop: nothing left to read, a node without data, a node with data. *)
Lemma readn_loop_done fuel n p res b :
  readn_loop (S fuel) n n p res b = Ret (Ok (n, p, res), b).
Proof. cbn [readn_loop]. by rewrite decide_False by lia. Qed.

Lemma readn_loop_pass fuel n ack ns i l nd res b :
  shape (heap b) ns → ns !! i = Some (l, nd) → node_len nd = 0 → ack < n →
  readn_loop (S fuel) n ack (addr ns i) res b = readn_loop fuel n ack (addr ns (S i)) res b.
Proof.
  intros Hs Hi Hz Hn. cbn [readn_loop].
  rewrite decide_True by (erewrite addr_Some by done; split; [lia|done]).
  mload. rewrite decide_True by done. by rewrite (shape_next _ _ _ _ _ Hs Hi).
Qed.

Lemma readn_loop_take fuel n ack ns i l nd res b :
  shape (heap b) ns → all_ok ns → ns !! i = Some (l, nd) → node_len nd ≠ 0 → 0 ≤ ack < n →
  let m := Z.min (node_len nd) (n - ack) in
  readn_loop (S fuel) n ack (addr ns i) res b =
    readn_loop fuel n (ack + m) (addr ns i) (res ++ ztake m (content (drop i ns)))
      (set_heap (<[l := with_r (n_r nd + m) nd]> (heap b)) b).
Proof.
  intros Hs Ho Hi Hz Hn m. pose proof (all_ok_lookup _ _ _ _ Ho Hi) as Hnd.
  pose proof (node_len_bounds nd Hnd). cbn [readn_loop].
  rewrite decide_True by (erewrite addr_Some by done; split; [lia|done]).
  mload. rewrite decide_False by done. rewrite clip_spec by lia. fold m.
  destruct (node_readn_ok nd m Hnd ltac:(lia)) as (s & Hrd & _ & Hsb).
  mlift Hrd. cbv beta iota zeta. mstore. rewrite Hsb, (content_drop_S _ _ _ _ Hi).
  by rewrite ztake_app_le by (rewrite zlen_node_bytes by done; lia).
Qed.

Lemma readn_loop_ok (len : nat) fuel b ns i n ack res :
  len = (length ns - i)%nat →
  shape (heap b) ns → all_ok ns →
  0 ≤ ack ≤ n → n - ack ≤ zlen (content (drop i ns)) →
  (2 * len + 1 ≤ fuel)%nat →
  ∃ ns' j h',
    readn_loop fuel n ack (addr ns i) res b =
      Ret (Ok (n, addr ns j, res ++ ztake (n - ack) (content (drop i ns))), set_heap h' b) ∧
    shape h' ns' ∧ consumed ns ns' i j (n - ack).
Proof.
  revert fuel b ns i ack res. induction len as [len IH] using lt_wf_ind.
  intros fuel b ns i ack res Hlen Hs Ho Hack Hn Hf. destruct fuel as [|fuel]; [lia|].
  destruct (decide (ack = n)) as [->|Hne].
  { rewrite readn_loop_done. exists ns, i, (heap b). rewrite Z.sub_diag, ztake_0, app_nil_r, set_heap_id.
    split; [done|]. split; [done|]. by apply consumed_refl. }
  destruct (decide (i < length ns)%nat) as [Hilt|Hige]; cycle 1.
  { rewrite drop_ge in Hn by lia. unfold zlen in Hn. simpl in Hn. lia. }
  destruct (node_at ns i Hilt) as (l & nd & Hi). pose proof (all_ok_lookup _ _ _ _ Ho Hi) as Hnd.
  destruct (decide (node_len nd = 0)) as [Hz|Hz].
  - rewrite (readn_loop_pass _ _ _ _ _ _ _ _ _ Hs Hi Hz) by lia.
    pose proof (content_drop_S _ _ _ _ Hi) as Hc. rewrite (node_bytes_nil nd) in Hc by done.
    simpl in Hc. rewrite Hc in Hn |- *.
    destruct (IH (length ns - S i)%nat ltac:(lia) fuel b ns (S i) ack res)
      as (ns' & j & h' & Hr & Hs' & Hco); try done; [lia|].
    exists ns', j, h'. split; [done|]. split; [done|].
    apply (consumed_pass _ _ _ _ _ _ _ Hi Ho Hz); [lia|done].
  - rewrite (readn_loop_take _ _ _ _ _ _ _ _ _ Hs Ho Hi Hz) by lia.
    pose proof (node_len_bounds nd Hnd). set (m := Z.min (node_len nd) (n - ack)).
    destruct (consume_node (heap b) ns i l nd m Hs Ho Hi ltac:(lia)) as (Hs1 & Ho1 & Hc1 & Ha1 & Hi1 & Hl1 & Hz1).
    set (nd' := with_r (n_r nd + m) nd) in *. set (ns1 := <[i := (l, nd')]> ns) in *.
    assert (content (drop i ns1) = zdrop m (content (drop i ns))) as Hd1 by apply Hc1.
    destruct fuel as [|fuel]; [lia|]. destruct (decide (m = n - ack)) as [Hm|Hm].
    + replace (ack + m) with n by lia. rewrite readn_loop_done. exists ns1, i, (<[l := nd']> (heap b)).
      rewrite <-Hm. by split_and!.
    + specialize (Hz1 ltac:(lia)). rewrite Ha1, (readn_loop_pass _ _ _ ns1 i l nd' _ (set_heap (<[l := nd']> (heap b)) b) Hs1 Hi1 Hz1) by lia.
      assert (content (drop i ns1) = content (drop (S i) ns1)) as Hc.
      { rewrite (content_drop_S _ _ _ _ Hi1). rewrite (node_bytes_nil nd'); [done| |done]. by eapply all_ok_lookup. }
      destruct (IH (length ns1 - S i)%nat ltac:(lia) fuel (set_heap (<[l := nd']> (heap b)) b) ns1 (S i) (ack + m)
                  (res ++ ztake m (content (drop i ns)))) as (ns' & j & h' & Hr & Hs' & Hco); try done; [lia| |lia|].
      { rewrite <-Hc, Hd1. rewrite zlen_zdrop by lia. lia. }
      exists ns', j, h'. rewrite set_heap_set_heap in Hr. replace (n - ack) with (m + (n - (ack + m))) by lia.
      split; [|split; [done|]].
      * by rewrite Hr, ztake_add, <-app_assoc, <-Hd1, Hc, (addr_insert _ _ _ _ _ nd' Hi) by lia.
      * eapply (consumed_trans ns ns1); [done|lia|lia|done|].
        eapply consumed_pass; [exact Hi1|done|done|lia|done].
Qed.

(** The loop of [Skip] takes the steps of the copying loop. *)
Lemma skip_loop_of_readn fuel b n ack p res a p' res' b' :
  readn_loop fuel n ack p res b = Ret (Ok (a, p', res'), b') →
  skip_loop fuel n ack p b = Ret (Ok (a, p'), b').
Proof.
  revert b ack p res. induction fuel as [|fuel IH]; intros b ack p res; [done|].
  cbn [readn_loop skip_loop]. unfold mret, M_ret. case_decide; [|by intros; simplify_eq].
  unfold mbind, M_bind. destruct (load p b) as [[nd b0]| |]; [|done|done].
  case_decide; [by apply IH|]. unfold node_readn, node_skip.
  case_decide; simpl.
  - destruct (store p nd b0) as [[? ?]| |]; done.
  - destruct (block_sub _ _ _) as [s| |]; simpl; [|done|done].
    destruct (store p _ b0) as [[? ?]| |]; [|done|done]. by apply IH.
Qed.

(** The copying loop of [Peek] reads across the nodes and changes nothing. *)
Lemma peek_loop_ok (len : nat) fuel b ns i n ack res :
  len = (length ns - i)%nat →
  shape (heap b) ns → all_ok ns →
  0 ≤ ack ≤ n → n - ack ≤ zlen (content (drop i ns)) →
  (len + 1 ≤ fuel)%nat →
  peek_loop fuel n ack (addr ns i) res b =
    Ret (Ok (Slice (res ++ ztake (n - ack) (content (drop i ns))) n), b).
Proof.
  revert fuel i ack res. induction len as [|len IH]; intros fuel i ack res Hlen Hs Ho Hack Hn Hf;
    (destruct fuel as [|fuel]; [lia|]); cbn [peek_loop];
    (destruct (decide (ack = n)) as [->|Hne];
     [by rewrite decide_False by lia; rewrite Z.sub_diag, ztake_0|]).
  { rewrite drop_ge in Hn by lia. unfold zlen in Hn. simpl in Hn. lia. }
  destruct (node_at ns i ltac:(lia)) as (l & nd & Hi).
  rewrite decide_True by (erewrite addr_Some by done; split; [lia|done]).
  pose proof (all_ok_lookup _ _ _ _ Ho Hi) as Hnd.
  pose proof (content_drop_S _ _ _ _ Hi) as Hc.
  mload. rewrite (shape_next _ _ _ _ _ Hs Hi). case_decide as Hz.
  - rewrite (node_bytes_nil nd) in Hc by done. simpl in Hc. rewrite Hc in Hn |- *.
    apply IH; [lia|done..|lia].
  - pose proof (node_len_bounds nd Hnd). rewrite clip_spec by lia.
    set (m := Z.min (node_len nd) (n - ack)).
    destruct (node_peek_ok nd m Hnd ltac:(lia)) as (s & Hp & Hsb).
    cbv zeta. mlift Hp. cbv beta iota. rewrite Hsb.
    assert (zlen (node_bytes nd) = node_len nd) as Hnl by (by apply zlen_node_bytes).
    destruct (decide (m = n - ack)) as [Hm|Hm].
    + destruct fuel as [|fuel]; [lia|]. cbn [peek_loop].
      rewrite decide_False by lia. replace (ack + m) with n by lia.
      rewrite Z.sub_diag. simpl. rewrite app_nil_r.
      rewrite Hc, <-Hm, ztake_app_le by lia. done.
    + rewrite Hc, zlen_app in Hn. rewrite IH; [|lia|done|done|lia|lia|lia].
      rewrite <-app_assoc, Hc. do 5 f_equal.
      rewrite (ztake_ge m) by lia. rewrite ztake_app_ge by lia. do 2 f_equal. lia.
Qed.

(** ** Re-establishing the invariant *)

Lemma set_rnode_id b : set_rnode (rnode b) b = b.
Proof. by destruct b. Qed.

Lemma rep_consumed b ns ri wi ns' j h' k :
  rep b ns ri wi → shape h' ns' → consumed ns ns' ri j k → 0 ≤ k ≤ zlen (content ns) →
  rep (set_rlen (rlen b ⊟ k) (set_rnode (addr ns j) (set_heap h' b))) ns' j wi ∧
  content ns' = zdrop k (content ns).
Proof.
  intros H Hs Hco Hk. destruct Hco as [Ha Ht Hij He Hd Hst].
  pose proof (rp_ok _ _ _ _ H) as Ho.
  assert (Forall (λ x, node_len x.2 = 0) (take ri ns')) as Hrd.
  { eapply adv_empty; [apply adv_take; exact Ha|by apply Forall_take|apply H]. }
  assert (content ns' = zdrop k (content ns)) as Hc.
  { rewrite <-(take_drop ri ns'), content_app, Hd.
    rewrite (content_empty (take ri ns')) by (done || by apply Forall_take, (adv_ok _ _ Ha)).
    by rewrite (rep_content_split _ _ _ _ H). }
  assert (j ≤ wi)%nat as Hj.
  { destruct Hst as [[_ ->]|(l & nd & Hj & Hn)]; [apply H|]. by eapply rep_data_le_wi. }
  split; [|done].
  assert (rlen b ⊟ k = zlen (content ns')) as ->.
  { rewrite (rp_rlen _ _ _ _ H), u32_sub_r, Hc, zlen_zdrop by lia.
    pose proof (rp_bound _ _ _ _ H). rewrite u32_small by lia. lia. }
  rewrite <-(adv_addr _ _ j Ha).
  apply (rep_after_read b ns ri wi); [done|done|done|done|].
  apply Forall_lookup_2. intros m [l nd] Hm.
  apply lookup_take_Some in Hm as [Hm Hlt]. simpl.
  destruct (decide (m < ri)%nat).
  - apply (Forall_lookup_1 _ _ m (l, nd) Hrd). apply lookup_take_Some. done.
  - by apply (He m l nd); [lia|].
Qed.

(** The same, packed for clients; [wo] says that the write node is last. *)
Lemma holds_consumed wo b ns ri wi ns' j h' k :
  rep b ns ri wi → (wo = true → S wi = length ns) →
  shape h' ns' → consumed ns ns' ri j k → 0 ≤ k ≤ zlen (content ns) →
  holds wo (set_rlen (rlen b ⊟ k) (set_rnode (addr ns j) (set_heap h' b)))
    (zdrop k (content ns)).
Proof.
  intros H Hwo Hs Hco Hk. destruct (rep_consumed _ _ _ _ _ _ _ _ H Hs Hco Hk) as [H' Hc].
  exists ns', j, wi. split; [done|]. split; [done|].
  intros ?. rewrite (adv_length _ _ (co_adv _ _ _ _ _ Hco)). auto.
Qed.

Lemma holds_len wo b data : holds wo b data → rlen b = zlen data ∧ zlen data < 2 ^ 32.
Proof. intros (ns & ri & wi & H & <- & _). split; apply H. Qed.

(** Consuming [m] bytes of the node [rnode] points to, [m] being at most what it
    holds (possibly nothing). *)
Lemma holds_consume_rnode wo b ns ri wi l nd m :
  rep b ns ri wi → (wo = true → S wi = length ns) →
  ns !! ri = Some (l, nd) → 0 ≤ m ≤ node_len nd →
  holds wo (set_rlen (rlen b ⊟ m)
             (set_heap (<[l := with_r (n_r nd + m) nd]> (heap b)) b))
    (zdrop m (content ns)).
Proof.
  intros H Hwo Hi Hm.
  pose proof (rp_shape _ _ _ _ H) as Hs. pose proof (rp_ok _ _ _ _ H) as Ho.
  pose proof (all_ok_lookup _ _ _ _ Ho Hi) as Hn.
  assert (m ≤ zlen (content ns)) as Hle.
  { rewrite (rep_content_split _ _ _ _ H), (content_drop_S _ _ _ _ Hi), zlen_app.
    rewrite zlen_node_bytes by done. pose proof (zlen_nonneg (content (drop (S ri) ns))). lia. }
  set (nd' := with_r (n_r nd + m) nd).
  assert (consumed ns (<[ri := (l, nd')]> ns) ri ri m) as Hco.
  { destruct (decide (m = 0)) as [->|].
    - replace nd' with nd; [|unfold nd'; rewrite Z.add_0_r; by destruct nd].
      rewrite list_insert_id by done. by apply consumed_refl.
    - apply consumed_one; [done|done|lia]. }
  assert (shape (<[l := nd']> (heap b)) (<[ri := (l, nd')]> ns)) as Hs'
    by (by eapply shape_insert).
  pose proof (holds_consumed wo b ns ri wi _ _ _ m H Hwo Hs' Hco ltac:(lia)) as Hh.
  rewrite <-(rp_rnode _ _ _ _ H) in Hh. exact Hh.
Qed.

(** The first [n] bytes of the content, when they lie in the node at [ri]. *)
Lemma ztake_content_node b ns ri wi l nd n :
  rep b ns ri wi → ns !! ri = Some (l, nd) → n ≤ node_len nd →
  ztake n (node_bytes nd) = ztake n (content ns).
Proof.
  intros H Hi Hn. rewrite (rep_content_split _ _ _ _ H), (content_drop_S _ _ _ _ Hi).
  rewrite ztake_app_le; [done|]. rewrite zlen_node_bytes; [done|].
  eapply all_ok_lookup; [apply H|done].
Qed.

(** ** The operations *)

Lemma Peek_ok wo b data n :
  holds wo b data → 0 < n ≤ zlen data →
  ∃ s b', Peek n b = Ret (Ok s, b') ∧ s_bytes s = ztake n data ∧
          holds wo b' data ∧ cfg b' = cfg b.
Proof.
  intros (ns & ri & wi & H & <- & Hwo) Hn. unfold Peek.
  rewrite (decide_False (P := n < 0)), (decide_False (P := n = 0)) by lia.
  mpure. rewrite (rp_rlen _ _ _ _ H), decide_False by lia. mpure.
  assert (content ns ≠ []) as Hne by (intros E; rewrite E in Hn; unfold zlen in Hn; simpl in Hn; lia).
  pose proof (loop_fuel_shape _ _ (rp_shape _ _ _ _ H)) as Hfuel.
  destruct (find_rnode_ok (loop_fuel b) b ns ri wi H Hne ltac:(lia))
    as (ri' & l & nd & Hf & H' & Hi & Hnz).
  mrun Hf. mpure. change (rnode (set_rnode _ _)) with (addr ns ri').
  pose proof (rp_shape _ _ _ _ H') as Hs'. mload.
  pose proof (all_ok_lookup _ _ _ _ (rp_ok _ _ _ _ H') Hi) as Hnd.
  assert (holds wo (set_rnode (addr ns ri') b) (content ns)) as Hh by (by exists ns, ri', wi).
  case_decide as Hge.
  - destruct (node_peek_ok nd n Hnd ltac:(lia)) as (s & Hp & Hsb).
    eexists _, _. split; [apply lift_Ret, Hp|]. split; [|done].
    rewrite Hsb. eapply ztake_content_node; [done|done|lia].
  - pose proof (rep_content_split _ _ _ _ H') as Hsp.
    rewrite (peek_loop_ok (length ns - ri')%nat _ _ ns ri' n 0 []);
      [|done|done|apply H'|lia|rewrite Z.sub_0_r, <-Hsp; lia|lia].
    eexists _, _. split; [done|]. split; [|done].
    unfold s_bytes. simpl. rewrite <-Hsp, Z.sub_0_r. by rewrite ztake_ztake by lia.
Qed.

Lemma Next_ok wo b data n :
  holds wo b data → 0 < n ≤ zlen data →
  ∃ s b', Next n b = Ret (Ok s, b') ∧ s_bytes s = ztake n data ∧
          holds wo b' (zdrop n data) ∧ cfg b' = cfg b.
Proof.
  intros (ns & ri & wi & H & <- & Hwo) Hn. unfold Next.
  rewrite (decide_False (P := n < 0)), (decide_False (P := n = 0)) by lia.
  mpure. rewrite (rp_rlen _ _ _ _ H), decide_False by lia. mpure.
  assert (content ns ≠ []) as Hne by (intros E; rewrite E in Hn; unfold zlen in Hn; simpl in Hn; lia).
  pose proof (loop_fuel_shape _ _ (rp_shape _ _ _ _ H)) as Hfuel.
  destruct (find_rnode_ok (loop_fuel b) b ns ri wi H Hne ltac:(lia))
    as (ri' & l & nd & Hf & H' & Hi & Hnz).
  mrun Hf. mpure. change (rnode (set_rnode _ _)) with (addr ns ri').
  pose proof (rp_shape _ _ _ _ H') as Hs'. mload.
  pose proof (all_ok_lookup _ _ _ _ (rp_ok _ _ _ _ H') Hi) as Hnd.
  case_decide as Hge.
  - destruct (node_readn_ok nd n Hnd ltac:(lia)) as (s & Hp & _ & Hsb).
    mlift Hp. cbv beta iota zeta. mstore. mpure.
    eexists _, _. split; [done|]. split; [|split; [|done]].
    + rewrite Hsb. eapply ztake_content_node; [done|done|lia].
    + apply (holds_consume_rnode wo _ ns ri' wi l nd n H' Hwo Hi). lia.
  - pose proof (rep_content_split _ _ _ _ H') as Hsp.
    destruct (readn_loop_ok (length ns - ri') (loop_fuel b) (set_rnode (addr ns ri') b)
                ns ri' n 0 []) as (ns' & j & h' & Hr & Hsh & Hco);
      [done|done|apply H'|lia|rewrite <-Hsp; lia|lia|].
    mrun Hr. cbv beta iota zeta. mpure. mpure. rewrite Z.sub_0_r in Hco |- *.
    eexists _, _. split; [done|]. split; [|split; [|done]].
    + unfold s_bytes. simpl. rewrite <-Hsp, Z.sub_diag. simpl.
      rewrite app_nil_r. by rewrite ztake_ztake by lia.
    + apply (holds_consumed wo _ ns ri' wi ns' j h' n H' Hwo Hsh Hco). lia.
Qed.

Lemma Skip_ok wo b data n :
  holds wo b data → 0 ≤ n ≤ zlen data →
  ∃ b', Skip n b = Ret (Ok (), b') ∧ holds wo b' (zdrop n data) ∧ cfg b' = cfg b.
Proof.
  intros (ns & ri & wi & H & <- & Hwo) Hn. unfold Skip.
  rewrite (decide_False (P := n < 0)) by lia.
  mpure. rewrite (rp_rlen _ _ _ _ H), decide_False by lia. mpure.
  rewrite (rp_rnode _ _ _ _ H). pose proof (rp_shape _ _ _ _ H) as Hs.
  destruct (node_at ns ri) as (l & nd & Hi).
  { pose proof (rp_ri _ _ _ _ H). pose proof (rp_wi _ _ _ _ H). lia. }
  mload. pose proof (all_ok_lookup _ _ _ _ (rp_ok _ _ _ _ H) Hi) as Hnd.
  case_decide as Hge.
  - rewrite node_skip_ok by (done || lia). cbv beta iota zeta. mstore. mpure.
    eexists. split; [done|]. split; [|done].
    apply (holds_consume_rnode wo _ ns ri wi l nd n H Hwo Hi). lia.
  - mpure. pose proof (rep_content_split _ _ _ _ H) as Hsp.
    pose proof (loop_fuel_shape _ _ Hs) as Hfuel.
    destruct (readn_loop_ok (length ns - ri) (loop_fuel b) b ns ri n 0 [])
      as (ns' & j & h' & Hr & Hsh & Hco);
      [done|done|apply H|lia|rewrite <-Hsp; lia|lia|].
    apply skip_loop_of_readn in Hr. mrun Hr. cbv beta iota zeta. mpure. mpure.
    rewrite Z.sub_0_r in Hco. eexists. split; [done|]. split; [|done].
    apply (holds_consumed wo _ ns ri wi ns' j h' n H Hwo Hsh Hco). lia.
Qed.

Lemma Read_body_ok wo b data plen :
  holds wo b data → 0 ≤ plen →
  ∃ b', Read_body plen b =
          Ret (Ok (Z.min plen (zlen data), ztake plen data), b') ∧
        holds wo b' (zdrop plen data) ∧ cfg b' = cfg b.
Proof.
  intros (ns & ri & wi & H & <- & Hwo) Hn. unfold Read_body.
  mpure. rewrite (rp_rlen _ _ _ _ H). cbv zeta.
  set (n := if decide (zlen (content ns) < plen) then _ else _).
  assert (n = Z.min plen (zlen (content ns))) as En by (unfold n; case_decide; lia).
  clearbody n. pose proof (zlen_nonneg (content ns)).
  assert (ztake plen (content ns) = ztake n (content ns)) as ->.
  { destruct (decide (plen ≤ zlen (content ns))); [f_equal; lia|].
    rewrite !ztake_ge by lia. done. }
  assert (zdrop plen (content ns) = zdrop n (content ns)) as ->.
  { destruct (decide (plen ≤ zlen (content ns))); [f_equal; lia|].
    rewrite !zdrop_ge by lia. done. }
  rewrite <-En. mpure. rewrite (rp_rnode _ _ _ _ H). pose proof (rp_shape _ _ _ _ H) as Hs.
  destruct (node_at ns ri) as (l & nd & Hi).
  { pose proof (rp_ri _ _ _ _ H). pose proof (rp_wi _ _ _ _ H). lia. }
  mload. pose proof (all_ok_lookup _ _ _ _ (rp_ok _ _ _ _ H) Hi) as Hnd.
  case_decide as Hge.
  - destruct (node_readn_ok nd n Hnd ltac:(lia)) as (s & Hp & _ & Hsb).
    mlift Hp. cbv beta iota zeta. mstore. mpure.
    rewrite Hsb, (ztake_content_node _ _ _ _ _ _ _ H Hi) by lia.
    eexists. split; [done|]. split; [|done].
    apply (holds_consume_rnode wo _ ns ri wi l nd n H Hwo Hi). lia.
  - mpure. pose proof (rep_content_split _ _ _ _ H) as Hsp.
    pose proof (loop_fuel_shape _ _ Hs) as Hfuel.
    destruct (readn_loop_ok (length ns - ri) (loop_fuel b) b ns ri n 0 [])
      as (ns' & j & h' & Hr & Hsh & Hco);
      [done|done|apply H|lia|rewrite <-Hsp; lia|lia|].
    mrun Hr. cbv beta iota zeta. mpure. mpure. rewrite Z.sub_0_r in Hco |- *.
    rewrite <-Hsp. eexists. split; [done|]. split; [|done].
    apply (holds_consumed wo _ ns ri wi ns' j h' n H Hwo Hsh Hco). lia.
Qed.
