(* ===== verification/BufferBlocks.v ===== *)
(** * Block-wise reading of linked buffers

    UDP connections use a buffer as a queue of packets: one block per packet.
    [blocks] is the sequence of non-empty blocks a buffer holds, and the block
    operations ([PeekBlocks], [ReadBlock], [SkipBlocks]) are proved against it. *)

From stdpp Require Import base gmap list numbers.
From S2P Require Import Prelude MCache Node LinkedBuffer BufferInv BufferRead.

Local Open Scope Z_scope.

Implicit Types (b : Buffer) (nd : node) (l : loc) (p : option loc).

Fixpoint blocks (ns : nodes) : list (list byte) :=
  match ns with
  | [] => []
  | (_, nd) :: ns =>
      if decide (node_len nd = 0) then blocks ns else node_bytes nd :: blocks ns
  end.

(** [b] is well formed and holds the packets [bls]. *)
Definition holds_blocks (wo : bool) (b : Buffer) (bls : list (list byte)) : Prop :=
  ∃ ns ri wi, rep b ns ri wi ∧ blocks ns = bls ∧ (wo = true → S wi = length ns).

Lemma blocks_app ns ns' : blocks (ns ++ ns') = blocks ns ++ blocks ns'.
Proof.
  induction ns as [|[l nd] ns IH]; simpl; [done|]. case_decide; by rewrite IH.
Qed.

Lemma concat_blocks ns : all_ok ns → concat (blocks ns) = content ns.
Proof.
  induction ns as [|[l nd] ns IH]; intros Ho; [done|].
  apply Forall_cons_1 in Ho as [? ?]. simpl in *. case_decide as Hz.
  - rewrite node_bytes_nil by done. by apply IH.
  - simpl. by rewrite IH.
Qed.

Lemma blocks_empty ns : Forall (λ x, node_len x.2 = 0) ns → blocks ns = [].
Proof. induction 1 as [|[l nd] ns Hz _ IH]; [done|]. simpl in *. by rewrite decide_True. Qed.

Lemma blocks_drop_S ns i l nd :
  ns !! i = Some (l, nd) →
  blocks (drop i ns) =
    (if decide (node_len nd = 0) then [] else [node_bytes nd]) ++ blocks (drop (S i) ns).
Proof. intros. erewrite drop_S by done. simpl. by case_decide. Qed.

Lemma blocks_content_nil ns : all_ok ns → content ns = [] → blocks ns = [].
Proof.
  induction ns as [|[l nd] ns IH]; intros Ho Hc; [done|].
  apply Forall_cons_1 in Ho as [Hn Ho]. simpl in *.
  apply app_eq_nil in Hc as [Hb Hc].
  rewrite decide_True; [by apply IH|].
  rewrite <-zlen_node_bytes by done. by rewrite Hb.
Qed.

Lemma blocks_nonempty ns : all_ok ns → Forall (λ x, x ≠ []) (blocks ns).
Proof.
  induction ns as [|[l nd] ns IH]; intros Ho; [by constructor|].
  apply Forall_cons_1 in Ho as [Hn Ho]. simpl in *. case_decide as Hz; [by apply IH|].
  constructor; [|by apply IH]. intros E. apply Hz.
  rewrite <-zlen_node_bytes by done. by rewrite E.
Qed.

Lemma holds_blocks_holds wo b bls : holds_blocks wo b bls → holds wo b (concat bls).
Proof.
  intros (ns & ri & wi & H & <- & Hwo). exists ns, ri, wi. split; [done|].
  split; [|done]. symmetry. apply concat_blocks, H.
Qed.

Lemma rep_blocks_split b ns ri wi : rep b ns ri wi → blocks ns = blocks (drop ri ns).
Proof.
  intros H. rewrite <-(take_drop ri ns) at 1. rewrite blocks_app.
  by rewrite (blocks_empty _ (rp_read _ _ _ _ H)).
Qed.

(** ** PeekBlocks *)

Lemma peek_blocks_loop_ok (len : nat) fuel b ns i ndata rest acc :
  len = (length ns - i)%nat →
  shape (heap b) ns → all_ok ns →
  rest = zlen (content (drop i ns)) → 0 ≤ ndata → zlen acc ≤ ndata →
  (len + 1 ≤ fuel)%nat →
  ∃ ss, peek_blocks_loop fuel ndata rest (addr ns i) acc b = Ret (acc ++ ss, b) ∧
        map s_bytes ss = ztake (ndata - zlen acc) (blocks (drop i ns)).
Proof.
  revert fuel i rest acc. induction len as [|len IH];
    intros fuel i rest acc Hlen Hs Ho Hrest Hnd Hacc Hf;
    (destruct fuel as [|fuel]; [lia|]); cbn [peek_blocks_loop].
  { rewrite drop_ge in Hrest |- * by lia. simpl in *. subst rest.
    rewrite decide_False by (unfold zlen; simpl; lia).
    exists []. rewrite app_nil_r. split; [done|]. simpl. unfold ztake. by rewrite take_nil. }
  destruct (node_at ns i ltac:(lia)) as (l & nd & Hi).
  pose proof (all_ok_lookup _ _ _ _ Ho Hi) as Hn.
  pose proof (content_drop_S _ _ _ _ Hi) as Hc.
  pose proof (zlen_node_bytes nd Hn) as Hnl.
  pose proof (zlen_nonneg (content (drop (S i) ns))).
  case_decide as Hgo.
  - mload. rewrite (shape_next _ _ _ _ _ Hs Hi). cbv zeta. rewrite Hc, zlen_app in Hrest.
    case_decide as Hz.
    + rewrite (blocks_drop_S _ _ _ _ Hi), decide_True by done. simpl.
      apply IH; [lia|done|done|lia|lia|lia|lia].
    + pose proof (node_len_bounds nd Hn).
      rewrite (decide_False (P := node_len nd > rest)) by lia.
      destruct (block_sub_ok nd (node_len nd) Hn ltac:(lia)) as (s & Hbs & _ & Hsb).
      mlift Hbs.
      destruct (IH fuel (S i) (rest - node_len nd) (acc ++ [s])) as (ss & Hr & Hss);
        [lia|done|done|lia|lia| |lia|].
      { rewrite zlen_app. unfold zlen at 2. simpl. lia. }
      rewrite Hr. exists (s :: ss). rewrite <-app_assoc. split; [done|].
      rewrite (blocks_drop_S _ _ _ _ Hi), decide_False by done. simpl.
      rewrite ztake_ge in Hsb by lia. rewrite Hsb, Hss.
      rewrite zlen_app. unfold zlen at 2. simpl. unfold ztake.
      replace (Z.to_nat (ndata - zlen acc)) with
        (S (Z.to_nat (ndata - (zlen acc + Z.of_nat 1)))) by lia. done.
  - exists []. rewrite app_nil_r. split; [done|]. simpl.
    destruct (decide (zlen acc < ndata)); [|by rewrite ztake_nonpos by lia].
    rewrite blocks_content_nil; [unfold ztake; by rewrite take_nil|by apply Forall_drop|].
    apply zlen_0_inv. pose proof (zlen_nonneg (content (drop i ns))). lia.
Qed.

Lemma PeekBlocks_ok wo b bls ndata :
  holds_blocks wo b bls → 0 ≤ ndata →
  ∃ ss, PeekBlocks ndata b = Ret (ss, b) ∧ map s_bytes ss = ztake ndata bls.
Proof.
  intros (ns & ri & wi & H & <- & Hwo) Hn. unfold PeekBlocks.
  case_decide as Hz; [subst; by exists []|]. mpure. rewrite (rp_rlen _ _ _ _ H).
  pose proof (rp_ok _ _ _ _ H) as Ho.
  case_decide as Hc.
  { exists []. split; [done|]. rewrite blocks_content_nil by (done || by apply zlen_0_inv).
    unfold ztake. by rewrite take_nil. }
  mpure. rewrite (rp_rnode _ _ _ _ H).
  pose proof (loop_fuel_shape _ _ (rp_shape _ _ _ _ H)) as Hfuel.
  destruct (peek_blocks_loop_ok (length ns - ri) (loop_fuel b) b ns ri ndata
              (zlen (content ns)) []) as (ss & Hr & Hss);
    [done|apply H|done|by rewrite (rep_content_split _ _ _ _ H) at 1|done|done|lia|].
  exists ss. split; [exact Hr|]. rewrite Hss, (rep_blocks_split _ _ _ _ H).
  unfold zlen. simpl. by rewrite Z.sub_0_r.
Qed.

(** ** Consuming whole blocks *)

(** Consumption described by the blocks that are left. *)
Lemma holds_blocks_consumed wo b ns ri wi ns' j h' k bls :
  rep b ns ri wi → (wo = true → S wi = length ns) →
  shape h' ns' → consumed ns ns' ri j k → 0 ≤ k ≤ zlen (content ns) →
  blocks (drop ri ns') = bls →
  holds_blocks wo (set_rlen (rlen b ⊟ k) (set_rnode (addr ns j) (set_heap h' b))) bls.
Proof.
  intros H Hwo Hs Hco Hk Hb.
  destruct (rep_consumed _ _ _ _ _ _ _ _ H Hs Hco Hk) as [H' _].
  exists ns', j, wi. split; [done|]. split.
  - rewrite <-Hb, <-(take_drop ri ns') at 1. rewrite blocks_app, blocks_empty; [done|].
    eapply adv_empty; [apply adv_take, Hco|apply Forall_take, H|apply H].
  - intros ?. rewrite (adv_length _ _ (co_adv _ _ _ _ _ Hco)). auto.
Qed.

Lemma ReadBlock_ok wo b x bls :
  holds_blocks wo b (x :: bls) →
  ∃ s b', ReadBlock b = Ret (Ok s, b') ∧ s_bytes s = x ∧
          holds_blocks wo b' bls ∧ cfg b' = cfg b.
Proof.
  intros (ns & ri & wi & H & Hbl & Hwo). unfold ReadBlock. mpure.
  pose proof (rp_ok _ _ _ _ H) as Ho.
  assert (content ns ≠ []) as Hne.
  { intros E. apply blocks_content_nil in E; [|done]. congruence. }
  rewrite (rp_rlen _ _ _ _ H). rewrite decide_False; cycle 1.
  { intros Hle. apply Hne, zlen_0_inv. pose proof (zlen_nonneg (content ns)). lia. }
  mpure. pose proof (loop_fuel_shape _ _ (rp_shape _ _ _ _ H)) as Hfuel.
  destruct (find_rnode_ok (loop_fuel b) b ns ri wi H Hne ltac:(lia))
    as (ri' & l & nd & Hf & H' & Hi & Hnz).
  mrun Hf. mpure. change (rnode (set_rnode _ _)) with (addr ns ri').
  pose proof (rp_shape _ _ _ _ H') as Hs'. mload.
  pose proof (all_ok_lookup _ _ _ _ (rp_ok _ _ _ _ H') Hi) as Hnd.
  pose proof (node_len_bounds nd Hnd). pose proof (zlen_node_bytes nd Hnd).
  cbv zeta. destruct (node_readn_ok nd (node_len nd) Hnd ltac:(lia)) as (s & Hp & _ & Hsb).
  mlift Hp. cbv beta iota zeta. mstore. mpure.
  pose proof (rep_blocks_split _ _ _ _ H') as Hsp.
  rewrite Hbl, (blocks_drop_S _ _ _ _ Hi), decide_False in Hsp by done. simplify_eq/=.
  eexists _, _. split; [done|]. split; [|split; [|done]].
  { rewrite Hsb. by apply ztake_ge; lia. }
  set (nd' := with_r _ nd).
  assert (consumed ns (<[ri' := (l, nd')]> ns) ri' ri' (node_len nd)) as Hco
    by (apply consumed_one; [done|done|lia]).
  assert (ns !! ri' = Some (l, nd)) as Hi0 by done.
  change (set_heap ?h (set_rnode ?x b)) with (set_rnode x (set_heap h (set_rnode x b))).
  change (rlen b) with (rlen (set_rnode (addr ns ri') b)).
  refine (holds_blocks_consumed wo (set_rnode (addr ns ri') b) ns ri' wi (<[ri' := (l, nd')]> ns) ri'
            (<[l := nd']> (heap b)) (node_len nd) _ H' Hwo _ Hco _ _).
  - exact (shape_insert (heap b) ns ri' l nd nd' Hs' Hi eq_refl).
  - rewrite (rep_content_split _ _ _ _ H'), (content_drop_S _ _ _ _ Hi), zlen_app.
    pose proof (zlen_nonneg (content (drop (S ri') ns))). lia.
  - rewrite (blocks_drop_S _ ri' l nd')
      by (apply list_lookup_insert_eq; by eapply lookup_lt_Some).
    rewrite decide_True; [by rewrite drop_insert_lt by lia|].
    unfold nd'. pose proof (node_len_spec nd Hnd).
    destruct Hnd. rewrite node_len_with_r by (done || lia). lia.
Qed.

Lemma ReadBlock_empty wo b :
  holds_blocks wo b [] → ReadBlock b = Ret (Err ErrNoEnoughData, b).
Proof.
  intros H. apply holds_blocks_holds, holds_len in H as [Hl _]. unfold ReadBlock. mpure.
  rewrite Hl. by rewrite decide_True by done.
Qed.

(** A node read to its end contributes no block any more. *)
Lemma blocks_drop_consumed ns i l nd :
  ns !! i = Some (l, nd) → node_ok nd →
  blocks (drop i (<[i := (l, with_r (n_r nd + node_len nd) nd)]> ns)) = blocks (drop (S i) ns).
Proof.
  intros Hi Hn.
  rewrite (blocks_drop_S _ i l (with_r (n_r nd + node_len nd) nd))
    by (apply list_lookup_insert_eq; by eapply lookup_lt_Some).
  rewrite drop_insert_lt by lia. rewrite decide_True; [done|].
  pose proof (node_len_spec nd Hn). destruct Hn. rewrite node_len_with_r by (done || lia). lia.
Qed.

(** The rounds of the loop: enough blocks, a node without data, a node with a block. *)
Lemma skip_blocks_done fuel n ack p b :
  skip_blocks_loop (S fuel) n ack n p b = Ret (Ok (ack, n, p), b).
Proof. cbn [skip_blocks_loop]. by rewrite decide_False by lia. Qed.

Lemma skip_blocks_pass fuel n ack ackn ns i l nd b :
  shape (heap b) ns → ns !! i = Some (l, nd) → node_len nd = 0 → ackn < n →
  skip_blocks_loop (S fuel) n ack ackn (addr ns i) b = skip_blocks_loop fuel n ack ackn (addr ns (S i)) b.
Proof.
  intros Hs Hi Hz Hn. cbn [skip_blocks_loop].
  rewrite decide_True by (erewrite addr_Some by done; split; [lia|done]).
  mload. rewrite decide_True by done. by rewrite (shape_next _ _ _ _ _ Hs Hi).
Qed.

Lemma skip_blocks_take fuel n ack ackn ns i l nd b :
  shape (heap b) ns → node_ok nd → ns !! i = Some (l, nd) → node_len nd ≠ 0 → ackn < n →
  skip_blocks_loop (S fuel) n ack ackn (addr ns i) b =
    skip_blocks_loop fuel n (ack + node_len nd) (ackn + 1) (addr ns i)
      (set_heap (<[l := with_r (n_r nd + node_len nd) nd]> (heap b)) b).
Proof.
  intros Hs Hnd Hi Hz Hn. pose proof (node_len_bounds nd Hnd). cbn [skip_blocks_loop].
  rewrite decide_True by (erewrite addr_Some by done; split; [lia|done]).
  mload. rewrite decide_False by done. cbv zeta. rewrite node_skip_ok by (done || lia).
  cbv beta iota zeta. by mstore.
Qed.

(** A node that is read to its end does not count, before or after the rest was skipped. *)
Lemma blocks_empty_head ns ns' i j l nd k :
  consumed ns ns' (S i) j k → ns !! i = Some (l, nd) → node_len nd = 0 →
  blocks (drop i ns') = blocks (drop (S i) ns').
Proof.
  intros Hco Hi Hz. assert (ns' !! i = Some (l, nd)) as Hi'.
  { rewrite <-(lookup_take_lt ns' (S i)) by lia. rewrite (co_take _ _ _ _ _ Hco).
    by rewrite lookup_take_lt by lia. }
  by rewrite (blocks_drop_S _ _ _ _ Hi'), decide_True.
Qed.

Lemma skip_blocks_loop_ok (len : nat) fuel b ns i n ack ackn :
  len = (length ns - i)%nat →
  shape (heap b) ns → all_ok ns →
  0 ≤ ackn ≤ n → n - ackn ≤ zlen (blocks (drop i ns)) →
  (2 * len + 1 ≤ fuel)%nat →
  ∃ ns' j h' k,
    skip_blocks_loop fuel n ack ackn (addr ns i) b =
      Ret (Ok (ack + k, n, addr ns j), set_heap h' b) ∧
    shape h' ns' ∧ consumed ns ns' i j k ∧
    0 ≤ k ≤ zlen (content (drop i ns)) ∧ (ackn < n → 0 < k) ∧
    blocks (drop i ns') = zdrop (n - ackn) (blocks (drop i ns)).
Proof.
  revert fuel b ns i ack ackn. induction len as [len IH] using lt_wf_ind.
  intros fuel b ns i ack ackn Hlen Hs Ho Hack Hn Hf. destruct fuel as [|fuel]; [lia|].
  destruct (decide (ackn = n)) as [->|Hne].
  { rewrite skip_blocks_done. exists ns, i, (heap b), 0. rewrite Z.sub_diag, zdrop_0, set_heap_id, Z.add_0_r.
    pose proof (zlen_nonneg (content (drop i ns))).
    split_and!; try done; try lia. by apply consumed_refl. }
  destruct (decide (i < length ns)%nat) as [Hilt|Hige]; cycle 1.
  { rewrite drop_ge in Hn by lia. unfold zlen in Hn. simpl in Hn. lia. }
  destruct (node_at ns i Hilt) as (l & nd & Hi). pose proof (all_ok_lookup _ _ _ _ Ho Hi) as Hnd.
  rewrite (blocks_drop_S _ _ _ _ Hi) in Hn |- *. rewrite (content_drop_S _ _ _ _ Hi).
  destruct (decide (node_len nd = 0)) as [Hz|Hz].
  - rewrite (skip_blocks_pass _ _ _ _ _ _ _ _ _ Hs Hi Hz) by lia. rewrite (node_bytes_nil nd) by done.
    simpl in Hn |- *. destruct (IH (length ns - S i)%nat ltac:(lia) fuel b ns (S i) ack ackn)
      as (ns' & j & h' & k & Hr & Hs' & Hco & Hk & Hkp & Hb); try done; [lia|].
    exists ns', j, h', k. rewrite (blocks_empty_head _ _ _ _ _ _ _ Hco Hi Hz).
    split_and!; try done; try lia. apply (consumed_pass _ _ _ _ _ _ _ Hi Ho Hz); [auto with lia|done].
  - pose proof (node_len_bounds nd Hnd). rewrite (skip_blocks_take _ _ _ _ _ _ _ _ _ Hs Hnd Hi Hz) by lia.
    destruct (consume_node (heap b) ns i l nd (node_len nd) Hs Ho Hi ltac:(lia))
      as (Hs1 & Ho1 & Hc1 & Ha1 & Hi1 & Hl1 & Hz1). specialize (Hz1 eq_refl).
    set (nd' := with_r (n_r nd + node_len nd) nd) in *. set (ns1 := <[i := (l, nd')]> ns) in *.
    assert (drop (S i) ns1 = drop (S i) ns) as Hd by (unfold ns1; by rewrite drop_insert_lt by lia).
    pose proof (zlen_node_bytes nd Hnd) as Hnl. pose proof (zlen_nonneg (content (drop (S i) ns))).
    replace (zdrop (n - ackn) ([node_bytes nd] ++ blocks (drop (S i) ns)))
      with (zdrop (n - (ackn + 1)) (blocks (drop (S i) ns))).
    2: { rewrite zdrop_app_ge by (unfold zlen; simpl; lia). f_equal. unfold zlen. simpl. lia. }
    rewrite zlen_app in Hn. rewrite zlen_app. unfold zlen in Hn at 1. simpl in Hn.
    destruct fuel as [|fuel]; [lia|]. destruct (decide (ackn + 1 = n)) as [Hm|Hm].
    + replace (ackn + 1) with n by lia. rewrite skip_blocks_done.
      exists ns1, i, (<[l := nd']> (heap b)), (node_len nd). rewrite Z.sub_diag, zdrop_0.
      split_and!; try done; try lia. by apply blocks_drop_consumed.
    + rewrite Ha1, (skip_blocks_pass _ _ _ _ ns1 i l nd' (set_heap (<[l := nd']> (heap b)) b) Hs1 Hi1 Hz1) by lia.
      destruct (IH (length ns1 - S i)%nat ltac:(lia) fuel
                  (set_heap (<[l := nd']> (heap b)) b) ns1 (S i) (ack + node_len nd) (ackn + 1))
        as (ns' & j & h' & k & Hr & Hs' & Hco & Hk & Hkp & Hb); try done; [lia|rewrite Hd; lia|lia|].
      exists ns', j, h', (node_len nd + k). rewrite set_heap_set_heap in Hr. rewrite Hd in Hk, Hb.
      rewrite (blocks_empty_head _ _ _ _ _ _ _ Hco Hi1 Hz1). split_and!; try done; try lia.
      * by rewrite Hr, (addr_insert _ _ _ _ _ nd' Hi), Z.add_assoc.
      * eapply (consumed_trans ns ns1); [done|lia|lia|done|].
        eapply consumed_pass; [exact Hi1|done|done|apply Hkp; lia|done].
Qed.

Lemma SkipBlocks_ok wo b bls n :
  holds_blocks wo b bls → bls ≠ [] → 0 ≤ n ≤ zlen bls →
  ∃ b', SkipBlocks n b = Ret (Ok (), b') ∧ holds_blocks wo b' (zdrop n bls) ∧ cfg b' = cfg b.
Proof.
  intros (ns & ri & wi & H & <- & Hwo) Hne Hn. unfold SkipBlocks.
  rewrite (decide_False (P := n < 0)) by lia. mpure.
  pose proof (rp_ok _ _ _ _ H) as Ho.
  rewrite (rp_rlen _ _ _ _ H). rewrite decide_False; cycle 1.
  { intros Hle. apply Hne, blocks_content_nil; [done|]. apply zlen_0_inv.
    pose proof (zlen_nonneg (content ns)). lia. }
  mpure. rewrite (rp_rnode _ _ _ _ H).
  pose proof (loop_fuel_shape _ _ (rp_shape _ _ _ _ H)) as Hfuel.
  pose proof (rep_blocks_split _ _ _ _ H) as Hsp.
  destruct (skip_blocks_loop_ok (length ns - ri) (loop_fuel b) b ns ri n 0 0)
    as (ns' & j & h' & k & Hr & Hsh & Hco & Hk & _ & Hb);
    [done|apply H|done|lia|rewrite <-Hsp; lia|lia|].
  mrun Hr. cbv beta iota zeta. rewrite decide_False by auto. mpure. mpure.
  eexists. split; [done|]. split; [|done]. rewrite Z.sub_0_r in Hb. rewrite Hsp.
  rewrite Z.add_0_l.
  apply (holds_blocks_consumed wo b ns ri wi ns' j h' k); try done.
  by rewrite (rep_content_split _ _ _ _ H).
Qed.
