(* ===== verification/BufferMem.v ===== *)
(** * Creating, releasing and freeing linked buffers

    [Initialize]/[New] establish the invariant with nothing to read; [Release]
    gives the consumed nodes back without changing what the buffer holds;
    [Free] gives back every node.  [Read] is its body followed by [Release]. *)

From stdpp Require Import base gmap list numbers.
From S2P Require Import Prelude MCache Node LinkedBuffer BufferInv BufferRead BufferBlocks.

Local Open Scope Z_scope.

Implicit Types (b : Buffer) (nd : node) (l : loc) (p : option loc) (ns : nodes).

(** ** Giving one node back *)

Lemma node_reset_ok nd m : node_ok nd → mcache_ok m → mcache_ok (node_reset nd m).2.
Proof.
  intros Hn Hm. unfold node_reset. simpl. destruct (n_recycle nd) eqn:Hr; [|done].
  destruct (nok_recycle _ Hn Hr) as (s & -> & ?). simpl. apply Free_ok; [done|lia|lia].
Qed.

Lemma addr_cons x ns i : addr (x :: ns) (S i) = addr ns i.
Proof. done. Qed.

Lemma shape_tail h l nd ns : shape h ((l, nd) :: ns) → shape (delete l h) ns.
Proof.
  intros [Hnd Hl Hd]. apply list.NoDup_cons in Hnd as [Hni Hnd]. split; [done| |].
  - intros i l' nd' Hi. destruct (Hl (S i) l' nd' Hi) as [Hh Hn]. split; [|done].
    rewrite lookup_delete_ne; [done|]. intros ->. apply Hni.
    apply list_elem_of_fmap. exists (l', nd'). split; [done|]. by eapply list_elem_of_lookup_2.
  - rewrite dom_delete_L, Hd. simpl. set_solver.
Qed.

Lemma shape_nil h : shape h [] → h = ∅.
Proof. intros [_ _ Hd]. by apply dom_empty_inv_L. Qed.

Lemma set_all_nodes_heap p b : heap (set_all_nodes p b) = heap b.
Proof. done. Qed.

Lemma freeNode_ok b l nd :
  heap b !! l = Some nd →
  freeNode (Some l) b =
    Ret ((), set_heap (delete l (heap b)) (set_mc (node_reset nd (mc b)).2 b)).
Proof. intros Hl. unfold freeNode. erewrite bind_Ret; [|simpl; by rewrite Hl]. done. Qed.

(** The whole chain is given back, whatever it holds. *)
Lemma free_loop_ok fuel b ns :
  shape (heap b) ns → all_ok ns → mcache_ok (mc b) → (length ns < fuel)%nat →
  ∃ m', free_loop fuel (addr ns 0) b = Ret ((), set_heap ∅ (set_mc m' b)) ∧ mcache_ok m'.
Proof.
  revert fuel b. induction ns as [|[l nd] ns IH]; intros fuel b Hs Ho Hm Hf;
    (destruct fuel as [|fuel]; [simpl in Hf; lia|]); cbn [free_loop].
  - exists (mc b). split; [|done]. rewrite <-(shape_nil _ Hs). by destruct b.
  - apply Forall_cons_1 in Ho as [Hn Ho].
    assert (heap b !! l = Some nd) as Hl by (by apply (shape_lookup _ _ 0 _ _ Hs)).
    change (addr ((l, nd) :: ns) 0) with (Some l). cbv beta iota.
    erewrite bind_Ret by (simpl; by rewrite Hl).
    mrun (freeNode_ok b l nd Hl). rewrite (shape_next _ _ 0 l nd Hs) by done.
    rewrite addr_cons.
    destruct (IH fuel (set_heap (delete l (heap b)) (set_mc (node_reset nd (mc b)).2 b)))
      as (m' & Hr & Hm'); [by eapply shape_tail|done| |simpl in Hf; lia|].
    { by apply node_reset_ok. }
    exists m'. by rewrite Hr.
Qed.

(** ** Buffers of a single empty node *)

Lemma rep_dump b l :
  heap b = {[l := zero_node]} → head b = Some l → tail b = Some l →
  rnode b = Some l → wnode b = Some l → rlen b = 0 →
  nbs_ok (cfg b) (nodeBlockSize b) → config_ok (cfg b) → mcache_ok (mc b) →
  (l < nextloc b)%positive →
  rep b [(l, zero_node)] 0 0.
Proof.
  intros Hh ? ? ? ? ? ? ? ? ?. split; try done; simpl; try lia.
  - split.
    + apply NoDup_singleton.
    + intros i l' nd' Hi. rewrite Hh. destruct i as [|i]; simplify_eq/=.
      by rewrite lookup_singleton_eq.
    + rewrite Hh, dom_singleton_L. simpl. set_solver.
  - apply Forall_singleton, zero_node_ok.
  - intros l' [nd Hl']. rewrite Hh in Hl'. apply lookup_singleton_Some in Hl' as [-> _]. done.
Qed.

Lemma u32_blockSize c : config_ok c → u32 (blockSize c) = blockSize c.
Proof. intros [? _]. apply u32_small. lia. Qed.

Lemma nbs_ok_init c : config_ok c → nbs_ok c (blockSize c).
Proof. intros [? _]. unfold nbs_ok. lia. Qed.

Lemma newDumpNode_ok b :
  newDumpNode b = Ret (Some (nextloc b),
    set_nextloc (Pos.succ (nextloc b)) (set_heap (<[nextloc b := zero_node]> (heap b)) b)).
Proof.
  unfold newDumpNode, mbind, M_bind, allocNode, load, store. simpl.
  rewrite lookup_insert_eq. unfold mret, M_ret. simpl. unfold set_heap, set_nextloc. simpl.
  by rewrite insert_insert_eq.
Qed.

Lemma Initialize_ok b :
  heap b = ∅ → rlen b = 0 → config_ok (cfg b) → mcache_ok (mc b) →
  ∃ b' l, Initialize b = Ret ((), b') ∧ rep b' [(l, zero_node)] 0 0 ∧ cfg b' = cfg b.
Proof.
  intros Hh Hr Hc Hm. unfold Initialize.
  mrun (newDumpNode_ok b). simpl. eexists _, _. split; [done|]. split; [|done].
  apply rep_dump; try done; simpl; [by rewrite Hh| |lia].
  rewrite u32_blockSize by done. by apply nbs_ok_init.
Qed.

Lemma New_ok m c :
  config_ok c → mcache_ok m →
  ∃ b, New m c = Ret ((), b) ∧ holds_blocks true b [] ∧ cfg b = c.
Proof.
  intros Hc Hm. destruct (Initialize_ok (zero_buffer m c)) as (b & l & Hr & H & Hcf); [done..|].
  exists b. split; [exact Hr|]. split; [|done]. by exists [(l, zero_node)], 0%nat, 0%nat.
Qed.

Lemma BufferFree_ok wo b data :
  holds wo b data →
  ∃ b', BufferFree b = Ret ((), b') ∧ heap b' = ∅ ∧ head b' = None ∧ rnode b' = None ∧
        wnode b' = None ∧ tail b' = None ∧ rlen b' = 0 ∧ mcache_ok (mc b').
Proof.
  intros (ns & ri & wi & H & _ & _). unfold BufferFree. mpure.
  rewrite (rp_head _ _ _ _ H). pose proof (loop_fuel_shape _ _ (rp_shape _ _ _ _ H)).
  destruct (free_loop_ok (loop_fuel b) b ns) as (m' & Hr & Hm'); [apply H..|lia|].
  mrun Hr. eexists. by split.
Qed.

(** ** Release *)

(** What an operation that only gives memory back preserves. *)
Record released (b : Buffer) (ns : nodes) (wi : nat) (b' : Buffer) : Prop := {
  rel_rep : ∃ ns' wi', rep b' ns' 0 wi' ∧ content ns' = content ns ∧ blocks ns' = blocks ns ∧
                       (S wi = length ns → S wi' = length ns');
  rel_cfg : cfg b' = cfg b
}.

Lemma content_nil_inv ns :
  all_ok ns → content ns = [] → Forall (λ x, node_len x.2 = 0) ns.
Proof.
  induction ns as [|[l nd] ns IH]; intros Ho Hc; [by constructor|].
  apply Forall_cons_1 in Ho as [Hn Ho]. simpl in *.
  apply app_eq_nil in Hc as [Hb Hc]. constructor; [|by apply IH].
  simpl. rewrite <-zlen_node_bytes by done. by rewrite Hb.
Qed.

Lemma CleanUpWithLock_ok b ns wi :
  rep b ns 0 wi → content ns = [] →
  ∃ b', CleanUpWithLock b = Ret ((), b') ∧ released b ns wi b'.
Proof.
  intros H Hc. unfold CleanUpWithLock. mpure.
  rewrite (rp_head _ _ _ _ H). pose proof (loop_fuel_shape _ _ (rp_shape _ _ _ _ H)).
  destruct (free_loop_ok (loop_fuel b) b ns) as (m' & Hr & Hm'); [apply H..|lia|].
  mrun Hr. mrun (newDumpNode_ok (set_heap ∅ (set_mc m' b))). simpl. eexists. split; [done|]. split; [|done].
  exists [(nextloc b, zero_node)], 0%nat. split; [|split; [by rewrite Hc|split; [|done]]].
  - apply rep_dump; try done; simpl; try lia.
    + rewrite (rp_rlen _ _ _ _ H), Hc. done.
    + rewrite u32_blockSize by apply H. apply nbs_ok_init, H.
    + apply H.
  - simpl. symmetry. by apply blocks_content_nil; [apply H|].
Qed.

(** The write node after everything was read: emptied, and without its block when
    that is not the buffer's own. *)
Lemma reset_wnode_ok nd :
  node_ok nd →
  let nd1 := with_w 0 (with_r 0 nd) in
  node_ok (if n_recycle nd1 then nd1 else with_block None nd1) ∧
  node_len (if n_recycle nd1 then nd1 else with_block None nd1) = 0.
Proof.
  intros [? ? ? ? Hr] nd1. unfold nd1. simpl.
  destruct (n_recycle nd) eqn:E; unfold node_len; simpl; split; try done;
    split; simpl; unfold node_cap in *; simpl; try done; try lia.
  - by rewrite E.
  - by rewrite E.
Qed.

Lemma OptimizeMemory_ok b ns wi :
  rep b ns 0 wi → ∃ b', OptimizeMemory b = Ret ((), b') ∧ released b ns wi b'.
Proof.
  intros H. unfold OptimizeMemory. mpure. rewrite (rp_rlen _ _ _ _ H). case_decide as Hz.
  { exists b. split; [done|]. split; [|done]. by exists ns, wi. }
  assert (content ns = []) as Hc.
  { apply zlen_0_inv. destruct (decide (zlen (content ns) = 0)); [done|lia]. }
  mpure. destruct (cleanUp (cfg b)); [by apply CleanUpWithLock_ok|].
  mpure. rewrite (rp_wnode _ _ _ _ H).
  destruct (node_at ns wi (rp_wi _ _ _ _ H)) as (l & nd & Hi).
  pose proof (rp_shape _ _ _ _ H) as Hs. pose proof (rp_ok _ _ _ _ H) as Ho. mload. mpure.
  destruct (reset_wnode_ok nd (all_ok_lookup _ _ _ _ Ho Hi)) as [Hok Hlen]. cbv zeta in *.
  set (nd' := if n_recycle _ then _ else _) in *.
  assert (Forall (λ x, node_len x.2 = 0) (<[wi := (l, nd')]> ns)) as Hemp
    by (apply Forall_insert; [by apply content_nil_inv|done]).
  pose proof (all_ok_insert _ wi l nd' Ho Hok) as Ho'.
  assert (n_next nd' = n_next nd) as Hnx by (unfold nd'; by destruct (n_recycle _)).
  erewrite store_addr by done. eexists. split; [done|]. split; [|done].
  exists (<[wi := (l, nd')]> ns), wi.
  rewrite (content_empty _ Hemp Ho'), Hc, (blocks_content_nil ns), (blocks_empty _ Hemp) by done.
  split; [|by rewrite length_insert].
  pose proof (rp_rlen _ _ _ _ H) as Hrl. pose proof (rp_fresh _ _ _ _ H) as Hfr.
  destruct H. split; simpl; rewrite ?length_insert, ?(addr_insert _ _ _ _ _ nd' Hi); try done.
  - by eapply shape_insert.
  - rewrite drop_insert_lt by lia. done.
  - rewrite (content_empty _ Hemp Ho'). by rewrite Hrl, Hc.
  - by rewrite (content_empty _ Hemp Ho').
  - intros l' [nd0 Hl']. apply Hfr. apply lookup_insert_Some in Hl' as [[<- _]|[_ ?]]; [|done].
    exists nd. by eapply shape_lookup.
Qed.

(** One round of [Release]'s loop. *)
Lemma rep_release_head b l nd ns ri wi :
  rep b ((l, nd) :: ns) (S ri) (S wi) →
  rep (set_heap (delete l (heap b)) (set_mc (node_reset nd (mc b)).2 (set_head (n_next nd) b)))
    ns ri wi ∧
  content ((l, nd) :: ns) = content ns ∧ blocks ((l, nd) :: ns) = blocks ns.
Proof.
  intros H. pose proof (rp_read _ _ _ _ H) as Hr. simpl in Hr.
  apply Forall_cons_1 in Hr as [Hz Hr]. simpl in Hz.
  pose proof (rp_ok _ _ _ _ H) as Ho. apply Forall_cons_1 in Ho as [Hn Ho].
  assert (content ((l, nd) :: ns) = content ns) as Hc
    by (simpl; by rewrite node_bytes_nil by done).
  split; [|split; [done|simpl; by rewrite decide_True]].
  destruct H as [Hs ? ? Ht ? ? ? ? ? ? ? ? ? ? ? Hfr]. split; simpl in *; try done; try lia.
  - by eapply shape_tail.
  - by rewrite (shape_next _ _ 0 l nd Hs).
  - rewrite Ht. destruct ns as [|x ns]; simpl in *; [lia|]. by rewrite Nat.sub_0_r.
  - by rewrite <-Hc.
  - rewrite <-Hc. done.
  - by apply node_reset_ok.
  - intros l' [nd' Hl']. apply Hfr. apply lookup_delete_Some in Hl' as [_ Hl']. by exists nd'.
Qed.

Lemma release_loop_ok fuel b ns ri wi rl :
  rep b ns ri wi → (ri < fuel)%nat →
  ∃ b' rl', release_loop fuel rl b = Ret (rl', b') ∧
    rep b' (drop ri ns) 0 (wi - ri) ∧ content (drop ri ns) = content ns ∧
    blocks (drop ri ns) = blocks ns ∧ cfg b' = cfg b ∧ rl ≤ rl'.
Proof.
  revert fuel b ns wi rl. induction ri as [|ri IH]; intros fuel b ns wi rl H Hf;
    (destruct fuel as [|fuel]; [lia|]); cbn [release_loop]; mpure.
  - rewrite (rp_head _ _ _ _ H), (rp_rnode _ _ _ _ H).
    rewrite decide_False by (intros E; by apply E). exists b, rl. rewrite Nat.sub_0_r.
    simpl. by split_and!.
  - destruct ns as [|[l nd] ns]; [by destruct H; simpl in *; lia|].
    pose proof (rp_ri _ _ _ _ H). destruct wi as [|wi]; [lia|].
    pose proof (rp_wi _ _ _ _ H). simpl in *.
    rewrite decide_True; cycle 1.
    { rewrite (rp_head _ _ _ _ H), (rp_rnode _ _ _ _ H). intros E.
      apply addr_inj in E; [lia|apply (sh_nodup _ _ (rp_shape _ _ _ _ H))|simpl; lia]. }
    rewrite (rp_head _ _ _ _ H). change (addr ((l, nd) :: ns) 0) with (Some l).
    assert (heap b !! l = Some nd) as Hl
      by (by apply (shape_lookup _ _ 0 _ _ (rp_shape _ _ _ _ H))).
    erewrite bind_Ret by (simpl; by rewrite Hl). mpure.
    rewrite (bind_Ret _ _ _ _ _ (freeNode_ok (set_head (n_next nd) b) l nd Hl)).
    destruct (rep_release_head _ _ _ _ _ _ H) as (H' & Hc & Hb).
    assert (0 ≤ node_cap nd) as Hcap.
    { pose proof (rp_ok _ _ _ _ H) as Ho. apply Forall_cons_1 in Ho as [[] _]. simpl in *. lia. }
    destruct (IH fuel _ _ _ (rl + node_cap nd) H' ltac:(lia)) as (b' & rl' & Hr & ? & ? & ? & ? & ?).
    exists b', rl'. split; [exact Hr|]. simpl in Hc, Hb. rewrite Hc, Hb. split_and!; try done. lia.
Qed.

Lemma grow_loop_ok fuel c rl nbs :
  nbs_ok c nbs → maxNodeBlockSize < nbs * 2 ^ Z.of_nat fuel →
  ∃ nbs', grow_loop (S fuel) rl nbs = Ret nbs' ∧ nbs_ok c nbs' ∧ nbs ≤ nbs' ∧
          (nbs' = nbs ∨ nbs' ≤ maxNodeBlockSize).
Proof.
  revert nbs. induction fuel as [|fuel IH]; intros nbs Hn Hf; cbn [grow_loop];
    unfold nbs_ok, maxNodeBlockSize in *; case_decide as Hd; try (exists nbs; by auto with lia);
    rewrite u32_small in Hd by lia; [simpl in Hf; lia|].
  rewrite Z.shiftl_mul_pow2, Z.pow_1_r by lia. rewrite u32_small by lia.
  destruct (IH (nbs * 2)) as (nbs' & Hr & ? & ? & Hor); [lia| |].
  { rewrite Nat2Z.inj_succ, Z.pow_succ_r in Hf by lia. lia. }
  exists nbs'. split; [exact Hr|]. split; [done|]. split; [lia|]. right. lia.
Qed.

Lemma rep_set_nbs b ns ri wi v :
  rep b ns ri wi → nbs_ok (cfg b) v → rep (set_nodeBlockSize v b) ns ri wi.
Proof. intros [] ?. by split. Qed.

Lemma adjust_block_size_ok b ns ri wi rl :
  rep b ns ri wi →
  ∃ v, adjust_block_size rl b = Ret ((), set_nodeBlockSize v b) ∧ nbs_ok (cfg b) v.
Proof.
  intros H. unfold adjust_block_size. mpure. pose proof (rp_nbs _ _ _ _ H) as Hn.
  destruct (_ && _).
  - destruct (grow_loop_ok 31 (cfg b) rl (nodeBlockSize b) Hn) as (v & Hr & ? & _).
    { unfold nbs_ok, maxNodeBlockSize in *. simpl. lia. }
    mlift Hr. by exists v.
  - exists (nodeBlockSize b). split; [|done]. by destruct b.
Qed.

Lemma Release_ok b ns ri wi :
  rep b ns ri wi → ∃ b', Release b = Ret ((), b') ∧ released b ns wi b'.
Proof.
  intros H. unfold Release. mpure. rewrite (rp_rnode _ _ _ _ H).
  pose proof (rp_shape _ _ _ _ H) as Hs. pose proof (rp_ri _ _ _ _ H). pose proof (rp_wi _ _ _ _ H).
  destruct (node_at ns ri ltac:(lia)) as (l & nd & Hi). mload.
  pose proof (loop_fuel_shape _ _ Hs).
  destruct (release_loop_ok (loop_fuel b) b ns ri wi (node_cap nd) H ltac:(lia))
    as (b1 & rl & Hr & Hp1 & Hc1 & Hb1 & Hcf1 & _).
  mrun Hr. destruct (adjust_block_size_ok b1 _ _ _ rl Hp1) as (v & Hv & Hok).
  mrun Hv. apply (rep_set_nbs _ _ _ _ v) in Hp1; [|done].
  destruct (OptimizeMemory_ok _ _ _ Hp1) as (b2 & Hr2 & [(ns2 & wi2 & ? & Hc2 & Hb2 & Hw2) Hcf2]).
  exists b2. split; [done|]. split; [|by rewrite Hcf2].
  exists ns2, wi2. rewrite Hc2, Hc1, Hb2, Hb1. split_and!; try done.
  intros. apply Hw2. rewrite length_drop. lia.
Qed.

Lemma Release_holds wo b data :
  holds wo b data →
  ∃ b', Release b = Ret ((), b') ∧ holds wo b' data ∧ cfg b' = cfg b ∧ head b' = rnode b'.
Proof.
  intros (ns & ri & wi & H & <- & Hwo).
  destruct (Release_ok _ _ _ _ H) as (b' & Hr & [(ns' & wi' & H' & Hc & _ & Hw) Hcf]).
  exists b'. split; [done|]. split; [exists ns', 0%nat, wi'; split_and!; auto|]. split; [done|].
  by rewrite (rp_head _ _ _ _ H'), (rp_rnode _ _ _ _ H').
Qed.

Lemma Release_holds_blocks wo b bls :
  holds_blocks wo b bls →
  ∃ b', Release b = Ret ((), b') ∧ holds_blocks wo b' bls ∧ cfg b' = cfg b.
Proof.
  intros (ns & ri & wi & H & <- & Hwo).
  destruct (Release_ok _ _ _ _ H) as (b' & Hr & [(ns' & wi' & H' & _ & Hb & Hw) Hcf]).
  exists b'. split; [done|]. split; [|done]. exists ns', 0%nat, wi'. split_and!; auto.
Qed.

Lemma Read_ok wo b data plen :
  holds wo b data → 0 ≤ plen →
  ∃ b', Read plen b = Ret (Ok (Z.min plen (zlen data), ztake plen data), b') ∧
        holds wo b' (zdrop plen data) ∧ cfg b' = cfg b.
Proof.
  intros H Hp. unfold Read. case_decide as Hz.
  - subst. exists b. split; [|done]. rewrite ztake_0.
    pose proof (zlen_nonneg data). by rewrite Z.min_l by lia.
  - destruct (Read_body_ok wo b data plen H Hp) as (b1 & Hr & H1 & Hc1). mrun Hr.
    destruct (Release_holds _ _ _ H1) as (b2 & Hr2 & H2 & Hc2 & _). mrun Hr2.
    exists b2. split; [done|]. split; [done|congruence].
Qed.
