(* ===== verification/BufferLink.v ===== *)
(** * Growing the chain and writing by reference

    Nodes are appended after the tail one at a time ([addNode]) or as a chain built
    on the side ([chain_initialize], [addChain]).  [frag] describes a chain that is
    being built next to the rest of the heap.  The file ends with the behaviour of
    [linkFrom], the write that keeps references to the caller's slices. *)

From stdpp Require Import base gmap list numbers.
From S2P Require Import Prelude MCache Node LinkedBuffer BufferInv BufferRead BufferBlocks BufferMem.

Local Open Scope Z_scope.

Implicit Types (b : Buffer) (nd : node) (l : loc) (p : option loc) (ns cs : nodes)
  (h : gmap loc node).

(** ** Chains next to a heap *)

(** [h] is [h0] and, disjoint from it, the chain [cs]. *)
Record frag (h0 h : gmap loc node) (cs : nodes) : Prop := {
  fr_nodup : NoDup cs.*1;
  fr_look i l nd : cs !! i = Some (l, nd) → h !! l = Some nd ∧ n_next nd = addr cs (S i);
  fr_new l : l ∈ cs.*1 → h0 !! l = None;
  fr_old l : l ∉ cs.*1 → h !! l = h0 !! l
}.

Lemma elem_of_addr ns i l nd : ns !! i = Some (l, nd) → l ∈ ns.*1.
Proof.
  intros Hi. apply list_elem_of_fmap. exists (l, nd). split; [done|]. by eapply list_elem_of_lookup_2.
Qed.

Lemma shape_frag h ns : shape h ns ↔ frag ∅ h ns.
Proof.
  split.
  - intros [Hn Hl Hd]. split; [done|done|by intros; rewrite lookup_empty|].
    intros l Hni. rewrite lookup_empty. apply not_elem_of_dom. rewrite Hd. set_solver.
  - intros [Hn Hl _ Ho]. split; [done|done|]. apply set_eq. intros l.
    rewrite elem_of_list_to_set. split.
    + intros Hd. destruct (decide (l ∈ ns.*1)) as [|Hni]; [done|].
      apply elem_of_dom in Hd as [nd Hd]. rewrite (Ho l Hni), lookup_empty in Hd. done.
    + intros (x & -> & [i Hi]%list_elem_of_lookup_1)%list_elem_of_fmap. destruct x as [l nd].
      apply elem_of_dom. exists nd. by apply (Hl i).
Qed.

Lemma frag_single h l nd : h !! l = None → n_next nd = None → frag h (<[l := nd]> h) [(l, nd)].
Proof.
  intros Hl Hn. split; simpl.
  - apply NoDup_singleton.
  - intros i l' nd' Hi. destruct i as [|i]; simplify_eq/=. by rewrite lookup_insert_eq.
  - intros l' ->%list_elem_of_singleton. done.
  - intros l' Hni. rewrite lookup_insert_ne; [done|]. intros ->. apply Hni, list_elem_of_singleton. done.
Qed.

Lemma frag_nil h : frag h h [].
Proof. split; try done; [apply list.NoDup_nil; done|]. intros l H. by apply not_elem_of_nil in H. Qed.

Lemma addr_app_r ns cs i : addr (ns ++ cs) (length ns + i) = addr cs i.
Proof. unfold addr. by rewrite lookup_app_r, Nat.add_sub' by lia. Qed.

Lemma addr_app_l ns cs i : (i < length ns)%nat → addr (ns ++ cs) i = addr ns i.
Proof. intros. unfold addr. by rewrite lookup_app_l. Qed.

(** Linking a chain after the last node of another one. *)
Lemma frag_join h0 h h' ns cs i l nd :
  frag h0 h ns → frag h h' cs → ns !! i = Some (l, nd) → S i = length ns →
  frag h0 (<[l := with_next (addr cs 0) nd]> h')
    (<[i := (l, with_next (addr cs 0) nd)]> ns ++ cs).
Proof.
  intros H1 H2 Hi Hl. set (nd' := with_next (addr cs 0) nd).
  pose proof (elem_of_addr _ _ _ _ Hi) as Hin.
  assert (h !! l = Some nd) as Hhl by (by apply (fr_look _ _ _ H1 i)).
  assert (l ∉ cs.*1) as Hncs by (intros E; rewrite (fr_new _ _ _ H2 l E) in Hhl; done).
  assert (length (<[i:=(l, nd')]> ns) = length ns) as Hlen by apply length_insert.
  split.
  - rewrite fmap_app, (fst_insert _ _ _ _ _ Hi). apply list.NoDup_app.
    split; [apply H1|]. split; [|apply H2]. intros l' H1' H2'.
    apply (fr_new _ _ _ H2) in H2'.
    apply list_elem_of_fmap in H1' as ([l0 nd0] & -> & [j Hj]%list_elem_of_lookup_1).
    apply (fr_look _ _ _ H1) in Hj as [Hj _]. simpl in *. congruence.
  - intros j l' nd'' Hj. destruct (decide (j < length ns)%nat) as [Hjl|Hjl].
    + rewrite lookup_app_l in Hj by lia.
      apply list_lookup_insert_Some in Hj as [(<- & Heq & _)|[Hne Hj]]; [injection Heq as <- <-|].
      * rewrite lookup_insert_eq. split; [done|]. simpl.
        replace (S i) with (length (<[i:=(l, nd')]> ns) + 0)%nat by lia.
        by rewrite addr_app_r.
      * destruct (fr_look _ _ _ H1 j l' nd'' Hj) as [Hh Hn].
        assert (l' ∉ cs.*1) by (intros E; rewrite (fr_new _ _ _ H2 l' E) in Hh; done).
        rewrite addr_app_l by lia. rewrite (addr_insert _ _ _ _ _ _ Hi). split; [|done].
        rewrite lookup_insert_ne; [by rewrite (fr_old _ _ _ H2)|]. intros ->. apply Hne.
        apply (addr_inj ns); [apply H1|lia|]. by erewrite !addr_Some by done.
    + rewrite lookup_app_r in Hj by lia.
      destruct (fr_look _ _ _ H2 _ l' nd'' Hj) as [Hh Hn]. split.
      * rewrite lookup_insert_ne; [done|]. intros ->. by eapply Hncs, elem_of_addr.
      * rewrite Hn. replace (S j) with (length (<[i:=(l, nd')]> ns) +
          S (j - length (<[i:=(l, nd')]> ns)))%nat by lia.
        by rewrite addr_app_r.
  - intros l'. rewrite fmap_app, (fst_insert _ _ _ _ _ Hi), elem_of_app. intros [E|E].
    + by apply (fr_new _ _ _ H1).
    + apply (fr_new _ _ _ H2) in E. destruct (decide (l' ∈ ns.*1)) as [E'|E'].
      * by apply (fr_new _ _ _ H1).
      * by rewrite <-(fr_old _ _ _ H1).
  - intros l'. rewrite fmap_app, (fst_insert _ _ _ _ _ Hi), elem_of_app. intros E.
    rewrite lookup_insert_ne by (intros ->; by apply E; left).
    rewrite (fr_old _ _ _ H2), (fr_old _ _ _ H1); set_solver.
Qed.

Lemma shape_join h h' ns cs i l nd :
  shape h ns → frag h h' cs → ns !! i = Some (l, nd) → S i = length ns →
  shape (<[l := with_next (addr cs 0) nd]> h') (<[i := (l, with_next (addr cs 0) nd)]> ns ++ cs).
Proof. intros H1%shape_frag H2 Hi Hl. apply shape_frag. by eapply frag_join. Qed.

(** ** Replacing a node by an equivalent one *)

Lemma insert_middle ns i l nd nd' :
  ns !! i = Some (l, nd) → <[i := (l, nd')]> ns = take i ns ++ (l, nd') :: drop (S i) ns.
Proof. intros. apply insert_take_drop. by eapply lookup_lt_Some. Qed.

Lemma content_insert ns i l nd nd' :
  ns !! i = Some (l, nd) →
  content (<[i := (l, nd')]> ns) = content (take i ns) ++ node_bytes nd' ++ content (drop (S i) ns).
Proof. intros. by rewrite (insert_middle _ _ _ _ _ H), content_app. Qed.

Lemma content_middle ns i l nd :
  ns !! i = Some (l, nd) →
  content ns = content (take i ns) ++ node_bytes nd ++ content (drop (S i) ns).
Proof. intros H. by rewrite <-(take_drop_middle _ _ _ H) at 1; rewrite content_app. Qed.

Lemma blocks_insert ns i l nd nd' :
  ns !! i = Some (l, nd) →
  blocks (<[i := (l, nd')]> ns) =
    blocks (take i ns) ++ (if decide (node_len nd' = 0) then [] else [node_bytes nd']) ++
    blocks (drop (S i) ns).
Proof.
  intros. rewrite (insert_middle _ _ _ _ _ H), blocks_app. simpl. by case_decide.
Qed.

Lemma blocks_middle ns i l nd :
  ns !! i = Some (l, nd) →
  blocks ns =
    blocks (take i ns) ++ (if decide (node_len nd = 0) then [] else [node_bytes nd]) ++
    blocks (drop (S i) ns).
Proof. intros H. rewrite <-(blocks_insert _ _ _ _ nd H). by rewrite list_insert_id. Qed.

Lemma blocks_idle ns : Forall (λ x, node_idle x.2) ns → blocks ns = [].
Proof.
  intros H. apply blocks_empty. eapply Forall_impl; [|exact H]. intros x. apply node_idle_len.
Qed.

(** ** The counters while a write is under way

    [rlen] is updated once at the end of a write; until then the invariant holds
    of the buffer whose counter is already up to date. *)

Definition repx b ns ri wi : Prop := rep (set_rlen (zlen (content ns)) b) ns ri wi.

Lemma rep_repx b ns ri wi : rep b ns ri wi → repx b ns ri wi.
Proof.
  intros H. unfold repx. rewrite <-(rp_rlen _ _ _ _ H). by replace (set_rlen _ b) with b by by destruct b.
Qed.

Lemma repx_rep b ns ri wi : repx b ns ri wi → rlen b = zlen (content ns) → rep b ns ri wi.
Proof.
  intros H E. unfold repx in H. rewrite <-E in H.
  by replace (set_rlen _ b) with b in H by by destruct b.
Qed.

(** Counting [d] new bytes once they are in the chain. *)
Lemma repx_rlen_Add b ns ri wi d :
  repx b ns ri wi → rlen b + d = zlen (content ns) → 0 ≤ d →
  ∃ b', rlen_Add d b = Ret ((), b') ∧ rep b' ns ri wi ∧ cfg b' = cfg b.
Proof.
  intros H E Hd. eexists. split; [done|]. split; [|done].
  rewrite u32_add_r, E. rewrite u32_small; [exact H|].
  pose proof (rp_bound _ _ _ _ H). pose proof (zlen_nonneg (content ns)). lia.
Qed.

(** ** Appending a chain *)

Lemma with_next_ok p nd : node_ok nd → node_ok (with_next p nd).
Proof. by intros []. Qed.

Lemma with_next_idle p nd : node_idle nd → node_idle (with_next p nd).
Proof. by intros []. Qed.

(** Everything of [b'] that the invariant reads, after [cs] was linked at the end. *)
Record appended (b b' : Buffer) ns cs (h' : gmap loc node) (it : nat) l nd (wi' : nat) : Prop := {
  ap_heap : heap b' = <[l := with_next (addr cs 0) nd]> h';
  ap_head : head b' = head b;
  ap_tail : tail b' = addr cs (length cs - 1);
  ap_rnode : rnode b' = rnode b;
  ap_wnode : wnode b' = addr (<[it := (l, with_next (addr cs 0) nd)]> ns ++ cs) wi';
  ap_nbs : nodeBlockSize b' = nodeBlockSize b;
  ap_cfg : cfg b' = cfg b;
  ap_mc : mcache_ok (mc b');
  ap_nextloc : (nextloc b ≤ nextloc b')%positive;
  ap_fresh l' : l' ∈ cs.*1 → (l' < nextloc b')%positive
}.

Lemma rep_append b b' ns ri wi h' cs it l nd wi' :
  repx b ns ri wi → frag (heap b) h' cs → all_ok cs → (0 < length cs)%nat →
  ns !! it = Some (l, nd) → S it = length ns →
  (wi ≤ wi')%nat → (wi' < length ns + length cs)%nat →
  zlen (content ns) + zlen (content cs) < 2 ^ 32 →
  appended b b' ns cs h' it l nd wi' →
  let ns' := <[it := (l, with_next (addr cs 0) nd)]> ns ++ cs in
  Forall (λ x, node_idle x.2) (drop (S wi') ns') →
  repx b' ns' ri wi' ∧ content ns' = content ns ++ content cs ∧ blocks ns' = blocks ns ++ blocks cs.
Proof.
  intros H Hf Hoc Hcs Hi Hit Hwi Hwi' Hbd [Eh Ehd Et Ern Ewn En Ec Em Enl Efr] ns' Hid.
  set (nd' := with_next (addr cs 0) nd) in *.
  assert (content ns' = content ns ++ content cs) as Hc.
  { unfold ns'. rewrite content_app, (content_insert _ _ _ _ _ Hi).
    by rewrite (content_middle _ _ _ _ Hi) at 1. }
  assert (blocks ns' = blocks ns ++ blocks cs) as Hb.
  { unfold ns'. rewrite blocks_app, (blocks_insert _ _ _ _ _ Hi).
    by rewrite (blocks_middle ns _ _ _ Hi). }
  split; [|done].
  assert (length (<[it:=(l, nd')]> ns) = length ns) as Hlen by apply length_insert.
  destruct H as [Hs Ho Hh Ht Hrn Hwn Hri Hwl Hrd _ _ _ Hnbs Hcfg _ Hfr]. simpl in *.
  split; simpl; rewrite ?Eh, ?Ehd, ?Et, ?Ern, ?Ewn, ?En, ?Ec; try done.
  - by eapply shape_join.
  - apply Forall_app_2; [|done]. apply all_ok_insert; [done|].
    apply with_next_ok. exact (all_ok_lookup _ _ _ _ Ho Hi).
  - rewrite Hh. unfold ns'. rewrite addr_app_l by lia. by rewrite (addr_insert _ _ _ _ _ _ Hi).
  - unfold ns'. rewrite length_app, Hlen.
    replace (length ns + length cs - 1)%nat with (length (<[it:=(l, nd')]> ns) + (length cs - 1))%nat by lia.
    by rewrite addr_app_r.
  - rewrite Hrn. unfold ns'. rewrite addr_app_l by lia. by rewrite (addr_insert _ _ _ _ _ _ Hi).
  - lia.
  - unfold ns'. rewrite length_app, Hlen. lia.
  - unfold ns'. rewrite take_app_le by lia. by rewrite take_insert_ge by lia.
  - rewrite Hc, zlen_app. lia.
  - intros l' [nd0 Hl']. destruct (decide (l' ∈ cs.*1)) as [|Hni]; [by apply Efr|].
    assert (is_Some (heap b !! l')) as Hold.
    { apply lookup_insert_Some in Hl' as [[<- _]|[_ Hl']].
      - exists nd. by apply (shape_lookup _ _ _ _ _ Hs Hi).
      - rewrite (fr_old _ _ _ Hf) in Hl' by done. by exists nd0. }
    apply Hfr in Hold. lia.
Qed.

(** ** addNode *)

(** A node as [addNode] makes it. *)
Record fresh_node (sz : Z) nd : Prop := {
  fn_ok : node_ok nd;
  fn_idle : node_idle nd;
  fn_cap : node_cap nd = sz;
  fn_next : n_next nd = None
}.

Lemma allocNodeBlock_ok sz b :
  mcache_ok (mc b) → 0 < sz < 2 ^ 32 →
  ∃ nd m', fresh_node sz nd ∧ mcache_ok m' ∧
    allocNodeBlock sz b = Ret (Some (nextloc b),
      set_mc m' (set_nextloc (Pos.succ (nextloc b))
        (set_heap (<[nextloc b := nd]> (heap b)) b))).
Proof.
  intros Hm Hsz. destruct (Malloc_ok sz (mc b) Hm ltac:(lia)) as (s & m' & Hr & Hm' & Hl & Hok & Hlt & Hc).
  exists (with_recycle true (with_block (Some s) zero_node)), m'. split; [|split; [done|]].
  - unfold slice_ok in Hok. split; [split|split|..]; simpl; unfold node_cap; simpl; try done; try lia.
    + intros s' ?. by simplify_eq.
    + intros _. exists s. split; [done|]. lia.
  - unfold allocNodeBlock. mpure. erewrite bind_Ret by (simpl; by rewrite lookup_insert_eq).
    erewrite bind_Ret; cycle 1.
    { apply zoom_Ret. unfold node_allocBlockN.
      change (mc _) with (mc b). rewrite Hr. reflexivity. }
    mpure. unfold mret, M_ret. simpl. unfold set_heap, set_nextloc, set_mc. simpl.
    by rewrite insert_insert_eq.
Qed.

(** The nodes after the write node, when one more is added. *)
Lemma idle_append ns it l nd wi x :
  ns !! it = Some (l, nd) → S it = length ns → (wi < length ns)%nat →
  Forall (λ x, node_idle x.2) (drop (S wi) ns) → node_idle x.2 →
  ∀ p, Forall (λ x, node_idle x.2) (drop (S wi) (<[it := (l, with_next p nd)]> ns ++ [x])).
Proof.
  intros Hi Hit Hwi Hid Hx p. rewrite drop_app_le by (rewrite length_insert; lia).
  apply Forall_app_2; [|by constructor].
  destruct (decide (it = wi)) as [->|].
  - rewrite drop_ge; [by constructor|]. rewrite length_insert. lia.
  - rewrite drop_insert_ge by lia. apply Forall_insert; [done|]. apply with_next_idle.
    apply (Forall_lookup_1 _ _ (it - S wi) (l, nd) Hid).
    rewrite lookup_drop. by replace (S wi + (it - S wi))%nat with it by lia.
Qed.

Lemma addNode_ok b ns ri wi :
  repx b ns ri wi →
  ∃ b' ns' it l nd l' nd',
    addNode b = Ret ((), b') ∧ repx b' ns' ri wi ∧ content ns' = content ns ∧
    blocks ns' = blocks ns ∧
    ns !! it = Some (l, nd) ∧ S it = length ns ∧
    ns' = <[it := (l, with_next (Some l') nd)]> ns ++ [(l', nd')] ∧
    fresh_node (nodeBlockSize b) nd' ∧ rlen b' = u32 (rlen b) ∧ cfg b' = cfg b ∧
    nodeBlockSize b' = nodeBlockSize b ∧ wnode b' = wnode b.
Proof.
  intros H. unfold addNode. mpure. destruct (rp_nbs _ _ _ _ H) as [Hn0 Hn1].
  destruct (allocNodeBlock_ok (nodeBlockSize b) b) as (nd' & m' & Hfn & Hm' & Hal);
    [apply (rp_mc _ _ _ _ H)|simpl in *; lia|].
  mrun Hal. mpure. pose proof (rp_tail _ _ _ _ H) as Ht. simpl in Ht. simpl.
  pose proof (rp_wi _ _ _ _ H) as Hwl.
  destruct (node_at ns (length ns - 1) ltac:(lia)) as (l & nd & Hi).
  assert (S (length ns - 1) = length ns) as Hit by lia.
  set (it := (length ns - 1)%nat) in *. rewrite Ht, (addr_Some _ _ _ _ Hi).
  pose proof (rp_shape _ _ _ _ H) as Hs. simpl in Hs.
  pose proof (shape_lookup _ _ _ _ _ Hs Hi) as Hl.
  assert (heap b !! nextloc b = None) as Hnew.
  { destruct (heap b !! nextloc b) eqn:E; [|done].
    assert (nextloc b < nextloc b)%positive by (apply (rp_fresh _ _ _ _ H); simpl; by eexists). lia. }
  assert (nextloc b ≠ l) as Hne by (intros E; rewrite E in Hnew; congruence).
  erewrite bind_Ret by (simpl; by rewrite lookup_insert_ne, Hl).
  mpure. mpure. simpl.
  erewrite bind_Ret by (simpl; by rewrite lookup_insert_ne, lookup_insert_eq by done).
  mpure. destruct Hfn as [Hok Hidl Hcap Hnx].
  assert (node_len nd' = 0) as Hz by (by apply node_idle_len).
  eexists _, _, it, l, nd, (nextloc b), nd'. split; [done|].
  destruct (rep_append b
    (set_rlen (u32 (rlen b + u32 (node_len nd'))) (set_wlen (u32 (wlen b + u32 (node_rest nd')))
      (set_tail (Some (nextloc b))
        (set_heap (<[l := with_next (Some (nextloc b)) nd]> (<[nextloc b := nd']> (heap b)))
          (set_mc m' (set_nextloc (Pos.succ (nextloc b))
            (set_heap (<[nextloc b := nd']> (heap b)) b)))))))
    ns ri wi (<[nextloc b := nd']> (heap b)) [(nextloc b, nd')] it l nd wi)
    as (Hrep & Hc & Hb); try done; try lia.
  - by apply frag_single.
  - by apply Forall_singleton.
  - simpl. lia.
  - simpl. rewrite node_idle_bytes by done. pose proof (rp_bound _ _ _ _ H). unfold zlen at 2. simpl. lia.
  - split; try done; simpl.
    + rewrite addr_app_l by (rewrite length_insert; lia). rewrite (addr_insert _ _ _ _ _ _ Hi).
      apply (rp_wnode _ _ _ _ H).
    + lia.
    + intros l' ->%list_elem_of_singleton. lia.
  - by apply idle_append; [| | |apply (rp_idle _ _ _ _ H)|].
  - change (addr [(nextloc b, nd')] 0) with (Some (nextloc b)) in *.
    split; [exact Hrep|]. split; [rewrite Hc; simpl; by rewrite node_idle_bytes, !app_nil_r by done|].
    split; [rewrite Hb; simpl; rewrite decide_True by done; by rewrite app_nil_r|].
    split; [done|]. split; [done|]. split; [done|]. split; [done|].
    simpl. by rewrite Hz, Z.add_0_r.
Qed.

(** ** Linking a slice into an unused node *)

(** What a slice adds to the packets of a buffer. *)
Definition slice_blocks (s : slice) : list (list byte) :=
  if decide (s_len s = 0) then [] else [s_bytes s].

Definition data_of (bs : list slice) : list byte := concat (map s_bytes bs).
Definition blocks_of (bs : list slice) : list (list byte) := concat (map slice_blocks bs).

(** Slices the kernel of the program can be given: lengths fit [uint32]. *)
Definition slices_ok (bs : list slice) : Prop :=
  Forall (λ s, slice_ok s ∧ s_len s < 2 ^ 32) bs.

Lemma zlen_data_of bs : slices_ok bs → zlen (data_of bs) = byteSlicesLen bs.
Proof.
  unfold data_of, byteSlicesLen. induction 1 as [|s bs [Hs _] _ IH]; [done|]. simpl.
  rewrite zlen_app, IH, zlen_s_bytes by done. done.
Qed.

Lemma byteSlicesLen_nonneg bs : slices_ok bs → 0 ≤ byteSlicesLen bs.
Proof. intros H. rewrite <-zlen_data_of by done. apply zlen_nonneg. Qed.
#[export] Hint Resolve byteSlicesLen_nonneg : tnet.

Lemma node_setBlock_ok s nd m :
  node_ok nd → n_w nd = 0 → slice_ok s → s_len s < 2 ^ 32 → mcache_ok m →
  let '(nd', m') := node_setBlock s nd m in
  node_ok nd' ∧ mcache_ok m' ∧ n_next nd' = n_next nd ∧ n_r nd' = 0 ∧
  node_bytes nd' = s_bytes s ∧ node_len nd' = s_len s.
Proof.
  intros Hn Hw Hs Hl Hm. unfold node_setBlock. unfold slice_ok in Hs.
  assert (n_r nd = 0) as Hr by (destruct Hn; lia).
  assert (mcache_ok match n_recycle nd with
                    | true => match n_block nd with Some old => Free old m | None => m end
                    | false => m end) as Hm'.
  { destruct (n_recycle nd) eqn:E; [|done]. destruct (nok_recycle _ Hn E) as (o & -> & ?).
    apply Free_ok; [done|lia|lia]. }
  rewrite u32_small by lia. split; [|split; [|split; [|split; [|split]]]]; try done.
  - split; simpl; unfold node_cap; simpl; try lia. intros s' ?. by simplify_eq.
  - unfold node_bytes. simpl. rewrite Hr. unfold zsub, s_bytes. by rewrite Z.sub_0_r, zdrop_0.
  - unfold node_len. simpl. rewrite Hr, Z.sub_0_r. apply u32_small. lia.
Qed.

Lemma link_step b ns ri wi j l nd s nd' m' :
  repx b ns ri wi → j = wi ∨ j = S wi → ns !! j = Some (l, nd) → n_w nd = 0 →
  slice_ok s → s_len s < 2 ^ 32 → zlen (content ns) + s_len s < 2 ^ 32 →
  node_setBlock s nd (mc b) = (nd', m') →
  let b' := set_wnode (addr ns j) (set_heap (<[l := nd']> (heap b)) (set_mc m' b)) in
  let ns' := <[j := (l, nd')]> ns in
  repx b' ns' ri j ∧ content ns' = content ns ++ s_bytes s ∧
  blocks ns' = blocks ns ++ slice_blocks s.
Proof.
  intros H Hj Hi Hw Hs Hl Hbd Hsb b' ns'.
  pose proof (rp_ok _ _ _ _ H) as Ho. pose proof (all_ok_lookup _ _ _ _ Ho Hi) as Hn.
  pose proof (node_setBlock_ok s nd (mc b) Hn Hw Hs Hl (rp_mc _ _ _ _ H)) as Hset.
  rewrite Hsb in Hset. destruct Hset as (Hn' & Hm' & Hnx & Hr' & Hby & Hln).
  assert (node_len nd = 0) as Hz.
  { rewrite node_len_spec by done. destruct Hn. lia. }
  pose proof (rp_idle _ _ _ _ H) as Hid.
  assert (Forall (λ x, node_idle x.2) (drop (S j) ns)) as Hid'.
  { destruct Hj as [->| ->]; [done|]. replace (S (S wi)) with (S wi + 1)%nat by lia.
    rewrite <-drop_drop. by apply Forall_drop. }
  assert (content ns' = content ns ++ s_bytes s) as Hc.
  { unfold ns'. rewrite (content_insert _ _ _ _ _ Hi), (content_middle ns _ _ _ Hi).
    rewrite (content_idle _ Hid'), (node_bytes_nil nd), Hby by done. simpl. by rewrite !app_nil_r. }
  split; [|split; [done|]].
  - destruct H as [Hsh _ Hh Ht Hrn Hwn Hri Hwl Hrd _ _ _ Hnbs Hcfg _ Hfr]. simpl in *.
    assert (length ns' = length ns) as Hlen by apply length_insert.
    split; simpl; rewrite ?Hlen; unfold ns'; rewrite ?(addr_insert _ _ _ _ _ _ Hi); try done.
    + by eapply shape_insert.
    + by apply all_ok_insert.
    + lia.
    + by eapply lookup_lt_Some.
    + rewrite take_insert_ge by lia. done.
    + by rewrite drop_insert_lt by lia.
    + fold ns'. rewrite Hc, zlen_app, zlen_s_bytes by done. lia.
    + intros l' [nd0 Hl']. apply Hfr. apply lookup_insert_Some in Hl' as [[<- _]|[_ ?]]; [|by exists nd0].
      exists nd. exact (shape_lookup _ _ _ _ _ Hsh Hi).
  - unfold ns', slice_blocks.
    rewrite (blocks_insert _ _ _ _ _ Hi), (blocks_middle ns _ _ _ Hi).
    rewrite (blocks_idle _ Hid'), Hln, Hby, (decide_True (P := node_len nd = 0)) by done.
    simpl. by rewrite !app_nil_r.
Qed.

(** What linking the slices [bs] does to the chain. *)
Record linked_to (ns ns' : nodes) (bs : list slice) : Prop := {
  lt_content : content ns' = content ns ++ data_of bs;
  lt_blocks : blocks ns' = blocks ns ++ blocks_of bs
}.

Lemma linked_to_nil ns : linked_to ns ns [].
Proof. split; by rewrite app_nil_r. Qed.

Lemma linked_to_trans ns ns1 ns2 bs1 bs2 :
  linked_to ns ns1 bs1 → linked_to ns1 ns2 bs2 → linked_to ns ns2 (bs1 ++ bs2).
Proof.
  intros [Hc Hb] [Hc' Hb']. split.
  - rewrite Hc', Hc. unfold data_of. by rewrite map_app, concat_app, app_assoc.
  - rewrite Hb', Hb. unfold blocks_of. by rewrite map_app, concat_app, app_assoc.
Qed.

Lemma linked_to_one ns ns' s :
  content ns' = content ns ++ s_bytes s → blocks ns' = blocks ns ++ slice_blocks s →
  linked_to ns ns' [s].
Proof. intros Hc Hb. split; unfold data_of, blocks_of; simpl; by rewrite app_nil_r. Qed.

(** [b'] differs from [b] by the chain, its counters and its memory only. *)
Definition same_env b b' : Prop := cfg b' = cfg b ∧ nodeBlockSize b' = nodeBlockSize b ∧ rlen b' = rlen b.

(** The loop of [linkWithExistingNodes], at node [j].  Either every slice was linked
    or the chain ran out of nodes. *)
Lemma link_loop_ok (len : nat) fuel b ns ri wi j bs lk lg wl :
  len = (length ns - j)%nat →
  repx b ns ri wi → j = wi ∨ j = S wi → slices_ok bs →
  zlen (content ns) + byteSlicesLen bs < 2 ^ 32 → (len < fuel)%nat →
  ∃ b' ns' wi' bs1 bs2 wl',
    link_loop fuel (addr ns j) bs lk lg wl b = Ret ((lk + zlen bs1, lg + byteSlicesLen bs1, wl'), b') ∧
    bs = bs1 ++ bs2 ∧ repx b' ns' ri wi' ∧ linked_to ns ns' bs1 ∧ length ns' = length ns ∧
    (wi ≤ wi')%nat ∧ same_env b b' ∧ (bs2 = [] ∨ S wi' = length ns').
Proof.
  revert fuel b ns wi j bs lk lg wl. induction len as [|len IH];
    intros fuel b ns wi j bs lk lg wl Hlen H Hj Hbs Hbd Hf;
    (destruct fuel as [|fuel]; [lia|]); cbn [link_loop]; pose proof (rp_wi _ _ _ _ H) as Hwl.
  { assert (addr ns j = None) as -> by (apply addr_None; lia).
    exists b, ns, wi, [], bs, wl. unfold byteSlicesLen. simpl.
    rewrite !Z.add_0_r. split_and!; try done; [apply linked_to_nil|right; lia]. }
  destruct (node_at ns j ltac:(lia)) as (l & nd & Hi).
  rewrite (addr_Some _ _ _ _ Hi). destruct bs as [|s bs].
  { exists b, ns, wi, [], [], wl. unfold byteSlicesLen. simpl.
    rewrite !Z.add_0_r. split_and!; try done; [apply linked_to_nil|by left]. }
  rewrite <-(addr_Some _ _ _ _ Hi). pose proof (rp_shape _ _ _ _ H) as Hsh. simpl in Hsh.
  mload. rewrite (shape_next _ _ _ _ _ Hsh Hi). case_decide as Hw.
  - (* a node that holds data already: only the write node can be one *)
    assert (j = wi) as ->.
    { destruct Hj as [?| ->]; [done|]. exfalso. apply Hw, nid_w.
      apply (Forall_lookup_1 _ _ 0 (l, nd) (rp_idle _ _ _ _ H)). by rewrite lookup_drop, Nat.add_0_r. }
    apply IH; [lia|done|by right|done|done|lia].
  - apply Forall_cons_1 in Hbs as [[Hs Hsl] Hbs].
    assert (byteSlicesLen (s :: bs) = s_len s + byteSlicesLen bs) as Hbl by done.
    assert (0 ≤ byteSlicesLen bs) as Hnn by auto with tnet.
    mpure. destruct (node_setBlock s nd (mc b)) as [nd' m'] eqn:Hsb. mpure. mstore. mpure.
    destruct (link_step b ns ri wi j l nd s nd' m') as (H1 & Hc1 & Hb1);
      [done|done|done|by destruct (decide (n_w nd = 0))|done|done|lia|done|]. simpl in *.
    unfold set_heap at 1. simpl.
    destruct (IH fuel (set_wnode (addr ns j) (set_heap (<[l:=nd']> (heap b)) (set_mc m' b)))
      (<[j:=(l, nd')]> ns) j (S j) bs (lk + 1) (lg + s_len s) (wl + node_rest nd))
      as (b' & ns' & wi' & bs1 & bs2 & wl' & Hr & -> & H2 & Hl2 & Hlen2 & Hwi2 & Hse & Hor).
    + rewrite length_insert. lia.
    + exact H1.
    + by right.
    + done.
    + rewrite Hc1, zlen_app, zlen_s_bytes by done. lia.
    + lia.
    + rewrite (addr_insert _ _ _ _ _ _ Hi) in Hr.
      exists b', ns', wi', (s :: bs1), bs2, wl'. rewrite length_insert in Hlen2.
      split; [|split_and!; try done; [|lia]].
      * etrans; [exact Hr|]. rewrite zlen_cons. do 3 f_equal. f_equal; [lia|].
        unfold byteSlicesLen. simpl. lia.
      * by apply (linked_to_trans _ _ _ [s] bs1 (linked_to_one _ _ _ Hc1 Hb1)).
Qed.

(** ** Building a chain of new nodes *)

Definition fresh_heap b : Prop := ∀ l, is_Some (heap b !! l) → (l < nextloc b)%positive.

Definition chain_of (cs : nodes) (dl : Z) : chain := Chain (addr cs 0) (addr cs (length cs - 1)) dl.

(** The state after a chain was built: only memory changed. *)
Record grown b b' : Prop := {
  gr_only : b' = set_nextloc (nextloc b') (set_heap (heap b') b);
  gr_nextloc : (nextloc b ≤ nextloc b')%positive;
  gr_fresh : fresh_heap b'
}.

Lemma grown_trans b b1 b2 : grown b b1 → grown b1 b2 → grown b b2.
Proof.
  intros [E1 ? ?] [E2 ? ?]. split; [|lia|done]. rewrite E2 at 1. rewrite E1. done.
Qed.

(** One more node at the end of the chain under construction. *)
Lemma frag_snoc h0 h cs l nd :
  frag h0 h cs → h !! l = None → n_next nd = None → all_ok cs → node_ok nd →
  ∃ cs' h', frag h0 h' cs' ∧ all_ok cs' ∧ content cs' = content cs ++ node_bytes nd ∧
    blocks cs' = blocks cs ++ blocks [(l, nd)] ∧ length cs' = S (length cs) ∧
    addr cs' (length cs) = Some l ∧ addr cs' 0 = (match addr cs 0 with None => Some l | x => x end) ∧
    h' = (match addr cs (length cs - 1) with
          | None => <[l := nd]> h
          | Some lt => match h !! lt with
                       | Some nt => <[lt := with_next (Some l) nt]> (<[l := nd]> h)
                       | None => ∅
                       end
          end) ∧
    (∀ l', is_Some (h' !! l') → is_Some (h !! l') ∨ l' = l).
Proof.
  intros Hf Hl Hn Ho Hnd. destruct (decide (cs = [])) as [->|Hne].
  - assert (h = h0) as <- by (apply map_eq; intros; apply Hf, not_elem_of_nil).
    exists [(l, nd)], (<[l := nd]> h). split_and!; try done.
    + by apply frag_single.
    + by apply Forall_singleton.
    + simpl. by rewrite app_nil_r.
    + intros l' [x Hx]. apply lookup_insert_Some in Hx as [[<- _]|[_ ?]]; [by right|left; by exists x].
  - assert (0 < length cs)%nat as Hlen by (destruct cs; [done|simpl; lia]).
    destruct (node_at cs (length cs - 1) ltac:(lia)) as (lt & nt & Hi).
    pose proof (frag_join h0 h _ cs [(l, nd)] (length cs - 1) lt nt Hf
                  (frag_single h l nd Hl Hn) Hi ltac:(lia)) as Hj.
    change (addr [(l, nd)] 0) with (Some l) in Hj.
    rewrite (addr_Some _ _ _ _ Hi). destruct (fr_look _ _ _ Hf _ _ _ Hi) as [-> _].
    eexists _, _. split; [exact Hj|]. split_and!; try done.
    + apply Forall_app_2; [|by apply Forall_singleton]. apply all_ok_insert; [done|].
      apply with_next_ok. exact (all_ok_lookup _ _ _ _ Ho Hi).
    + rewrite content_app, (content_insert _ _ _ _ _ Hi), (content_middle cs _ _ _ Hi). simpl.
      by rewrite app_nil_r.
    + by rewrite blocks_app, (blocks_insert _ _ _ _ _ Hi), (blocks_middle cs _ _ _ Hi).
    + rewrite length_app, length_insert. simpl. lia.
    + unfold addr. rewrite lookup_app_r by (rewrite length_insert; lia).
      by rewrite length_insert, Nat.sub_diag.
    + rewrite addr_app_l by (by rewrite length_insert). rewrite (addr_insert _ _ _ _ _ _ Hi).
      destruct (addr cs 0) eqn:E; [done|]. apply addr_None in E. lia.
    + intros l' [x Hx]. destruct (fr_look _ _ _ Hf _ _ _ Hi) as [Hlt _].
      apply lookup_insert_Some in Hx as [[<- _]|[_ Hx]]; [left; by exists nt|].
      apply lookup_insert_Some in Hx as [[<- _]|[_ Hx]]; [by right|left; by exists x].
Qed.

Lemma chain_initialize_ok bs b h0 cs dl :
  frag h0 (heap b) cs → all_ok cs → slices_ok bs → fresh_heap b → mcache_ok (mc b) →
  ∃ b' cs',
    chain_initialize false bs (chain_of cs dl) (addr cs (length cs - 1)) b =
      Ret (chain_of cs' (dl + byteSlicesLen bs), b') ∧
    frag h0 (heap b') cs' ∧ all_ok cs' ∧ linked_to cs cs' bs ∧ grown b b'.
Proof.
  revert b cs dl. induction bs as [|s bs IH]; intros b cs dl Hf Ho Hbs Hfr Hm; cbn [chain_initialize].
  { exists b, cs. unfold byteSlicesLen. simpl. rewrite Z.add_0_r.
    split_and!; try done; [apply linked_to_nil|]. split; [by destruct b|lia|done]. }
  apply Forall_cons_1 in Hbs as [[Hs Hsl] Hbs].
  assert (byteSlicesLen (s :: bs) = s_len s + byteSlicesLen bs) as Hbl by done. rewrite Hbl.
  case_decide as Hz.
  { rewrite Hz. destruct (IH b cs dl) as (b' & cs' & Hr & ? & ? & Hl & ?); [done..|].
    exists b', cs'. split_and!; try done. apply (linked_to_trans _ cs _ [s] bs); [|done].
    apply linked_to_one; [|unfold slice_blocks; by rewrite decide_True, app_nil_r].
    unfold s_bytes. by rewrite Hz, ztake_0, app_nil_r. }
  assert (heap b !! nextloc b = None) as Hnew.
  { destruct (heap b !! nextloc b) eqn:E; [|done].
    assert (nextloc b < nextloc b)%positive by (apply Hfr; by eexists). lia. }
  mpure. erewrite bind_Ret by (simpl; by rewrite lookup_insert_eq). mpure.
  change (mc (set_nextloc _ _)) with (mc b).
  pose proof (node_setBlock_ok s (with_recycle false zero_node) (mc b) zero_node_ok eq_refl Hs Hsl Hm) as Hset.
  destruct (node_setBlock s (with_recycle false zero_node) (mc b)) as [nd m'] eqn:Hsb.
  assert (m' = mc b) as -> by (unfold node_setBlock in Hsb; simpl in Hsb; by simplify_eq).
  destruct Hset as (Hnd & _ & Hnx & _ & Hby & Hln). simpl in Hnx.
  mpure. mpure. simpl. rewrite insert_insert_eq.
  destruct (frag_snoc h0 (heap b) cs (nextloc b) nd Hf Hnew Hnx Ho Hnd)
    as (cs1 & h1 & Hf1 & Ho1 & Hc1 & Hb1 & Hlen1 & Hl1 & Hh1 & Eh1 & Hdom1).
  set (b1 := set_nextloc (Pos.succ (nextloc b)) (set_heap h1 b)).
  assert (grown b b1) as Hg1.
  { split; [done|simpl; lia|]. intros l' [Hl'| ->]%Hdom1; simpl; [apply Hfr in Hl'|]; lia. }
  destruct (IH b1 cs1 (dl + s_len s)) as (b' & cs' & Hr & Hf' & Ho' & Hl' & Hg'); try done.
  { apply Hg1. }
  exists b', cs'. rewrite Z.add_assoc. split; [|split_and!; try done].
  - rewrite <-Hr. unfold chain_of at 1. rewrite Hh1, Hlen1. simpl. rewrite Nat.sub_0_r, Hl1.
    destruct (addr cs (length cs - 1)) as [lt|] eqn:Elt.
    + assert (∃ nt, heap b !! lt = Some nt ∧ nextloc b ≠ lt) as (nt & Ent & Hne).
      { unfold addr in Elt. apply fmap_Some in Elt as ([l0 nt] & Hi & ->). exists nt.
        destruct (fr_look _ _ _ Hf _ _ _ Hi) as [Hh _]. split; [done|]. simpl. congruence. }
      rewrite Ent in Eh1.
      erewrite bind_Ret; cycle 1.
      { erewrite bind_Ret by (simpl; by rewrite lookup_insert_ne, Ent by done). reflexivity. }
      unfold b1. rewrite Eh1. unfold chain_of. simpl. by destruct (addr cs 0).
    + mpure. unfold b1. rewrite Eh1. unfold chain_of. simpl. by destruct (addr cs 0).
  - apply (linked_to_trans _ cs1 _ [s] bs); [|done]. apply linked_to_one; [by rewrite Hc1, Hby|].
    rewrite Hb1. simpl. unfold slice_blocks. by rewrite Hln, Hby, !decide_False by done.
  - by eapply grown_trans.
Qed.

(** ** linkFrom *)

Lemma rep_set_wlen b ns ri wi v : rep b ns ri wi → rep (set_wlen v b) ns ri wi.
Proof. by intros []. Qed.

(** What a write by reference leaves behind. *)
Record wrote b ns ri (bs : list slice) b' : Prop := {
  wr_rep : ∃ ns' wi', rep b' ns' ri wi' ∧ linked_to ns ns' bs ∧ S wi' = length ns';
  wr_cfg : cfg b' = cfg b
}.

Lemma linkWithExistingNodes_ok b ns ri wi bs :
  rep b ns ri wi → slices_ok bs → zlen (content ns) + byteSlicesLen bs < 2 ^ 32 →
  ∃ b' ns' wi' bs1 bs2,
    linkWithExistingNodes bs b = Ret ((zlen bs1, byteSlicesLen bs1), b') ∧ bs = bs1 ++ bs2 ∧
    rep b' ns' ri wi' ∧ linked_to ns ns' bs1 ∧ length ns' = length ns ∧ (wi ≤ wi')%nat ∧
    cfg b' = cfg b ∧ (bs2 = [] ∨ S wi' = length ns').
Proof.
  intros H Hbs Hbd. unfold linkWithExistingNodes. mpure. rewrite (rp_wnode _ _ _ _ H).
  pose proof (loop_fuel_shape _ _ (rp_shape _ _ _ _ H)) as Hfu.
  destruct (link_loop_ok (length ns - wi) (loop_fuel b) b ns ri wi wi bs 0 0 0)
    as (b1 & ns' & wi' & bs1 & bs2 & wl' & Hr & -> & H1 & Hl & Hlen & Hwi & (Ec & En & Erl) & Hor);
    [done|by apply rep_repx|by left|done|done|lia|].
  mrun Hr. rewrite !Z.add_0_l. cbv beta iota.
  apply Forall_app in Hbs as [Hbs1 _].
  destruct (repx_rlen_Add b1 ns' ri wi' (byteSlicesLen bs1) H1) as (b2 & Hr2 & H2 & Ec2).
  { rewrite Erl, (rp_rlen _ _ _ _ H), (lt_content _ _ _ Hl), zlen_app, zlen_data_of by done. done. }
  { auto with tnet. }
  mrun Hr2. mpure. eexists _, ns', wi', bs1, bs2. split; [done|].
  split_and!; try done; [by apply rep_set_wlen|]. simpl. congruence.
Qed.

Lemma byteSlicesLen_0 bs : slices_ok bs → byteSlicesLen bs = 0 → Forall (λ s, s_len s = 0) bs.
Proof.
  induction 1 as [|s bs [Hs _] Hbs IH]; intros Hz; [by constructor|].
  assert (0 ≤ byteSlicesLen bs) by auto with tnet.
  unfold slice_ok in Hs. change (s_len s + byteSlicesLen bs = 0) in Hz.
  constructor; [lia|]. apply IH. lia.
Qed.

(** Slices without data are not linked. *)
Lemma chain_initialize_empty f bs c p b :
  Forall (λ s, s_len s = 0) bs → chain_initialize f bs c p b = Ret (c, b).
Proof. induction 1 as [|s bs Hz _ IH]; [done|]. cbn [chain_initialize]. by rewrite decide_True. Qed.

Lemma linked_to_empty ns bs : Forall (λ s, s_len s = 0) bs → linked_to ns ns bs.
Proof.
  induction 1 as [|s bs Hz _ IH]; [apply linked_to_nil|].
  apply (linked_to_trans _ ns _ [s] bs); [|done]. apply linked_to_one.
  - unfold s_bytes. by rewrite Hz, ztake_0, app_nil_r.
  - unfold slice_blocks. by rewrite decide_True, app_nil_r.
Qed.

Lemma linkWithNewNodes_ok b ns ri wi bs :
  rep b ns ri wi → S wi = length ns → slices_ok bs →
  zlen (content ns) + byteSlicesLen bs < 2 ^ 32 →
  ∃ b', linkWithNewNodes bs b = Ret (byteSlicesLen bs, b') ∧ wrote b ns ri bs b'.
Proof.
  intros H Hw Hbs Hbd. unfold linkWithNewNodes.
  destruct (decide (byteSlicesLen bs = 0)) as [Hz|Hnz].
  { pose proof (byteSlicesLen_0 bs Hbs Hz) as He.
    mrun (chain_initialize_empty false bs (Chain None None 0) None b He). simpl.
    exists b. split; [by rewrite Hz|]. split; [|done]. exists ns, wi.
    split_and!; try done. by apply linked_to_empty. }
  destruct (chain_initialize_ok bs b (heap b) [] 0) as (b1 & cs & Hr & Hf & Hoc & [Hc Hb] & Hg);
    [apply frag_nil|apply List.Forall_nil|done|exact (rp_fresh _ _ _ _ H)|apply H|].
  change (chain_initialize false bs (Chain None None 0) None b) with
    (chain_initialize false bs (chain_of [] 0) (addr [] (length (A := loc * node) [] - 1)) b) in *.
  erewrite bind_Ret by (exact Hr). rewrite Z.add_0_l. simpl c_dataLen. rewrite decide_False by done.
  simpl in Hc, Hb. pose proof (zlen_data_of bs Hbs) as Hzl. destruct Hg as [Eb1 Hnl Hfr].
  assert (0 < length cs)%nat as Hcs.
  { destruct cs; [|simpl; lia]. simpl in Hc. rewrite <-Hc in Hzl. unfold zlen in Hzl. simpl in Hzl. lia. }
  unfold addChain.
  destruct (node_at ns wi (rp_wi _ _ _ _ H)) as (l & nd & Hi).
  pose proof (shape_lookup _ _ _ _ _ (rp_shape _ _ _ _ H) Hi) as Hl.
  pose proof (elem_of_addr _ _ _ _ Hi) as Hin.
  assert (heap b1 !! l = Some nd) as Hl1.
  { rewrite (fr_old _ _ _ Hf); [done|]. intros E. rewrite (fr_new _ _ _ Hf l E) in Hl. done. }
  assert (wnode b1 = Some l) as Hwn
    by (rewrite Eb1; simpl; by rewrite (rp_wnode _ _ _ _ H), (addr_Some _ _ _ _ Hi)).
  set (b2 := set_tail (addr cs (length cs - 1)) (set_wnode (addr cs (length cs - 1))
               (set_heap (<[l := with_next (addr cs 0) nd]> (heap b1)) b1))).
  set (wi' := (length ns + (length cs - 1))%nat).
  destruct (rep_append b b2 ns ri wi (heap b1) cs wi l nd wi') as (H2 & Hc2 & Hb2); try done.
  { by apply rep_repx. } { lia. } { lia. } { rewrite Hc, Hzl. lia. }
  { unfold b2. rewrite Eb1. split; try done.
    - simpl. unfold wi'. rewrite <-(length_insert ns wi (l, with_next (addr cs 0) nd)).
      by rewrite addr_app_r.
    - apply (rp_mc _ _ _ _ H).
    - intros l' ([l0 nd0] & -> & [j Hj]%list_elem_of_lookup_1)%list_elem_of_fmap.
      simpl. apply Hfr. exists nd0. by apply (fr_look _ _ _ Hf j). }
  { rewrite drop_ge; [by constructor|]. rewrite length_app, length_insert. unfold wi'. lia. }
  destruct (repx_rlen_Add b2 _ ri wi' (byteSlicesLen bs) H2) as (b3 & Hr3 & H3 & Ec3).
  { rewrite Hc2, zlen_app, Hc, Hzl. unfold b2. rewrite Eb1. simpl. by rewrite (rp_rlen _ _ _ _ H). }
  { rewrite <-Hzl. apply zlen_nonneg. }
  exists b3. split.
  - erewrite bind_Ret; [done|]. mpure. rewrite Hwn.
    erewrite bind_Ret by (simpl; by rewrite Hl1). mpure. mpure. mpure. exact Hr3.
  - split; [|rewrite Ec3; unfold b2; by rewrite Eb1]. eexists _, wi'. split; [exact H3|].
    split; [split; [by rewrite Hc2, Hc|by rewrite Hb2, Hb]|].
    rewrite length_app, length_insert. unfold wi'. lia.
Qed.

Lemma data_of_app bs bs' : data_of (bs ++ bs') = data_of bs ++ data_of bs'.
Proof. unfold data_of. by rewrite map_app, concat_app. Qed.

Lemma byteSlicesLen_app bs bs' : byteSlicesLen (bs ++ bs') = byteSlicesLen bs + byteSlicesLen bs'.
Proof. unfold byteSlicesLen. by rewrite map_app, sumZ_app. Qed.

Lemma linkFrom_ok b ns ri wi bs :
  rep b ns ri wi → slices_ok bs → zlen (content ns) + byteSlicesLen bs < 2 ^ 32 →
  ∃ b' ns' wi', linkFrom bs b = Ret (byteSlicesLen bs, b') ∧ rep b' ns' ri wi' ∧
    linked_to ns ns' bs ∧ (S wi = length ns → S wi' = length ns') ∧ cfg b' = cfg b.
Proof.
  intros H Hbs Hbd. unfold linkFrom, linkFromLocked.
  destruct (linkWithExistingNodes_ok b ns ri wi bs H Hbs Hbd)
    as (b1 & ns1 & wi1 & bs1 & bs2 & Hr & -> & H1 & Hl1 & Hlen & Hwi & Ec1 & Hor).
  mrun Hr. cbv beta iota. pose proof (rp_wi _ _ _ _ H1).
  rewrite byteSlicesLen_app in *. apply Forall_app in Hbs as [Hbs1 Hbs2]. case_decide as Hlt.
  - destruct Hor as [->|Hlast]; [rewrite app_nil_r in Hlt; lia|].
    rewrite zdrop_app_exact.
    destruct (linkWithNewNodes_ok b1 ns1 ri wi1 bs2) as (b2 & Hr2 & [(ns2 & wi2 & H2 & Hl2 & Hw2) Ec2]);
      [done|done|done| |].
    { rewrite (lt_content _ _ _ Hl1), zlen_app, zlen_data_of by done. lia. }
    mrun Hr2. exists b2, ns2, wi2. split; [done|]. split; [done|]. split; [by eapply linked_to_trans|].
    split; [done|congruence].
  - assert (bs2 = []) as ->.
    { apply zlen_0_inv. rewrite zlen_app in Hlt. pose proof (zlen_nonneg bs2). lia. }
    exists b1, ns1, wi1. rewrite app_nil_r. unfold byteSlicesLen at 2. simpl. rewrite Z.add_0_r.
    split; [done|]. split; [done|]. split; [done|]. split; [lia|done].
Qed.

Lemma Writev_unsafe_ok wo b data bs :
  holds wo b data → slices_ok bs → zlen data + byteSlicesLen bs < 2 ^ 32 →
  ∃ b', Writev false bs b = Ret (byteSlicesLen bs, b') ∧ holds wo b' (data ++ data_of bs) ∧
        cfg b' = cfg b.
Proof.
  intros (ns & ri & wi & H & <- & Hwo) Hbs Hbd.
  destruct (linkFrom_ok b ns ri wi bs H Hbs Hbd) as (b' & ns' & wi' & Hr & H' & [Hc _] & Hw & Ec).
  exists b'. split; [done|]. split; [|done]. exists ns', ri, wi'. split_and!; auto.
Qed.

Lemma Writev_unsafe_blocks wo b bls bs :
  holds_blocks wo b bls → slices_ok bs → zlen (concat bls) + byteSlicesLen bs < 2 ^ 32 →
  ∃ b', Writev false bs b = Ret (byteSlicesLen bs, b') ∧ holds_blocks wo b' (bls ++ blocks_of bs) ∧
        cfg b' = cfg b.
Proof.
  intros (ns & ri & wi & H & <- & Hwo) Hbs Hbd.
  rewrite concat_blocks in Hbd by apply H.
  destruct (linkFrom_ok b ns ri wi bs H Hbs Hbd) as (b' & ns' & wi' & Hr & H' & [_ Hb] & Hw & Ec).
  exists b'. split; [done|]. split; [|done]. exists ns', ri, wi'. split_and!; auto.
Qed.
