(* ===== verification/BufferCopy.v ===== *)
(** * Writing by copy and filling from a data source

    Both [copyFrom] and [Fill] make sure that the chain has room after the write
    node ([prepareFill], [calNodes], [malloc]), store the bytes behind the write
    offsets and then move those offsets ([adjust]).  [write_nodes] says what that
    does to the chain. *)

From stdpp Require Import base gmap list numbers.
From S2P Require Import Prelude MCache Node LinkedBuffer BufferInv BufferRead BufferBlocks BufferMem BufferLink.

Local Open Scope Z_scope.

Implicit Types (b : Buffer) (nd : node) (l : loc) (p : option loc) (ns pre suf : nodes)
  (h : gmap loc node) (data : list byte).

(** ** Room in a chain *)

Definition room (ns : nodes) : Z := sumZ (map (λ x, node_rest x.2) ns).
Definition caps (ns : nodes) : list Z := map (λ x, node_cap x.2) ns.

Lemma room_cons x ns : room (x :: ns) = node_rest x.2 + room ns.
Proof. done. Qed.

Lemma room_app ns ns' : room (ns ++ ns') = room ns + room ns'.
Proof. unfold room. by rewrite map_app, sumZ_app. Qed.

Lemma node_rest_nonneg nd : node_ok nd → 0 ≤ node_rest nd.
Proof. intros []. unfold node_rest. lia. Qed.

Lemma room_nonneg ns : all_ok ns → 0 ≤ room ns.
Proof.
  induction 1 as [|[l nd] ns Hn _ IH]; [done|]. rewrite room_cons. simpl in *.
  pose proof (node_rest_nonneg nd Hn). lia.
Qed.

Lemma caps_app ns ns' : caps (ns ++ ns') = caps ns ++ caps ns'.
Proof. apply map_app. Qed.

(** ** Storing bytes into one node *)

Definition copy_node data nd : node :=
  match n_block nd with
  | None => nd
  | Some s => with_block (Some (overwrite s (n_w nd) data)) nd
  end.

(** Stored and counted. *)
Definition append_node data nd : node :=
  with_w (n_w nd + zlen data) (copy_node data nd).

Lemma copy_node_w data nd : n_w (copy_node data nd) = n_w nd.
Proof. unfold copy_node. by destruct (n_block nd). Qed.

Lemma copy_node_next data nd : n_next (copy_node data nd) = n_next nd.
Proof. unfold copy_node. by destruct (n_block nd). Qed.

Lemma copy_node_cap data nd : node_cap (copy_node data nd) = node_cap nd.
Proof. unfold copy_node, node_cap. by destruct (n_block nd) eqn:E; rewrite ?E. Qed.

Lemma copy_node_rest data nd : node_rest (copy_node data nd) = node_rest nd.
Proof. unfold node_rest. by rewrite copy_node_w, copy_node_cap. Qed.

(** Storing more than fits is storing what fits. *)
Lemma copy_node_clip data nd :
  node_ok nd → copy_node data nd = copy_node (ztake (node_rest nd) data) nd.
Proof.
  intros Hn. pose proof (node_rest_nonneg nd Hn) as Hr.
  unfold copy_node, node_rest, node_cap in *. destruct (n_block nd) as [s|]; [|done].
  do 2 f_equal. unfold overwrite. pose proof (zlen_nonneg data).
  rewrite zlen_ztake by lia.
  replace (Z.min (Z.min (s_len s - n_w nd) (zlen data)) (s_len s - n_w nd))
    with (Z.min (zlen data) (s_len s - n_w nd)) by lia.
  by rewrite ztake_ztake by lia.
Qed.

Lemma append_node_ok data nd :
  node_ok nd → zlen data ≤ node_rest nd →
  node_ok (append_node data nd) ∧ node_bytes (append_node data nd) = node_bytes nd ++ data.
Proof.
  intros [Hrw Hwc Hcap Hs Hrec] Hd. pose proof (zlen_nonneg data) as Hnn.
  unfold append_node, copy_node, node_rest, node_cap, node_bytes in *.
  destruct (n_block nd) as [s|] eqn:E.
  - specialize (Hs s eq_refl). split.
    + split; simpl; unfold node_cap; simpl; try lia.
      * intros s' ?. simplify_eq. by apply overwrite_ok; [|lia].
      * intros Hr. destruct (Hrec Hr) as (s' & ? & ?). simplify_eq. eexists. split; [done|].
        by rewrite overwrite_cap by (done || lia).
    + cbn [n_block n_r n_w with_w with_block]. rewrite (zsub_split _ (n_w nd)) by lia.
      by rewrite overwrite_below, overwrite_written by (done || lia).
  - assert (data = []) as -> by (apply zlen_0_inv; lia).
    unfold zlen. simpl. rewrite Z.add_0_r. rewrite E. split; [|done].
    split; simpl; unfold node_cap; simpl; rewrite ?E; try done; lia.
Qed.

(** ** The chain after a write *)

(** After the copying loop. *)
Fixpoint copied_nodes ns data : nodes :=
  match ns with
  | [] => []
  | (l, nd) :: ns =>
      (l, copy_node data nd) ::
      (if decide (zlen data ≤ node_rest nd) then ns
       else copied_nodes ns (zdrop (node_rest nd) data))
  end.

(** After [adjust]: the offsets moved over [n] bytes. *)
Fixpoint adjusted_nodes ns (n : Z) : nodes :=
  match ns with
  | [] => []
  | (l, nd) :: ns =>
      if decide (n ≤ node_rest nd) then (l, with_w (n_w nd + n) nd) :: ns
      else (l, with_w (n_w nd + node_rest nd) nd) :: adjusted_nodes ns (n - node_rest nd)
  end.

(** The position [adjust] stops at. *)
Fixpoint stop_at ns (n : Z) : nat :=
  match ns with
  | [] => 0
  | (l, nd) :: ns =>
      if decide (n ≤ node_rest nd) then 0 else S (stop_at ns (n - node_rest nd))
  end.

(** Both at once. *)
Fixpoint write_nodes ns data : nodes :=
  match ns with
  | [] => []
  | (l, nd) :: ns =>
      if decide (zlen data ≤ node_rest nd) then (l, append_node data nd) :: ns
      else (l, append_node (ztake (node_rest nd) data) nd) ::
           write_nodes ns (zdrop (node_rest nd) data)
  end.

Lemma adjusted_copied ns data :
  all_ok ns → zlen data ≤ room ns →
  adjusted_nodes (copied_nodes ns data) (zlen data) = write_nodes ns data.
Proof.
  revert data. induction ns as [|[l nd] ns IH]; intros data Ho Hd; [done|].
  apply Forall_cons_1 in Ho as [Hn Ho]. rewrite room_cons in Hd. simpl in *.
  pose proof (node_rest_nonneg nd Hn). rewrite copy_node_rest, copy_node_w.
  destruct (decide (zlen data ≤ node_rest nd)) as [Hle|Hgt]; [done|].
  f_equal.
  - f_equal. unfold append_node. rewrite zlen_ztake by lia. rewrite Z.min_l by lia.
    by rewrite copy_node_clip by done.
  - rewrite <-IH; [|done|rewrite zlen_zdrop; lia]. f_equal. rewrite zlen_zdrop; lia.
Qed.

Lemma stop_at_copied ns data n :
  stop_at (copied_nodes ns data) n = stop_at ns n.
Proof.
  revert data n. induction ns as [|[l nd] ns IH]; intros data n; [done|]. simpl.
  rewrite copy_node_rest. case_decide; [done|]. f_equal. by case_decide.
Qed.

Lemma room_copied ns data : room (copied_nodes ns data) = room ns.
Proof.
  revert data. induction ns as [|[l nd] ns IH]; intros data; [done|]. simpl.
  rewrite !room_cons. simpl. rewrite copy_node_rest. by case_decide; rewrite ?IH.
Qed.

Lemma all_ok_copied ns data : all_ok ns → all_ok (copied_nodes ns data).
Proof.
  revert data. induction ns as [|[l nd] ns IH]; intros data Ho; [done|].
  apply Forall_cons_1 in Ho as [Hn Ho]. simpl in *. apply Forall_cons_2.
  - unfold copy_node. destruct (n_block nd) as [s|] eqn:E; [|done].
    destruct Hn as [Hrw Hwc Hcap Hs Hrec].
    specialize (Hs s E). unfold node_cap in *. rewrite E in *.
    split; simpl; unfold node_cap; simpl; try done; try lia.
    + intros s' ?. simplify_eq. by apply overwrite_ok; [|lia].
    + intros Hr. destruct (Hrec Hr) as (s' & ? & ?). simplify_eq. eexists. split; [done|].
      by rewrite overwrite_cap by (done || lia).
  - case_decide; [done|]. by apply IH.
Qed.

(** Everything about the written suffix of a chain, [wi] being its first node. *)
Record written suf data suf' (k : nat) : Prop := {
  wt_ok : all_ok suf';
  wt_fst : suf'.*1 = suf.*1;
  wt_content : content suf' = content suf ++ data;
  wt_caps : caps suf' = caps suf;
  wt_stop : (k < length suf)%nat;
  wt_idle : Forall (λ x, node_idle x.2) (drop (S k) suf');
  wt_room : room (drop k suf') = room suf - zlen data
}.

Lemma write_nodes_cons l nd ns data :
  write_nodes ((l, nd) :: ns) data =
    if decide (zlen data ≤ node_rest nd) then (l, append_node data nd) :: ns
    else (l, append_node (ztake (node_rest nd) data) nd) :: write_nodes ns (zdrop (node_rest nd) data).
Proof. done. Qed.

Lemma stop_at_cons l nd ns n :
  stop_at ((l, nd) :: ns) n =
    if decide (n ≤ node_rest nd) then 0%nat else S (stop_at ns (n - node_rest nd)).
Proof. done. Qed.

Lemma write_nodes_ok x suf data :
  all_ok (x :: suf) → Forall (λ y, node_idle y.2) suf → zlen data ≤ room (x :: suf) →
  written (x :: suf) data (write_nodes (x :: suf) data) (stop_at (x :: suf) (zlen data)).
Proof.
  revert x data. induction suf as [|y suf IH]; intros [l nd] data Ho Hid Hd;
    apply Forall_cons_1 in Ho as [Hn Ho]; rewrite room_cons in Hd; simpl in Hn, Hd;
    rewrite write_nodes_cons, stop_at_cons;
    pose proof (node_rest_nonneg nd Hn) as Hr.
  all: assert (∀ d, zlen d ≤ node_rest nd → node_cap (append_node d nd) = node_cap nd ∧
                 node_rest (append_node d nd) = node_rest nd - zlen d) as Hap
    by (intros d _; unfold append_node, node_rest; simpl; unfold node_cap; simpl;
        pose proof (copy_node_cap d nd) as E; unfold node_cap in E; rewrite E; split; [done|lia]).
  - unfold room in Hd. simpl in Hd. rewrite !decide_True by lia.
    destruct (append_node_ok data nd Hn ltac:(lia)) as [Hok Hb].
    destruct (Hap data ltac:(lia)) as [Hc Hrs].
    split; simpl; try done; try lia.
    + by apply Forall_singleton.
    + rewrite Hb, !app_nil_r. done.
    + unfold caps. simpl. by rewrite Hc.
    + unfold room. simpl. rewrite Hrs. lia.
  - pose proof (Forall_cons_1 _ _ _ Hid) as [Hy Hid'].
    pose proof (content_idle _ Hid) as Hce.
    destruct (decide (zlen data ≤ node_rest nd)) as [Hle|Hgt].
    + destruct (append_node_ok data nd Hn Hle) as [Hok Hb]. destruct (Hap data Hle) as [Hc Hrs].
      split; try done; try (simpl; lia).
      * by apply Forall_cons_2.
      * change (node_bytes (append_node data nd) ++ content (y :: suf) =
                (node_bytes nd ++ content (y :: suf)) ++ data).
        by rewrite Hce, !app_nil_r, Hb.
      * unfold caps. simpl. by rewrite Hc.
      * simpl drop. rewrite !room_cons. simpl. rewrite Hrs. lia.
    + destruct (append_node_ok (ztake (node_rest nd) data) nd Hn) as [Hok Hb].
      { rewrite zlen_ztake by lia. lia. }
      destruct (Hap (ztake (node_rest nd) data)) as [Hc Hrs].
      { rewrite zlen_ztake by lia. lia. }
      assert (zlen (zdrop (node_rest nd) data) = zlen data - node_rest nd) as Hzd
        by (rewrite zlen_zdrop; lia).
      destruct (IH y (zdrop (node_rest nd) data) Ho Hid') as [H1 H2 H3 H4 H5 H6 H7].
      { rewrite Hzd. lia. }
      rewrite Hzd in *. set (w := write_nodes (y :: suf) (zdrop (node_rest nd) data)) in *.
      set (k := stop_at (y :: suf) (zlen data - node_rest nd)) in *.
      split.
      * by apply Forall_cons_2.
      * rewrite !fmap_cons. by f_equal.
      * change (node_bytes (append_node (ztake (node_rest nd) data) nd) ++ content w =
                (node_bytes nd ++ content (y :: suf)) ++ data).
        rewrite H3, Hce, Hb, app_nil_r, app_nil_l, <-app_assoc. by rewrite ztake_zdrop.
      * unfold caps in *. simpl map at 1. rewrite H4, Hc. done.
      * simpl in *. lia.
      * done.
      * change (room (drop k w) = room ((l, nd) :: y :: suf) - zlen data).
        rewrite H7, !room_cons. simpl. lia.
Qed.

(** ** The loops *)

Lemma shape_replace h pre l nd nd' suf :
  shape h (pre ++ (l, nd) :: suf) → n_next nd' = n_next nd →
  shape (<[l := nd']> h) (pre ++ (l, nd') :: suf).
Proof.
  intros Hs Hn.
  assert ((pre ++ (l, nd) :: suf) !! length pre = Some (l, nd)) as Hi by (by apply list_lookup_middle).
  pose proof (shape_insert h _ _ _ _ nd' Hs Hi Hn) as Hr.
  by rewrite insert_app_r_alt, Nat.sub_diag in Hr by lia.
Qed.

Lemma addr_middle pre l nd suf : addr (pre ++ (l, nd) :: suf) (length pre) = Some l.
Proof. unfold addr. by rewrite list_lookup_middle. Qed.

Lemma shape_middle h pre l nd suf :
  shape h (pre ++ (l, nd) :: suf) →
  h !! l = Some nd ∧ n_next nd = addr (pre ++ (l, nd) :: suf) (S (length pre)).
Proof. intros Hs. apply (sh_look _ _ Hs (length pre)). by apply list_lookup_middle. Qed.

(** Moving one node from the suffix to the prefix. *)
Lemma addr_shift pre x suf :
  addr (pre ++ x :: suf) (S (length pre)) = addr ((pre ++ [x]) ++ suf) (length (pre ++ [x])).
Proof. rewrite <-app_assoc, length_app. simpl. by rewrite Nat.add_1_r. Qed.

Lemma copy_to_node_ok b l nd data :
  heap b !! l = Some nd → node_ok nd →
  copy_to_node (Some l) data b =
    Ret (Z.min (zlen data) (node_rest nd), set_heap (<[l := copy_node data nd]> (heap b)) b).
Proof.
  intros Hl [Hrw Hwc Hcap Hs _]. unfold copy_to_node.
  erewrite bind_Ret by (simpl; by rewrite Hl).
  unfold copy_node, node_rest, node_cap in *. destruct (n_block nd) as [s|] eqn:E.
  - specialize (Hs s eq_refl). unfold slice_ok in Hs. rewrite reslice_Some by lia. done.
  - rewrite insert_id by done. pose proof (zlen_nonneg data).
    rewrite Z.min_r by lia. replace (0 - n_w nd) with 0 by lia. by destruct b.
Qed.

Lemma copy_loop_ok fuel b pre suf buf c :
  shape (heap b) (pre ++ suf) → all_ok suf → 0 ≤ c ≤ zlen buf → (length suf < fuel)%nat →
  ∃ h', copy_loop fuel (addr (pre ++ suf) (length pre)) buf c b =
          Ret (c + Z.min (zlen buf - c) (room suf), set_heap h' b) ∧
        shape h' (pre ++ copied_nodes suf (zdrop c buf)).
Proof.
  revert fuel b pre c. induction suf as [|[l nd] suf IH]; intros fuel b pre c Hs Ho Hc Hf;
    (destruct fuel as [|fuel]; [simpl in Hf; lia|]); cbn [copy_loop].
  { assert (addr (pre ++ []) (length pre) = None) as -> by (apply addr_None; by rewrite app_nil_r).
    exists (heap b). unfold room. simpl. rewrite Z.min_r, Z.add_0_r, set_heap_id by lia. done. }
  apply Forall_cons_1 in Ho as [Hn Ho]. simpl in Hn.
  rewrite addr_middle. destruct (shape_middle _ _ _ _ _ Hs) as [Hl Hnx].
  mrun (copy_to_node_ok b l nd (zdrop c buf) Hl Hn).
  rewrite room_cons. simpl copied_nodes. cbn [snd]. rewrite zlen_zdrop by lia.
  rewrite Z.max_r by lia. pose proof (node_rest_nonneg nd Hn). pose proof (room_nonneg suf Ho).
  pose proof (shape_replace _ _ _ _ (copy_node (zdrop c buf) nd) _ Hs (copy_node_next _ _)) as Hs'.
  cbv zeta. destruct (decide (zlen buf - c ≤ node_rest nd)) as [Hle|Hgt].
  - rewrite decide_True by lia. eexists. split; [|exact Hs'].
    by replace (Z.min (zlen buf - c) (node_rest nd + room suf))
      with (Z.min (zlen buf - c) (node_rest nd)) by lia.
  - rewrite decide_False by lia. erewrite bind_Ret by (simpl; by rewrite lookup_insert_eq).
    rewrite copy_node_next, Hnx.
    assert (addr (pre ++ (l, nd) :: suf) (S (length pre)) =
            addr ((pre ++ [(l, copy_node (zdrop c buf) nd)]) ++ suf)
              (length (pre ++ [(l, copy_node (zdrop c buf) nd)]))) as ->.
    { rewrite <-addr_shift. unfold addr. rewrite !lookup_app_r by lia.
      by replace (S (length pre) - length pre)%nat with 1%nat by lia. }
    destruct (IH fuel (set_heap (<[l := copy_node (zdrop c buf) nd]> (heap b)) b)
                (pre ++ [(l, copy_node (zdrop c buf) nd)]) (c + Z.min (zlen buf - c) (node_rest nd)))
      as (h' & Hr & Hs2); [by rewrite <-app_assoc|done|lia|simpl in Hf; lia|].
    exists h'. rewrite Hr, set_heap_set_heap. split; [f_equal; f_equal; lia|].
    rewrite <-app_assoc in Hs2. rewrite zdrop_zdrop by lia.
    by replace (node_rest nd + c) with (c + Z.min (zlen buf - c) (node_rest nd)) by lia.
Qed.

Lemma copied_nodes_nil suf : all_ok suf → copied_nodes suf [] = suf.
Proof.
  intros Ho. destruct suf as [|[l nd] suf]; [done|].
  apply Forall_cons_1 in Ho as [Hn _]. simpl in *. pose proof (node_rest_nonneg nd Hn).
  rewrite decide_True by (unfold zlen; simpl; lia). do 2 f_equal.
  unfold copy_node. destruct (n_block nd) as [s|] eqn:E; [|done].
  destruct Hn as [Hrw Hwc _ Hs _]. specialize (Hs s E). unfold slice_ok, node_cap in *. rewrite E in *.
  destruct nd as [nx bl r w rc]. simpl in *. subst bl. unfold with_block. simpl. do 2 f_equal.
  destruct s as [arr ln]. unfold overwrite, zlen, s_cap in *. simpl in *.
  f_equal. rewrite Z.min_l by lia. by rewrite ztake_0, app_nil_l, Z.add_0_r, ztake_zdrop.
Qed.

(** Bytes that do not fit are not stored. *)
Lemma copied_nodes_clip suf data :
  all_ok suf → copied_nodes suf data = copied_nodes suf (ztake (room suf) data).
Proof.
  revert data. induction suf as [|[l nd] suf IH]; intros data Ho; [done|].
  pose proof (room_nonneg _ Ho) as Hrm. apply Forall_cons_1 in Ho as [Hn Ho]. simpl in Hn.
  destruct (decide (zlen data ≤ room ((l, nd) :: suf))); [by rewrite ztake_ge by lia|].
  rewrite room_cons in *. simpl in *. pose proof (node_rest_nonneg nd Hn). pose proof (room_nonneg _ Ho).
  rewrite (decide_False (P := zlen data ≤ node_rest nd)) by lia.
  rewrite zlen_ztake by lia. f_equal.
  - f_equal. rewrite (copy_node_clip data), (copy_node_clip (ztake (node_rest nd + room suf) data)) by done.
    by rewrite ztake_ztake by lia.
  - rewrite IH by done. case_decide.
    + replace (room suf) with 0 by lia. rewrite ztake_0. by apply copied_nodes_nil.
    + f_equal. unfold ztake, zdrop. rewrite skipn_firstn_comm. f_equal. lia.
Qed.

Lemma scatter_loop_ok fuel b pre suf data :
  shape (heap b) (pre ++ suf) → all_ok suf → (length suf < fuel)%nat →
  ∃ h', scatter_loop fuel (addr (pre ++ suf) (length pre)) data b = Ret ((), set_heap h' b) ∧
        shape h' (pre ++ copied_nodes suf data).
Proof.
  revert fuel b pre data. induction suf as [|[l nd] suf IH]; intros fuel b pre data Hs Ho Hf;
    (destruct fuel as [|fuel]; [simpl in Hf; lia|]); cbn [scatter_loop].
  { assert (addr (pre ++ []) (length pre) = None) as -> by (apply addr_None; by rewrite app_nil_r).
    exists (heap b). by rewrite set_heap_id. }
  rewrite addr_middle. destruct (decide (data = [])) as [->|Hne].
  { exists (heap b). rewrite set_heap_id, copied_nodes_nil by done. done. }
  apply Forall_cons_1 in Ho as [Hn Ho]. simpl in Hn.
  destruct (shape_middle _ _ _ _ _ Hs) as [Hl Hnx].
  mrun (copy_to_node_ok b l nd data Hl Hn).
  pose proof (node_rest_nonneg nd Hn). simpl copied_nodes.
  pose proof (shape_replace _ _ _ _ (copy_node data nd) _ Hs (copy_node_next _ _)) as Hs'.
  erewrite bind_Ret by (simpl; by rewrite lookup_insert_eq).
  rewrite copy_node_next, Hnx.
  assert (addr (pre ++ (l, nd) :: suf) (S (length pre)) =
          addr ((pre ++ [(l, copy_node data nd)]) ++ suf) (length (pre ++ [(l, copy_node data nd)]))) as ->.
  { rewrite <-addr_shift. unfold addr. rewrite !lookup_app_r by lia.
    by replace (S (length pre) - length pre)%nat with 1%nat by lia. }
  destruct (IH fuel (set_heap (<[l := copy_node data nd]> (heap b)) b) (pre ++ [(l, copy_node data nd)])
              (zdrop (Z.min (zlen data) (node_rest nd)) data)) as (h' & Hr & Hs2);
    [by rewrite <-app_assoc|done|simpl in Hf; lia|].
  exists h'. rewrite Hr, set_heap_set_heap. split; [done|]. rewrite <-app_assoc in Hs2. simpl in Hs2.
  case_decide as Hle.
  - rewrite Z.min_l, zdrop_ge, copied_nodes_nil in Hs2 by (done || lia). done.
  - by rewrite Z.min_r in Hs2 by lia.
Qed.

Lemma adjust_loop_ok fuel b pre suf n :
  shape (heap b) (pre ++ suf) → all_ok suf → 0 ≤ n ≤ room suf → suf ≠ [] → (length suf < fuel)%nat →
  ∃ h', adjust_loop fuel n (addr (pre ++ suf) (length pre)) b =
          Ret (addr (pre ++ suf) (length pre + stop_at suf n), set_heap h' b) ∧
        shape h' (pre ++ adjusted_nodes suf n).
Proof.
  revert fuel b pre n. induction suf as [|[l nd] suf IH]; intros fuel b pre n Hs Ho Hn Hne Hf; [done|].
  destruct fuel as [|fuel]; [simpl in Hf; lia|]. cbn [adjust_loop].
  apply Forall_cons_1 in Ho as [Hnd Ho]. simpl in Hnd. rewrite room_cons in Hn. simpl in Hn.
  rewrite addr_middle. destruct (shape_middle _ _ _ _ _ Hs) as [Hl Hnx].
  pose proof (node_rest_nonneg nd Hnd) as Hr0.
  assert (∀ m, 0 ≤ m ≤ node_rest nd → u32 (n_w nd + u32 m) = n_w nd + m) as Hu.
  { intros m Hm. rewrite u32_add_r. apply u32_small. destruct Hnd. unfold node_rest in *. lia. }
  erewrite bind_Ret by (simpl; by rewrite Hl). cbv zeta. rewrite stop_at_cons. cbn [adjusted_nodes].
  destruct (decide (n ≤ node_rest nd)) as [Hle|Hgt].
  - rewrite decide_True by lia. mpure. rewrite Nat.add_0_r, addr_middle. rewrite Hu by lia.
    eexists. split; [done|]. by apply (shape_replace _ _ _ nd).
  - rewrite decide_False by lia. mpure. rewrite Hu by lia. rewrite Hnx.
    set (nd' := with_w (n_w nd + node_rest nd) nd).
    pose proof (shape_replace _ _ _ nd nd' _ Hs eq_refl) as Hs'.
    assert (∀ j, addr (pre ++ (l, nd) :: suf) (S (length pre) + j) =
            addr ((pre ++ [(l, nd')]) ++ suf) (length (pre ++ [(l, nd')]) + j)) as Had.
    { intros j. rewrite <-app_assoc, length_app. unfold addr. simpl.
      rewrite !lookup_app_r by lia.
      by replace (S (length pre + j) - length pre)%nat with (S j) by lia;
        replace (length pre + 1 + j - length pre)%nat with (S j) by lia. }
    rewrite <-(Nat.add_0_r (S (length pre))), Had, Nat.add_0_r.
    destruct (IH fuel (set_heap (<[l := nd']> (heap b)) b) (pre ++ [(l, nd')]) (n - node_rest nd))
      as (h' & Hr & Hs2); [by rewrite <-app_assoc|done|lia| |simpl in Hf; lia|].
    { intros ->. unfold room in Hn. simpl in Hn. lia. }
    exists h'. split; [|by rewrite <-app_assoc in Hs2].
    etrans; [exact Hr|]. rewrite set_heap_set_heap. do 2 f_equal.
    rewrite Nat.add_succ_r, <-Nat.add_succ_l. by rewrite Had.
Qed.

(** ** Storing and counting, on the whole buffer *)

Record filled b ns ri (wi : nat) data b' ns' (wi' : nat) : Prop := {
  fi_rep : rep b' ns' ri wi';
  fi_content : content ns' = content ns ++ data;
  fi_caps : caps ns' = caps ns;
  fi_wi : (wi ≤ wi')%nat;
  fi_room : room (drop wi' ns') = room (drop wi ns) - zlen data;
  fi_cfg : cfg b' = cfg b;
  fi_nbs : nodeBlockSize b' = nodeBlockSize b
}.

Lemma caps_length ns ns' : caps ns = caps ns' → length ns = length ns'.
Proof. intros E. unfold caps in E. apply (f_equal length) in E. by rewrite !length_map in E. Qed.

Lemma copied_nodes_fst ns data : (copied_nodes ns data).*1 = ns.*1.
Proof.
  revert data. induction ns as [|[l nd] ns IH]; intros data; [done|]. simpl. f_equal.
  case_decide; [done|apply IH].
Qed.

Lemma addr_fst ns ns' i : ns.*1 = ns'.*1 → addr ns i = addr ns' i.
Proof. intros E. unfold addr. rewrite <-!list_lookup_fmap. by rewrite E. Qed.

Lemma fst_length ns ns' : ns.*1 = ns'.*1 → length ns = length ns'.
Proof. intros E. apply (f_equal length) in E. by rewrite !length_fmap in E. Qed.

(** Replacing the part of the chain from the write node on. *)
Lemma rep_written b ns ri wi h data suf' k :
  rep b ns ri wi → written (drop wi ns) data suf' k → shape h (take wi ns ++ suf') →
  zlen (content ns) + zlen data < 2 ^ 32 →
  ∀ v, filled b ns ri wi data
         (set_rlen (zlen (content ns) + zlen data)
           (set_wlen v (set_wnode (addr ns (wi + k)) (set_heap h b))))
         (take wi ns ++ suf') (wi + k).
Proof.
  intros H [Wok Wf Wc Wcp Wst Wid Wrm] Hs Hbd v.
  pose proof (rp_wi _ _ _ _ H) as Hwl. pose proof (rp_ri _ _ _ _ H) as Hri.
  assert ((take wi ns ++ suf').*1 = ns.*1) as Hfst
    by (rewrite fmap_app, Wf, <-fmap_app; by rewrite take_drop).
  assert (length (take wi ns ++ suf') = length ns) as Hlen by (by apply fst_length).
  assert (length (take wi ns) = wi) as Htk by (rewrite length_take; lia).
  assert (content (take wi ns ++ suf') = content ns ++ data) as Hc.
  { rewrite content_app, Wc, app_assoc, <-content_app. by rewrite take_drop. }
  rewrite length_drop in Wst.
  split.
  - destruct H as [Hs0 Ho Hh Ht Hrn Hwn _ _ Hrd Hid Hrl Hb0 Hnbs Hcfg Hmc Hfr].
    split; simpl; rewrite ?Hlen, ?(addr_fst _ ns _ Hfst); try done; try lia.
    + apply Forall_app_2; [by apply Forall_take|done].
    + rewrite take_app_le by lia. rewrite take_take. by rewrite Nat.min_l by lia.
    + rewrite drop_app_ge by lia. rewrite Htk. by replace (S (wi + k) - wi)%nat with (S k) by lia.
    + by rewrite Hc, zlen_app.
    + rewrite Hc, zlen_app. done.
    + intros l' Hl'. apply Hfr. apply elem_of_dom. apply elem_of_dom in Hl'.
      by rewrite (sh_dom _ _ Hs0), <-Hfst, <-(sh_dom _ _ Hs).
  - done.
  - rewrite caps_app, Wcp, <-caps_app. by rewrite take_drop.
  - lia.
  - rewrite drop_app_ge by lia. rewrite Htk. by replace (wi + k - wi)%nat with k by lia.
  - done.
  - done.
Qed.

(** [adjust] after the bytes were stored. *)
Lemma adjust_copied_ok b ns ri wi h data :
  rep b ns ri wi → shape h (take wi ns ++ copied_nodes (drop wi ns) data) →
  zlen data ≤ room (drop wi ns) → zlen (content ns) + zlen data < 2 ^ 32 →
  ∃ b' ns' wi', adjust (zlen data) (set_heap h b) = Ret ((), b') ∧ filled b ns ri wi data b' ns' wi'.
Proof.
  intros H Hs Hrm Hbd. pose proof (rp_wi _ _ _ _ H) as Hwl.
  pose proof (Forall_drop _ wi _ (rp_ok _ _ _ _ H)) as Ho. change (all_ok (drop wi ns)) in Ho.
  destruct (node_at ns wi Hwl) as (l & nd & Hi).
  set (pre := take wi ns) in *. set (suf := drop wi ns) in *.
  assert (length pre = wi) as Hpre by (unfold pre; rewrite length_take; lia).
  assert (suf = (l, nd) :: drop (S wi) ns) as Esuf by (by apply drop_S).
  assert ((pre ++ copied_nodes suf data).*1 = ns.*1) as Hfst.
  { rewrite fmap_app, copied_nodes_fst, <-fmap_app. unfold pre, suf. by rewrite take_drop. }
  unfold adjust. mpure. change (wnode (set_heap h b)) with (wnode b). rewrite (rp_wnode _ _ _ _ H).
  pose proof (loop_fuel_shape (set_heap h b) _ Hs) as Hfu.
  pose proof (zlen_nonneg data) as Hd0.
  destruct (adjust_loop_ok (loop_fuel (set_heap h b)) (set_heap h b) pre (copied_nodes suf data) (zlen data))
    as (h' & Hr & Hs'); [done|by apply all_ok_copied|rewrite room_copied; lia| | |].
  { rewrite Esuf. done. } { rewrite Hfu, length_app. lia. }
  rewrite Hpre, !(addr_fst _ ns _ Hfst), stop_at_copied in Hr.
  mrun Hr. rewrite set_heap_set_heap. mpure. mpure.
  rewrite adjusted_copied in Hs' by done.
  assert (written suf data (write_nodes suf data) (stop_at suf (zlen data))) as Hw.
  { rewrite Esuf. apply write_nodes_ok; rewrite <-?Esuf; [done|apply (rp_idle _ _ _ _ H)|done]. }
  eexists _, (pre ++ write_nodes suf data), (wi + stop_at suf (zlen data))%nat.
  split; [done|]. simpl. rewrite u32_add_r, (rp_rlen _ _ _ _ H).
  rewrite (u32_small (_ + _)) by (pose proof (zlen_nonneg (content ns)); lia).
  exact (rep_written b ns ri wi h' data _ _ H Hw Hs' Hbd _).
Qed.

(** [copyFromSingleByteSlice]: what fits is appended. *)
Lemma copyFromSingle_ok b ns ri wi s :
  rep b ns ri wi → slice_ok s → zlen (content ns) + s_len s < 2 ^ 32 →
  let k := Z.min (s_len s) (room (drop wi ns)) in
  ∃ b' ns' wi', copyFromSingleByteSlice s b = Ret (k, b') ∧
    filled b ns ri wi (ztake k (s_bytes s)) b' ns' wi'.
Proof.
  intros H Hs Hbd k. unfold copyFromSingleByteSlice. mpure. rewrite (rp_wnode _ _ _ _ H).
  pose proof (rp_wi _ _ _ _ H) as Hwl. pose proof (rp_shape _ _ _ _ H) as Hsh.
  pose proof (Forall_drop _ wi _ (rp_ok _ _ _ _ H)) as Ho. change (all_ok (drop wi ns)) in Ho.
  pose proof (room_nonneg _ Ho) as Hrm. pose proof (zlen_s_bytes s Hs) as Hzs.
  assert (length (take wi ns) = wi) as Hpre by (rewrite length_take; lia).
  destruct (copy_loop_ok (loop_fuel b) b (take wi ns) (drop wi ns) (s_bytes s) 0) as (h & Hr & Hs');
    [by rewrite take_drop|done|rewrite Hzs; unfold slice_ok in Hs; lia
    |rewrite (loop_fuel_shape _ _ Hsh), length_drop; lia|].
  rewrite take_drop, Hpre, Z.add_0_l, Z.sub_0_r, Hzs in Hr. fold k in Hr. rewrite zdrop_0 in Hs'.
  mrun Hr. unfold slice_ok in Hs.
  assert (zlen (ztake k (s_bytes s)) = k) as Hk by (rewrite zlen_ztake; lia).
  assert (copied_nodes (drop wi ns) (s_bytes s) = copied_nodes (drop wi ns) (ztake k (s_bytes s))) as E.
  { rewrite copied_nodes_clip by done. unfold k.
    destruct (decide (s_len s ≤ room (drop wi ns))).
    - rewrite Z.min_l by lia. by rewrite !ztake_ge by lia.
    - by rewrite Z.min_r by lia. }
  rewrite E in Hs'.
  destruct (adjust_copied_ok b ns ri wi h (ztake k (s_bytes s)) H Hs') as (b' & ns' & wi' & Ha & Hf);
    [lia|lia|].
  rewrite Hk in Ha. mrun Ha. by exists b', ns', wi'.
Qed.

Lemma filled_trans b ns ri wi d1 b1 ns1 wi1 d2 b2 ns2 wi2 :
  filled b ns ri wi d1 b1 ns1 wi1 → filled b1 ns1 ri wi1 d2 b2 ns2 wi2 →
  filled b ns ri wi (d1 ++ d2) b2 ns2 wi2.
Proof.
  intros [? C1 P1 ? R1 ? ?] [? C2 P2 ? R2 ? ?]. split; try congruence; try lia.
  - by rewrite C2, C1, app_assoc.
  - rewrite R2, R1, zlen_app. lia.
Qed.

Lemma filled_nil b ns ri wi : rep b ns ri wi → filled b ns ri wi [] b ns wi.
Proof. intros H. split; try done; [by rewrite app_nil_r|unfold zlen; simpl; lia]. Qed.

(** All the slices, one after the other. *)
Lemma copy_all_ok bs c b ns ri wi :
  rep b ns ri wi → slices_ok bs → zlen (content ns) + byteSlicesLen bs < 2 ^ 32 →
  let k := Z.min (byteSlicesLen bs) (room (drop wi ns)) in
  ∃ b' ns' wi', copy_all bs c b = Ret (c + k, b') ∧
    filled b ns ri wi (ztake k (data_of bs)) b' ns' wi'.
Proof.
  revert c b ns wi. induction bs as [|s bs IH]; intros c b ns wi H Hbs Hbd; cbv zeta.
  - exists b, ns, wi. pose proof (room_nonneg _ (Forall_drop _ wi _ (rp_ok _ _ _ _ H))) as Hrm.
    unfold byteSlicesLen. simpl. rewrite Z.min_l by done. rewrite Z.add_0_r, ztake_0.
    split; [done|]. by apply filled_nil.
  - apply Forall_cons_1 in Hbs as [[Hs Hsl] Hbs].
    change (byteSlicesLen (s :: bs)) with (s_len s + byteSlicesLen bs) in *.
    assert (0 ≤ byteSlicesLen bs) as Hnn by auto with tnet.
    pose proof (room_nonneg _ (Forall_drop _ wi _ (rp_ok _ _ _ _ H))) as Hrm.
    pose proof (zlen_s_bytes s Hs) as Hzs.
    destruct (copyFromSingle_ok b ns ri wi s H Hs ltac:(lia)) as (b1 & ns1 & wi1 & Hr & Hf).
    cbn [copy_all]. mrun Hr. set (k1 := Z.min (s_len s) (room (drop wi ns))) in *.
    assert (zlen (ztake k1 (s_bytes s)) = k1) as Hk1
      by (unfold slice_ok in Hs; rewrite zlen_ztake; lia).
    pose proof (fi_room _ _ _ _ _ _ _ _ Hf) as Hrm1. rewrite Hk1 in Hrm1.
    destruct (IH (c + k1) b1 ns1 wi1) as (b2 & ns2 & wi2 & Hr2 & Hf2);
      [apply Hf|done|rewrite (fi_content _ _ _ _ _ _ _ _ Hf), zlen_app; lia|].
    rewrite Hrm1 in Hr2, Hf2. set (k2 := Z.min (byteSlicesLen bs) (room (drop wi ns) - k1)) in *.
    assert (k1 + k2 = Z.min (s_len s + byteSlicesLen bs) (room (drop wi ns))) as Hk by lia.
    exists b2, ns2, wi2. rewrite <-Hk, Z.add_assoc. split; [done|].
    assert (ztake (k1 + k2) (data_of (s :: bs)) = ztake k1 (s_bytes s) ++ ztake k2 (data_of bs)) as ->.
    { change (data_of (s :: bs)) with (s_bytes s ++ data_of bs).
      destruct (decide (s_len s ≤ room (drop wi ns))).
      - rewrite ztake_app_ge by lia. rewrite (ztake_ge k1) by lia. do 2 f_equal. lia.
      - rewrite ztake_app_le by lia. rewrite (ztake_nonpos k2) by lia. rewrite app_nil_r. f_equal. lia. }
    by eapply filled_trans.
Qed.

(** ** Making room *)

Lemma rep_set_wnode b ns ri wi :
  rep b ns ri wi → (S wi < length ns)%nat → rep (set_wnode (addr ns (S wi)) b) ns ri (S wi).
Proof.
  intros [] ?. split; simpl; try done; try lia.
  replace (S (S wi)) with (S wi + 1)%nat by lia. rewrite <-drop_drop. by apply Forall_drop.
Qed.

(** The invariant is kept and there is space behind the write node. *)
Record prepared b ns ri (wi : nat) b' ns' (wi' : nat) : Prop := {
  pp_rep : rep b' ns' ri wi';
  pp_content : content ns' = content ns;
  pp_room : ∃ l nd, ns' !! wi' = Some (l, nd) ∧ 0 < node_rest nd;
  pp_last : S wi = length ns → S wi' = length ns';
  pp_cfg : cfg b' = cfg b;
  pp_nbs : nodeBlockSize b' = nodeBlockSize b
}.

Lemma node_idle_rest nd : node_idle nd → node_rest nd = node_cap nd ∧ 0 < node_rest nd.
Proof. intros [? Hw ?]. unfold node_rest. rewrite Hw. lia. Qed.

Lemma rep_addNode b ns ri wi :
  rep b ns ri wi →
  ∃ b' ns', addNode b = Ret ((), b') ∧ rep b' ns' ri wi ∧ content ns' = content ns ∧
    length ns' = S (length ns) ∧ caps ns' = caps ns ++ [nodeBlockSize b] ∧
    room (drop wi ns') = room (drop wi ns) + nodeBlockSize b ∧
    (∀ j l nd, (j < length ns)%nat → ns !! j = Some (l, nd) →
       ∃ p, ns' !! j = Some (l, with_next p nd)) ∧
    cfg b' = cfg b ∧ nodeBlockSize b' = nodeBlockSize b.
Proof.
  intros H. destruct (addNode_ok b ns ri wi (rep_repx _ _ _ _ H))
    as (b' & ns' & it & l & nd & l' & nd' & Hr & H' & Hc & _ & Hi & Hit & Ens & Hfn & Erl & Ec & En & _).
  pose proof (rp_wi _ _ _ _ H) as Hwl. destruct Hfn as [Hok Hidl Hcap _].
  exists b', ns'. split; [done|]. split.
  { apply repx_rep; [done|]. rewrite Erl, Hc, (rp_rlen _ _ _ _ H). apply u32_small.
    pose proof (rp_bound _ _ _ _ H). pose proof (zlen_nonneg (content ns)). lia. }
  split; [done|]. split; [by rewrite Ens, length_app, length_insert; simpl; lia|].
  assert (∀ {A} (f : node → A), (∀ p n, f (with_next p n) = f n) →
            map (λ x, f x.2) (<[it := (l, with_next (Some l') nd)]> ns) = map (λ x, f x.2) ns) as Hmap.
  { intros A f Hf. rewrite (insert_middle _ _ _ _ _ Hi). rewrite <-(take_drop_middle _ _ _ Hi) at 3.
    rewrite !map_app. simpl. by rewrite Hf. }
  split; [|split; [|split; [|done]]].
  - rewrite Ens, caps_app. unfold caps at 1. rewrite (Hmap _ node_cap) by done. by rewrite <-Hcap.
  - rewrite Ens, drop_app_le by (rewrite length_insert; lia). rewrite room_app.
    destruct (node_idle_rest _ Hidl) as [Hrs _].
    assert (room [(l', nd')] = nodeBlockSize b) as -> by (unfold room; simpl; lia). f_equal.
    unfold room. rewrite <-!skipn_map. by rewrite (Hmap _ node_rest) by done.
  - intros j lj ndj Hj Hlj. rewrite Ens, lookup_app_l by (by rewrite length_insert).
    destruct (decide (j = it)) as [->|].
    + simplify_eq. rewrite list_lookup_insert_eq by done. by eexists.
    + rewrite list_lookup_insert_ne by done. exists (n_next ndj). rewrite Hlj. by destruct ndj.
Qed.

Lemma prepareFill_ok b ns ri wi :
  rep b ns ri wi →
  ∃ b' ns' wi', prepareFill b = Ret ((), b') ∧ prepared b ns ri wi b' ns' wi'.
Proof.
  intros H. unfold prepareFill. mpure. rewrite (rp_wnode _ _ _ _ H).
  pose proof (rp_wi _ _ _ _ H) as Hwl. pose proof (rp_shape _ _ _ _ H) as Hs.
  destruct (node_at ns wi Hwl) as (l & nd & Hi). mload.
  pose proof (all_ok_lookup _ _ _ _ (rp_ok _ _ _ _ H) Hi) as Hn.
  destruct (node_isFull nd) eqn:Hfull; cbn [negb]; cycle 1.
  { exists b, ns, wi. split; [done|]. split; try done. exists l, nd. split; [done|].
    apply bool_decide_eq_false_1 in Hfull. destruct Hn. unfold node_rest. lia. }
  rewrite (shape_next _ _ _ _ _ Hs Hi).
  destruct (decide (S wi < length ns)%nat) as [Hlt|Hge].
  - destruct (node_at ns (S wi) Hlt) as (l' & nd' & Hi'). rewrite (addr_Some _ _ _ _ Hi').
    eexists _, ns, (S wi). split; [done|]. rewrite <-(addr_Some _ _ _ _ Hi').
    split; try done; [by apply rep_set_wnode| |lia].
    exists l', nd'. split; [done|]. apply node_idle_rest.
    apply (Forall_lookup_1 _ _ 0 (l', nd') (rp_idle _ _ _ _ H)).
    rewrite lookup_drop. by rewrite Nat.add_0_r.
  - assert (addr ns (S wi) = None) as -> by (apply addr_None; lia). cbv iota.
    destruct (rep_addNode b ns ri wi H) as (b1 & ns1 & Hr1 & H1 & Hc1 & Hl1 & _ & _ & Hlk1 & Ec1 & En1).
    mrun Hr1. mpure. rewrite (rp_wnode _ _ _ _ H1). pose proof (rp_shape _ _ _ _ H1) as Hs1.
    destruct (Hlk1 wi l nd Hwl Hi) as (p & Hi1). mload. rewrite (shape_next _ _ _ _ _ Hs1 Hi1).
    destruct (node_at ns1 (S wi) ltac:(lia)) as (l' & nd' & Hi').
    eexists _, ns1, (S wi). split; [done|]. split; try done.
    + apply rep_set_wnode; [done|lia].
    + exists l', nd'. split; [done|]. apply node_idle_rest.
      apply (Forall_lookup_1 _ _ 0 (l', nd') (rp_idle _ _ _ _ H1)).
      rewrite lookup_drop. by rewrite Nat.add_0_r.
    + lia.
Qed.

Lemma calNodes_ok b ns ri wi n l nd :
  rep b ns ri wi → ns !! wi = Some (l, nd) →
  let req := Z.min n (maxFillLen (cfg b)) - node_rest nd in
  ∃ k, calNodes n b = Ret (k, b) ∧ 1 ≤ k ∧ req ≤ (k - 1) * nodeBlockSize b ∧
       (k = 1 ∨ (k - 2) * nodeBlockSize b < req).
Proof.
  intros H Hi req. unfold calNodes. mpure. rewrite (rp_wnode _ _ _ _ H).
  pose proof (rp_shape _ _ _ _ H) as Hs. mload. cbv zeta.
  destruct (rp_nbs _ _ _ _ H) as [Hn0 _]. set (nbs := nodeBlockSize b) in *.
  assert ((if decide (n > maxFillLen (cfg b)) then maxFillLen (cfg b) else n) - node_rest nd = req) as ->
    by (unfold req; case_decide; lia).
  case_decide as Hle; [exists 1; split; [done|lia]|].
  rewrite decide_False by lia. eexists. split; [done|]. unfold calNodesNum.
  rewrite Z.quot_div_nonneg by lia.
  pose proof (Z.div_mod (req + nbs - 1) nbs ltac:(lia)).
  pose proof (Z.mod_pos_bound (req + nbs - 1) nbs ltac:(lia)).
  set (q := (req + nbs - 1) `div` nbs) in *. split; [nia|]. split; [nia|]. right. nia.
Qed.

Lemma count_nodes_ok (len : nat) fuel b ns i c :
  len = (length ns - i)%nat → shape (heap b) ns → (len < fuel)%nat →
  count_nodes fuel (addr ns i) c b = Ret (c + Z.of_nat len, b).
Proof.
  revert fuel i c. induction len as [|len IH]; intros fuel i c Hlen Hs Hf;
    (destruct fuel as [|fuel]; [lia|]); cbn [count_nodes].
  - assert (addr ns i = None) as -> by (apply addr_None; lia). by rewrite Z.add_0_r.
  - destruct (node_at ns i ltac:(lia)) as (l & nd & Hi). rewrite (addr_Some _ _ _ _ Hi).
    rewrite <-(addr_Some _ _ _ _ Hi). mload. rewrite (shape_next _ _ _ _ _ Hs Hi).
    rewrite IH by (done || lia). do 2 f_equal. lia.
Qed.

(** The chain after [k] more nodes were added. *)
Record extended b ns ri (wi k : nat) b' ns' : Prop := {
  ex_rep : rep b' ns' ri wi;
  ex_content : content ns' = content ns;
  ex_caps : caps ns' = caps ns ++ replicate k (nodeBlockSize b);
  ex_room : room (drop wi ns') = room (drop wi ns) + Z.of_nat k * nodeBlockSize b;
  ex_rest l nd : ns !! wi = Some (l, nd) → ∃ p, ns' !! wi = Some (l, with_next p nd);
  ex_cfg : cfg b' = cfg b;
  ex_nbs : nodeBlockSize b' = nodeBlockSize b
}.

Lemma extended_0 b ns ri wi : rep b ns ri wi → extended b ns ri wi 0 b ns.
Proof.
  intros H. split; try done; [by rewrite app_nil_r|lia|].
  intros l nd Hi. exists (n_next nd). rewrite Hi. by destruct nd.
Qed.

Lemma add_nodes_ok k b ns ri wi :
  rep b ns ri wi → ∃ b' ns', add_nodes k b = Ret ((), b') ∧ extended b ns ri wi k b' ns'.
Proof.
  revert b ns. induction k as [|k IH]; intros b ns H; cbn [add_nodes].
  - exists b, ns. split; [done|by apply extended_0].
  - destruct (rep_addNode b ns ri wi H) as (b1 & ns1 & Hr1 & H1 & Hc1 & Hl1 & Hcp1 & Hrm1 & Hlk1 & Ec1 & En1).
    mrun Hr1. destruct (IH b1 ns1 H1) as (b2 & ns2 & Hr2 & [H2 Hc2 Hcp2 Hrm2 Hlk2 Ec2 En2]).
    exists b2, ns2. split; [done|]. split; try congruence.
    + rewrite Hcp2, Hcp1, En1, <-app_assoc. done.
    + rewrite Hrm2, Hrm1, En1. lia.
    + intros l nd Hi. destruct (Hlk1 wi l nd (rp_wi _ _ _ _ H) Hi) as (p & Hi1).
      destruct (Hlk2 _ _ Hi1) as (p' & ->). exists p'. done.
Qed.

Lemma malloc_ok b ns ri wi k :
  rep b ns ri wi →
  ∃ b' ns', malloc k b = Ret ((), b') ∧
    extended b ns ri wi (Z.to_nat (k - Z.of_nat (length ns - wi))) b' ns'.
Proof.
  intros H. unfold malloc. mpure. rewrite (rp_wnode _ _ _ _ H).
  pose proof (loop_fuel_shape _ _ (rp_shape _ _ _ _ H)) as Hfu.
  mrun (count_nodes_ok (length ns - wi) (loop_fuel b) b ns wi 0 eq_refl (rp_shape _ _ _ _ H) ltac:(lia)).
  rewrite Z.add_0_l. case_decide as Hge.
  - exists b, ns. split; [done|]. replace (Z.to_nat _) with 0%nat by lia. by apply extended_0.
  - by apply add_nodes_ok.
Qed.

(** [prepareFill], [calNodes] and [malloc] in sequence, as [copyFromLocked] and
    [Fill] call them: the buffer holds the same bytes and has room. *)
Record ready b ns ri (wi : nat) (n : Z) b' ns' (wi' : nat) : Prop := {
  rd_rep : rep b' ns' ri wi';
  rd_content : content ns' = content ns;
  rd_room : ∃ l nd, ns' !! wi' = Some (l, nd) ∧ 0 < node_rest nd;
  rd_last : S wi = length ns →
    Z.min n (maxFillLen (cfg b)) ≤ room (drop wi' ns') ∧
    (S wi' = length ns' ∨
     ∃ c, caps ns' !! (length ns' - 1)%nat = Some c ∧
          room (drop wi' ns') < Z.min n (maxFillLen (cfg b)) + c);
  rd_cfg : cfg b' = cfg b
}.

Definition make_room (n : Z) : MB () :=
  _ ← prepareFill; k ← calNodes n; malloc k.

Lemma make_room_bind {A} n (f : () → MB A) b :
  (prepareFill ≫= λ _, calNodes n ≫= λ k, malloc k ≫= f) b = (make_room n ≫= f) b.
Proof.
  unfold make_room, mbind, M_bind. destruct (prepareFill b) as [[? b1]| |]; [|done..].
  by destruct (calNodes n b1) as [[? b2]| |].
Qed.

Lemma make_room_ok b ns ri wi n :
  rep b ns ri wi → ∃ b' ns' wi', make_room n b = Ret ((), b') ∧ ready b ns ri wi n b' ns' wi'.
Proof.
  intros H. unfold make_room.
  destruct (prepareFill_ok b ns ri wi H) as (b1 & ns1 & wi1 & Hr1 & [H1 Hc1 (l & nd & Hi1 & Hpos) Hla1 Ec1 En1]).
  mrun Hr1. destruct (calNodes_ok b1 ns1 ri wi1 n l nd H1 Hi1) as (k & Hk & Hk1 & Hlo & Hhi).
  mrun Hk. destruct (malloc_ok b1 ns1 ri wi1 k H1) as (b2 & ns2 & Hr2 & [H2 Hc2 Hcp2 Hrm2 Hlk2 Ec2 En2]).
  exists b2, ns2, wi1. split; [done|]. rewrite Ec1 in Hlo, Hhi. split.
  - done.
  - congruence.
  - destruct (Hlk2 _ _ Hi1) as (p & Hi2). exists l, (with_next p nd). done.
  - intros Hlast. specialize (Hla1 Hlast). replace (length ns1 - wi1)%nat with 1%nat in * by lia.
    assert (drop wi1 ns1 = [(l, nd)]) as Ed.
    { erewrite drop_S by done. by rewrite drop_ge by lia. }
    rewrite Ed in Hrm2. unfold room in Hrm2 at 2. simpl in Hrm2.
    assert (Z.of_nat (Z.to_nat (k - 1)) = k - 1) as Ek by lia. change (Z.of_nat 1) with 1 in *.
    rewrite Ek in Hrm2. pose proof (rp_nbs _ _ _ _ H1) as [Hnb _].
    split; [lia|]. destruct (decide (k = 1)) as [->|Hne].
    + left. rewrite Z.sub_diag in Hcp2. simpl in Hcp2. rewrite app_nil_r in Hcp2.
      apply caps_length in Hcp2. lia.
    + right. destruct Hhi as [|Hhi]; [done|]. exists (nodeBlockSize b1). split; [|lia].
      assert (length (caps ns2) = length ns2) as El by apply length_map.
      rewrite Hcp2, length_app, length_replicate in El. unfold caps in El at 1. rewrite length_map in El.
      rewrite Hcp2. rewrite lookup_app_r by (unfold caps; rewrite length_map; lia).
      apply lookup_replicate. split; [done|]. unfold caps. rewrite length_map. lia.
  - congruence.
Qed.

(** When less room is left than the last node has, that node is in use. *)
Lemma room_last b ns ri wi c :
  rep b ns ri wi → caps ns !! (length ns - 1)%nat = Some c → room (drop wi ns) < c → S wi = length ns.
Proof.
  intros H Hc Hr. pose proof (rp_wi _ _ _ _ H) as Hwl.
  destruct (decide (S wi = length ns)) as [|Hne]; [done|exfalso].
  destruct (node_at ns (length ns - 1) ltac:(lia)) as (l & nd & Hi).
  assert (c = node_cap nd) as ->.
  { unfold caps in Hc. rewrite list_lookup_fmap, Hi in Hc. by simplify_eq/=. }
  assert (drop (S wi) ns !! (length ns - 1 - S wi)%nat = Some (l, nd)) as Hi'.
  { rewrite lookup_drop. by replace (S wi + _)%nat with (length ns - 1)%nat by lia. }
  pose proof (Forall_lookup_1 _ _ _ _ (rp_idle _ _ _ _ H) Hi') as Hid. simpl in Hid.
  destruct (node_idle_rest _ Hid) as [Hrest _].
  assert (all_ok (drop wi ns)) as Ho by (apply Forall_drop, H).
  destruct (node_at ns wi Hwl) as (l0 & nd0 & Hi0).
  rewrite (drop_S _ _ _ Hi0) in Ho, Hr. apply Forall_cons_1 in Ho as [Hn0 Ho]. simpl in Hn0.
  rewrite room_cons in Hr. simpl in Hr. pose proof (node_rest_nonneg nd0 Hn0).
  rewrite <-(take_drop_middle _ _ _ Hi'), room_app, room_cons in Hr. simpl in Hr.
  rewrite <-(take_drop_middle _ _ _ Hi') in Ho. apply Forall_app in Ho as [Ho1 Ho2].
  apply Forall_cons_1 in Ho2 as [_ Ho2].
  pose proof (room_nonneg _ Ho1). pose proof (room_nonneg _ Ho2). lia.
Qed.

(** ** Writev with copying *)

Lemma copyFrom_ok wo b data bs :
  holds wo b data → slices_ok bs → zlen data + byteSlicesLen bs < 2 ^ 32 →
  ∃ k b', copyFromLocked (byteSlicesLen bs) bs b = Ret (k, b') ∧
    0 ≤ k ≤ byteSlicesLen bs ∧
    (wo = true → Z.min (byteSlicesLen bs) (maxFillLen (cfg b)) ≤ k) ∧
    holds wo b' (data ++ ztake k (data_of bs)) ∧ cfg b' = cfg b.
Proof.
  intros (ns & ri & wi & H & <- & Hwo) Hbs Hbd. unfold copyFromLocked.
  set (n := byteSlicesLen bs) in *.
  assert (0 ≤ n) as Hn by (unfold n; auto with tnet).
  destruct (make_room_ok b ns ri wi n H) as (b1 & ns1 & wi1 & Hr1 & [H1 Hc1 Hrm1 Hla1 Ec1]).
  destruct (copy_all_ok bs 0 b1 ns1 ri wi1 H1 Hbs) as (b2 & ns2 & wi2 & Hr2 & Hf2); [rewrite Hc1; done|].
  pose proof (room_nonneg _ (Forall_drop _ wi1 _ (rp_ok _ _ _ _ H1))) as Hnn.
  fold n in Hr2, Hf2. set (k := Z.min n (room (drop wi1 ns1))) in *. exists k, b2.
  assert (zlen (ztake k (data_of bs)) = k) as Hzk
    by (rewrite zlen_ztake, zlen_data_of by (done || lia); lia).
  destruct Hf2 as [H2 Hc2 Hcp2 Hwi2 Hrm2 Ec2 En2]. rewrite Hzk in Hrm2.
  split; [|split; [lia|split; [|split; [|congruence]]]].
  - rewrite (make_room_bind n (λ _, copy_all bs 0)). mrun Hr1. exact Hr2.
  - intros Hw. destruct (Hla1 (Hwo Hw)) as [Hge _]. lia.
  - exists ns2, ri, wi2. split; [done|]. split; [by rewrite Hc2, Hc1|].
    intros Hw. destruct (Hla1 (Hwo Hw)) as [Hge Hor].
    pose proof (caps_length _ _ Hcp2) as Hlen. pose proof (rp_wi _ _ _ _ H2).
    destruct Hor as [Hl|(c & Hcl & Hlt)]; [lia|].
    rewrite <-Hcp2, <-Hlen in Hcl. apply (room_last _ _ _ _ _ H2 Hcl). lia.
Qed.

Lemma Writev_safe_ok wo b data bs :
  holds wo b data → slices_ok bs → zlen data + byteSlicesLen bs < 2 ^ 32 →
  ∃ k b', Writev true bs b = Ret (k, b') ∧ 0 ≤ k ≤ byteSlicesLen bs ∧
    (wo = true → Z.min (byteSlicesLen bs) (maxFillLen (cfg b)) ≤ k) ∧
    holds wo b' (data ++ ztake k (data_of bs)) ∧ cfg b' = cfg b.
Proof. apply copyFrom_ok. Qed.


(** ** WritevLimited *)

Lemma WritevLimited_full wo b data safe limit bs :
  holds wo b data → slices_ok bs → 0 < limit → byteSlicesLen bs ≠ 0 →
  zlen data + byteSlicesLen bs > limit →
  WritevLimited safe limit bs b = Ret (Err ErrBufferFull, b).
Proof.
  intros H Hbs Hl Hz Hgt. destruct (holds_len _ _ _ H) as [Hr _]. unfold WritevLimited.
  rewrite decide_False by lia. rewrite decide_False by lia. mpure. rewrite Hr.
  by rewrite decide_True by lia.
Qed.

(** Within the limit it is [Writev]. *)
Lemma WritevLimited_fits wo b data safe limit bs :
  holds wo b data → limit ≤ 0 ∨ zlen data + byteSlicesLen bs ≤ limit → byteSlicesLen bs ≠ 0 →
  WritevLimited safe limit bs b = (n ← Writev safe bs; mret (Ok n)) b.
Proof.
  intros H Hor Hz. destruct (holds_len _ _ _ H) as [Hr _]. unfold WritevLimited.
  case_decide; [done|]. rewrite decide_False by lia. mpure. rewrite Hr, decide_False by lia.
  by destruct safe.
Qed.

(** ** Fill *)

(** The vectors offered to the data source are the free parts of the nodes. *)
Lemma byte_vec_loop_ok (len : nat) fuel b ns i acc :
  len = (length ns - i)%nat → shape (heap b) ns → all_ok ns → (len < fuel)%nat →
  ∃ vs, byte_vec_loop fuel (addr ns i) acc b = Ret (acc ++ vs, b) ∧
        map s_len vs = map (λ x, node_rest x.2) (drop i ns).
Proof.
  revert fuel i acc. induction len as [|len IH]; intros fuel i acc Hlen Hs Ho Hf;
    (destruct fuel as [|fuel]; [lia|]); cbn [byte_vec_loop].
  - assert (addr ns i = None) as -> by (apply addr_None; lia).
    exists []. rewrite app_nil_r, drop_ge by lia. done.
  - destruct (node_at ns i ltac:(lia)) as (l & nd & Hi). rewrite (addr_Some _ _ _ _ Hi).
    rewrite <-(addr_Some _ _ _ _ Hi). mload. rewrite (shape_next _ _ _ _ _ Hs Hi).
    pose proof (all_ok_lookup _ _ _ _ Ho Hi) as Hn.
    assert (∃ s, block_sub nd (n_w nd) (node_cap nd) = Ret s ∧ s_len s = node_rest nd) as (s & Hbs & Hsl).
    { destruct Hn as [Hrw Hwc Hcap Hsk _]. unfold block_sub, node_rest, node_cap in *.
      destruct (n_block nd) as [s|]; simpl.
      - specialize (Hsk s eq_refl). unfold slice_ok in Hsk. rewrite reslice_Some by lia. by eexists.
      - replace (n_w nd) with 0 by lia. by eexists. }
    mlift Hbs. destruct (IH fuel (S i) (acc ++ [s])) as (vs & Hr & Hvs); [lia|done|done|lia|].
    exists (s :: vs). rewrite Hr, <-app_assoc. split; [done|].
    rewrite (drop_S _ _ _ Hi). simpl. by rewrite Hsl, Hvs.
Qed.

(** What [Fill] offers a reader on a buffer below its size limit, and what becomes
    of the bytes the reader delivers. *)
Lemma fill_prepare_ok wo b data n :
  holds wo b data → zlen data ≤ MaxBufferSize (cfg b) →
  ∃ bv b1, fill_prepare n [] b = Ret (Ok bv, b1) ∧ holds false b1 data ∧ cfg b1 = cfg b ∧
    Forall (λ z, 0 < z) (map s_len bv) ∧ bv ≠ [] ∧
    (wo = true → Z.min n (maxFillLen (cfg b)) ≤ sumZ (map s_len bv)) ∧
    (∀ d, zlen d ≤ sumZ (map s_len bv) → zlen data + zlen d < 2 ^ 32 →
       ∃ b2, fill_finish [] d b1 = Ret ((), b2) ∧ holds false b2 (data ++ d) ∧ cfg b2 = cfg b).
Proof.
  intros (ns & ri & wi & H & <- & Hwo) Hmax.
  destruct (make_room_ok b ns ri wi n H) as (b1 & ns1 & wi1 & Hr1 & [H1 Hc1 (l & nd & Hi & Hpos) Hla1 Ec1]).
  pose proof (rp_shape _ _ _ _ H1) as Hs1. pose proof (rp_ok _ _ _ _ H1) as Ho1.
  pose proof (rp_wi _ _ _ _ H1) as Hwl. pose proof (loop_fuel_shape _ _ Hs1) as Hfu.
  destruct (byte_vec_loop_ok (length ns1 - wi1) (loop_fuel b1) b1 ns1 wi1 []) as (vs & Hv & Hvs);
    [done|done|done|lia|].
  rewrite app_nil_l in Hv.
  assert (sumZ (map s_len vs) = room (drop wi1 ns1)) as Hsum by (by rewrite Hvs).
  assert (Forall (λ z, 0 < z) (map s_len vs)) as Hp.
  { rewrite Hvs, (drop_S _ _ _ Hi). simpl. apply Forall_cons_2; [done|].
    apply Forall_map. eapply Forall_impl; [|exact (rp_idle _ _ _ _ H1)].
    intros x Hx. by apply node_idle_rest. }
  exists vs, b1. split_and!.
  - unfold fill_prepare. mpure. rewrite (rp_rlen _ _ _ _ H). mpure. rewrite decide_False by lia.
    etrans; [apply (make_room_bind n (λ _, _))|]. mrun Hr1. unfold countNodeAndFillByteVec.
    erewrite bind_Ret by (mpure; rewrite (rp_wnode _ _ _ _ H1); exact Hv).
    rewrite decide_False; [done|]. intros (s & Hs & Hz)%Exists_exists.
    rewrite List.Forall_forall in Hp. specialize (Hp _ (in_map s_len vs s Hs)). lia.
  - exists ns1, ri, wi1. by split_and!.
  - done.
  - done.
  - intros ->. rewrite (drop_S _ _ _ Hi) in Hvs. done.
  - intros Hw. rewrite Hsum. apply (Hla1 (Hwo Hw)).
  - intros d Hle Hbd. assert (length (take wi1 ns1) = wi1) as Hpre by (rewrite length_take; lia).
    destruct (scatter_loop_ok (loop_fuel b1) b1 (take wi1 ns1) (drop wi1 ns1) d) as (h & Hsc & Hs2);
      [by rewrite take_drop|by apply Forall_drop|rewrite length_drop; lia|].
    rewrite take_drop, Hpre in Hsc.
    destruct (adjust_copied_ok b1 ns1 ri wi1 h d H1 Hs2) as (b2 & ns2 & wi2 & Ha & Hf);
      [lia|by rewrite Hc1|].
    exists b2. split; [|split; [|rewrite (fi_cfg _ _ _ _ _ _ _ _ Hf); done]].
    + unfold fill_finish. mpure. change (sumZ (map s_len [])) with 0. rewrite zdrop_0, (rp_wnode _ _ _ _ H1).
      mrun Hsc. exact Ha.
    + exists ns2, ri, wi2. split; [apply Hf|]. split; [|done].
      by rewrite (fi_content _ _ _ _ _ _ _ _ Hf), Hc1.
Qed.

(** The outcome of [Fill] on a buffer below its size limit, for a data source that
    returns no more than the vectors take. *)
Lemma Fill_ok wo b data readv n :
  holds wo b data → zlen data ≤ MaxBufferSize (cfg b) →
  (∀ lens d, Forall (λ z, 0 < z) lens → readv lens = Ok d →
     zlen d ≤ sumZ lens ∧ zlen data + zlen d < 2 ^ 32) →
  ∃ lens b', Forall (λ z, 0 < z) lens ∧ lens ≠ [] ∧
    (wo = true → Z.min n (maxFillLen (cfg b)) ≤ sumZ lens) ∧ cfg b' = cfg b ∧
    match readv lens with
    | Err e => Fill readv n [] b = Ret (Err (ErrReader e), b') ∧ holds false b' data
    | Ok d => Fill readv n [] b = Ret (Ok (), b') ∧ holds false b' (data ++ d)
    end.
Proof.
  intros H Hmax Hrd.
  destruct (fill_prepare_ok wo b data n H Hmax) as (bv & b1 & Hr1 & H1 & Hc1 & Hp & Hne & Hwo & Hfin).
  exists (map s_len bv). unfold Fill. destruct (readv (map s_len bv)) as [d|e] eqn:Erd.
  - destruct (Hrd _ d Hp Erd) as [Hle Hbd]. destruct (Hfin d Hle Hbd) as (b2 & Hr2 & H2 & Hc2).
    exists b2. split_and!; [done|by intros ?%map_eq_nil|done|congruence| |done].
    erewrite bind_Ret by exact Hr1. cbv beta iota. rewrite Erd. by erewrite bind_Ret by exact Hr2.
  - exists b1. split_and!; [done|by intros ?%map_eq_nil|done|done| |done]. erewrite bind_Ret by exact Hr1. cbv beta iota. by rewrite Erd.
Qed.

(** The same for a reader with a state, which delivers at most what is offered. *)
Lemma FillFrom_ok {S E} wo b data (readv : list Z → M S (result E (list byte))) n s :
  holds wo b data → zlen data ≤ MaxBufferSize (cfg b) →
  (∀ lens, Forall (λ z, 0 < z) lens → lens ≠ [] → ∃ r s', readv lens s = Ret (r, s') ∧
     match r with Ok d => zlen d ≤ sumZ lens | Err _ => True end) →
  ∃ lens r s', Forall (λ z, 0 < z) lens ∧ lens ≠ [] ∧ readv lens s = Ret (r, s') ∧
    match r with
    | Err e => ∃ b', FillFrom readv n [] (b, s) = Ret (Err (inr e), (b', s')) ∧ holds false b' data ∧ cfg b' = cfg b
    | Ok d => zlen data + zlen d < 2 ^ 32 →
        ∃ b', FillFrom readv n [] (b, s) = Ret (Ok (), (b', s')) ∧ holds false b' (data ++ d) ∧ cfg b' = cfg b
    end.
Proof.
  intros H Hmax Hrd.
  destruct (fill_prepare_ok wo b data n H Hmax) as (bv & b1 & Hr1 & H1 & Hc1 & Hp & Hne & _ & Hfin).
  assert (map s_len bv ≠ []) as Hne' by (by intros ?%map_eq_nil).
  destruct (Hrd _ Hp Hne') as (r & s' & Hr & Hle).
  exists (map s_len bv), r, s'. split_and!; try done. unfold FillFrom.
  destruct r as [d|e].
  - intros Hbd. destruct (Hfin d Hle Hbd) as (b2 & Hr2 & H2 & Hc2). exists b2. split_and!; try done.
    erewrite bind_Ret by (apply zoom_Ret; exact Hr1). cbv beta iota. simpl.
    erewrite bind_Ret by (apply zoom_Ret; exact Hr). cbv beta iota.
    by erewrite bind_Ret by (apply zoom_Ret; exact Hr2).
  - exists b1. split_and!; try done. erewrite bind_Ret by (apply zoom_Ret; exact Hr1). cbv beta iota. simpl.
    by erewrite bind_Ret by (apply zoom_Ret; exact Hr).
Qed.

Lemma FillFrom_full {S E} wo b data (readv : list Z → M S (result E (list byte))) n bv s :
  holds wo b data → MaxBufferSize (cfg b) < zlen data →
  FillFrom readv n bv (b, s) = Ret (Err (inl ErrBufferFull), (b, s)).
Proof.
  intros H Hgt. destruct (holds_len _ _ _ H) as [Hr _]. unfold FillFrom.
  erewrite bind_Ret; [|apply zoom_Ret; unfold fill_prepare; mpure; simpl; rewrite Hr; mpure; rewrite decide_True by lia; reflexivity].
  done.
Qed.

Lemma Fill_full wo b data readv n bv :
  holds wo b data → MaxBufferSize (cfg b) < zlen data →
  Fill readv n bv b = Ret (Err ErrBufferFull, b).
Proof.
  intros H Hgt. destruct (holds_len _ _ _ H) as [Hr _]. unfold Fill.
  erewrite bind_Ret; [|unfold fill_prepare; mpure; rewrite Hr; mpure; rewrite decide_True by lia; reflexivity].
  done.
Qed.
