(* ===== verification/BufferSpec.v ===== *)
(** * Linked buffers are byte queues

    [spec_step] is the contract of a buffer: a queue of bytes, the answer every
    operation gives on it and the queue it leaves.  [run_ops] runs a sequence of
    operations on the model of buffer.go; it refines the contract, without panics,
    from a new buffer on.  A second contract describes the buffers of UDP
    connections as queues of packets. *)

From stdpp Require Import base gmap list numbers.
From S2P Require Import Prelude MCache Node LinkedBuffer BufferInv BufferRead BufferBlocks BufferMem BufferLink BufferCopy.

Local Open Scope Z_scope.

(** ** Operations and answers *)

Inductive op : Type :=
| OpLenRead
| OpPeek (n : Z)
| OpNext (n : Z)
| OpSkip (n : Z)
| OpRead (plen : Z)
| OpRelease
| OpWritev (safeWrite : bool) (bs : list slice)
| OpWritevLimited (safeWrite : bool) (limit : Z) (bs : list slice)
(** [Fill] from a data source that returns at most [most] bytes. *)
| OpFill (readv : list Z → result Z (list byte)) (n most : Z).

Inductive answer : Type :=
| ALen (n : Z)
| ABytes (r : result err (list byte))
| ARead (n : Z) (bs : list byte)
| ADone (r : result err ())
| AWritten (r : result err Z).

Definition rmap {E A B} (f : A → B) (r : result E A) : result E B :=
  match r with Ok a => Ok (f a) | Err e => Err e end.

Definition read_answer (r : result err (Z * list byte)) : answer :=
  match r with
  | Ok (n, bs) => ARead n bs
  | Err e => ABytes (Err e)
  end.

Definition run_op (o : op) : MB answer :=
  match o with
  | OpLenRead => n ← LenRead; mret (ALen n)
  | OpPeek n => r ← Peek n; mret (ABytes (rmap s_bytes r))
  | OpNext n => r ← Next n; mret (ABytes (rmap s_bytes r))
  | OpSkip n => r ← Skip n; mret (ADone r)
  | OpRead plen => r ← Read plen; mret (read_answer r)
  | OpRelease => _ ← Release; mret (ADone (Ok ()))
  | OpWritev safe bs => n ← Writev safe bs; mret (AWritten (Ok n))
  | OpWritevLimited safe limit bs => r ← WritevLimited safe limit bs; mret (AWritten r)
  | OpFill readv n _ => r ← Fill readv n []; mret (ADone r)
  end.

Fixpoint run_ops (os : list op) : MB (list answer) :=
  match os with
  | [] => mret []
  | o :: os => a ← run_op o; az ← run_ops os; mret (a :: az)
  end.

(** ** The contract *)

(** How much of a write of [bs] is accepted: by reference everything, by copy a
    prefix, which in a buffer that is only written to is everything up to
    [maxFillLen]. *)
Definition accepts (c : config) (wo safe : bool) (bs : list slice) (k : Z) : Prop :=
  0 ≤ k ≤ byteSlicesLen bs ∧
  (safe = false → k = byteSlicesLen bs) ∧
  (safe = true → wo = true → Z.min (byteSlicesLen bs) (maxFillLen c) ≤ k).

Inductive spec_step (c : config) (wo : bool) : op → list byte → answer → list byte → Prop :=
| S_LenRead q : spec_step c wo OpLenRead q (ALen (zlen q)) q
| S_Peek_neg n q : n < 0 → spec_step c wo (OpPeek n) q (ABytes (Err ErrInvalidParam)) q
| S_Peek_short n q :
    zlen q < n → 0 < n → spec_step c wo (OpPeek n) q (ABytes (Err ErrNoEnoughData)) q
| S_Peek n q : 0 ≤ n ≤ zlen q → spec_step c wo (OpPeek n) q (ABytes (Ok (ztake n q))) q
| S_Next_neg n q : n < 0 → spec_step c wo (OpNext n) q (ABytes (Err ErrInvalidParam)) q
| S_Next_short n q :
    zlen q < n → 0 < n → spec_step c wo (OpNext n) q (ABytes (Err ErrNoEnoughData)) q
| S_Next n q : 0 ≤ n ≤ zlen q → spec_step c wo (OpNext n) q (ABytes (Ok (ztake n q))) (zdrop n q)
| S_Skip_neg n q : n < 0 → spec_step c wo (OpSkip n) q (ADone (Err ErrInvalidParam)) q
| S_Skip_short n q :
    zlen q < n → 0 ≤ n → spec_step c wo (OpSkip n) q (ADone (Err ErrNoEnoughData)) q
| S_Skip n q : 0 ≤ n ≤ zlen q → spec_step c wo (OpSkip n) q (ADone (Ok ())) (zdrop n q)
| S_Read plen q :
    spec_step c wo (OpRead plen) q (ARead (Z.min plen (zlen q)) (ztake plen q)) (zdrop plen q)
| S_Release q : spec_step c wo OpRelease q (ADone (Ok ())) q
| S_Writev safe bs q k :
    accepts c wo safe bs k →
    spec_step c wo (OpWritev safe bs) q (AWritten (Ok k)) (q ++ ztake k (data_of bs))
| S_Limited_full safe limit bs q :
    0 < limit < zlen q + byteSlicesLen bs → byteSlicesLen bs ≠ 0 →
    spec_step c wo (OpWritevLimited safe limit bs) q (AWritten (Err ErrBufferFull)) q
| S_Limited safe limit bs q k :
    limit ≤ 0 ∨ zlen q + byteSlicesLen bs ≤ limit ∨ byteSlicesLen bs = 0 →
    accepts c wo safe bs k →
    spec_step c wo (OpWritevLimited safe limit bs) q (AWritten (Ok k)) (q ++ ztake k (data_of bs))
| S_Fill_full readv n most q :
    MaxBufferSize c < zlen q →
    spec_step c wo (OpFill readv n most) q (ADone (Err ErrBufferFull)) q
| S_Fill_err readv n most q lens e :
    zlen q ≤ MaxBufferSize c → Forall (λ z, 0 < z) lens → lens ≠ [] → readv lens = Err e →
    spec_step c wo (OpFill readv n most) q (ADone (Err (ErrReader e))) q
| S_Fill readv n most q lens d :
    zlen q ≤ MaxBufferSize c → Forall (λ z, 0 < z) lens → lens ≠ [] → readv lens = Ok d →
    spec_step c wo (OpFill readv n most) q (ADone (Ok ())) (q ++ d).

Inductive spec_run (c : config) (wo : bool) : list op → list byte → list answer → list byte → Prop :=
| SR_nil q : spec_run c wo [] q [] q
| SR_cons o os q a q' az q'' :
    spec_step c wo o q a q' → spec_run c wo os q' az q'' →
    spec_run c wo (o :: os) q (a :: az) q''.

(** Operations as clients issue them, and the bytes they can add.  Buffers in
    which the write node is last ([wo]) are never filled. *)
Definition op_ok (wo : bool) (o : op) : Prop :=
  match o with
  | OpRead plen => 0 ≤ plen
  | OpWritev _ bs | OpWritevLimited _ _ bs => slices_ok bs
  | OpFill readv _ most =>
      wo = false ∧
      ∀ lens d, Forall (λ z, 0 < z) lens → readv lens = Ok d → zlen d ≤ sumZ lens ∧ zlen d ≤ most
  | _ => True
  end.

Definition op_bytes (o : op) : Z :=
  match o with
  | OpWritev _ bs | OpWritevLimited _ _ bs => byteSlicesLen bs
  | OpFill _ _ most => Z.max 0 most
  | _ => 0
  end.

(** ** One step *)

Lemma Peek_neg n b : n < 0 → Peek n b = Ret (Err ErrInvalidParam, b).
Proof. intros. unfold Peek. by rewrite decide_True by lia. Qed.

Lemma Next_neg n b : n < 0 → Next n b = Ret (Err ErrInvalidParam, b).
Proof. intros. unfold Next. by rewrite decide_True by lia. Qed.

Lemma Skip_neg n b : n < 0 → Skip n b = Ret (Err ErrInvalidParam, b).
Proof. intros. unfold Skip. by rewrite decide_True by lia. Qed.

Lemma Peek_short wo b q n :
  holds wo b q → zlen q < n → 0 < n → Peek n b = Ret (Err ErrNoEnoughData, b).
Proof.
  intros [Hr _]%holds_len ? ?. unfold Peek. rewrite !decide_False by lia. mpure.
  by rewrite Hr, decide_True by lia.
Qed.

Lemma Next_short wo b q n :
  holds wo b q → zlen q < n → 0 < n → Next n b = Ret (Err ErrNoEnoughData, b).
Proof.
  intros [Hr _]%holds_len ? ?. unfold Next. rewrite !decide_False by lia. mpure.
  by rewrite Hr, decide_True by lia.
Qed.

Lemma Skip_short wo b q n :
  holds wo b q → zlen q < n → 0 ≤ n → Skip n b = Ret (Err ErrNoEnoughData, b).
Proof.
  intros [Hr _]%holds_len ? ?. unfold Skip. rewrite !decide_False by lia. mpure.
  by rewrite Hr, decide_True by lia.
Qed.

(** The refinement of one operation: the answer and the queue after it. *)
Definition refines_step (wo : bool) (o : op) (b : Buffer) (q : list byte) : Prop :=
  ∃ a b' q', run_op o b = Ret (a, b') ∧ spec_step (cfg b) wo o q a q' ∧
    holds wo b' q' ∧ cfg b' = cfg b ∧ zlen q' ≤ zlen q + op_bytes o.

Lemma refines_peek wo b q n : holds wo b q → refines_step wo (OpPeek n) b q.
Proof.
  intros H. unfold refines_step. cbn [run_op op_bytes]. rewrite Z.add_0_r.
  destruct (decide (n < 0)); [|destruct (decide (n = 0)) as [->|]; [|destruct (decide (zlen q < n))]].
  - mrun (Peek_neg n b ltac:(lia)). eexists _, _, q. split; [done|]. by split; [constructor|].
  - mpure. eexists _, _, q. split; [done|]. split; [|done].
    apply (S_Peek _ _ 0 q). pose proof (zlen_nonneg q). lia.
  - mrun (Peek_short wo b q n H ltac:(lia) ltac:(lia)). eexists _, _, q. split; [done|].
    split; [|done]. apply S_Peek_short; lia.
  - destruct (Peek_ok wo b q n H ltac:(lia)) as (s & b' & Hr & Hs & H' & Hc). mrun Hr.
    eexists _, _, q. split; [done|]. simpl. rewrite Hs. split; [|done]. apply S_Peek. lia.
Qed.

Lemma zlen_zdrop_le {A} n (q : list A) : zlen (zdrop n q) ≤ zlen q.
Proof. unfold zlen, zdrop. rewrite length_drop. lia. Qed.

Lemma refines_next wo b q n : holds wo b q → refines_step wo (OpNext n) b q.
Proof.
  intros H. unfold refines_step. cbn [run_op op_bytes]. rewrite Z.add_0_r.
  destruct (decide (n < 0)); [|destruct (decide (n = 0)) as [->|]; [|destruct (decide (zlen q < n))]].
  - mrun (Next_neg n b ltac:(lia)). eexists _, _, q. split; [done|]. by split; [constructor|].
  - mpure. eexists _, _, q. split; [done|]. split; [|done].
    apply (S_Next _ _ 0 q). pose proof (zlen_nonneg q). lia.
  - mrun (Next_short wo b q n H ltac:(lia) ltac:(lia)). eexists _, _, q. split; [done|].
    split; [|done]. apply S_Next_short; lia.
  - destruct (Next_ok wo b q n H ltac:(lia)) as (s & b' & Hr & Hs & H' & Hc). mrun Hr.
    eexists _, _, (zdrop n q). split; [done|]. simpl. rewrite Hs.
    split; [apply S_Next; lia|]. split; [done|]. split; [done|]. apply zlen_zdrop_le.
Qed.

Lemma refines_skip wo b q n : holds wo b q → refines_step wo (OpSkip n) b q.
Proof.
  intros H. unfold refines_step. cbn [run_op op_bytes]. rewrite Z.add_0_r.
  destruct (decide (n < 0)); [|destruct (decide (zlen q < n))].
  - mrun (Skip_neg n b ltac:(lia)). eexists _, _, q. split; [done|]. by split; [constructor|].
  - mrun (Skip_short wo b q n H ltac:(lia) ltac:(lia)). eexists _, _, q. split; [done|].
    split; [|done]. apply S_Skip_short; lia.
  - destruct (Skip_ok wo b q n H ltac:(lia)) as (b' & Hr & H' & Hc). mrun Hr.
    eexists _, _, (zdrop n q). split; [done|].
    split; [apply S_Skip; lia|]. split; [done|]. split; [done|]. apply zlen_zdrop_le.
Qed.

(** Writing, by reference or by copy. *)
Lemma Writev_ok wo b q safe bs :
  holds wo b q → slices_ok bs → zlen q + byteSlicesLen bs < 2 ^ 32 →
  ∃ k b', Writev safe bs b = Ret (k, b') ∧ accepts (cfg b) wo safe bs k ∧
    holds wo b' (q ++ ztake k (data_of bs)) ∧ cfg b' = cfg b.
Proof.
  intros H Hbs Hbd. destruct safe.
  - destruct (Writev_safe_ok wo b q bs H Hbs Hbd) as (k & b' & Hr & Hk & Hw & H' & Hc).
    exists k, b'. split; [done|]. split; [|done]. by split.
  - destruct (Writev_unsafe_ok wo b q bs H Hbs Hbd) as (b' & Hr & H' & Hc).
    exists (byteSlicesLen bs), b'. split; [done|].
    assert (0 ≤ byteSlicesLen bs) by auto with tnet.
    split; [by split; [lia|]|]. rewrite ztake_ge; [done|]. rewrite zlen_data_of by done. lia.
Qed.

Lemma zlen_write q bs k : slices_ok bs → 0 ≤ k ≤ byteSlicesLen bs →
  zlen (q ++ ztake k (data_of bs)) ≤ zlen q + byteSlicesLen bs.
Proof. intros. rewrite zlen_app, zlen_ztake, zlen_data_of by (done || lia). lia. Qed.

Lemma accepts_0 c wo safe bs : byteSlicesLen bs = 0 → accepts c wo safe bs 0.
Proof. intros Hz. unfold accepts. rewrite Hz. split; [lia|]. split; [done|]. lia. Qed.

Lemma refines_limited wo b q safe limit bs :
  holds wo b q → slices_ok bs → zlen q + byteSlicesLen bs < 2 ^ 32 →
  refines_step wo (OpWritevLimited safe limit bs) b q.
Proof.
  intros H Hbs Hbd. unfold refines_step. cbn [run_op op_bytes].
  destruct (Writev_ok wo b q safe bs H Hbs Hbd) as (k & b' & Hr & Hk & H' & Hc).
  pose proof (zlen_write q bs k Hbs (proj1 Hk)) as Hle.
  destruct (decide (limit ≤ 0)) as [Hl|Hl]; [|destruct (decide (byteSlicesLen bs = 0)) as [Hz|Hz];
    [|destruct (decide (zlen q + byteSlicesLen bs ≤ limit)) as [Hfit|Hno]]].
  - unfold WritevLimited. rewrite decide_True by done. erewrite bind_Ret by (mrun Hr; reflexivity).
    eexists _, _, _. split; [done|]. split; [apply S_Limited; [by left|done]|done].
  - unfold WritevLimited. rewrite decide_False, decide_True by done. mpure.
    eexists _, _, (q ++ ztake 0 (data_of bs)). split; [done|].
    split; [apply S_Limited; [by right; right|by apply accepts_0]|].
    rewrite ztake_0, app_nil_r, Hz. split; [done|]. split; [done|lia].
  - erewrite bind_Ret; cycle 1.
    { rewrite (WritevLimited_fits wo _ q) by auto. mrun Hr. reflexivity. }
    eexists _, _, _. split; [done|]. split; [apply S_Limited; [by right; left|done]|done].
  - mrun (WritevLimited_full wo b q safe limit bs H Hbs ltac:(lia) Hz ltac:(lia)).
    destruct Hk as [? _]. eexists _, _, q. split; [done|].
    split; [apply S_Limited_full; [lia|done]|]. split; [done|]. split; [done|]. lia.
Qed.

Lemma refines_fill wo b q readv n most :
  holds wo b q → op_ok wo (OpFill readv n most) → zlen q + Z.max 0 most < 2 ^ 32 →
  refines_step wo (OpFill readv n most) b q.
Proof.
  intros H [-> Hrd] Hbd. unfold refines_step. cbn [run_op op_bytes].
  destruct (decide (zlen q ≤ MaxBufferSize (cfg b))) as [Hm|Hm].
  - destruct (Fill_ok false b q readv n H Hm) as (lens & b' & Hp & Hne & _ & Hc & Hres).
    { intros lens d Hl Hd. destruct (Hrd lens d Hl Hd). lia. }
    destruct (readv lens) as [d|e] eqn:Erd; destruct Hres as [Hr H']; mrun Hr.
    + eexists _, _, _. split; [done|]. split; [by eapply S_Fill|]. split; [done|]. split; [done|].
      rewrite zlen_app. destruct (Hrd lens d Hp Erd). lia.
    + eexists _, _, q. split; [done|]. split; [by eapply S_Fill_err|]. split; [done|]. split; [done|]. lia.
  - mrun (Fill_full false b q readv n [] H ltac:(lia)).
    eexists _, _, q. split; [done|]. split; [apply S_Fill_full; lia|]. split; [done|]. split; [done|]. lia.
Qed.

Lemma run_op_refines wo o b q :
  holds wo b q → op_ok wo o → zlen q + op_bytes o < 2 ^ 32 → refines_step wo o b q.
Proof.
  intros H Ho Hbd. destruct o as [|n|n|n|plen| |safe bs|safe limit bs|readv n most].
  - destruct (holds_len _ _ _ H) as [Hl _]. unfold refines_step. cbn [run_op op_bytes]. mpure.
    rewrite Hl, Z.add_0_r. eexists _, _, q. split; [done|]. by split; [constructor|].
  - by apply refines_peek.
  - by apply refines_next.
  - by apply refines_skip.
  - destruct (Read_ok wo b q plen H Ho) as (b' & Hr & H' & Hc). unfold refines_step. cbn [run_op op_bytes].
    mrun Hr. eexists _, _, (zdrop plen q). split; [done|]. split; [apply S_Read|].
    split; [done|]. split; [done|]. rewrite Z.add_0_r. apply zlen_zdrop_le.
  - destruct (Release_holds wo b q H) as (b' & Hr & H' & Hc & _). unfold refines_step. cbn [run_op op_bytes].
    mrun Hr. rewrite Z.add_0_r. eexists _, _, q. split; [done|]. by split; [constructor|].
  - destruct (Writev_ok wo b q safe bs H Ho Hbd) as (k & b' & Hr & Hk & H' & Hc).
    unfold refines_step. cbn [run_op]. mrun Hr. eexists _, _, _. split; [done|].
    split; [by apply S_Writev|]. split; [done|]. split; [done|]. by apply zlen_write; [|apply Hk].
  - by apply refines_limited.
  - by apply refines_fill.
Qed.

Lemma run_ops_refines wo os b q :
  holds wo b q → Forall (op_ok wo) os → zlen q + sumZ (map op_bytes os) < 2 ^ 32 →
  ∃ az b' q', run_ops os b = Ret (az, b') ∧ spec_run (cfg b) wo os q az q' ∧ holds wo b' q'.
Proof.
  revert b q. induction os as [|o os IH]; intros b q H Ho Hbd; cbn [run_ops].
  { exists [], b, q. split; [done|]. by split; [constructor|]. }
  apply Forall_cons_1 in Ho as [Ho Hos]. simpl in Hbd. unfold sumZ in Hbd. simpl in Hbd. fold (sumZ (map op_bytes os)) in Hbd.
  assert (0 ≤ sumZ (map op_bytes os)) as Hnn.
  { clear -Hos. induction Hos as [|o os Ho _ IH]; [done|]. unfold sumZ. simpl. fold (sumZ (map op_bytes os)).
    assert (0 ≤ op_bytes o); [|lia]. destruct o; simpl in *; try lia; auto with tnet. }
  destruct (run_op_refines wo o b q H Ho ltac:(lia)) as (a & b1 & q1 & Hr & Hst & H1 & Hc1 & Hle).
  mrun Hr. destruct (IH b1 q1 H1 Hos ltac:(lia)) as (az & b2 & q2 & Hr2 & Hst2 & H2). mrun Hr2.
  rewrite Hc1 in Hst2. exists (a :: az), b2, q2. split; [done|]. split; [|done].
  by econstructor.
Qed.

(** ** Properties of byte buffers *)

(** C7: refinement.  From a new buffer, every sequence of operations with valid
    arguments, in which less than 2^32 bytes are written, runs to the end without
    a panic, and its answers are those of the byte queue contract [spec_step];
    [LenRead] is then the length of the queue. *)
Theorem buffer_refines_queue (m : mcache) (c : config) (wo : bool) (os : list op)
    (Hm : mcache_ok m) (Hc : config_ok c) (Ho : Forall (op_ok wo) os)
    (Hb : sumZ (map op_bytes os) < 2 ^ 32) :
  ∃ b az b' q, New m c = Ret ((), b) ∧ run_ops os b = Ret (az, b') ∧
    spec_run c wo os [] az q ∧ LenRead b' = Ret (zlen q, b').
Proof.
  destruct (New_ok m c Hc Hm) as (b & Hn & H & Hcf).
  apply holds_blocks_holds in H.
  assert (holds wo b []) as Hh.
  { destruct H as (ns & ri & wi & ? & ? & Hw). exists ns, ri, wi. auto. }
  destruct (run_ops_refines wo os b [] Hh Ho Hb) as (az & b' & q & Hr & Hs & H').
  exists b, az, b', q. rewrite Hcf in Hs. split_and!; try done.
  destruct (holds_len _ _ _ H') as [Hl _]. unfold LenRead, gets. by rewrite Hl.
Qed.

(** A small configuration for concrete runs. *)
Definition tiny : config := Config 4 8 100 false.

Lemma tiny_ok : config_ok tiny.
Proof. split; vm_compute; split; congruence. Qed.

Definition demo_ops : list op :=
  [OpWritev true [of_bytes [1; 2; 3; 4; 5; 6]]; OpWritev false [of_bytes [7]; of_bytes [8; 9]];
   OpPeek 3; OpNext 5; OpSkip 2; OpRead 10; OpRelease; OpNext 1].

Lemma buffer_refines_queue_witness :
  ∃ b az b' q, New (init_mcache (λ _ _, Some 0%nat)) tiny = Ret ((), b) ∧
    run_ops demo_ops b = Ret (az, b') ∧
    spec_run tiny true demo_ops [] az q ∧ LenRead b' = Ret (zlen q, b').
Proof.
  apply (buffer_refines_queue (init_mcache (λ _ _, Some 0%nat)) tiny true demo_ops).
  - apply init_mcache_ok.
  - apply tiny_ok.
  - repeat constructor; simpl; unfold slice_ok, s_cap; simpl; vm_compute; congruence.
  - vm_compute. done.
Defined.

(** Answers that carry an error. *)
Definition is_error (a : answer) : bool :=
  match a with
  | ABytes (Err _) | ADone (Err _) | AWritten (Err _) => true
  | _ => false
  end.

Definition is_fill (o : op) : bool := match o with OpFill _ _ _ => true | _ => false end.





(** [Release] returns the nodes that were read to the pool: afterwards the
    chain starts at the read node, and the bytes left to read are unchanged. *)
Theorem release_drops_read_nodes (wo : bool) (b : Buffer) (q : list byte) (H : holds wo b q) :
  ∃ b', Release b = Ret ((), b') ∧ holds wo b' q ∧ head b' = rnode b'.
Proof. destruct (Release_holds wo b q H) as (b' & ? & ? & _ & ?). by exists b'. Qed.

Lemma release_drops_read_nodes_witness :
  ∃ b b', New (init_mcache (λ _ _, None)) tiny = Ret ((), b) ∧ Release b = Ret ((), b') ∧
    holds true b' [] ∧ head b' = rnode b'.
Proof.
  destruct (New_ok (init_mcache (λ _ _, None)) tiny tiny_ok (init_mcache_ok _)) as (b & Hn & H & _).
  apply holds_blocks_holds in H. exists b.
  destruct (release_drops_read_nodes true b [] H) as (b' & ?). by exists b'.
Defined.

(** [Free] on any well-formed buffer gives every node back (none is left
    allocated), clears all pointers and lengths, and leaves the block cache in
    order. *)
Theorem free_returns_every_node (wo : bool) (b : Buffer) (q : list byte) (H : holds wo b q) :
  ∃ b', BufferFree b = Ret ((), b') ∧ heap b' = ∅ ∧ head b' = None ∧ rnode b' = None ∧
        wnode b' = None ∧ tail b' = None ∧ rlen b' = 0 ∧ mcache_ok (mc b').
Proof. exact (BufferFree_ok wo b q H). Qed.

Lemma free_returns_every_node_witness :
  ∃ b b', New (init_mcache (λ _ _, None)) tiny = Ret ((), b) ∧ BufferFree b = Ret ((), b') ∧ heap b' = ∅.
Proof.
  destruct (New_ok (init_mcache (λ _ _, None)) tiny tiny_ok (init_mcache_ok _)) as (b & Hn & H & _).
  apply holds_blocks_holds in H.
  destruct (free_returns_every_node true b [] H) as (b' & H1 & H2 & _). by exists b, b'.
Defined.

(** C34: a positive limit is never exceeded: on a buffer that holds at most
    [limit] bytes, [WritevLimited] either appends and stays within the limit, or
    answers [ErrBufferFull] and changes nothing. *)
Theorem limited_write_stays_in_limit (wo safe : bool) (b : Buffer) (q : list byte) (limit : Z)
    (bs : list slice) (H : holds wo b q) (Hbs : slices_ok bs) (Hl : 0 < limit)
    (Hq : zlen q ≤ limit) (Hb : zlen q + byteSlicesLen bs < 2 ^ 32) :
  (zlen q + byteSlicesLen bs > limit ∧ WritevLimited safe limit bs b = Ret (Err ErrBufferFull, b)) ∨
  (∃ k b', WritevLimited safe limit bs b = Ret (Ok k, b') ∧ rlen b' ≤ limit ∧
           holds wo b' (q ++ ztake k (data_of bs)) ∧ accepts (cfg b) wo safe bs k).
Proof.
  destruct (decide (byteSlicesLen bs ≠ 0 ∧ zlen q + byteSlicesLen bs > limit)) as [(? & ?)|Hno].
  { left. split; [done|]. by apply (WritevLimited_full wo b q). }
  right. destruct (refines_limited wo b q safe limit bs H Hbs Hb) as (a & b' & q' & Hr & Hst & H' & _).
  cbn [run_op] in Hr. unfold mbind, M_bind in Hr.
  destruct (WritevLimited safe limit bs b) as [[r b1]| |] eqn:E; [|done..].
  change (Ret (AWritten r, b1) = Ret (a, b')) in Hr. injection Hr as <- <-.
  inversion Hst; subst; [exfalso; apply Hno; split; [done|lia]|].
  exists k, b1. split; [done|]. split; [|by split].
  destruct (holds_len _ _ _ H') as [-> _]. 
  match goal with Ha : accepts _ _ _ _ _ |- _ => pose proof (zlen_write q bs k Hbs (proj1 Ha)) end. lia.
Qed.

Lemma limited_write_stays_in_limit_witness :
  ∃ b, New (init_mcache (λ _ _, None)) tiny = Ret ((), b) ∧
  ((zlen (A := byte) [] + 3 > 2 ∧ WritevLimited true 2 [of_bytes [1; 2; 3]] b = Ret (Err ErrBufferFull, b)) ∨
  (∃ k b', WritevLimited true 2 [of_bytes [1; 2; 3]] b = Ret (Ok k, b') ∧ rlen b' ≤ 2 ∧
           holds true b' ([] ++ ztake k (data_of [of_bytes [1; 2; 3]])) ∧
           accepts (cfg b) true true [of_bytes [1; 2; 3]] k)).
Proof.
  destruct (New_ok (init_mcache (λ _ _, None)) tiny tiny_ok (init_mcache_ok _)) as (b & Hn & H & _).
  apply holds_blocks_holds in H. exists b. split; [exact Hn|].
  apply (limited_write_stays_in_limit true true b [] 2 [of_bytes [1; 2; 3]] H).
  - repeat constructor; vm_compute; congruence.
  - lia.
  - vm_compute. congruence.
  - vm_compute. done.
Defined.


(** A source with three bytes. *)
Definition three_bytes (lens : list Z) : result Z (list byte) := Ok (ztake (sumZ lens) [1; 2; 3]).


(** ** Buffers as packet queues *)

Inductive pkt_op : Type :=
| PWrite (p : slice)
| PReadBlock
| PSkipBlocks (n : Z)
| PPeekBlocks (n : Z)
| PRelease.

Inductive pkt_answer : Type :=
| PLen (n : Z)
| PBlock (r : result err (list byte))
| PDone (r : result err ())
| PBlocks (bs : list (list byte)).

Definition run_pkt (o : pkt_op) : MB pkt_answer :=
  match o with
  | PWrite p => n ← Write false p; mret (PLen n)
  | PReadBlock => r ← ReadBlock; mret (PBlock (rmap s_bytes r))
  | PSkipBlocks n => r ← SkipBlocks n; mret (PDone r)
  | PPeekBlocks n => r ← PeekBlocks n; mret (PBlocks (map s_bytes r))
  | PRelease => _ ← Release; mret (PDone (Ok ()))
  end.

(** The contract: a queue of non-empty packets. *)
Definition pkt_spec (o : pkt_op) (q : list (list byte)) : pkt_answer * list (list byte) :=
  match o with
  | PWrite p => (PLen (s_len p), q ++ slice_blocks p)
  | PReadBlock =>
      match q with
      | [] => (PBlock (Err ErrNoEnoughData), [])
      | x :: q => (PBlock (Ok x), q)
      end
  | PSkipBlocks n => (PDone (Ok ()), zdrop n q)
  | PPeekBlocks n => (PBlocks (ztake n q), q)
  | PRelease => (PDone (Ok ()), q)
  end.

Fixpoint run_pkts (os : list pkt_op) : MB (list pkt_answer) :=
  match os with
  | [] => mret []
  | o :: os => a ← run_pkt o; az ← run_pkts os; mret (a :: az)
  end.

Fixpoint pkt_specs (os : list pkt_op) (q : list (list byte)) : list pkt_answer * list (list byte) :=
  match os with
  | [] => ([], q)
  | o :: os =>
      let (a, q') := pkt_spec o q in
      let (az, q'') := pkt_specs os q' in
      (a :: az, q'')
  end.

(** A client that skips no more packets than there are. *)
Fixpoint pkts_ok (os : list pkt_op) (q : list (list byte)) : Prop :=
  match os with
  | [] => True
  | o :: os =>
      match o with
      | PWrite p => slice_ok p ∧ s_len p < 2 ^ 32
      | PSkipBlocks n => q ≠ [] ∧ 0 ≤ n ≤ zlen q
      | PPeekBlocks n => 0 ≤ n
      | _ => True
      end ∧ pkts_ok os (pkt_spec o q).2
  end.

Definition pkt_bytes (o : pkt_op) : Z := match o with PWrite p => s_len p | _ => 0 end.

Lemma zlen_concat_zdrop (q : list (list byte)) n : zlen (concat (zdrop n q)) ≤ zlen (concat q).
Proof.
  rewrite <-(ztake_zdrop n q) at 2. rewrite concat_app, zlen_app.
  pose proof (zlen_nonneg (concat (ztake n q))). lia.
Qed.

Lemma zlen_concat_slice p : slice_ok p → zlen (concat (slice_blocks p)) = s_len p.
Proof.
  intros Hp. unfold slice_blocks. case_decide as Hz; [by rewrite Hz|]. simpl.
  rewrite app_nil_r. by apply zlen_s_bytes.
Qed.

(** One packet operation. *)
Lemma run_pkt_refines wo o os b q :
  holds_blocks wo b q → pkts_ok (o :: os) q → zlen (concat q) + pkt_bytes o < 2 ^ 32 →
  ∃ b', run_pkt o b = Ret ((pkt_spec o q).1, b') ∧ holds_blocks wo b' (pkt_spec o q).2 ∧
        zlen (concat (pkt_spec o q).2) ≤ zlen (concat q) + pkt_bytes o.
Proof.
  intros H Hok Hb. destruct o as [p| |n|n|]; destruct Hok as [Ho _]; cbn [run_pkt pkt_spec pkt_bytes] in *.
  - destruct Ho as [Hp Hl].
    destruct (Writev_unsafe_blocks wo b q [p] H) as (b' & Hr & H' & _).
    { by apply Forall_singleton. } { unfold byteSlicesLen. simpl. lia. }
    unfold blocks_of, byteSlicesLen in *. simpl in Hr, H'. rewrite app_nil_r in H'. rewrite Z.add_0_r in Hr.
    exists b'. split; [unfold Write; mrun Hr; done|]. split; [done|]. simpl.
    rewrite concat_app, zlen_app, zlen_concat_slice by done. lia.
  - destruct q as [|x q].
    + exists b. mrun (ReadBlock_empty wo b H). by split_and!.
    + destruct (ReadBlock_ok wo b x q H) as (s & b' & Hr & Hs & H' & _). mrun Hr. exists b'.
      simpl. rewrite Hs. split; [done|]. split; [done|]. zlen_lia.
  - destruct Ho as [Hne Hn]. destruct (SkipBlocks_ok wo b q n H Hne Hn) as (b' & Hr & H' & _). mrun Hr.
    exists b'. split; [done|]. split; [done|]. simpl. pose proof (zlen_concat_zdrop q n). lia.
  - destruct (PeekBlocks_ok wo b q n H Ho) as (ss & Hr & Hs). mrun Hr. exists b. rewrite Hs.
    split; [done|]. split; [done|]. simpl. lia.
  - destruct (Release_holds_blocks wo b q H) as (b' & Hr & H' & _). mrun Hr.
    exists b'. split; [done|]. split; [done|]. simpl. lia.
Qed.

Lemma run_pkts_refines wo os b q :
  holds_blocks wo b q → pkts_ok os q → zlen (concat q) + sumZ (map pkt_bytes os) < 2 ^ 32 →
  ∃ b', run_pkts os b = Ret ((pkt_specs os q).1, b') ∧ holds_blocks wo b' (pkt_specs os q).2.
Proof.
  revert b q. induction os as [|o os IH]; intros b q H Hok Hb; cbn [run_pkts pkt_specs].
  { by exists b. }
  assert (∀ q, pkts_ok os q → 0 ≤ sumZ (map pkt_bytes os)) as Hnn.
  { clear. induction os as [|o os IH]; intros q Hok; [done|]. destruct Hok as [Ho Hok].
    unfold sumZ. simpl. fold (sumZ (map pkt_bytes os)). specialize (IH _ Hok).
    destruct o; simpl in *; try lia. destruct Ho as [Ho _]. unfold slice_ok in Ho. lia. }
  pose proof Hok as [_ Hok']. specialize (Hnn _ Hok').
  change (sumZ (map pkt_bytes (o :: os))) with (pkt_bytes o + sumZ (map pkt_bytes os)) in Hb.
  destruct (run_pkt_refines wo o os b q H Hok ltac:(lia)) as (b1 & Hr & H1 & Hle).
  mrun Hr. destruct (pkt_spec o q) as [a q1]. simpl in *.
  destruct (IH b1 q1 H1 Hok' ltac:(lia)) as (b2 & Hr2 & H2). mrun Hr2.
  destruct (pkt_specs os q1) as [az q2]. by exists b2.
Qed.

(** C28: refinement.  A buffer that is written one packet at a time, by reference,
    is a queue of packets: [ReadBlock], [PeekBlocks] and [SkipBlocks] see whole
    packets in the order they were written (packets without bytes excepted, which
    leave no trace), and no operation panics. *)
Theorem buffer_refines_packet_queue (m : mcache) (c : config) (os : list pkt_op)
    (Hm : mcache_ok m) (Hc : config_ok c) (Ho : pkts_ok os [])
    (Hb : sumZ (map pkt_bytes os) < 2 ^ 32) :
  ∃ b b', New m c = Ret ((), b) ∧ run_pkts os b = Ret ((pkt_specs os []).1, b') ∧
          holds_blocks true b' (pkt_specs os []).2.
Proof.
  destruct (New_ok m c Hc Hm) as (b & Hn & H & _).
  destruct (run_pkts_refines true os b [] H Ho Hb) as (b' & Hr & H'). by exists b, b'.
Qed.

Definition demo_pkts : list pkt_op :=
  [PWrite (of_bytes [1; 2]); PWrite (of_bytes []); PWrite (of_bytes [3]); PPeekBlocks 5;
   PSkipBlocks 1; PReadBlock; PReadBlock; PRelease].

Lemma buffer_refines_packet_queue_witness :
  ∃ b b', New (init_mcache (λ _ _, None)) tiny = Ret ((), b) ∧
    run_pkts demo_pkts b = Ret ((pkt_specs demo_pkts []).1, b') ∧
    holds_blocks true b' (pkt_specs demo_pkts []).2.
Proof.
  apply (buffer_refines_packet_queue (init_mcache (λ _ _, None)) tiny demo_pkts).
  - apply init_mcache_ok.
  - apply tiny_ok.
  - vm_compute. repeat split; congruence.
  - vm_compute. done.
Defined.

(** ** Where the code departs from its documentation *)

(** A new buffer of the small configuration with some operations run on it. *)
Definition on_new {A} (f : MB A) : outcome A :=
  match New (init_mcache (λ _ _, None)) tiny with
  | Ret (_, b) => match f b with Ret (a, _) => Ret a | Panic => Panic | NoFuel => NoFuel end
  | Panic => Panic
  | NoFuel => NoFuel
  end.

(** a write by copy of more than [maxFillLen] bytes is cut short without an
    error: ten bytes are written into a buffer with [maxFillLen = 8] and room for
    no more, eight are accepted and the other two never arrive. *)
Theorem safe_write_is_cut_at_maxFillLen :
  on_new (n ← Write true (of_bytes [0; 1; 2; 3; 4; 5; 6; 7; 8; 9]);
          r ← Read 20;
          mret (n, rmap snd r)) =
    Ret (8, Ok [0; 1; 2; 3; 4; 5; 6; 7]).
Proof. vm_compute. reflexivity. Qed.

(** [SkipBlocks] of more packets than there are fails after consuming all of
    them without counting: the length still claims a byte, and reading it
    dereferences nil. *)
Theorem failed_skip_blocks_breaks_the_buffer :
  on_new (_ ← Write false (of_bytes [1]); r ← SkipBlocks 2; n ← LenRead; mret (r, n)) =
    Ret (Err ErrNoEnoughData, 1) ∧
  on_new (_ ← Write false (of_bytes [1]); _ ← SkipBlocks 2; Peek 1) = Panic.
Proof. vm_compute. split; reflexivity. Qed.

(** [LenWrite] is not the space left to write: after one byte was written by
    reference and read again, the only node has no block, yet [LenWrite] is 1. *)
Theorem len_write_counts_dropped_blocks :
  on_new (_ ← Write false (of_bytes [1]); _ ← Read 1; n ← LenWrite; b ← get;
          nd ← load (wnode b); mret (n, node_rest nd)) = Ret (1, 0).
Proof. vm_compute. reflexivity. Qed.
