(* ===== verification/FixedBuffer.v ===== *)
(** * Fixed read buffers (src/internal/buffer/fixed_buffer.go)

    The buffer a TCP connection reads from after it was closed: the bytes left in
    its input buffer, and the error to report when they are used up.  Every method
    holds the buffer's lock, so it is one step. *)

From stdpp Require Import base list numbers.
From S2P Require Import Prelude Node.

Local Open Scope Z_scope.

Section FixedBuffer.
Context {E : Type}.

(** What a method answers: the source's [ErrInvalidParam] or the error the buffer
    was initialised with. *)
Inductive ferr : Type :=
| FInvalidParam
| FEof (e : E).

Record FixedReadBuffer : Type := FixedBuf {
  fb_buf : slice;
  fb_rlen : Z;
  fb_pos : Z;
  fb_eofErr : E
}.

Abbreviation MF := (M FixedReadBuffer).

Definition fb_Initialize (buf : slice) (eofErr : E) : FixedReadBuffer :=
  FixedBuf buf (u32 (s_len buf)) 0 eofErr.

Definition fb_LenRead : MF Z := gets fb_rlen.
Definition fb_CurPos : MF Z := gets fb_pos.

(** [b.pos.Add(uint32(n)); b.rlen.Sub(uint32(n))] *)
Definition fb_advance (n : Z) : MF () :=
  modify (λ b, FixedBuf (fb_buf b) (fb_rlen b ⊟ n) (fb_pos b ⊞ n) (fb_eofErr b)).

(** [b.buf[lo:hi]] *)
Definition fb_sub (lo hi : Z) : MF slice := λ b,
  match reslice (fb_buf b) lo hi with
  | Some s => Ret (s, b)
  | None => Panic
  end.

(** [Read(p)] with [n = len(p)]: the count, the bytes stored and the error. *)
Definition fb_Read (n : Z) : MF (result ferr (Z * list byte)) :=
  if decide (n = 0) then mret (Ok (0, []))
  else
    rlen ← fb_LenRead;
    if decide (rlen = 0) then b ← get; mret (Err (FEof (fb_eofErr b)))
    else
      let n := if decide (rlen < n) then rlen else n in
      curPos ← fb_CurPos;
      s ← fb_sub curPos (curPos + n);
      _ ← fb_advance n;
      mret (Ok (n, s_bytes s)).

Definition fb_Peek (n : Z) : MF (result ferr (list byte)) :=
  if decide (n < 0) then mret (Err FInvalidParam)
  else if decide (n = 0) then mret (Ok [])
  else
    rlen ← fb_LenRead;
    if decide (rlen < n) then b ← get; mret (Err (FEof (fb_eofErr b)))
    else
      curPos ← fb_CurPos;
      s ← fb_sub curPos (curPos + n);
      mret (Ok (s_bytes s)).

Definition fb_Skip (n : Z) : MF (result ferr ()) :=
  if decide (n < 0) then mret (Err FInvalidParam)
  else if decide (n = 0) then mret (Ok ())
  else
    rlen ← fb_LenRead;
    if decide (rlen < n) then b ← get; mret (Err (FEof (fb_eofErr b)))
    else
      _ ← fb_advance n;
      mret (Ok ()).

Definition fb_Next (n : Z) : MF (result ferr (list byte)) :=
  if decide (n < 0) then mret (Err FInvalidParam)
  else if decide (n = 0) then mret (Ok [])
  else
    rlen ← fb_LenRead;
    if decide (rlen < n) then b ← get; mret (Err (FEof (fb_eofErr b)))
    else
      curPos ← fb_CurPos;
      _ ← fb_advance n;
      s ← fb_sub curPos (curPos + n);
      mret (Ok (s_bytes s)).

(** [ReadN] copies what [Next] slices. *)
Definition fb_ReadN (n : Z) : MF (result ferr (list byte)) :=
  if decide (n < 0) then mret (Err FInvalidParam)
  else if decide (n = 0) then mret (Ok [])
  else
    rlen ← fb_LenRead;
    if decide (rlen < n) then b ← get; mret (Err (FEof (fb_eofErr b)))
    else
      curPos ← fb_CurPos;
      s ← fb_sub curPos (curPos + n);
      let buf := overwrite (of_bytes (replicate (Z.to_nat n) 0)) 0 (s_bytes s) in
      _ ← fb_advance n;
      mret (Ok (s_bytes buf)).

(** ** Invariant and abstraction *)

Record fixed_ok (b : FixedReadBuffer) : Prop := {
  fo_slice : slice_ok (fb_buf b);
  fo_small : s_len (fb_buf b) < 2 ^ 32;
  fo_pos : 0 ≤ fb_pos b;
  fo_rlen : 0 ≤ fb_rlen b;
  fo_sum : fb_pos b + fb_rlen b = s_len (fb_buf b)
}.

(** The bytes not read yet. *)
Definition fixed_bytes (b : FixedReadBuffer) : list byte :=
  zdrop (fb_pos b) (s_bytes (fb_buf b)).

Lemma fb_Initialize_ok buf e :
  slice_ok buf → s_len buf < 2 ^ 32 →
  fixed_ok (fb_Initialize buf e) ∧ fixed_bytes (fb_Initialize buf e) = s_bytes buf.
Proof.
  intros Hs Hl. unfold slice_ok in Hs. unfold fb_Initialize. rewrite u32_small by lia.
  split; [|done]. split; simpl; try done; lia.
Qed.

Lemma fixed_bytes_len b : fixed_ok b → zlen (fixed_bytes b) = fb_rlen b.
Proof.
  intros [? ? ? ? ?]. unfold fixed_bytes. rewrite zlen_zdrop, zlen_s_bytes by done. lia.
Qed.

(** Slicing at the current position. *)
Lemma fb_sub_ok b n :
  fixed_ok b → 0 ≤ n ≤ fb_rlen b →
  ∃ s, fb_sub (fb_pos b) (fb_pos b + n) b = Ret (s, b) ∧ s_bytes s = ztake n (fixed_bytes b) ∧
       slice_ok s ∧ s_len s = n.
Proof.
  intros [Hs ? ? ? ?] Hn. unfold fb_sub. unfold slice_ok in Hs.
  rewrite reslice_Some by lia. eexists. split; [done|].
  destruct (reslice_bytes (fb_buf b) (fb_pos b) (fb_pos b + n)
              (Slice (zdrop (fb_pos b) (s_arr (fb_buf b))) (fb_pos b + n - fb_pos b))) as [Hb Hok];
    [by rewrite reslice_Some by lia|].
  split; [|split; [done|simpl; lia]]. rewrite Hb. unfold fixed_bytes, s_bytes, zsub, ztake, zdrop.
  rewrite skipn_firstn_comm, take_take. f_equal. lia.
Qed.

Lemma fb_advance_ok b n :
  fixed_ok b → 0 ≤ n ≤ fb_rlen b →
  ∃ b', fb_advance n b = Ret ((), b') ∧ fixed_ok b' ∧ fixed_bytes b' = zdrop n (fixed_bytes b) ∧
        fb_eofErr b' = fb_eofErr b ∧ fb_buf b' = fb_buf b.
Proof.
  intros [Hs ? ? ? ?] Hn. unfold slice_ok in Hs. eexists. split; [done|].
  rewrite u32_add_r, u32_sub_r, !u32_small by lia. split.
  - split; simpl; try done; lia.
  - unfold fixed_bytes. simpl. rewrite zdrop_zdrop by lia. split; [|done]. f_equal. lia.
Qed.

Lemma s_bytes_copy n s :
  slice_ok s → s_len s = n →
  s_bytes (overwrite (of_bytes (replicate (Z.to_nat n) 0)) 0 (s_bytes s)) = s_bytes s.
Proof.
  intros Hs Hn. pose proof Hs as Hs'. unfold slice_ok in Hs'.
  pose proof (zlen_s_bytes s Hs) as Hz.
  assert (s_len (of_bytes (replicate (Z.to_nat n) 0)) = n) as Hl
    by (unfold of_bytes; simpl; rewrite zlen_replicate; lia).
  pose proof (overwrite_written (of_bytes (replicate (Z.to_nat n) 0)) 0 (s_bytes s)
                (of_bytes_ok _) ltac:(lia) ltac:(lia)) as Hw.
  unfold s_bytes at 1. rewrite overwrite_len, Hl.
  unfold zsub in Hw. rewrite zdrop_0, Z.add_0_l, Z.sub_0_r, Hz, Hn in Hw. exact Hw.
Qed.

End FixedBuffer.
Arguments ferr : clear implicits.
Arguments FixedReadBuffer : clear implicits.

Section FixedBufferProps.
Context {E : Type}.
Implicit Types b : FixedReadBuffer E.

(** The contract of the fixed buffer: a byte queue that only shrinks, and answers
    with its end-of-file error once there is not enough left. *)
Definition fixed_read_spec (n : Z) b : result (ferr E) (Z * list byte) * list byte :=
  let q := fixed_bytes b in
  if decide (n = 0) then (Ok (0, []), q)
  else if decide (q = []) then (Err (FEof (fb_eofErr b)), q)
  else (Ok (Z.min n (zlen q), ztake n q), zdrop n q).

Definition fixed_take_spec (n : Z) (consume : bool) b : result (ferr E) (list byte) * list byte :=
  let q := fixed_bytes b in
  if decide (n < 0) then (Err FInvalidParam, q)
  else if decide (zlen q < n) then (Err (FEof (fb_eofErr b)), q)
  else (Ok (ztake n q), if consume then zdrop n q else q).

Lemma fb_Next_ok b n :
  fixed_ok b →
  ∃ b', fb_Next n b = Ret ((fixed_take_spec n true b).1, b') ∧ fixed_ok b' ∧
        fixed_bytes b' = (fixed_take_spec n true b).2 ∧ fb_eofErr b' = fb_eofErr b.
Proof.
  intros H. unfold fb_Next, fixed_take_spec. pose proof (fixed_bytes_len b H) as Hl.
  destruct (decide (n < 0)); [by exists b|]. destruct (decide (n = 0)) as [->|].
  { rewrite decide_False by (destruct H; lia). by exists b. }
  mpure. rewrite Hl. destruct (decide (fb_rlen b < n)); [by exists b|].
  mpure. destruct (fb_advance_ok b n H ltac:(lia)) as (b' & Ha & Hok & Hb & He & Hbuf).
  erewrite bind_Ret by exact Ha.
  destruct (fb_sub_ok b n H ltac:(lia)) as (s & Hs & Hsb & _).
  assert (fb_sub (fb_pos b) (fb_pos b + n) b' = Ret (s, b')) as Hs'.
  { unfold fb_sub in *. rewrite Hbuf. destruct (reslice _ _ _); by simplify_eq. }
  erewrite bind_Ret by exact Hs'. exists b'. simpl. by rewrite Hsb.
Qed.

Lemma fb_Peek_ok b n :
  fixed_ok b → fb_Peek n b = Ret ((fixed_take_spec n false b).1, b).
Proof.
  intros H. unfold fb_Peek, fixed_take_spec. pose proof (fixed_bytes_len b H) as Hl.
  destruct (decide (n < 0)); [done|]. destruct (decide (n = 0)) as [->|].
  { by rewrite decide_False by (destruct H; lia). }
  mpure. rewrite Hl. destruct (decide (fb_rlen b < n)); [done|].
  mpure. destruct (fb_sub_ok b n H ltac:(lia)) as (s & Hs & Hsb & _).
  erewrite bind_Ret by exact Hs. simpl. by rewrite Hsb.
Qed.

Lemma fb_Skip_ok b n :
  fixed_ok b →
  ∃ b', fb_Skip n b = Ret (match (fixed_take_spec n true b).1 with Ok _ => Ok () | Err e => Err e end, b') ∧
        fixed_ok b' ∧ fixed_bytes b' = (fixed_take_spec n true b).2 ∧ fb_eofErr b' = fb_eofErr b.
Proof.
  intros H. unfold fb_Skip, fixed_take_spec. pose proof (fixed_bytes_len b H) as Hl.
  destruct (decide (n < 0)); [by exists b|]. destruct (decide (n = 0)) as [->|].
  { rewrite decide_False by (destruct H; lia). by exists b. }
  mpure. rewrite Hl. destruct (decide (fb_rlen b < n)); [by exists b|].
  destruct (fb_advance_ok b n H ltac:(lia)) as (b' & Ha & Hok & Hb & He & Hbuf).
  erewrite bind_Ret by exact Ha. by exists b'.
Qed.

Lemma fb_ReadN_ok b n :
  fixed_ok b →
  ∃ b', fb_ReadN n b = Ret ((fixed_take_spec n true b).1, b') ∧ fixed_ok b' ∧
        fixed_bytes b' = (fixed_take_spec n true b).2 ∧ fb_eofErr b' = fb_eofErr b.
Proof.
  intros H. unfold fb_ReadN, fixed_take_spec. pose proof (fixed_bytes_len b H) as Hl.
  destruct (decide (n < 0)); [by exists b|]. destruct (decide (n = 0)) as [->|].
  { rewrite decide_False by (destruct H; lia). by exists b. }
  mpure. rewrite Hl. destruct (decide (fb_rlen b < n)); [by exists b|].
  mpure. destruct (fb_sub_ok b n H ltac:(lia)) as (s & Hs & Hsb & Hok & Hsl).
  erewrite bind_Ret by exact Hs. cbv zeta. rewrite (s_bytes_copy n s Hok Hsl).
  destruct (fb_advance_ok b n H ltac:(lia)) as (b' & Ha & Hok' & Hb & He & Hbuf).
  erewrite bind_Ret by exact Ha. exists b'. simpl. by rewrite Hsb.
Qed.

Lemma fb_Read_ok b n :
  fixed_ok b → 0 ≤ n →
  ∃ b', fb_Read n b = Ret ((fixed_read_spec n b).1, b') ∧ fixed_ok b' ∧
        fixed_bytes b' = (fixed_read_spec n b).2 ∧ fb_eofErr b' = fb_eofErr b.
Proof.
  intros H Hn. unfold fb_Read, fixed_read_spec. pose proof (fixed_bytes_len b H) as Hl.
  destruct (decide (n = 0)); [by exists b|]. mpure.
  destruct (decide (fb_rlen b = 0)) as [Hz|Hz].
  { rewrite (decide_True (P := fixed_bytes b = [])) by (apply zlen_0_inv; lia). by exists b. }
  rewrite (decide_False (P := fixed_bytes b = [])) by (intros E0; rewrite E0 in Hl; by apply Hz).
  cbv zeta. set (k := if decide (fb_rlen b < n) then fb_rlen b else n).
  assert (k = Z.min n (fb_rlen b)) as Hk by (unfold k; case_decide; lia). clearbody k.
  pose proof (fo_rlen _ H). mpure. destruct (fb_sub_ok b k H ltac:(lia)) as (s & Hs & Hsb & _).
  erewrite bind_Ret by exact Hs.
  destruct (fb_advance_ok b k H ltac:(lia)) as (b' & Ha & Hok & Hb & He & Hbuf).
  erewrite bind_Ret by exact Ha. exists b'. simpl. rewrite Hsb, Hl, Hk.
  assert (∀ q : list byte, zlen q = fb_rlen b →
    ztake (Z.min n (fb_rlen b)) q = ztake n q ∧ zdrop (Z.min n (fb_rlen b)) q = zdrop n q) as Hmin.
  { intros q Hq. destruct (decide (n ≤ fb_rlen b)); [by rewrite Z.min_l by lia|].
    rewrite Z.min_r by lia. by rewrite !ztake_ge, !zdrop_ge by lia. }
  destruct (Hmin _ Hl) as [-> Hd]. split; [done|]. split; [done|]. by rewrite Hb, Hk, Hd.
Qed.

(** the fixed buffer of a closed connection behaves as the queue of the bytes
    that were left: [Next], [ReadN], [Peek], [Skip] and [Read] return the next bytes
    or, once there are not enough, the error it was initialised with; nothing
    panics and the invariant is kept. *)
Theorem fixed_buffer_contract b (n : Z) (H : fixed_ok b) (Hn : 0 ≤ n) :
  (∃ b', fb_Next n b = Ret ((fixed_take_spec n true b).1, b') ∧ fixed_ok b' ∧
         fixed_bytes b' = (fixed_take_spec n true b).2) ∧
  (∃ b', fb_ReadN n b = Ret ((fixed_take_spec n true b).1, b') ∧ fixed_ok b' ∧
         fixed_bytes b' = (fixed_take_spec n true b).2) ∧
  (∃ b', fb_Read n b = Ret ((fixed_read_spec n b).1, b') ∧ fixed_ok b' ∧
         fixed_bytes b' = (fixed_read_spec n b).2) ∧
  (∃ b', fb_Skip n b = Ret (match (fixed_take_spec n true b).1 with Ok _ => Ok () | Err e => Err e end, b') ∧
         fixed_ok b' ∧ fixed_bytes b' = (fixed_take_spec n true b).2) ∧
  fb_Peek n b = Ret ((fixed_take_spec n false b).1, b).
Proof.
  split; [|split; [|split; [|split]]].
  - destruct (fb_Next_ok b n H) as (b' & ? & ? & ? & _). by exists b'.
  - destruct (fb_ReadN_ok b n H) as (b' & ? & ? & ? & _). by exists b'.
  - destruct (fb_Read_ok b n H Hn) as (b' & ? & ? & ? & _). by exists b'.
  - destruct (fb_Skip_ok b n H) as (b' & ? & ? & ? & _). by exists b'.
  - by apply fb_Peek_ok.
Qed.

End FixedBufferProps.

Lemma fixed_buffer_contract_witness :
  let b := fb_Initialize (of_bytes [1; 2; 3]) 7 in
  ∃ b', fb_Next 2 b = Ret (Ok [1; 2], b') ∧ fixed_ok b' ∧ fixed_bytes b' = [3].
Proof.
  assert (fixed_ok (fb_Initialize (of_bytes [1; 2; 3]) 7)) as H
    by (apply fb_Initialize_ok; vm_compute; [split; congruence|done]).
  destruct (fixed_buffer_contract (fb_Initialize (of_bytes [1; 2; 3]) 7) 2 H ltac:(lia))
    as [(b' & H1 & H2 & H3) _].
  exists b'. exact (conj H1 (conj H2 H3)).
Defined.
