(* ===== verification/AutoPostpone.v ===== *)
(** * Metrics and automatic write postponing
      (src/metrics/metric.go, src/internal/autopostpone/autopostpone.go)

    [Metrics] is the table of counters; [PostponeWrite] decides, from what a
    connection observes, whether its writes are left to the poller. *)

From stdpp Require Import base list numbers.
From S2P Require Import Prelude.

Local Open Scope Z_scope.

(** ** Metrics *)

Module Metrics.

(** The counters in the order of the source's iota block. *)
Definition TCPReadvCalls : Z := 0.
Definition TCPReadvFails : Z := 1.
Definition TCPReadvBytes : Z := 2.
Definition TCPWritevCalls : Z := 3.
Definition TCPWritevFails : Z := 4.
Definition TCPWritevBlocks : Z := 5.
Definition TCPWriteNotify : Z := 6.
Definition TCPOnWriteCalls : Z := 7.
Definition TCPFlushCalls : Z := 8.
Definition TCPConnsCreate : Z := 9.
Definition TCPConnsClose : Z := 10.
Definition TCPPostponeWriteOff : Z := 11.
Definition TCPPostponeWriteOn : Z := 12.
Definition UDPRecvMMsgCalls : Z := 13.
Definition UDPRecvMMsgFails : Z := 14.
Definition UDPRecvMMsgPackets : Z := 15.
Definition UDPRecvMsgCalls : Z := 16.
Definition UDPRecvMsgFails : Z := 17.
Definition UDPRecvMsgPackets : Z := 18.
Definition UDPWriteToCalls : Z := 19.
Definition UDPWriteToFails : Z := 20.
Definition UDPSendMMsgCalls : Z := 21.
Definition UDPSendMMsgFails : Z := 22.
Definition UDPSendMMsgPackets : Z := 23.
Definition EpollWait : Z := 24.
Definition EpollNoWait : Z := 25.
Definition EpollEvents : Z := 26.
Definition TaskAssigned : Z := 27.
Definition Max : Z := 28.
Definition TCPOutboundBufferLimitExceeded : Z := Max.
Definition metricNum : Z := TCPOutboundBufferLimitExceeded + 1.

Abbreviation table := (list Z).

Definition zero : table := replicate (Z.to_nat metricNum) 0.

(** [metrics[name].Add(delta)]; a negative index is a panic. *)
Definition Add (name delta : Z) : M table () := λ t,
  if decide (name >= metricNum) then Ret ((), t)
  else if decide (name < 0) then Panic
  else Ret ((), alter (λ v, u64 (v + u64 delta)) (Z.to_nat name) t).

Definition Get (name : Z) : M table Z := λ t,
  if decide (name >= metricNum) then Ret (0, t)
  else if decide (name < 0) then Panic
  else Ret (t !!! Z.to_nat name, t).

Definition GetAll : M table (list Z) := gets (take (Z.to_nat Max)).

Definition ok (t : table) : Prop :=
  length t = Z.to_nat metricNum ∧ Forall (λ v, 0 ≤ v < 2 ^ 64) t.

Lemma table_Add_ok name delta t :
  ok t → 0 ≤ name →
  ∃ t', Add name delta t = Ret ((), t') ∧ ok t' ∧
    (∀ m, 0 ≤ m < metricNum →
       t' !!! Z.to_nat m = if decide (m = name) then u64 (t !!! Z.to_nat m + delta) else t !!! Z.to_nat m).
Proof.
  intros [Hl Hf] Hn. unfold Add. case_decide as Hge.
  - exists t. split; [done|]. split; [done|]. intros m Hm. by rewrite decide_False by lia.
  - rewrite decide_False by lia. eexists. split; [done|]. split.
    + split; [by rewrite length_alter|]. apply Forall_alter; [done|].
      intros v _ _. unfold u64. apply Z.mod_pos_bound. lia.
    + intros m Hm. rewrite list_lookup_total_alt, list_lookup_alter.
      case_decide as Hd; case_decide as He; try lia.
      * subst m. unfold u64. rewrite list_lookup_total_alt.
        destruct (t !! Z.to_nat name) eqn:E; [simpl; by rewrite Zplus_mod_idemp_r|].
        apply lookup_ge_None in E. unfold metricNum in *. lia.
      * by rewrite list_lookup_total_alt.
Qed.

End Metrics.

(** ** PostponeWrite *)

Definition consecutiveSamePacketsNumThresh : Z := 70.
Definition loopCntThresh : Z := 3.
Definition readingLockContentionThresh : Z := 5.
Definition MaxUint8 : Z := 255.

Record PostponeWrite : Type := Postpone {
  prevPacketsNum : Z;
  readingTryLockFailed : Z;
  loopCnt : Z;
  consecutiveSamePacketsNumCounts : Z;
  pw_enable : bool;
  pw_metrics : Metrics.table
}.

Abbreviation MPW := (M PostponeWrite).

Definition set_prev (v : Z) (f : PostponeWrite) : PostponeWrite :=
  Postpone v (readingTryLockFailed f) (loopCnt f) (consecutiveSamePacketsNumCounts f) (pw_enable f) (pw_metrics f).
Definition set_failed (v : Z) (f : PostponeWrite) : PostponeWrite :=
  Postpone (prevPacketsNum f) v (loopCnt f) (consecutiveSamePacketsNumCounts f) (pw_enable f) (pw_metrics f).
Definition set_loopCnt (v : Z) (f : PostponeWrite) : PostponeWrite :=
  Postpone (prevPacketsNum f) (readingTryLockFailed f) v (consecutiveSamePacketsNumCounts f) (pw_enable f) (pw_metrics f).
Definition set_counts (v : Z) (f : PostponeWrite) : PostponeWrite :=
  Postpone (prevPacketsNum f) (readingTryLockFailed f) (loopCnt f) v (pw_enable f) (pw_metrics f).
Definition set_enable (v : bool) (f : PostponeWrite) : PostponeWrite :=
  Postpone (prevPacketsNum f) (readingTryLockFailed f) (loopCnt f) (consecutiveSamePacketsNumCounts f) v (pw_metrics f).
Definition set_metrics (v : Metrics.table) (f : PostponeWrite) : PostponeWrite :=
  Postpone (prevPacketsNum f) (readingTryLockFailed f) (loopCnt f) (consecutiveSamePacketsNumCounts f) (pw_enable f) v.

Definition zero_postpone (t : Metrics.table) : PostponeWrite := Postpone 0 0 0 0 false t.

Definition metrics_Add (name : Z) : MPW () := zoom pw_metrics set_metrics (Metrics.Add name 1).

Definition CheckAndDisablePostponeWrite (packetsNum : Z) : MPW () :=
  f ← get;
  _ ← (if decide (prevPacketsNum f ≠ 0 ∧ prevPacketsNum f ≠ packetsNum) then
         modify (set_counts 0)
       else
         _ ← modify (λ f, set_counts (u8 (consecutiveSamePacketsNumCounts f + 1)) f);
         f ← get;
         if decide (consecutiveSamePacketsNumCounts f >= consecutiveSamePacketsNumThresh) then
           _ ← modify (set_counts 0);
           _ ← modify (set_enable false);
           metrics_Add Metrics.TCPPostponeWriteOff
         else mret ());
  modify (set_prev packetsNum).

Definition pw_Set (postponeWrite : bool) : MPW () := modify (set_enable postponeWrite).
Definition Enabled : MPW bool := gets pw_enable.
Definition ResetLoopCnt : MPW () := modify (set_loopCnt 0).

Definition IncLoopCnt : MPW () :=
  f ← get;
  if decide (loopCnt f < MaxUint8) then modify (set_loopCnt (u8 (loopCnt f + 1))) else mret ().

Definition CheckLoopCnt : MPW () :=
  f ← get;
  if decide (loopCnt f > loopCntThresh) then
    _ ← modify (set_enable true);
    metrics_Add Metrics.TCPPostponeWriteOn
  else mret ().

Definition ResetReadingTryLockFail : MPW () := modify (set_failed 0).

Definition IncReadingTryLockFail : MPW () :=
  _ ← modify (λ f, set_failed (u32 (readingTryLockFailed f + 1)) f);
  f ← get;
  if decide (readingTryLockFailed f > readingLockContentionThresh) then
    _ ← modify (set_enable true);
    _ ← metrics_Add Metrics.TCPPostponeWriteOn;
    ResetReadingTryLockFail
  else mret ().

(** ** Invariant *)

Record postpone_ok (f : PostponeWrite) : Prop := {
  po_failed : 0 ≤ readingTryLockFailed f ≤ readingLockContentionThresh;
  po_loop : 0 ≤ loopCnt f ≤ MaxUint8;
  po_counts : 0 ≤ consecutiveSamePacketsNumCounts f < consecutiveSamePacketsNumThresh;
  po_metrics : Metrics.ok (pw_metrics f)
}.

Definition calls {A} (n : nat) (m : MPW A) : MPW () := Nat.iter n (λ k, _ ← m; k) (mret ()).

Lemma calls_S {A} n (m : MPW A) f : calls (S n) m f = (_ ← m; calls n m) f.
Proof. done. Qed.

Lemma metrics_Add_ok name f :
  postpone_ok f → 0 ≤ name →
  ∃ t, metrics_Add name f = Ret ((), set_metrics t f) ∧ Metrics.ok t.
Proof.
  intros H Hn. destruct (Metrics.table_Add_ok name 1 _ (po_metrics _ H) Hn) as (t & Ht & Hok & _).
  exists t. split; [|done]. unfold metrics_Add. by apply zoom_Ret.
Qed.

(** One call of [CheckAndDisablePostponeWrite], by cases. *)
Lemma Check_ok p f :
  postpone_ok f →
  ∃ f', CheckAndDisablePostponeWrite p f = Ret ((), f') ∧ postpone_ok f' ∧ prevPacketsNum f' = p ∧
    (if decide (prevPacketsNum f ≠ 0 ∧ prevPacketsNum f ≠ p) then
       consecutiveSamePacketsNumCounts f' = 0 ∧ pw_enable f' = pw_enable f
     else if decide (consecutiveSamePacketsNumCounts f = consecutiveSamePacketsNumThresh - 1) then
       consecutiveSamePacketsNumCounts f' = 0 ∧ pw_enable f' = false
     else
       consecutiveSamePacketsNumCounts f' = consecutiveSamePacketsNumCounts f + 1 ∧
       pw_enable f' = pw_enable f).
Proof.
  intros H. unfold CheckAndDisablePostponeWrite. mpure.
  pose proof H as [Hf Hl Hc Hm]. unfold consecutiveSamePacketsNumThresh in *.
  case_decide as Hd.
  - mpure. eexists. split; [done|]. split; [by split; simpl|]. done.
  - rewrite bind_assoc_run. mpure.
    rewrite bind_assoc_run. mpure. simpl.
    assert (u8 (consecutiveSamePacketsNumCounts f + 1) = consecutiveSamePacketsNumCounts f + 1) as Hu
      by (apply Z.mod_small; lia). rewrite Hu.
    case_decide as Hge; case_decide as Heq; try lia.
    + rewrite bind_assoc_run. mpure.
      rewrite bind_assoc_run. mpure.
      set (g := set_enable _ _). assert (postpone_ok g) as Hg by (unfold g; split; simpl; done || lia).
      destruct (metrics_Add_ok Metrics.TCPPostponeWriteOff g Hg ltac:(done)) as (t & Ht & Hok).
      erewrite bind_Ret by exact Ht. eexists. split; [done|]. split; [by split; simpl|]. done.
    + mpure. eexists. split; [done|]. split; [|done].
      split; simpl; unfold consecutiveSamePacketsNumThresh; done || lia.
Qed.

(** Calls with the same number of packets, from the start of a series. *)
Lemma Check_series k p f :
  postpone_ok f → consecutiveSamePacketsNumCounts f = 0 → prevPacketsNum f = 0 ∨ prevPacketsNum f = p →
  (k < 70)%nat →
  ∃ f', calls k (CheckAndDisablePostponeWrite p) f = Ret ((), f') ∧ postpone_ok f' ∧
    consecutiveSamePacketsNumCounts f' = Z.of_nat k ∧ pw_enable f' = pw_enable f ∧
    (prevPacketsNum f' = 0 ∨ prevPacketsNum f' = p).
Proof.
  intros H Hc Hp Hk.
  assert (∀ n f0, postpone_ok f0 → prevPacketsNum f0 = 0 ∨ prevPacketsNum f0 = p →
    consecutiveSamePacketsNumCounts f0 + Z.of_nat n < 70 →
    ∃ f', calls n (CheckAndDisablePostponeWrite p) f0 = Ret ((), f') ∧ postpone_ok f' ∧
      consecutiveSamePacketsNumCounts f' = consecutiveSamePacketsNumCounts f0 + Z.of_nat n ∧
      pw_enable f' = pw_enable f0 ∧ (prevPacketsNum f' = 0 ∨ prevPacketsNum f' = p)) as Hgen.
  { clear. induction n as [|n IH]; intros f0 H0 Hp0 Hb.
    - exists f0. split; [done|]. split; [done|]. split; [lia|done].
    - rewrite calls_S. destruct (Check_ok p f0 H0) as (f1 & Hr & H1 & Hp1 & Hcase).
      rewrite decide_False in Hcase by (intros [? ?]; destruct Hp0; done).
      rewrite decide_False in Hcase by (unfold consecutiveSamePacketsNumThresh; lia).
      destruct Hcase as [Hc1 He1]. erewrite bind_Ret by exact Hr.
      destruct (IH f1 H1 (or_intror Hp1) ltac:(lia)) as (f' & Hr' & H' & Hc' & He' & Hp').
      exists f'. split; [done|]. split; [done|]. split; [lia|]. by rewrite He', He1. }
  destruct (Hgen k f H Hp ltac:(lia)) as (f' & ? & ? & ? & ? & ?). exists f'. rewrite Hc in *. auto.
Qed.

Lemma calls_snoc {A} n (m : MPW A) f : calls (S n) m f = (_ ← calls n m; _ ← m; mret ()) f.
Proof.
  revert f. induction n as [|n IH]; intros f; [done|]. rewrite calls_S.
  change (calls (S n) m) with (_ ← m; calls n m : MPW ()). rewrite bind_assoc_run.
  unfold mbind at 1 3, M_bind. destruct (m f) as [[a f1]| |]; [|done..]. apply IH.
Qed.

(** ** Properties *)

(** seventy consecutive batches with the same number of packets switch
    postponing off, no fewer do: from a fresh count, [k < 70] calls leave the
    switch alone and count [k], the seventieth turns it off and starts counting
    anew. *)
Theorem postpone_off_after_70_equal_batches (f : PostponeWrite) (p : Z)
    (H : postpone_ok f) (Hc : consecutiveSamePacketsNumCounts f = 0)
    (Hp : prevPacketsNum f = 0 ∨ prevPacketsNum f = p) :
  (∀ k, (k < 70)%nat → ∃ f', calls k (CheckAndDisablePostponeWrite p) f = Ret ((), f') ∧
     consecutiveSamePacketsNumCounts f' = Z.of_nat k ∧ pw_enable f' = pw_enable f) ∧
  (∃ f', calls 70 (CheckAndDisablePostponeWrite p) f = Ret ((), f') ∧
     consecutiveSamePacketsNumCounts f' = 0 ∧ pw_enable f' = false).
Proof.
  split.
  - intros k Hk. destruct (Check_series k p f H Hc Hp Hk) as (f' & ? & _ & ? & ? & _). by exists f'.
  - destruct (Check_series 69 p f H Hc Hp ltac:(lia)) as (f1 & Hr & H1 & Hc1 & _ & Hp1).
    rewrite calls_snoc. erewrite bind_Ret by exact Hr.
    destruct (Check_ok p f1 H1) as (f2 & Hr2 & _ & _ & Hcase).
    rewrite decide_False in Hcase by (intros [? ?]; destruct Hp1; done).
    rewrite decide_True in Hcase by (rewrite Hc1; done).
    erewrite bind_Ret by exact Hr2. exists f2. done.
Qed.

Lemma zero_metrics_ok : Metrics.ok Metrics.zero.
Proof. split; [done|]. apply Forall_replicate. split; [done|lia]. Qed.

Lemma zero_postpone_ok : postpone_ok (zero_postpone Metrics.zero).
Proof.
  split; cbn [zero_postpone readingTryLockFailed loopCnt consecutiveSamePacketsNumCounts pw_metrics];
    [| | |apply zero_metrics_ok];
    unfold readingLockContentionThresh, MaxUint8, consecutiveSamePacketsNumThresh; lia.
Qed.

Lemma postpone_off_after_70_equal_batches_witness :
  ∃ f', calls 70 (CheckAndDisablePostponeWrite 3) (set_enable true (zero_postpone Metrics.zero)) =
          Ret ((), f') ∧ consecutiveSamePacketsNumCounts f' = 0 ∧ pw_enable f' = false.
Proof.
  apply (postpone_off_after_70_equal_batches (set_enable true (zero_postpone Metrics.zero)) 3).
  - destruct zero_postpone_ok. by split.
  - reflexivity.
  - left. reflexivity.
Defined.

(** The counters stay within their widths and postponing is switched on as
    announced: every method keeps the invariant (so the 8 bit counters never wrap),
    [CheckLoopCnt] switches on exactly above three loops, and
    [IncReadingTryLockFail] on the sixth failure, after which it counts anew. *)
Theorem postpone_counters_in_range (f : PostponeWrite) (p : Z) (H : postpone_ok f) :
  (∃ f', CheckAndDisablePostponeWrite p f = Ret ((), f') ∧ postpone_ok f') ∧
  (∃ f', IncLoopCnt f = Ret ((), f') ∧ postpone_ok f' ∧ loopCnt f' = Z.min MaxUint8 (loopCnt f + 1)) ∧
  (∃ f', CheckLoopCnt f = Ret ((), f') ∧ postpone_ok f' ∧
         pw_enable f' = (bool_decide (loopCnt f > loopCntThresh) || pw_enable f)) ∧
  (∃ f', IncReadingTryLockFail f = Ret ((), f') ∧ postpone_ok f' ∧
         if decide (readingTryLockFailed f = readingLockContentionThresh)
         then pw_enable f' = true ∧ readingTryLockFailed f' = 0
         else pw_enable f' = pw_enable f ∧ readingTryLockFailed f' = readingTryLockFailed f + 1).
Proof.
  pose proof H as [Hf Hl Hc Hm]. split; [|split; [|split]].
  - destruct (Check_ok p f H) as (f' & ? & ? & _). by exists f'.
  - unfold IncLoopCnt. mpure. unfold MaxUint8 in *. case_decide.
    + eexists. split; [done|]. assert (u8 (loopCnt f + 1) = loopCnt f + 1) as E by (apply Z.mod_small; lia).
      rewrite E. split; [|simpl; lia]. split; simpl; unfold MaxUint8; done || lia.
    + exists f. split; [done|]. split; [done|lia].
  - unfold CheckLoopCnt. mpure. case_decide as Hd.
    + mpure. set (g := set_enable true f).
      assert (postpone_ok g) as Hg by by split.
      destruct (metrics_Add_ok Metrics.TCPPostponeWriteOn g Hg ltac:(done)) as (t & -> & Hok).
      eexists. split; [done|]. split; [by split|]. by rewrite bool_decide_eq_true_2.
    + exists f. split; [done|]. split; [done|]. by rewrite bool_decide_eq_false_2.
  - unfold IncReadingTryLockFail. mpure. mpure.
    unfold readingLockContentionThresh in *. simpl.
    assert (u32 (readingTryLockFailed f + 1) = readingTryLockFailed f + 1) as E by (apply u32_small; lia).
    rewrite E. case_decide as Hd; case_decide as He; try lia.
    + mpure. set (g := set_enable true _).
      destruct (Metrics.table_Add_ok Metrics.TCPPostponeWriteOn 1 (pw_metrics g) Hm ltac:(done)) as (t & Ht & Hok & _).
      erewrite bind_Ret by (by apply zoom_Ret). eexists. split; [done|]. split; [|done].
      split; simpl; unfold readingLockContentionThresh; done || lia.
    + eexists. split; [done|]. split; [|done]. split; simpl; unfold readingLockContentionThresh; done || lia.
Qed.

Lemma postpone_counters_in_range_witness :
  ∃ f', IncLoopCnt (zero_postpone Metrics.zero) = Ret ((), f') ∧ postpone_ok f' ∧
        loopCnt f' = Z.min MaxUint8 (0 + 1).
Proof.
  destruct (postpone_counters_in_range (zero_postpone Metrics.zero) 1 zero_postpone_ok) as (_ & H & _).
  exact H.
Defined.
