(* ===== verification/SafeJob.v ===== *)
(** * Spin locks and safe jobs (src/internal/locker, src/internal/safejob)

    Jobs coordinate goroutines that read, write and close one connection.  Their
    methods are sequences of atomic actions, written as programs ([prog]); a
    goroutine's action may have to wait (a mutex that is taken).  [sys_step]
    interleaves any number of goroutines that call [Begin], [End] and [Close] in
    any order.  The file proves, for all interleavings, that a job whose [Close]
    has returned is not running and never runs again, and that exclusive jobs run
    in one goroutine at a time. *)

From stdpp Require Import base list numbers.
From S2P Require Import Prelude.

(** ** Programs of atomic actions *)

(** An atomic action: [None] while it has to wait. *)
Definition action (S : Type) : Type := S → option (bool * S).

Inductive prog (S R : Type) : Type :=
| Done (r : R)
| Act (a : action S) (k : bool → prog S R).
Arguments Done {S R} r.
Arguments Act {S R} a k.

(** Running a program without interruption, as a single goroutine would;
    [None] when it has to wait. *)
Fixpoint run_prog {S R} (p : prog S R) (s : S) : option (R * S) :=
  match p with
  | Done r => Some (r, s)
  | Act a k => match a s with Some (b, s') => run_prog (k b) s' | None => None end
  end.

(** An action on a component. *)
Definition act_on {S T} (proj : S → T) (upd : T → S → S) (a : action T) : action S := λ s,
  match a (proj s) with
  | Some (b, t) => Some (b, upd t s)
  | None => None
  end.

(** ** locker.Locker *)

Definition unlocked : Z := 0.
Definition locked : Z := 1.

Abbreviation Locker := Z.

(** [atomic.CompareAndSwapUint32] *)
Definition cas_u32 (old new : Z) : action Locker := λ l,
  if decide (l = old) then Some (true, new) else Some (false, l).

(** [Lock] spins; a round that fails changes nothing, so it is waiting. *)
Definition Locker_Lock : action Locker := λ l,
  match cas_u32 unlocked locked l with
  | Some (true, l') => Some (true, l')
  | _ => None
  end.

Definition Locker_Unlock : action Locker := λ _, Some (true, unlocked).
Definition Locker_TryLock : action Locker := cas_u32 unlocked locked.
Definition Locker_IsLocked (l : Locker) : bool := bool_decide (l = locked).

(** ** sync.Mutex and sync.RWMutex

    An unlock of a mutex that is not locked is a fatal error of the Go runtime;
    as an action it never happens. *)

Definition Mutex_Lock : action bool := λ held, if held then None else Some (true, true).
Definition Mutex_Unlock : action bool := λ held, if held then Some (true, false) else None.

Record RWMutex : Type := RW { readers : nat; writer : bool }.

Definition RWMutex_RLock : action RWMutex := λ m,
  if writer m then None else Some (true, RW (S (readers m)) false).
Definition RWMutex_RUnlock : action RWMutex := λ m,
  match readers m with O => None | S k => Some (true, RW k (writer m)) end.
Definition RWMutex_Lock : action RWMutex := λ m,
  if writer m then None else match readers m with O => Some (true, RW 0 true) | S _ => None end.
Definition RWMutex_Unlock : action RWMutex := λ m,
  if writer m then Some (true, RW (readers m) false) else None.

(** ** safejob.Job *)

Class Job (J : Type) := {
  job_zero : J;
  Begin : prog J bool;
  End_ : prog J ();
  Close : prog J ();
  Closed : J → bool
}.

(** [ExclusiveUnblockJob] *)
Record ExclusiveUnblockJob : Type := EUJob { eu_l : Locker; eu_closed : bool }.

Definition on_eu_l : action Locker → action ExclusiveUnblockJob :=
  act_on eu_l (λ l j, EUJob l (eu_closed j)).
Definition eu_load_closed : action ExclusiveUnblockJob := λ j, Some (eu_closed j, j).
Definition eu_store_closed : action ExclusiveUnblockJob := λ j, Some (true, EUJob (eu_l j) true).

Definition ExclusiveUnblockJob_Begin : prog ExclusiveUnblockJob bool :=
  Act (on_eu_l Locker_TryLock) (λ ok,
    if negb ok then Done false
    else Act eu_load_closed (λ closed,
      if closed then Act (on_eu_l Locker_Unlock) (λ _, Done false)
      else Done true)).

Definition ExclusiveUnblockJob_End : prog ExclusiveUnblockJob () :=
  Act (on_eu_l Locker_Unlock) (λ _, Done ()).

Definition ExclusiveUnblockJob_Close : prog ExclusiveUnblockJob () :=
  Act (on_eu_l Locker_Lock) (λ _,
    Act eu_store_closed (λ _,
      Act (on_eu_l Locker_Unlock) (λ _, Done ()))).

#[export] Instance ExclusiveUnblock_Job : Job ExclusiveUnblockJob := {
  job_zero := EUJob unlocked false;
  Begin := ExclusiveUnblockJob_Begin;
  End_ := ExclusiveUnblockJob_End;
  Close := ExclusiveUnblockJob_Close;
  Closed := eu_closed
}.

(** [ExclusiveBlockJob] *)
Record ExclusiveBlockJob : Type := EBJob { eb_mu : bool; eb_closed : bool }.

Definition on_eb_mu : action bool → action ExclusiveBlockJob :=
  act_on eb_mu (λ m j, EBJob m (eb_closed j)).
Definition eb_load_closed : action ExclusiveBlockJob := λ j, Some (eb_closed j, j).
Definition eb_store_closed : action ExclusiveBlockJob := λ j, Some (true, EBJob (eb_mu j) true).

Definition ExclusiveBlockJob_Begin : prog ExclusiveBlockJob bool :=
  Act (on_eb_mu Mutex_Lock) (λ _,
    Act eb_load_closed (λ closed,
      if closed then Act (on_eb_mu Mutex_Unlock) (λ _, Done false)
      else Done true)).

Definition ExclusiveBlockJob_End : prog ExclusiveBlockJob () :=
  Act (on_eb_mu Mutex_Unlock) (λ _, Done ()).

Definition ExclusiveBlockJob_Close : prog ExclusiveBlockJob () :=
  Act (on_eb_mu Mutex_Lock) (λ _,
    Act eb_store_closed (λ _,
      Act (on_eb_mu Mutex_Unlock) (λ _, Done ()))).

#[export] Instance ExclusiveBlock_Job : Job ExclusiveBlockJob := {
  job_zero := EBJob false false;
  Begin := ExclusiveBlockJob_Begin;
  End_ := ExclusiveBlockJob_End;
  Close := ExclusiveBlockJob_Close;
  Closed := eb_closed
}.

(** [ConcurrentJob] *)
Record ConcurrentJob : Type := CJob { c_mu : RWMutex; c_closed : bool }.

Definition on_c_mu : action RWMutex → action ConcurrentJob :=
  act_on c_mu (λ m j, CJob m (c_closed j)).
Definition c_load_closed : action ConcurrentJob := λ j, Some (c_closed j, j).
Definition c_store_closed : action ConcurrentJob := λ j, Some (true, CJob (c_mu j) true).

Definition ConcurrentJob_Begin : prog ConcurrentJob bool :=
  Act (on_c_mu RWMutex_RLock) (λ _,
    Act c_load_closed (λ closed,
      if closed then Act (on_c_mu RWMutex_RUnlock) (λ _, Done false)
      else Done true)).

Definition ConcurrentJob_End : prog ConcurrentJob () :=
  Act (on_c_mu RWMutex_RUnlock) (λ _, Done ()).

Definition ConcurrentJob_Close : prog ConcurrentJob () :=
  Act (on_c_mu RWMutex_Lock) (λ _,
    Act c_store_closed (λ _,
      Act (on_c_mu RWMutex_Unlock) (λ _, Done ()))).

#[export] Instance Concurrent_Job : Job ConcurrentJob := {
  job_zero := CJob (RW 0 false) false;
  Begin := ConcurrentJob_Begin;
  End_ := ConcurrentJob_End;
  Close := ConcurrentJob_Close;
  Closed := c_closed
}.

(** [OnceJob]: its only state is [closed]. *)
Definition OnceJob : Type := bool.

Definition once_cas : action OnceJob := λ closed,
  if closed then Some (false, closed) else Some (true, true).

Definition OnceJob_Begin : prog OnceJob bool := Act once_cas (λ ok, Done ok).
Definition OnceJob_End : prog OnceJob () := Done ().
Definition OnceJob_Close : prog OnceJob () := Act (λ _, Some (true, true)) (λ _, Done ()).

#[export] Instance Once_Job : Job OnceJob := {
  job_zero := false;
  Begin := OnceJob_Begin;
  End_ := OnceJob_End;
  Close := OnceJob_Close;
  Closed := λ c, c
}.

(** ** Goroutines *)

(** What a goroutine is doing with the job. *)
Inductive gor (J : Type) : Type :=
| GIdle
| GBegin (p : prog J bool)
| GRunning
| GEnd (p : prog J ())
| GClose (p : prog J ()).
Arguments GIdle {J}.
Arguments GBegin {J} p.
Arguments GRunning {J}.
Arguments GEnd {J} p.
Arguments GClose {J} p.

(** The job, the goroutines, whether some [Close] has returned and how many calls
    of [Begin] have returned true. *)
Record sys (J : Type) : Type := Sys {
  sy_job : J;
  sy_gors : list (gor J);
  sy_closed : bool;
  sy_begun : nat
}.
Arguments Sys {J}.
Arguments sy_job {J}.
Arguments sy_gors {J}.
Arguments sy_closed {J}.
Arguments sy_begun {J}.

Section Semantics.
Context {J : Type} `{Job J}.

(** The step of one goroutine: the job, its next activity, and whether a [Close] or
    a successful [Begin] has returned. *)
Inductive gor_step : J → gor J → J → gor J → bool → bool → Prop :=
| gs_call_begin j : gor_step j GIdle j (GBegin Begin) false false
| gs_call_end j : gor_step j GRunning j (GEnd End_) false false
| gs_call_close j : gor_step j GIdle j (GClose Close) false false
| gs_begin j a k r j' : a j = Some (r, j') → gor_step j (GBegin (Act a k)) j' (GBegin (k r)) false false
| gs_end j a k r j' : a j = Some (r, j') → gor_step j (GEnd (Act a k)) j' (GEnd (k r)) false false
| gs_close j a k r j' : a j = Some (r, j') → gor_step j (GClose (Act a k)) j' (GClose (k r)) false false
| gs_begin_true j : gor_step j (GBegin (Done true)) j GRunning false true
| gs_begin_false j : gor_step j (GBegin (Done false)) j GIdle false false
| gs_end_ret j u : gor_step j (GEnd (Done u)) j GIdle false false
| gs_close_ret j u : gor_step j (GClose (Done u)) j GIdle true false.

Inductive sys_step : sys J → sys J → Prop :=
| sys_step_at s i g j' g' cl bg :
    sy_gors s !! i = Some g → gor_step (sy_job s) g j' g' cl bg →
    sys_step s (Sys j' (<[i := g']> (sy_gors s)) (sy_closed s || cl)
                  (sy_begun s + if bg then 1 else 0)).

(** [n] goroutines that share a new job. *)
Definition sys_init (n : nat) : sys J := Sys job_zero (replicate n GIdle) false 0.

Inductive reachable (n : nat) : sys J → Prop :=
| reach_init : reachable n (sys_init n)
| reach_step s s' : reachable n s → sys_step s s' → reachable n s'.

End Semantics.

(** ** Jobs guarded by a lock *)

(** The common shape of the lock based jobs. *)
Definition guarded_begin {J} (blk : bool) (acq load rel : action J) : prog J bool :=
  Act acq (λ ok,
    if negb (blk || ok) then Done false
    else Act load (λ closed,
      if closed then Act rel (λ _, Done false) else Done true)).

Definition guarded_end {J} (rel : action J) : prog J () := Act rel (λ _, Done ()).

Definition guarded_close {J} (cacq store crel : action J) : prog J () :=
  Act cacq (λ _, Act store (λ _, Act crel (λ _, Done ()))).

(** What the lock of a job promises; [lj_inv j nb nc] says that [nb] goroutines hold
    it for a run of the job and [nc] for closing it. *)
Class LockJob (J : Type) `{Job J} := {
  lj_blk : bool;
  lj_excl : bool;
  lj_acq : action J;
  lj_rel : action J;
  lj_cacq : action J;
  lj_crel : action J;
  lj_store : action J;
  lj_load : action J;
  lj_inv : J → nat → nat → Prop;
  lj_begin : Begin = guarded_begin lj_blk lj_acq lj_load lj_rel;
  lj_end : End_ = guarded_end lj_rel;
  lj_close : Close = guarded_close lj_cacq lj_store lj_crel;
  lj_zero : lj_inv job_zero 0 0 ∧ Closed job_zero = false;
  lj_load_ok j : lj_load j = Some (Closed j, j);
  lj_acq_true j nb nc j' :
    lj_inv j nb nc → lj_acq j = Some (true, j') →
    lj_inv j' (S nb) nc ∧ nc = 0 ∧ (lj_excl = true → nb = 0) ∧ Closed j' = Closed j;
  lj_acq_false j nb nc j' :
    lj_inv j nb nc → lj_acq j = Some (false, j') → lj_blk = false ∧ j' = j;
  lj_rel_ok j nb nc :
    lj_inv j (S nb) nc → ∃ r j', lj_rel j = Some (r, j') ∧ lj_inv j' nb nc ∧ Closed j' = Closed j;
  lj_cacq_ok j nb nc r j' :
    lj_inv j nb nc → lj_cacq j = Some (r, j') →
    lj_inv j' nb (S nc) ∧ nb = 0 ∧ nc = 0 ∧ Closed j' = Closed j;
  lj_store_ok j nb nc :
    lj_inv j nb nc → ∃ r j', lj_store j = Some (r, j') ∧ lj_inv j' nb nc ∧ Closed j' = true;
  lj_crel_ok j nb nc :
    lj_inv j nb (S nc) → ∃ r j', lj_crel j = Some (r, j') ∧ lj_inv j' nb nc ∧ Closed j' = Closed j;
  lj_close_alone j nb nc : lj_inv j nb (S nc) → nb = 0;
  (** While nobody holds the lock nobody has to wait for it. *)
  lj_free j : lj_inv j 0 0 → is_Some (lj_acq j) ∧ is_Some (lj_cacq j)
}.

(** Where a goroutine is in its calls. *)
Inductive phase : Type :=
| PIdle
| PB0 | PB1 | PB2 | PBT | PBF
| PRun
| PE0 | PE1
| PC0 | PC1 | PC2 | PC3.

#[export] Instance phase_eq_dec : EqDecision phase.
Proof. solve_decision. Defined.

Definition holdsB (p : phase) : nat :=
  match p with PB1 | PB2 | PBT | PRun | PE0 => 1 | _ => 0 end.
Definition holdsC (p : phase) : nat :=
  match p with PC1 | PC2 => 1 | _ => 0 end.
(** The job was entered, and its run is not over. *)
Definition live (p : phase) : bool :=
  match p with PBT | PRun | PE0 => true | _ => false end.
Definition stored (p : phase) : bool :=
  match p with PC2 | PC3 => true | _ => false end.

(** How many goroutines, weighted. *)
Definition tot {A} (f : A → nat) (ps : list A) : nat := sum_list_with f ps.

Lemma tot_insert {A} (f : A → nat) ps i p p' :
  ps !! i = Some p → tot f (<[i := p']> ps) + f p = tot f ps + f p'.
Proof.
  unfold tot. revert i. induction ps as [|q ps IH]; intros i Hi; [done|].
  destruct i as [|i]; simpl in *; [simplify_eq; lia|]. specialize (IH i Hi). lia.
Qed.

Lemma tot_lookup {A} (f : A → nat) ps i p : ps !! i = Some p → f p ≤ tot f ps.
Proof.
  unfold tot. revert i. induction ps as [|q ps IH]; intros i Hi; [done|].
  destruct i as [|i]; simpl in *; [simplify_eq; lia|]. specialize (IH i Hi). lia.
Qed.

Lemma tot_two {A} (f : A → nat) ps i k p q :
  ps !! i = Some p → ps !! k = Some q → i ≠ k → f p + f q ≤ tot f ps.
Proof.
  unfold tot. revert i k. induction ps as [|x ps IH]; intros i k Hi Hk Hne; [done|].
  destruct i as [|i], k as [|k]; simpl in *; simplify_eq; try done.
  - pose proof (tot_lookup f _ _ _ Hk). unfold tot in *. lia.
  - pose proof (tot_lookup f _ _ _ Hi). unfold tot in *. lia.
  - specialize (IH i k Hi Hk ltac:(congruence)). lia.
Qed.

Lemma tot_pos {A} (f : A → nat) ps : 0 < tot f ps → ∃ i p, ps !! i = Some p ∧ 0 < f p.
Proof.
  unfold tot. induction ps as [|q ps IH]; simpl; intros Hp; [lia|].
  destruct (decide (0 < f q)); [by exists 0, q|].
  destruct IH as (i & p & ? & ?); [lia|]. by exists (S i), p.
Qed.

Section LockJobs.
Context {J : Type} `{LockJob J}.

Definition at_phase (p : phase) : gor J :=
  match p with
  | PIdle => GIdle
  | PB0 => GBegin (guarded_begin lj_blk lj_acq lj_load lj_rel)
  | PB1 => GBegin (Act lj_load (λ closed, if closed then Act lj_rel (λ _, Done false) else Done true))
  | PB2 => GBegin (Act lj_rel (λ _, Done false))
  | PBT => GBegin (Done true)
  | PBF => GBegin (Done false)
  | PRun => GRunning
  | PE0 => GEnd (guarded_end lj_rel)
  | PE1 => GEnd (Done ())
  | PC0 => GClose (guarded_close lj_cacq lj_store lj_crel)
  | PC1 => GClose (Act lj_store (λ _, Act lj_crel (λ _, Done ())))
  | PC2 => GClose (Act lj_crel (λ _, Done ()))
  | PC3 => GClose (Done ())
  end.

(** The same steps, between phases. *)
Inductive phase_step : J → phase → J → phase → bool → bool → Prop :=
| ps_begin j : phase_step j PIdle j PB0 false false
| ps_acq j j' : lj_acq j = Some (true, j') → phase_step j PB0 j' PB1 false false
| ps_nacq j j' : lj_blk = false → lj_acq j = Some (false, j') → phase_step j PB0 j' PBF false false
| ps_acq_blk j j' : lj_blk = true → lj_acq j = Some (false, j') → phase_step j PB0 j' PB1 false false
| ps_seen j : Closed j = true → phase_step j PB1 j PB2 false false
| ps_pass j : Closed j = false → phase_step j PB1 j PBT false false
| ps_back j r j' : lj_rel j = Some (r, j') → phase_step j PB2 j' PBF false false
| ps_true j : phase_step j PBT j PRun false true
| ps_false j : phase_step j PBF j PIdle false false
| ps_end j : phase_step j PRun j PE0 false false
| ps_rel j r j' : lj_rel j = Some (r, j') → phase_step j PE0 j' PE1 false false
| ps_ended j : phase_step j PE1 j PIdle false false
| ps_close j : phase_step j PIdle j PC0 false false
| ps_cacq j r j' : lj_cacq j = Some (r, j') → phase_step j PC0 j' PC1 false false
| ps_store j r j' : lj_store j = Some (r, j') → phase_step j PC1 j' PC2 false false
| ps_crel j r j' : lj_crel j = Some (r, j') → phase_step j PC2 j' PC3 false false
| ps_closed j : phase_step j PC3 j PIdle true false.

Lemma gor_step_phase j p j' g' cl bg :
  gor_step j (at_phase p) j' g' cl bg →
  ∃ p', g' = at_phase p' ∧ phase_step j p j' p' cl bg.
Proof.
  destruct p; simpl; unfold guarded_begin, guarded_end, guarded_close; inversion 1; subst.
  - exists PB0. split; [simpl; by rewrite lj_begin|constructor].
  - exists PC0. split; [simpl; by rewrite lj_close|constructor].
  - destruct r.
    + exists PB1. rewrite orb_true_r. split; [done|by constructor].
    + destruct lj_blk eqn:Eb; simpl.
      * exists PB1. split; [done|]. by apply ps_acq_blk.
      * exists PBF. split; [done|]. by apply ps_nacq.
  - rewrite lj_load_ok in *. simplify_eq. destruct (Closed j') eqn:E.
    + exists PB2. split; [done|by constructor].
    + exists PBT. split; [done|by constructor].
  - exists PBF. split; [done|]. by eapply ps_back.
  - exists PRun. split; [done|constructor].
  - exists PIdle. split; [done|constructor].
  - exists PE0. split; [simpl; by rewrite lj_end|constructor].
  - exists PE1. split; [done|]. by eapply ps_rel.
  - exists PIdle. split; [done|constructor].
  - exists PC1. split; [done|]. by eapply ps_cacq.
  - exists PC2. split; [done|]. by eapply ps_store.
  - exists PC3. split; [done|]. by eapply ps_crel.
  - exists PIdle. split; [done|constructor].
Qed.

(** ** The invariant *)

Record job_inv (j : J) (ps : list phase) : Prop := {
  ji_lock : lj_inv j (tot holdsB ps) (tot holdsC ps);
  ji_live : Closed j = true → Forall (λ p, live p = false) ps;
  ji_stored i p : ps !! i = Some p → stored p = true → Closed j = true;
  ji_excl : lj_excl = true → tot holdsB ps ≤ 1
}.

Lemma live_holdsB p : live p = true → holdsB p = 1.
Proof. by destruct p. Qed.

Lemma no_holder_not_live ps : tot holdsB ps = 0 → Forall (λ p, live p = false) ps.
Proof.
  intros Hz. apply Forall_lookup_2. intros i p Hi. destruct (live p) eqn:E; [|done].
  apply live_holdsB in E. pose proof (tot_lookup holdsB _ _ _ Hi). lia.
Qed.

(** One goroutine moves to [p'], the job becomes [j']. *)
Lemma job_inv_update j ps i p j' p' nb' nc' :
  job_inv j ps → ps !! i = Some p → lj_inv j' nb' nc' →
  nb' + holdsB p = tot holdsB ps + holdsB p' → nc' + holdsC p = tot holdsC ps + holdsC p' →
  (Closed j = true → Closed j' = true) → (stored p' = true → Closed j' = true) →
  (Closed j' = true → live p' = false ∧ (Closed j = true ∨ tot holdsB ps = 0)) →
  (lj_excl = true → nb' ≤ 1) →
  job_inv j' (<[i := p']> ps).
Proof.
  intros [Hl Hlv Hst _] Hi Hl' EB EC Hmono Hs Hc Hx.
  pose proof (tot_insert holdsB ps i p p' Hi). pose proof (tot_insert holdsC ps i p p' Hi).
  replace nb' with (tot holdsB (<[i:=p']> ps)) in * by lia.
  replace nc' with (tot holdsC (<[i:=p']> ps)) in * by lia.
  split; [done| | |done].
  - intros Hcl. destruct (Hc Hcl) as [Hp' Hor]. apply Forall_insert; [|done].
    destruct Hor as [Ho|Ho]; [by apply Hlv|by apply no_holder_not_live].
  - intros k q Hk Hq. apply list_lookup_insert_Some in Hk as [(-> & <- & _)|[_ Hk]]; [auto|].
    apply Hmono. by eapply Hst.
Qed.

(** A step that leaves the job and the holders alone. *)
Lemma job_inv_move j ps i p p' :
  job_inv j ps → ps !! i = Some p → holdsB p' = holdsB p → holdsC p' = holdsC p →
  (stored p' = true → Closed j = true) → (Closed j = true → live p' = false) →
  job_inv j (<[i := p']> ps).
Proof.
  intros Hj Hi EB EC Hs Hl. destruct Hj as [Hlk Hlv Hst Hex] eqn:E.
  eapply (job_inv_update j ps i p j p'); try exact Hi; try exact Hj; try exact Hlk; auto; lia.
Qed.

Lemma job_inv_step j ps i p j' p' cl bg :
  job_inv j ps → ps !! i = Some p → phase_step j p j' p' cl bg →
  job_inv j' (<[i := p']> ps) ∧ (cl = true → Closed j' = true) ∧ (Closed j = true → Closed j' = true).
Proof.
  intros Hj Hi Hs. pose proof Hj as [Hl Hlv Hst Hex].
  pose proof (λ Hc, Forall_lookup_1 _ _ _ _ (Hlv Hc) Hi) as Hlp.
  pose proof (tot_lookup holdsB _ _ _ Hi) as HB. pose proof (tot_lookup holdsC _ _ _ Hi) as HC.
  inversion Hs; subst; simpl in HB, HC, Hlp;
    try (split; [apply (job_inv_move _ _ _ _ _ Hj Hi); done|done]).
  - destruct (lj_acq_true _ _ _ _ Hl ltac:(eassumption)) as (Hl' & Hc0 & He0 & Hcl).
    split; [|split; [done|congruence]].
    eapply (job_inv_update _ _ _ _ _ _ _ _ Hj Hi Hl'); simpl; try lia; try congruence;
      try (intros; split; [done|left; congruence]); intros Hx; specialize (He0 Hx); lia.
  - destruct (lj_acq_false _ _ _ _ Hl ltac:(eassumption)) as [_ ->].
    split; [|done]. by apply (job_inv_move _ _ _ _ _ Hj Hi).
  - destruct (lj_acq_false _ _ _ _ Hl ltac:(eassumption)). congruence.
  - split; [|done]. apply (job_inv_move _ _ _ _ _ Hj Hi); try done. congruence.
  - destruct (tot holdsB ps) as [|nb] eqn:EB; [lia|].
    destruct (lj_rel_ok _ _ _ Hl) as (r' & j1 & Er & Hl' & Hcl). simplify_eq.
    split; [|split; [done|congruence]].
    eapply (job_inv_update _ _ _ _ _ _ _ _ Hj Hi Hl'); simpl; try lia; try congruence;
      try (intros; split; [done|left; congruence]); intros Hx; specialize (Hex Hx); lia.
  - destruct (tot holdsB ps) as [|nb] eqn:EB; [lia|].
    destruct (lj_rel_ok _ _ _ Hl) as (r' & j1 & Er & Hl' & Hcl). simplify_eq.
    split; [|split; [done|congruence]].
    eapply (job_inv_update _ _ _ _ _ _ _ _ Hj Hi Hl'); simpl; try lia; try congruence;
      try (intros; split; [done|left; congruence]); intros Hx; specialize (Hex Hx); lia.
  - destruct (lj_cacq_ok _ _ _ _ _ Hl ltac:(eassumption)) as (Hl' & Hb0 & Hc0 & Hcl).
    split; [|split; [done|congruence]].
    eapply (job_inv_update _ _ _ _ _ _ _ _ Hj Hi Hl'); simpl; try lia; try congruence;
      intros; try lia; try congruence; by auto.
  - destruct (lj_store_ok _ _ _ Hl) as (r' & j1 & Er & Hl' & Hcl). simplify_eq.
    destruct (tot holdsC ps) as [|nc] eqn:EC; [lia|].
    pose proof (lj_close_alone _ _ _ Hl) as Hb0. split; [|done].
    eapply (job_inv_update _ _ _ _ _ _ _ _ Hj Hi Hl'); simpl; try lia; auto.
  - destruct (tot holdsC ps) as [|nc] eqn:EC; [lia|].
    destruct (lj_crel_ok _ _ _ Hl) as (r' & j1 & Er & Hl' & Hcl). simplify_eq.
    assert (Closed j = true) as Hcj by (by eapply Hst).
    split; [|split; [done|congruence]].
    eapply (job_inv_update _ _ _ _ _ _ _ _ Hj Hi Hl'); simpl; try lia; try congruence; auto.
  - assert (Closed j' = true) as Hcj by (by eapply Hst).
    split; [|done]. by apply (job_inv_move _ _ _ _ _ Hj Hi).
Qed.

Record sys_inv (s : sys J) (ps : list phase) : Prop := {
  si_gors : sy_gors s = map at_phase ps;
  si_job : job_inv (sy_job s) ps;
  si_closed : sy_closed s = true → Closed (sy_job s) = true
}.

Lemma sys_inv_init n : sys_inv (sys_init n) (replicate n PIdle).
Proof.
  destruct lj_zero as [Hz Hc].
  assert (∀ f, f PIdle = 0 → tot f (replicate n PIdle) = 0) as Ht.
  { intros f Hf. unfold tot. induction n; simpl; [done|]. lia. }
  split; simpl.
  - symmetry. apply (fmap_replicate at_phase).
  - split; rewrite ?(Ht holdsB), ?(Ht holdsC) by done; [done|congruence| |lia].
    intros i p [-> _]%lookup_replicate. done.
  - done.
Qed.

Lemma map_insert_list {A B} (f : A → B) xs i x : <[i := f x]> (map f xs) = map f (<[i := x]> xs).
Proof. symmetry. apply (list_fmap_insert f). Qed.

Lemma sys_inv_step s ps s' :
  sys_inv s ps → sys_step s s' → ∃ ps', sys_inv s' ps' ∧ (sy_closed s = true → sy_closed s' = true).
Proof.
  intros [Hg Hj Hc] Hs. inversion Hs as [? i g j' g' cl bg Hi Hst]; subst.
  rewrite Hg in Hi. apply list_lookup_fmap_Some in Hi as (p & -> & Hp).
  apply gor_step_phase in Hst as (p' & -> & Hps).
  destruct (job_inv_step _ _ _ _ _ _ _ _ Hj Hp Hps) as (Hj' & Hcl & Hmono).
  exists (<[i := p']> ps). simpl. split; [|by intros ->]. split; simpl.
  - by rewrite Hg, map_insert_list.
  - done.
  - intros [?|?]%orb_true_iff; auto.
Qed.

Lemma reachable_inv n s : reachable n s → ∃ ps, sys_inv s ps.
Proof.
  induction 1 as [|s s' _ [ps IH] Hs]; [by eexists; apply sys_inv_init|].
  destruct (sys_inv_step _ _ _ IH Hs) as (ps' & ? & _). by exists ps'.
Qed.

Lemma gor_phase s ps i g :
  sys_inv s ps → sy_gors s !! i = Some g → ∃ p, ps !! i = Some p ∧ g = at_phase p.
Proof.
  intros [Hg _ _] Hi. rewrite Hg in Hi. apply list_lookup_fmap_Some in Hi as (p & -> & ?). by exists p.
Qed.

(** The goroutine runs the job, or its [Begin] is about to return true. *)
Definition entered (g : gor J) : Prop := g = GRunning ∨ g = GBegin (Done true).

Lemma entered_live p : entered (at_phase p) → live p = true.
Proof. destruct p; simpl; unfold guarded_begin; intros [?|?]; simplify_eq; done. Qed.

Lemma closed_not_entered n s i g :
  reachable n s → sy_closed s = true → sy_gors s !! i = Some g → ¬ entered g.
Proof.
  intros [ps Hinv]%reachable_inv Hc Hi He.
  destruct (gor_phase _ _ _ _ Hinv Hi) as (p & Hp & ->). destruct Hinv as [_ [_ Hlv _ _] Hcl].
  pose proof (Forall_lookup_1 _ _ _ _ (Hlv (Hcl Hc)) Hp) as Hn. simpl in Hn.
  apply entered_live in He. congruence.
Qed.

Lemma exclusive_entered n s i k g g' :
  lj_excl = true → reachable n s →
  sy_gors s !! i = Some g → sy_gors s !! k = Some g' → entered g → entered g' → i = k.
Proof.
  intros Hx [ps Hinv]%reachable_inv Hi Hk He He'.
  destruct (gor_phase _ _ _ _ Hinv Hi) as (p & Hp & ->).
  destruct (gor_phase _ _ _ _ Hinv Hk) as (q & Hq & ->).
  destruct (decide (i = k)) as [|Hne]; [done|exfalso].
  pose proof (tot_two holdsB _ _ _ _ _ Hp Hq Hne).
  pose proof (live_holdsB _ (entered_live _ He)). pose proof (live_holdsB _ (entered_live _ He')).
  destruct Hinv as [_ [_ _ _ Hex] _]. specialize (Hex Hx). lia.
Qed.

(** A call under way is never stuck for ever: unless a goroutine runs the job, some
    goroutine that is inside a call can take its next step. *)
Definition in_call (g : gor J) : Prop :=
  match g with GBegin _ | GEnd _ | GClose _ => True | _ => False end.

Lemma holder_can_step j ps i p :
  job_inv j ps → ps !! i = Some p → 0 < holdsB p + holdsC p → p ≠ PRun →
  in_call (at_phase p) ∧ ∃ j' g' cl bg, gor_step j (at_phase p) j' g' cl bg.
Proof.
  intros [Hl _ _ _] Hi Hh Hr.
  pose proof (tot_lookup holdsB _ _ _ Hi) as HB. pose proof (tot_lookup holdsC _ _ _ Hi) as HC.
  destruct p; simpl in *; try lia; try done; (split; [done|]).
  - eexists _, _, _, _. apply gs_begin. apply lj_load_ok.
  - destruct (tot holdsB ps) eqn:E; [lia|]. destruct (lj_rel_ok _ _ _ Hl) as (r & j' & ? & _).
    eexists _, _, _, _. by apply gs_begin.
  - eexists _, _, _, _. apply gs_begin_true.
  - destruct (tot holdsB ps) eqn:E; [lia|]. destruct (lj_rel_ok _ _ _ Hl) as (r & j' & ? & _).
    eexists _, _, _, _. by apply gs_end.
  - destruct (lj_store_ok _ _ _ Hl) as (r & j' & ? & _). eexists _, _, _, _. by apply gs_close.
  - destruct (tot holdsC ps) eqn:E; [lia|]. destruct (lj_crel_ok _ _ _ Hl) as (r & j' & ? & _).
    eexists _, _, _, _. by apply gs_close.
Qed.

Lemma no_deadlock n s i g :
  reachable n s → sy_gors s !! i = Some g → in_call g → (∀ k, sy_gors s !! k ≠ Some GRunning) →
  ∃ k g', sy_gors s !! k = Some g' ∧ in_call g' ∧ ∃ j' g'' cl bg, gor_step (sy_job s) g' j' g'' cl bg.
Proof.
  intros [ps Hinv]%reachable_inv Hi Hin Hnr. pose proof Hinv as [Hg Hj _].
  destruct (decide (0 < tot holdsB ps + tot holdsC ps)) as [Hpos|Hz].
  - assert (∃ k p, ps !! k = Some p ∧ 0 < holdsB p + holdsC p) as (k & p & Hk & Hp).
    { destruct (decide (0 < tot holdsB ps)).
      - destruct (tot_pos holdsB ps) as (k & p & ? & ?); [done|]. exists k, p. split; [done|lia].
      - destruct (tot_pos holdsC ps) as (k & p & ? & ?); [lia|]. exists k, p. split; [done|lia]. }
    assert (sy_gors s !! k = Some (at_phase p)) as Hk' by (rewrite Hg, list_lookup_fmap, Hk; done).
    exists k, (at_phase p). split; [done|]. apply (holder_can_step _ _ _ _ Hj Hk Hp).
    intros ->. by apply (Hnr k).
  - destruct (gor_phase _ _ _ _ Hinv Hi) as (p & Hp & ->). exists i, (at_phase p). split; [done|].
    split; [done|]. destruct (decide (0 < holdsB p + holdsC p)) as [Hh|Hh].
    { pose proof (tot_lookup holdsB _ _ _ Hp). pose proof (tot_lookup holdsC _ _ _ Hp). lia. }
    pose proof (ji_lock _ _ Hj) as Hl.
    replace (tot holdsB ps) with 0 in Hl by lia. replace (tot holdsC ps) with 0 in Hl by lia.
    destruct (lj_free _ Hl) as [[[r1 j1] Ha] [[r2 j2] Hc]].
    destruct p; simpl in *; try lia; try done; eexists _, _, _, _.
    + by apply gs_begin.
    + apply gs_begin_false.
    + apply gs_end_ret.
    + by apply gs_close.
    + apply gs_close_ret.
Qed.

End LockJobs.

(** ** The lock based jobs of the source *)

#[export] Instance ExclusiveUnblock_LockJob : LockJob ExclusiveUnblockJob.
Proof.
  refine {| lj_blk := false; lj_excl := true;
    lj_acq := on_eu_l Locker_TryLock; lj_rel := on_eu_l Locker_Unlock;
    lj_cacq := on_eu_l Locker_Lock; lj_crel := on_eu_l Locker_Unlock;
    lj_store := eu_store_closed; lj_load := eu_load_closed;
    lj_inv j nb nc := nb + nc ≤ 1 ∧ eu_l j = if decide (nb + nc = 0) then unlocked else locked |};
    try done; unfold on_eu_l, act_on, Locker_TryLock, Locker_Lock, Locker_Unlock, cas_u32, unlocked, locked.
  - split; [|done]. split; [lia|done].
  - intros [l c] nb nc j' [Hle Hl] Ha. simpl in *. repeat case_decide; simplify_eq/=; try lia.
    split_and!; try done; lia.
  - intros [l c] nb nc j' [Hle Hl] Ha. simpl in *. repeat case_decide; by simplify_eq/=.
  - intros [l c] nb nc [Hle Hl]. eexists _, _. split; [done|]. simpl in *. split; [|done].
    split; [lia|]. by rewrite decide_True by lia.
  - intros [l c] nb nc r j' [Hle Hl] Ha. simpl in *. repeat case_decide; simplify_eq/=; try lia.
    split_and!; try done; lia.
  - intros [l c] nb nc [Hle Hl]. by eexists _, _.
  - intros [l c] nb nc [Hle Hl]. eexists _, _. split; [done|]. simpl in *. split; [|done].
    split; [lia|]. by rewrite decide_True by lia.
  - intros j nb nc [Hle _]. lia.
  - intros [l c] [_ Hl]. simpl in *. subst l. simpl. by split; eexists.
Defined.

#[export] Instance ExclusiveBlock_LockJob : LockJob ExclusiveBlockJob.
Proof.
  refine {| lj_blk := true; lj_excl := true;
    lj_acq := on_eb_mu Mutex_Lock; lj_rel := on_eb_mu Mutex_Unlock;
    lj_cacq := on_eb_mu Mutex_Lock; lj_crel := on_eb_mu Mutex_Unlock;
    lj_store := eb_store_closed; lj_load := eb_load_closed;
    lj_inv j nb nc := nb + nc ≤ 1 ∧ eb_mu j = bool_decide (nb + nc = 1) |};
    try done; unfold on_eb_mu, act_on, Mutex_Lock, Mutex_Unlock.
  - split; [|done]. split; [lia|done].
  - intros [m c] nb nc j' [Hle Hl] Ha. simpl in *. destruct m; simplify_eq/=.
    symmetry in Hl. apply bool_decide_eq_false in Hl. split_and!; try done; try lia.
    symmetry. apply bool_decide_eq_true. lia.
  - intros [m c] nb nc j' [Hle Hl] Ha. simpl in *. by destruct m; simplify_eq/=.
  - intros [m c] nb nc [Hle Hl]. simpl in *. rewrite bool_decide_eq_true_2 in Hl by lia. subst m. simpl.
    eexists _, _. split; [done|]. simpl. split; [|done]. split; [lia|].
    symmetry. apply bool_decide_eq_false. lia.
  - intros [m c] nb nc r j' [Hle Hl] Ha. simpl in *. destruct m; simplify_eq/=.
    symmetry in Hl. apply bool_decide_eq_false in Hl. split_and!; try done; try lia.
    symmetry. apply bool_decide_eq_true. lia.
  - intros [m c] nb nc [Hle Hl]. by eexists _, _.
  - intros [m c] nb nc [Hle Hl]. simpl in *. rewrite bool_decide_eq_true_2 in Hl by lia. subst m. simpl.
    eexists _, _. split; [done|]. simpl. split; [|done]. split; [lia|].
    symmetry. apply bool_decide_eq_false. lia.
  - intros j nb nc [Hle _]. lia.
  - intros [m c] [_ Hl]. simpl in *. subst m. simpl. by split; eexists.
Defined.

#[export] Instance Concurrent_LockJob : LockJob ConcurrentJob.
Proof.
  refine {| lj_blk := true; lj_excl := false;
    lj_acq := on_c_mu RWMutex_RLock; lj_rel := on_c_mu RWMutex_RUnlock;
    lj_cacq := on_c_mu RWMutex_Lock; lj_crel := on_c_mu RWMutex_Unlock;
    lj_store := c_store_closed; lj_load := c_load_closed;
    lj_inv j nb nc := readers (c_mu j) = nb ∧ (nc = 0 ∧ writer (c_mu j) = false ∨
                                               nc = 1 ∧ nb = 0 ∧ writer (c_mu j) = true) |};
    try done; unfold on_c_mu, act_on, RWMutex_RLock, RWMutex_RUnlock, RWMutex_Lock, RWMutex_Unlock.
  - split; [|done]. by split; [|left].
  - intros [[rd w] c] nb nc j' [Hr Hw] Ha. simpl in *. destruct w; simplify_eq/=.
    destruct Hw as [[-> _]|(_ & _ & ?)]; [|done]. split_and!; try done. by left.
  - intros [[rd w] c] nb nc j' [Hr Hw] Ha. simpl in *. by destruct w; simplify_eq/=.
  - intros [[rd w] c] nb nc [Hr Hw]. simpl in *. subst rd. eexists _, _. split; [done|].
    simpl. split; [|done]. split; [done|]. destruct Hw as [?|(? & ? & ?)]; [by left|done].
  - intros [[rd w] c] nb nc r j' [Hr Hw] Ha. simpl in *. destruct w; simplify_eq/=.
    destruct nb; simplify_eq/=. destruct Hw as [[-> _]|(_ & _ & ?)]; [|done].
    split_and!; try done. by right.
  - intros [[rd w] c] nb nc [Hr Hw]. by eexists _, _.
  - intros [[rd w] c] nb nc [Hr Hw]. simpl in *. destruct Hw as [[? _]|(? & ? & ->)]; [done|].
    eexists _, _. split; [done|]. simpl. split; [|done]. split; [done|]. left. split; [lia|done].
  - intros j nb nc [_ Hw]. destruct Hw as [[? _]|(? & ? & _)]; [done|done].
  - intros [[rd w] c] [Hr Hw]. simpl in *. subst rd. destruct Hw as [[_ ->]|(? & _)]; [|done].
    by split; eexists.
Defined.

(** ** OnceJob *)

Definition returns_true (g : gor OnceJob) : nat :=
  match g with GBegin (Done true) => 1 | _ => 0 end.

Inductive once_gor : gor OnceJob → Prop :=
| og_idle : once_gor GIdle
| og_begin : once_gor (GBegin OnceJob_Begin)
| og_begun b : once_gor (GBegin (Done b))
| og_run : once_gor GRunning
| og_end u : once_gor (GEnd (Done u))
| og_close : once_gor (GClose OnceJob_Close)
| og_closed u : once_gor (GClose (Done u)).

Record once_inv (s : sys OnceJob) : Prop := {
  oi_gors : Forall once_gor (sy_gors s);
  oi_count : sy_begun s + tot returns_true (sy_gors s) ≤ if sy_job s then 1 else 0
}.

Lemma once_inv_step s s' : once_inv s → sys_step s s' → once_inv s'.
Proof.
  intros [Hg Hc] Hs. inversion Hs as [? i g j' g' cl bg Hi Hst]; subst.
  pose proof (Forall_lookup_1 _ _ _ _ Hg Hi) as Hog.
  pose proof (tot_insert returns_true _ _ _ g' Hi) as Ht.
  assert (once_gor g' ∧ (if bg then 1 else 0) + returns_true g' + (if sy_job s then 1 else 0) ≤
          returns_true g + (if j' then 1 else 0)) as [Hog' Hle].
  { destruct Hog; inversion Hst; subst; simpl in *; try (split; [constructor|]); try (repeat case_match; lia).
    - match goal with Hca : once_cas _ = _ |- _ => unfold once_cas in Hca end.
      destruct (sy_job s); simplify_eq/=; lia.
    - simplify_eq/=. destruct (sy_job s); lia. }
  split; simpl; [by apply Forall_insert|]. lia.
Qed.

Lemma once_reachable n s : reachable n s → once_inv s.
Proof.
  induction 1 as [|s s' _ IH Hs]; [|by eapply once_inv_step].
  split; simpl.
  - apply Forall_replicate. constructor.
  - induction n; simpl; [lia|]. unfold tot in *. simpl. lia.
Qed.

(** ** Executable schedules *)

(** The next move of a goroutine: which call an idle one makes, or the next step. *)
Inductive choice : Type := CallBegin | CallClose | Go.

Section Schedules.
Context {J : Type} `{Job J}.

Definition gor_next (c : choice) (j : J) (g : gor J) : option (J * gor J * bool * bool) :=
  match c, g with
  | CallBegin, GIdle => Some (j, GBegin Begin, false, false)
  | CallClose, GIdle => Some (j, GClose Close, false, false)
  | Go, GRunning => Some (j, GEnd End_, false, false)
  | Go, GBegin (Done b) => Some (j, if b then GRunning else GIdle, false, b)
  | Go, GBegin (Act a k) => '(r, j') ← a j; Some (j', GBegin (k r), false, false)
  | Go, GEnd (Done _) => Some (j, GIdle, false, false)
  | Go, GEnd (Act a k) => '(r, j') ← a j; Some (j', GEnd (k r), false, false)
  | Go, GClose (Done _) => Some (j, GIdle, true, false)
  | Go, GClose (Act a k) => '(r, j') ← a j; Some (j', GClose (k r), false, false)
  | _, _ => None
  end.

Definition sys_next (m : nat * choice) (s : sys J) : option (sys J) :=
  g ← sy_gors s !! m.1;
  '(j', g', cl, bg) ← gor_next m.2 (sy_job s) g;
  Some (Sys j' (<[m.1 := g']> (sy_gors s)) (sy_closed s || cl)
          (sy_begun s + if (bg : bool) then 1 else 0)).

Fixpoint sys_exec (ms : list (nat * choice)) (s : sys J) : option (sys J) :=
  match ms with
  | [] => Some s
  | m :: ms => s' ← sys_next m s; sys_exec ms s'
  end.

Lemma gor_next_step c j g j' g' cl bg :
  gor_next c j g = Some (j', g', cl, bg) → gor_step j g j' g' cl bg.
Proof.
  destruct c, g as [|[b|a k]| |[u|a k]|[u|a k]]; simpl; intros E;
    try (destruct (a j) as [[r j1]|] eqn:Ea); simplify_eq/=; try by constructor.
  destruct bg; constructor.
Qed.

Lemma sys_exec_reachable n ms s s' : reachable n s → sys_exec ms s = Some s' → reachable n s'.
Proof.
  revert s. induction ms as [|[i c] ms IH]; intros s Hr E; simpl in E; [by simplify_eq|].
  apply bind_Some in E as (s1 & E1 & E2). apply (IH s1); [|done].
  unfold sys_next in E1. simpl in E1. apply bind_Some in E1 as (g & Hg & E1).
  apply bind_Some in E1 as ([[[j' g'] cl] bg] & En & E1). simplify_eq.
  eapply reach_step; [done|]. eapply sys_step_at; [done|]. by apply gor_next_step in En.
Qed.

End Schedules.

(** Two goroutines: one runs the job, the other closes it; a third call is refused. *)
Definition demo_schedule : list (nat * choice) :=
  [(0, CallBegin); (0, Go); (0, Go); (0, Go); (0, Go); (0, Go); (0, Go);
   (1, CallClose); (1, Go); (1, Go); (1, Go); (1, Go);
   (0, CallBegin); (0, Go)].

(** ** Properties *)

(** C25: for every lock based job ([ExclusiveUnblockJob], [ExclusiveBlockJob],
    [ConcurrentJob]) and every interleaving of any number of goroutines: once a
    call of [Close] has returned, no goroutine is running the job, and no call of
    [Begin] returns true any more. *)
Theorem closed_job_never_runs {J : Type} `{LockJob J} (n : nat) (s : sys J) (i : nat) (g : gor J)
    (Hr : reachable n s) (Hc : sy_closed s = true) (Hi : sy_gors s !! i = Some g) :
  g ≠ GRunning ∧ g ≠ GBegin (Done true).
Proof.
  pose proof (closed_not_entered n s i g Hr Hc Hi) as Hn. split; intros E; apply Hn; [by left|by right].
Qed.

Lemma closed_job_never_runs_witness :
  ∃ s : sys ConcurrentJob, sys_exec demo_schedule (sys_init 2) = Some s ∧
    ∀ g, sy_gors s !! 0 = Some g → g ≠ GRunning ∧ g ≠ GBegin (Done true).
Proof.
  destruct (sys_exec demo_schedule (sys_init (J := ConcurrentJob) 2)) as [s|] eqn:E;
    [|vm_compute in E; discriminate E].
  exists s. split; [reflexivity|]. intros g Hg.
  apply (closed_job_never_runs 2 s 0 g); [|vm_compute in E; injection E as <-; reflexivity|exact Hg].
  eapply sys_exec_reachable; [apply reach_init|exact E].
Defined.

(** C26: exclusive jobs run in at most one goroutine at a time, whatever the
    interleaving. *)
Theorem exclusive_job_runs_alone {J : Type} `{LockJob J} (n : nat) (s : sys J) (i k : nat)
    (Hx : lj_excl = true) (Hr : reachable n s)
    (Hi : sy_gors s !! i = Some GRunning) (Hk : sy_gors s !! k = Some GRunning) :
  i = k.
Proof. by apply (exclusive_entered n s i k GRunning GRunning); [| | | |left|left]. Qed.

Lemma exclusive_job_runs_alone_witness :
  ∃ s : sys ExclusiveUnblockJob,
    sys_exec [(0, CallBegin); (0, Go); (0, Go); (0, Go); (1, CallBegin); (1, Go)] (sys_init 2) = Some s ∧
    sy_gors s !! 0 = Some GRunning ∧ ∀ k, sy_gors s !! k = Some GRunning → 0 = k.
Proof.
  destruct (sys_exec [(0, CallBegin); (0, Go); (0, Go); (0, Go); (1, CallBegin); (1, Go)]
              (sys_init (J := ExclusiveUnblockJob) 2)) as [s|] eqn:E; [|vm_compute in E; discriminate E].
  assert (sy_gors s !! 0 = Some GRunning) as H0 by (vm_compute in E; injection E as <-; reflexivity).
  exists s. split; [reflexivity|]. split; [exact H0|]. intros k Hk.
  apply (exclusive_job_runs_alone 2 s 0 k); [reflexivity| |exact H0|exact Hk].
  eapply sys_exec_reachable; [apply reach_init|exact E].
Defined.

(** C27: progress.  Whatever the interleaving, as long as no goroutine is running
    the job, some goroutine that is inside a call of [Begin], [End] or [Close] can
    take its next step: the calls never block each other for ever. *)
Theorem job_calls_do_not_deadlock {J : Type} `{LockJob J} (n : nat) (s : sys J) (i : nat) (g : gor J)
    (Hr : reachable n s) (Hi : sy_gors s !! i = Some g) (Hin : in_call g)
    (Hn : ∀ k, sy_gors s !! k ≠ Some GRunning) :
  ∃ k g', sy_gors s !! k = Some g' ∧ in_call g' ∧
    ∃ j' g'' cl bg, gor_step (sy_job s) g' j' g'' cl bg.
Proof. exact (no_deadlock n s i g Hr Hi Hin Hn). Qed.

Lemma job_calls_do_not_deadlock_witness :
  ∃ s : sys ExclusiveBlockJob,
    sys_exec [(0, CallClose); (0, Go); (1, CallBegin)] (sys_init 2) = Some s ∧
    ∃ k g', sy_gors s !! k = Some g' ∧ in_call g' ∧
      ∃ j' g'' cl bg, gor_step (sy_job s) g' j' g'' cl bg.
Proof.
  destruct (sys_exec [(0, CallClose); (0, Go); (1, CallBegin)]
              (sys_init (J := ExclusiveBlockJob) 2)) as [s|] eqn:E; [|vm_compute in E; discriminate E].
  exists s. split; [reflexivity|].
  assert (reachable 2 s) as Hr by (eapply sys_exec_reachable; [apply reach_init|exact E]).
  vm_compute in E. injection E as <-.
  eapply (job_calls_do_not_deadlock 2 _ 1 _ Hr); [reflexivity|exact I|].
  intros [|[|k]]; discriminate.
Defined.

(** Over its whole life, at most one call of [OnceJob.Begin] returns true, for
    every interleaving. *)
Theorem once_job_begins_once (n : nat) (s : sys OnceJob) (Hr : reachable n s) : sy_begun s ≤ 1.
Proof. destruct (once_reachable n s Hr) as [_ Hc]. destruct (sy_job s); lia. Qed.

Lemma once_job_begins_once_witness :
  ∃ s : sys OnceJob,
    sys_exec [(0, CallBegin); (1, CallBegin); (1, Go); (0, Go); (0, Go); (1, Go)] (sys_init 2) = Some s ∧
    sy_begun s = 1 ∧ sy_begun s ≤ 1.
Proof.
  destruct (sys_exec [(0, CallBegin); (1, CallBegin); (1, Go); (0, Go); (0, Go); (1, Go)]
              (sys_init (J := OnceJob) 2)) as [s|] eqn:E; [|vm_compute in E; discriminate E].
  exists s. split; [reflexivity|].
  split; [vm_compute in E; injection E as <-; reflexivity|].
  apply (once_job_begins_once 2 s). eapply sys_exec_reachable; [apply reach_init|exact E].
Defined.
