(* ===== verification/Closer.v ===== *)
(** * The closer of a connection (src/closer.go)

    A connection guards its reads, its writes and its control calls with one job
    each; closing it closes them all.  The file models [closer] on the jobs of
    [SafeJob] and proves its promise for every interleaving: once [closeAllJobs]
    has returned, none of the jobs runs or can be started. *)

From stdpp Require Import base list numbers.
From S2P Require Import Prelude SafeJob.

(** ** Keys *)

(** The values of the source's [key] type that name a lock based job, in its order;
    [closeAll] names the once job. *)
Inductive lock_key : Type := sysRead | sysWrite | apiRead | apiWrite | apiCtrl.
Definition closeAll : Z := 5.

#[export] Instance lock_key_eq_dec : EqDecision lock_key.
Proof. solve_decision. Defined.

Definition key_index (k : lock_key) : Z :=
  match k with sysRead => 0 | sysWrite => 1 | apiRead => 2 | apiWrite => 3 | apiCtrl => 4 end.

Definition key_of (k : Z) : option lock_key :=
  match k with
  | 0%Z => Some sysRead
  | 1%Z => Some sysWrite
  | 2%Z => Some apiRead
  | 3%Z => Some apiWrite
  | 4%Z => Some apiCtrl
  | _ => None
  end.

Definition job_type (k : lock_key) : Type :=
  match k with
  | sysRead | sysWrite => ExclusiveUnblockJob
  | apiRead | apiCtrl => ExclusiveBlockJob
  | apiWrite => ConcurrentJob
  end.

#[export] Instance key_Job (k : lock_key) : Job (job_type k) :=
  match k with
  | sysRead | sysWrite => ExclusiveUnblock_Job
  | apiRead | apiCtrl => ExclusiveBlock_Job
  | apiWrite => Concurrent_Job
  end.

#[export] Instance key_LockJob (k : lock_key) : LockJob (job_type k) :=
  match k with
  | sysRead | sysWrite => ExclusiveUnblock_LockJob
  | apiRead | apiCtrl => ExclusiveBlock_LockJob
  | apiWrite => Concurrent_LockJob
  end.

(** ** The struct *)

Record closer : Type := Closer {
  sysReadJob : ExclusiveUnblockJob;
  sysWriteJob : ExclusiveUnblockJob;
  apiReadJob : ExclusiveBlockJob;
  apiWriteJob : ConcurrentJob;
  apiCtrlJob : ExclusiveBlockJob;
  closeAllJob : OnceJob
}.

Definition zero_closer : closer := Closer job_zero job_zero job_zero job_zero job_zero job_zero.

Definition getJob (k : lock_key) (c : closer) : job_type k :=
  match k with
  | sysRead => sysReadJob c
  | sysWrite => sysWriteJob c
  | apiRead => apiReadJob c
  | apiWrite => apiWriteJob c
  | apiCtrl => apiCtrlJob c
  end.

Definition setJob (k : lock_key) : job_type k → closer → closer :=
  match k with
  | sysRead => λ j c, Closer j (sysWriteJob c) (apiReadJob c) (apiWriteJob c) (apiCtrlJob c) (closeAllJob c)
  | sysWrite => λ j c, Closer (sysReadJob c) j (apiReadJob c) (apiWriteJob c) (apiCtrlJob c) (closeAllJob c)
  | apiRead => λ j c, Closer (sysReadJob c) (sysWriteJob c) j (apiWriteJob c) (apiCtrlJob c) (closeAllJob c)
  | apiWrite => λ j c, Closer (sysReadJob c) (sysWriteJob c) (apiReadJob c) j (apiCtrlJob c) (closeAllJob c)
  | apiCtrl => λ j c, Closer (sysReadJob c) (sysWriteJob c) (apiReadJob c) (apiWriteJob c) j (closeAllJob c)
  end.

Definition set_closeAllJob (j : OnceJob) (c : closer) : closer :=
  Closer (sysReadJob c) (sysWriteJob c) (apiReadJob c) (apiWriteJob c) (apiCtrlJob c) j.

(** A method call on one of the jobs. *)
Fixpoint prog_on {S T R} (proj : S → T) (upd : T → S → S) (p : prog T R) : prog S R :=
  match p with
  | Done r => Done r
  | Act a k => Act (act_on proj upd a) (λ b, prog_on proj upd (k b))
  end.

(** Sequencing. *)
Fixpoint prog_seq {S R} (p : prog S ()) (q : prog S R) : prog S R :=
  match p with
  | Done _ => q
  | Act a k => Act a (λ b, prog_seq (k b) q)
  end.

Definition closed (c : closer) : bool := Closed (closeAllJob c).

Definition beginJobSafely (k : Z) : prog closer bool :=
  if decide (k < 0 ∨ k > closeAll)%Z then Done false
  else
    match key_of k with
    | Some lk => prog_on (getJob lk) (setJob lk) Begin
    | None => prog_on closeAllJob set_closeAllJob Begin
    end.

Definition endJobSafely (k : Z) : prog closer () :=
  if decide (k < 0 ∨ k > closeAll)%Z then Done ()
  else
    match key_of k with
    | Some lk => prog_on (getJob lk) (setJob lk) End_
    | None => prog_on closeAllJob set_closeAllJob End_
    end.

Definition closeJobSafely (k : Z) : prog closer () :=
  if decide (k < 0 ∨ k > closeAll)%Z then Done ()
  else
    match key_of k with
    | Some lk => prog_on (getJob lk) (setJob lk) Close
    | None => prog_on closeAllJob set_closeAllJob Close
    end.

Definition closeAllJobs : prog closer () :=
  prog_seq (prog_on (getJob sysRead) (setJob sysRead) Close)
  (prog_seq (prog_on (getJob sysWrite) (setJob sysWrite) Close)
  (prog_seq (prog_on (getJob apiRead) (setJob apiRead) Close)
  (prog_seq (prog_on (getJob apiWrite) (setJob apiWrite) Close)
  (prog_seq (prog_on (getJob apiCtrl) (setJob apiCtrl) Close)
  (Done ()))))).

(** ** Goroutines of a connection *)

Inductive cgor : Type :=
| CIdle
| CBegin (k : lock_key) (p : prog closer bool)
| CRunning (k : lock_key)
| CEnd (k : lock_key) (p : prog closer ())
| CCloseAll (p : prog closer ()).

Record csys : Type := CSys {
  cs_closer : closer;
  cs_gors : list cgor;
  cs_closed : bool   (* some [closeAllJobs] has returned *)
}.

Inductive cgor_step : closer → cgor → closer → cgor → bool → Prop :=
| cg_call_begin c k : cgor_step c CIdle c (CBegin k (beginJobSafely (key_index k))) false
| cg_call_end c k : cgor_step c (CRunning k) c (CEnd k (endJobSafely (key_index k))) false
| cg_call_close c : cgor_step c CIdle c (CCloseAll closeAllJobs) false
| cg_begin c k a f r c' : a c = Some (r, c') → cgor_step c (CBegin k (Act a f)) c' (CBegin k (f r)) false
| cg_end c k a f r c' : a c = Some (r, c') → cgor_step c (CEnd k (Act a f)) c' (CEnd k (f r)) false
| cg_close c a f r c' : a c = Some (r, c') → cgor_step c (CCloseAll (Act a f)) c' (CCloseAll (f r)) false
| cg_begin_true c k : cgor_step c (CBegin k (Done true)) c (CRunning k) false
| cg_begin_false c k : cgor_step c (CBegin k (Done false)) c CIdle false
| cg_end_ret c k u : cgor_step c (CEnd k (Done u)) c CIdle false
| cg_close_ret c u : cgor_step c (CCloseAll (Done u)) c CIdle true.

Inductive csys_step : csys → csys → Prop :=
| csys_step_at s i g c' g' cl :
    cs_gors s !! i = Some g → cgor_step (cs_closer s) g c' g' cl →
    csys_step s (CSys c' (<[i := g']> (cs_gors s)) (cs_closed s || cl)).

Inductive creachable (n : nat) : csys → Prop :=
| creach_init : creachable n (CSys zero_closer (replicate n CIdle) false)
| creach_step s s' : creachable n s → csys_step s s' → creachable n s'.

(** ** Access to the jobs *)

Lemma getJob_setJob k j c : getJob k (setJob k j c) = j.
Proof. by destruct k. Qed.

Lemma getJob_setJob_ne k k' j c : k ≠ k' → getJob k' (setJob k j c) = getJob k' c.
Proof. by destruct k, k'. Qed.

Lemma key_of_index k : key_of (key_index k) = Some k.
Proof. by destruct k. Qed.

Lemma begin_key k : beginJobSafely (key_index k) = prog_on (getJob k) (setJob k) Begin.
Proof. by destruct k. Qed.

Lemma end_key k : endJobSafely (key_index k) = prog_on (getJob k) (setJob k) End_.
Proof. by destruct k. Qed.

(** The jobs in the order they are closed. *)
Definition next_key (k : lock_key) : option lock_key :=
  match k with
  | sysRead => Some sysWrite
  | sysWrite => Some apiRead
  | apiRead => Some apiWrite
  | apiWrite => Some apiCtrl
  | apiCtrl => None
  end.

(** What is left of [closeAllJobs] once the jobs before [k] are closed, and after [k]. *)
Definition close_rest (k : lock_key) : prog closer () :=
  match k with
  | sysRead =>
      prog_seq (prog_on (getJob sysWrite) (setJob sysWrite) Close)
      (prog_seq (prog_on (getJob apiRead) (setJob apiRead) Close)
      (prog_seq (prog_on (getJob apiWrite) (setJob apiWrite) Close)
      (prog_seq (prog_on (getJob apiCtrl) (setJob apiCtrl) Close) (Done ()))))
  | sysWrite =>
      prog_seq (prog_on (getJob apiRead) (setJob apiRead) Close)
      (prog_seq (prog_on (getJob apiWrite) (setJob apiWrite) Close)
      (prog_seq (prog_on (getJob apiCtrl) (setJob apiCtrl) Close) (Done ())))
  | apiRead =>
      prog_seq (prog_on (getJob apiWrite) (setJob apiWrite) Close)
      (prog_seq (prog_on (getJob apiCtrl) (setJob apiCtrl) Close) (Done ()))
  | apiWrite => prog_seq (prog_on (getJob apiCtrl) (setJob apiCtrl) Close) (Done ())
  | apiCtrl => Done ()
  end.

Definition close_from (k : lock_key) : prog closer () :=
  prog_seq (prog_on (getJob k) (setJob k) Close) (close_rest k).

Lemma closeAllJobs_from : closeAllJobs = close_from sysRead.
Proof. done. Qed.

Lemma close_rest_next k :
  close_rest k = match next_key k with Some k' => close_from k' | None => Done () end.
Proof. by destruct k. Qed.

(** [k'] is closed before [k]. *)
Definition before (k' k : lock_key) : Prop := (key_index k' < key_index k)%Z.

Lemma before_next k k1 k' : next_key k = Some k1 → before k' k1 → k' = k ∨ before k' k.
Proof. unfold before. destruct k, k1, k'; simpl; intros; simplify_eq; auto; lia. Qed.

Lemma before_last k k' : next_key k = None → k' = k ∨ before k' k.
Proof. unfold before. destruct k, k'; simpl; intros; simplify_eq; auto; right; lia. Qed.

(** ** Phases *)

Inductive cphase : Type :=
| FIdle
| FOn (k : lock_key) (p : phase)
| FClose (k : lock_key) (p : phase)
| FClosed.

Definition at_cphase (f : cphase) : cgor :=
  match f with
  | FIdle => CIdle
  | FOn k p =>
      match @at_phase (job_type k) _ _ p with
      | GBegin q => CBegin k (prog_on (getJob k) (setJob k) q)
      | GEnd q => CEnd k (prog_on (getJob k) (setJob k) q)
      | GRunning => CRunning k
      | _ => CIdle
      end
  | FClose k p =>
      match @at_phase (job_type k) _ _ p with
      | GClose q => CCloseAll (prog_seq (prog_on (getJob k) (setJob k) q) (close_rest k))
      | _ => CIdle
      end
  | FClosed => CCloseAll (Done ())
  end.

(** Phases a goroutine can be in: the calls of a run in [FOn], those of [Close],
    before it returns, in [FClose]. *)
Definition cphase_ok (f : cphase) : Prop :=
  match f with
  | FOn _ (PIdle | PC0 | PC1 | PC2 | PC3) => False
  | FClose _ (PC0 | PC1 | PC2) => True
  | FClose _ _ => False
  | _ => True
  end.

(** What job [k] sees of a goroutine. *)
Definition view (k : lock_key) (f : cphase) : phase :=
  match f with
  | FOn k' p | FClose k' p => if decide (k' = k) then p else PIdle
  | _ => PIdle
  end.

(** The jobs that are known to be closed from the position of a closing goroutine. *)
Definition past (k : lock_key) (f : cphase) : Prop :=
  match f with
  | FClose k' _ => before k k'
  | FClosed => True
  | _ => False
  end.

Record cinv (s : csys) (fs : list cphase) : Prop := {
  ci_gors : cs_gors s = map at_cphase fs;
  ci_ok : Forall cphase_ok fs;
  ci_jobs k : job_inv (getJob k (cs_closer s)) (map (view k) fs);
  ci_past i f k : fs !! i = Some f → past k f → Closed (getJob k (cs_closer s)) = true;
  ci_closed k : cs_closed s = true → Closed (getJob k (cs_closer s)) = true
}.

(** ** Steps *)

(** Several steps of one goroutine as job [k] sees them. *)
Inductive views (k : lock_key) : job_type k → phase → job_type k → phase → Prop :=
| vs_refl j p : views k j p j p
| vs_step j p j1 p1 j2 p2 cl bg :
    phase_step j p j1 p1 cl bg → views k j1 p1 j2 p2 → views k j p j2 p2.

Lemma views_one k j p j' p' cl bg : phase_step j p j' p' cl bg → views k j p j' p'.
Proof. intros. eapply vs_step; [done|constructor]. Qed.

Lemma job_inv_views k j ps i p j' p' :
  job_inv j ps → ps !! i = Some p → views k j p j' p' →
  job_inv j' (<[i := p']> ps) ∧ (Closed j = true → Closed j' = true).
Proof.
  intros Hj Hi Hv. revert ps Hj Hi. induction Hv as [j p|j p j1 p1 j2 p2 cl bg Hs _ IH]; intros ps Hj Hi.
  - by rewrite list_insert_id.
  - destruct (job_inv_step _ _ _ _ _ _ _ _ Hj Hi Hs) as (Hj1 & _ & Hm).
    destruct (IH _ Hj1) as [Hj2 Hm2]; [by apply list_lookup_insert_eq, (lookup_lt_Some _ _ _ Hi)|].
    rewrite list_insert_insert_eq in Hj2. auto.
Qed.

Lemma view_on k p : view k (FOn k p) = p.
Proof. simpl. by rewrite decide_True. Qed.

Lemma view_on_ne k k' p : k ≠ k' → view k' (FOn k p) = PIdle.
Proof. intros. simpl. by rewrite decide_False. Qed.

(** One step of job [k], by a goroutine that is busy with it. *)
Lemma views_on k c j' p p' cl bg k' :
  phase_step (getJob k c) p j' p' cl bg →
  views k' (getJob k' c) (view k' (FOn k p)) (getJob k' (setJob k j' c)) (view k' (FOn k p')).
Proof.
  intros Hs. destruct (decide (k = k')) as [<-|Hne].
  - rewrite !view_on, getJob_setJob. by eapply views_one.
  - rewrite !view_on_ne, getJob_setJob_ne by done. constructor.
Qed.

Lemma setJob_id k c : setJob k (getJob k c) c = c.
Proof. by destruct k, c. Qed.

Lemma prog_on_act {T R} (proj : closer → T) upd (q : prog T R) a f :
  prog_on proj upd q = Act a f →
  ∃ a0 f0, q = Act a0 f0 ∧ a = act_on proj upd a0 ∧ f = λ b, prog_on proj upd (f0 b).
Proof. destruct q; simpl; intros; simplify_eq. by eexists _, _. Qed.

Lemma act_on_Some {T} (proj : closer → T) upd a c r c' :
  act_on proj upd a c = Some (r, c') → ∃ t, a (proj c) = Some (r, t) ∧ c' = upd t c.
Proof. unfold act_on. destruct (a (proj c)) as [[b t]|]; intros; simplify_eq. by exists t. Qed.

(** The phase of a goroutine that is inside [Begin] or [End]. *)
Lemma at_phase_begin k p q : @at_phase (job_type k) _ _ p = GBegin q →
  cphase_ok (FOn k p) ∧ at_cphase (FOn k p) = CBegin k (prog_on (getJob k) (setJob k) q).
Proof. intros E. split; [by destruct p|]. simpl. by rewrite E. Qed.

Lemma at_phase_end k p q : @at_phase (job_type k) _ _ p = GEnd q →
  cphase_ok (FOn k p) ∧ at_cphase (FOn k p) = CEnd k (prog_on (getJob k) (setJob k) q).
Proof. intros E. split; [by destruct p|]. simpl. by rewrite E. Qed.

Lemma at_phase_idle k p : @at_phase (job_type k) _ _ p = GIdle → p = PIdle.
Proof. by destruct p. Qed.

(** What one step of a goroutine does, outside of closing. *)
Definition moves (c : closer) (f : cphase) (c' : closer) (g' : cgor) : Prop :=
  ∃ f', g' = at_cphase f' ∧ cphase_ok f' ∧
    (∀ k, views k (getJob k c) (view k f) (getJob k c') (view k f')) ∧ (∀ k, ¬ past k f').

Lemma moves_on c k p j' g' cl bg gc' :
  gor_step (getJob k c) (at_phase p) j' g' cl bg →
  (gc' = match g' with
         | GBegin q => CBegin k (prog_on (getJob k) (setJob k) q)
         | GEnd q => CEnd k (prog_on (getJob k) (setJob k) q)
         | GRunning => CRunning k
         | _ => CIdle
         end) → (∀ q, g' ≠ GClose q) →
  moves c (FOn k p) (setJob k j' c) gc'.
Proof.
  intros Hs -> Hnc. destruct (gor_step_phase _ _ _ _ _ _ Hs) as (p' & -> & Hps).
  pose proof (λ k', views_on k c j' p p' cl bg k' Hps) as Hv.
  destruct (decide (p' = PIdle)) as [->|Hni].
  - exists FIdle. split; [done|]. split; [done|]. split; [|by intros ? ?].
    intros k'. specialize (Hv k'). destruct (decide (k = k')) as [->|]; simpl in *;
      repeat case_decide; done.
  - exists (FOn k p'). split; [done|]. split; [|split; [done|by intros ? ?]].
    destruct p'; try done; by edestruct Hnc.
Qed.

Lemma step_on c k p c' g' cl :
  cphase_ok (FOn k p) → cgor_step c (at_cphase (FOn k p)) c' g' cl →
  moves c (FOn k p) c' g' ∧ cl = false.
Proof.
  intros Hok Hs. unfold at_cphase in Hs.
  destruct (@at_phase (job_type k) _ _ p) as [|q| |q|q] eqn:E; try (by destruct p).
  - destruct q as [b|a0 f0]; simpl in Hs.
    + inversion Hs; subst; (split; [|done]); rewrite <-(setJob_id k c') at 2; eapply moves_on;
        (try by rewrite E; constructor); done.
    + inversion Hs as [| | |? ? ? ? r ? Ha| | | | | |]; subst. split; [|done].
      apply act_on_Some in Ha as (j' & Ha & ->). eapply moves_on; [rewrite E; by apply gs_begin|done|done].
  - inversion Hs; subst. split; [|done]. rewrite end_key.
    rewrite <-(setJob_id k c') at 2. eapply moves_on; [rewrite E; apply gs_call_end|done|done].
  - destruct q as [u|a0 f0]; simpl in Hs.
    + inversion Hs; subst. split; [|done]. rewrite <-(setJob_id k c') at 2. eapply moves_on;
        [rewrite E; by constructor|done|done].
    + inversion Hs as [| | | |? ? ? ? r ? Ha| | | | |]; subst. split; [|done].
      apply act_on_Some in Ha as (j' & Ha & ->). eapply moves_on; [rewrite E; by apply gs_end|done|done].
Qed.

(** A step of a goroutine that closes job [k]. *)
Lemma views_close k c j' p p' cl bg k' :
  phase_step (getJob k c) p j' p' cl bg →
  views k' (getJob k' c) (view k' (FClose k p)) (getJob k' (setJob k j' c)) (view k' (FClose k p')).
Proof. exact (views_on k c j' p p' cl bg k'). Qed.

Lemma step_close c k p c' g' cl :
  cphase_ok (FClose k p) → cgor_step c (at_cphase (FClose k p)) c' g' cl →
  cl = false ∧
  ∃ f', g' = at_cphase f' ∧ cphase_ok f' ∧
    (∀ k', views k' (getJob k' c) (view k' (FClose k p)) (getJob k' c') (view k' f')) ∧
    (∀ k', past k' f' → past k' (FClose k p) ∨ (k' = k ∧ p = PC2)).
Proof.
  intros Hok Hs.
  assert (∃ a0 f0, @at_phase (job_type k) _ _ p = GClose (Act a0 f0)) as (a0 & f0 & E)
    by (destruct p; try done; by eexists _, _).
  unfold at_cphase in Hs. rewrite E in Hs. simpl in Hs.
  inversion Hs as [| | | | |? ? ? r ? Ha| | | |]; subst. split; [done|].
  apply act_on_Some in Ha as (j' & Ha & ->).
  assert (gor_step (getJob k c) (at_phase p) j' (GClose (f0 r)) false false) as Hst
    by (rewrite E; by apply gs_close).
  destruct (gor_step_phase _ _ _ _ _ _ Hst) as (p' & E' & Hps).
  pose proof (λ k', views_close k c j' p p' _ _ k' Hps) as Hv.
  destruct (decide (p' = PC3)) as [->|Hn3].
  - (* the job is closed; the next one follows *)
    assert (p = PC2) as -> by (by inversion Hps).
    assert (∀ k', views k' (getJob k' c) (view k' (FClose k PC2)) (getJob k' (setJob k j' c)) PIdle) as Hv'.
    { intros k'. specialize (Hv k'). simpl in *. case_decide as Hd; [|done]. subst k'.
      rewrite getJob_setJob in *. inversion Hps; subst.
      eapply vs_step; [done|]. eapply views_one. apply ps_closed. }
    simpl in E'. injection E' as E'. rewrite E'. simpl. rewrite close_rest_next.
    destruct (next_key k) as [k1|] eqn:En.
    + exists (FClose k1 PC0). split; [unfold close_from; cbn [at_cphase at_phase]; by rewrite lj_close|]. split; [done|].
      split.
      * intros k'. simpl. destruct (decide (k1 = k')) as [<-|Hne]; [|apply Hv'].
        assert (k ≠ k1) as Hne by (by destruct k, k1).
        simpl. rewrite (decide_False (P := k = k1)), getJob_setJob_ne by done.
        eapply views_one. apply ps_close.
      * intros k' Hp. simpl in *. destruct (before_next _ _ _ En Hp); auto.
    + exists FClosed. split; [done|]. split; [done|]. split; [done|].
      intros k' _. simpl. destruct (before_last _ k' En); auto.
  - exists (FClose k p'). split.
    { simpl. by rewrite <-E'. }
    split; [by inversion Hps; subst|]. split; [done|]. auto.
Qed.

Lemma step_idle c c' g' cl :
  cgor_step c CIdle c' g' cl → moves c FIdle c' g' ∧ cl = false ∨
  (c' = c ∧ g' = at_cphase (FClose sysRead PC0) ∧ cl = false).
Proof.
  intros Hs. inversion Hs; subst.
  - left. split; [|done]. exists (FOn k PB0). split; [cbn [at_cphase at_phase]; by rewrite begin_key, lj_begin|].
    split; [done|]. split; [|by intros ? ?]. intros k'. simpl.
    case_decide; [subst; eapply views_one, ps_begin|constructor].
  - right. split; [done|]. split; [|done]. rewrite closeAllJobs_from. unfold close_from.
    cbn [at_cphase at_phase]. by rewrite lj_close.
Qed.

Lemma cinv_init n : cinv (CSys zero_closer (replicate n CIdle) false) (replicate n FIdle).
Proof.
  split; simpl.
  - symmetry. apply (fmap_replicate at_cphase).
  - by apply Forall_replicate.
  - intros k. pose proof (si_job _ _ (sys_inv_init (J := job_type k) n)) as Hj. simpl in Hj.
    replace (map (view k) (replicate n FIdle)) with (replicate n PIdle)
      by (symmetry; apply (fmap_replicate (view k))).
    by destruct k.
  - intros i f k [-> _]%lookup_replicate []. 
  - done.
Qed.

(** Updating the invariant for one goroutine. *)
Lemma cinv_update s fs i f f' c' cl :
  cinv s fs → fs !! i = Some f → cphase_ok f' →
  (∀ k, views k (getJob k (cs_closer s)) (view k f) (getJob k c') (view k f')) →
  (∀ k, past k f' → Closed (getJob k c') = true) →
  (cl = true → ∀ k, past k f) →
  cinv (CSys c' (<[i := at_cphase f']> (cs_gors s)) (cs_closed s || cl)) (<[i := f']> fs).
Proof.
  intros [Hg Hok Hj Hp Hc] Hi Hf' Hv Hpast Hcl.
  assert (∀ k, job_inv (getJob k c') (map (view k) (<[i := f']> fs)) ∧
               (Closed (getJob k (cs_closer s)) = true → Closed (getJob k c') = true)) as Hjk.
  { intros k. rewrite <-map_insert_list. eapply job_inv_views; [apply Hj| |apply Hv].
    rewrite list_lookup_fmap, Hi. done. }
  split; simpl.
  - by rewrite Hg, map_insert_list.
  - by apply Forall_insert.
  - intros k. apply Hjk.
  - intros m g k Hm Hpk. apply list_lookup_insert_Some in Hm as [(-> & <- & _)|[_ Hm]]; [auto|].
    apply Hjk. by eapply Hp.
  - intros k [Hcs|Hcs]%orb_true_iff; apply Hjk; [auto|]. eapply Hp; [done|]. auto.
Qed.

Lemma cinv_step s fs s' : cinv s fs → csys_step s s' → ∃ fs', cinv s' fs'.
Proof.
  intros Hinv Hs. inversion Hs as [? i g c' g' cl Hi Hst]; subst.
  pose proof (ci_gors _ _ Hinv) as Hg. rewrite Hg in Hi.
  apply list_lookup_fmap_Some in Hi as (f & -> & Hf).
  pose proof (Forall_lookup_1 _ _ _ _ (ci_ok _ _ Hinv) Hf) as Hok.
  assert (∀ c1 g1, moves (cs_closer s) f c1 g1 →
    ∃ fs', cinv (CSys c1 (<[i := g1]> (cs_gors s)) (cs_closed s || false)) fs') as Hmv.
  { intros c1 g1 (f' & -> & Hok' & Hv & Hnp). eexists. eapply cinv_update; try done.
    intros k Hk. by destruct (Hnp k). }
  destruct f as [|k p|k p|].
  - apply step_idle in Hst as [[Hm ->]|(-> & -> & ->)]; [by apply Hmv|].
    eexists. eapply (cinv_update s fs i FIdle (FClose sysRead PC0)); try done.
    + intros k. simpl. case_decide; [subst; eapply views_one, ps_close|constructor].
    + intros k Hb. simpl in Hb. unfold before in Hb. destruct k; simpl in Hb; lia.
  - destruct (step_on _ _ _ _ _ _ Hok Hst) as [Hm ->]. by apply Hmv.
  - destruct (step_close _ _ _ _ _ _ Hok Hst) as (-> & f' & -> & Hok' & Hv & Hpast).
    eexists. eapply cinv_update; try done. intros k' Hk'.
    assert (Closed (getJob k' (cs_closer s)) = true) as Hck.
    { destruct (Hpast k' Hk') as [Hp|[-> ->]]; [by eapply (ci_past _ _ Hinv)|].
      eapply (ji_stored _ _ (ci_jobs _ _ Hinv k) i PC2); [|done].
      rewrite list_lookup_fmap, Hf. simpl. by rewrite decide_True. }
    eapply job_inv_views; [apply (ci_jobs _ _ Hinv k')| |apply Hv|done].
    by rewrite list_lookup_fmap, Hf.
  - simpl in Hst. inversion Hst; subst. eexists. apply (cinv_update s fs i FClosed FIdle); try done.
    intros k. constructor.
Qed.

Lemma creachable_inv n s : creachable n s → ∃ fs, cinv s fs.
Proof.
  induction 1 as [|s s' _ [fs IH] Hs]; [by eexists; apply cinv_init|]. by eapply cinv_step.
Qed.

(** C24: the promise of [closer]: for every interleaving of goroutines that begin and
    end the read, write and control jobs of a connection and of goroutines that
    close it, once a call of [closeAllJobs] has returned no goroutine is inside one
    of the five jobs, and no call of [beginJobSafely] returns true any more. *)
Theorem closed_connection_runs_no_job (n : nat) (s : csys) (i : nat) (g : cgor)
    (Hr : creachable n s) (Hc : cs_closed s = true) (Hi : cs_gors s !! i = Some g) :
  ∀ k, g ≠ CRunning k ∧ g ≠ CBegin k (Done true).
Proof.
  destruct (creachable_inv n s Hr) as [fs Hinv]. intros k.
  pose proof (ci_gors _ _ Hinv) as Hg. rewrite Hg in Hi.
  apply list_lookup_fmap_Some in Hi as (f & -> & Hf).
  assert (∀ k0 p, f = FOn k0 p → live p = false) as Hlive.
  { intros k0 p ->. pose proof (ci_jobs _ _ Hinv k0) as Hj.
    pose proof (ji_live _ _ Hj (ci_closed _ _ Hinv k0 Hc)) as Hl.
    assert (map (view k0) fs !! i = Some p) as Hv
      by (rewrite list_lookup_fmap, Hf; simpl; by rewrite decide_True).
    exact (Forall_lookup_1 _ _ _ _ Hl Hv). }
  destruct f as [|k0 p|k0 p|]; [by split| | |by split].
  - specialize (Hlive k0 p eq_refl). by destruct p; split.
  - by destruct p; split.
Qed.

(** ** Executable schedules *)

Inductive cmove : Type := DoBegin (k : lock_key) | DoClose | CGo.

Definition cgor_next (m : cmove) (c : closer) (g : cgor) : option (closer * cgor * bool) :=
  match m, g with
  | DoBegin k, CIdle => Some (c, CBegin k (beginJobSafely (key_index k)), false)
  | DoClose, CIdle => Some (c, CCloseAll closeAllJobs, false)
  | CGo, CRunning k => Some (c, CEnd k (endJobSafely (key_index k)), false)
  | CGo, CBegin k (Done b) => Some (c, if b then CRunning k else CIdle, false)
  | CGo, CBegin k (Act a f) => '(r, c') ← a c; Some (c', CBegin k (f r), false)
  | CGo, CEnd k (Done _) => Some (c, CIdle, false)
  | CGo, CEnd k (Act a f) => '(r, c') ← a c; Some (c', CEnd k (f r), false)
  | CGo, CCloseAll (Done _) => Some (c, CIdle, true)
  | CGo, CCloseAll (Act a f) => '(r, c') ← a c; Some (c', CCloseAll (f r), false)
  | _, _ => None
  end.

Fixpoint csys_exec (ms : list (nat * cmove)) (s : csys) : option csys :=
  match ms with
  | [] => Some s
  | (i, m) :: ms =>
      g ← cs_gors s !! i;
      '(c', g', cl) ← cgor_next m (cs_closer s) g;
      csys_exec ms (CSys c' (<[i := g']> (cs_gors s)) (cs_closed s || cl))
  end.

Lemma cgor_next_step m c g c' g' cl : cgor_next m c g = Some (c', g', cl) → cgor_step c g c' g' cl.
Proof.
  destruct m as [km| |], g as [|k [b|a f]|k|k [u|a f]|[u|a f]]; simpl; intros E;
    try (destruct (a c) as [[r c1]|] eqn:Ea); simplify_eq/=; try by constructor.
  destruct b; constructor.
Qed.

Lemma csys_exec_reachable n ms s s' : creachable n s → csys_exec ms s = Some s' → creachable n s'.
Proof.
  revert s. induction ms as [|[i m] ms IH]; intros s Hr E; simpl in E; [by simplify_eq|].
  apply bind_Some in E as (g & Hg & E). apply bind_Some in E as ([[c' g'] cl] & En & E).
  eapply IH; [|exact E]. eapply creach_step; [done|]. eapply csys_step_at; [done|].
  by apply cgor_next_step in En.
Qed.

(** One goroutine reads and stops, another one closes the connection, the first one
    tries to write. *)
Definition demo_close : list (nat * cmove) :=
  (0, DoBegin apiRead) :: replicate 6 (0, CGo) ++
  (1, DoClose) :: replicate 16 (1, CGo) ++ [(0, DoBegin apiWrite); (0, CGo); (0, CGo); (0, CGo)].

Lemma closed_connection_runs_no_job_witness :
  ∃ s, csys_exec demo_close (CSys zero_closer (replicate 2 CIdle) false) = Some s ∧
       cs_closed s = true ∧
       ∀ g, cs_gors s !! 0 = Some g → ∀ k, g ≠ CRunning k ∧ g ≠ CBegin k (Done true).
Proof.
  destruct (csys_exec demo_close (CSys zero_closer (replicate 2 CIdle) false)) as [s|] eqn:E;
    [|vm_compute in E; discriminate E].
  assert (cs_closed s = true) as Hc by (vm_compute in E; injection E as <-; reflexivity).
  exists s. split; [reflexivity|]. split; [exact Hc|]. intros g Hg.
  apply (closed_connection_runs_no_job 2 s 0 g); [|exact Hc|exact Hg].
  eapply csys_exec_reachable; [apply creach_init|exact E].
Defined.
