(* ===== verification/AsyncTimer.v ===== *)
(** * Asynchronous timers (src/internal/asynctimer/asynctimer.go)

    The time wheel that closes idle connections.  Timers are named by addresses and
    live in the wheel's heap; durations and times are nanoseconds.  The channels
    [timersToAdd] and [timersToDel] are queues (their capacity only makes senders
    wait), and a goroutine that was started for [checkExpire] waits in [pending].
    The loop [run] picks one ready channel at a time: each handler is one step, and
    so are [Add], [Del] and [checkExpire], which run in other goroutines. *)

From stdpp Require Import base gmap sets list numbers.
From S2P Require Import Prelude.

Local Open Scope Z_scope.

(** ** Durations *)

Definition Second : Z := 1000000000.
Definition maxDuration : Z := 2 ^ 63 - 1.
Definition minDuration : Z := - 2 ^ 63.

(** [time.Duration.Milliseconds] and [time.Duration.Round]. *)
Definition Milliseconds (d : Z) : Z := d `quot` 1000000.

Definition Round (d m : Z) : Z :=
  if decide (m <= 0) then d
  else
    let r := d `rem` m in
    if decide (d < 0) then
      let r := - r in
      if decide (r + r < m) then d + r
      else if decide (d - m + r >= minDuration) then d - m + r else minDuration
    else
      if decide (r + r < m) then d - r
      else if decide (d + m - r <= maxDuration) then d + m - r else maxDuration.

(** ** Data *)

Inductive aerr : Type := AInvalidParam | AShortDelay.

Abbreviation tid := positive.

Record Timer : Type := MkTimer {
  has_handle : bool;   (* [expiredHandle != nil] *)
  t_begin : Z;
  t_circle : Z;
  t_delay : Z;
  t_timeout : Z;
  t_isActive : bool
}.

Definition set_begin (v : Z) (t : Timer) : Timer :=
  MkTimer (has_handle t) v (t_circle t) (t_delay t) (t_timeout t) (t_isActive t).
Definition set_circle (v : Z) (t : Timer) : Timer :=
  MkTimer (has_handle t) (t_begin t) v (t_delay t) (t_timeout t) (t_isActive t).
Definition set_delay (v : Z) (t : Timer) : Timer :=
  MkTimer (has_handle t) (t_begin t) (t_circle t) v (t_timeout t) (t_isActive t).
Definition set_active (v : bool) (t : Timer) : Timer :=
  MkTimer (has_handle t) (t_begin t) (t_circle t) (t_delay t) (t_timeout t) v.

Definition NewTimer (handle : bool) (timeout : Z) : Timer := MkTimer handle 0 0 timeout timeout false.

Abbreviation slot := (gset tid).

Record TimeWheel : Type := Wheel {
  now : Z;
  timersToAdd : list tid;
  timersToDel : list tid;
  timerToSlot : gmap tid nat;
  slots : list slot;
  interval : Z;
  slotNum : Z;
  currSlot : Z;
  timers : gmap tid Timer;   (* the timers the program has created *)
  pending : list tid;        (* goroutines running [checkExpire] *)
  fired : list tid;          (* calls of [expiredHandle], oldest first *)
  stopped : bool             (* [run] has returned *)
}.

Definition set_now v w := Wheel v (timersToAdd w) (timersToDel w) (timerToSlot w) (slots w) (interval w) (slotNum w) (currSlot w) (timers w) (pending w) (fired w) (stopped w).
Definition set_toAdd v w := Wheel (now w) v (timersToDel w) (timerToSlot w) (slots w) (interval w) (slotNum w) (currSlot w) (timers w) (pending w) (fired w) (stopped w).
Definition set_toDel v w := Wheel (now w) (timersToAdd w) v (timerToSlot w) (slots w) (interval w) (slotNum w) (currSlot w) (timers w) (pending w) (fired w) (stopped w).
Definition set_toSlot v w := Wheel (now w) (timersToAdd w) (timersToDel w) v (slots w) (interval w) (slotNum w) (currSlot w) (timers w) (pending w) (fired w) (stopped w).
Definition set_slots v w := Wheel (now w) (timersToAdd w) (timersToDel w) (timerToSlot w) v (interval w) (slotNum w) (currSlot w) (timers w) (pending w) (fired w) (stopped w).
Definition set_currSlot v w := Wheel (now w) (timersToAdd w) (timersToDel w) (timerToSlot w) (slots w) (interval w) (slotNum w) v (timers w) (pending w) (fired w) (stopped w).
Definition set_timers v w := Wheel (now w) (timersToAdd w) (timersToDel w) (timerToSlot w) (slots w) (interval w) (slotNum w) (currSlot w) v (pending w) (fired w) (stopped w).
Definition set_pending v w := Wheel (now w) (timersToAdd w) (timersToDel w) (timerToSlot w) (slots w) (interval w) (slotNum w) (currSlot w) (timers w) v (fired w) (stopped w).
Definition set_stopped v w := Wheel (now w) (timersToAdd w) (timersToDel w) (timerToSlot w) (slots w) (interval w) (slotNum w) (currSlot w) (timers w) (pending w) (fired w) v.
Definition set_fired v w := Wheel (now w) (timersToAdd w) (timersToDel w) (timerToSlot w) (slots w) (interval w) (slotNum w) (currSlot w) (timers w) (pending w) v (stopped w).

Abbreviation MW := (M TimeWheel).

Definition NewTimeWheel (start interval slotNum : Z) : result aerr TimeWheel :=
  if decide (interval <= 0 ∨ slotNum <= 0) then Err AInvalidParam
  else Ok (Wheel start [] [] ∅ (replicate (Z.to_nat slotNum) ∅) interval slotNum 0 ∅ [] [] false).

(** ** Operations *)

Definition load_timer (t : tid) : MW Timer := λ w,
  match timers w !! t with Some x => Ret (x, w) | None => Panic end.

Definition upd_timer (t : tid) (f : Timer → Timer) : MW () :=
  modify (λ w, set_timers (alter f t (timers w)) w).

Definition Add (t : tid) : MW (result aerr ()) :=
  x ← load_timer t;
  w ← get;
  if t_isActive x then
    _ ← upd_timer t (λ x, set_delay (t_timeout x) (set_begin (now w) x));
    mret (Ok ())
  else if decide (t_delay x < interval w) then mret (Err AShortDelay)
  else
    _ ← upd_timer t (λ x, set_begin (now w) (set_delay (Round (t_timeout x) (interval w)) (set_active true x)));
    _ ← modify (λ w, set_toAdd (timersToAdd w ++ [t]) w);
    mret (Ok ()).

Definition Del (t : tid) : MW () :=
  _ ← load_timer t;
  _ ← upd_timer t (set_active false);
  modify (λ w, set_toDel (timersToDel w ++ [t]) w).

(** [slot.add], [slot.del] on [t.slots[i]]. *)
Definition slot_add (t : tid) (i : nat) : MW () :=
  modify (λ w, set_slots (alter (λ s, {[t]} ∪ s) i (slots w)) w).
Definition slot_del (t : tid) (i : nat) : MW () :=
  modify (λ w, set_slots (alter (λ s, s ∖ {[t]}) i (slots w)) w).

Definition wheel_del (t : tid) : MW () :=
  w ← get;
  match timerToSlot w !! t with
  | Some i =>
      _ ← slot_del t i;
      modify (λ w, set_toSlot (delete t (timerToSlot w)) w)
  | None => mret ()
  end.

Definition calIndexAndCircle (x : Timer) : MW (Z * Z) :=
  w ← get;
  let delay := Milliseconds (t_delay x) in
  let itv := Milliseconds (interval w) in
  if decide (itv = 0) then panic
  else
    let index := (currSlot w + delay `quot` itv) `rem` slotNum w in
    let circle := ((delay - itv) `quot` itv) `quot` slotNum w in
    mret (index, circle).

Definition addTimerHandle (t : tid) : MW () :=
  _ ← wheel_del t;
  x ← load_timer t;
  ic ← calIndexAndCircle x;
  let '(i, c) := ic : Z * Z in
  _ ← upd_timer t (set_circle c);
  w ← get;
  if decide (i < 0 ∨ i >= zlen (slots w)) then panic
  else
    _ ← slot_add t (Z.to_nat i);
    modify (λ w, set_toSlot (<[t := Z.to_nat i]> (timerToSlot w)) w).

Definition delTimerHandle (t : tid) : MW () := wheel_del t.

(** The loop of [tickHandle] over the timers of slot [i]. *)
Fixpoint tick_loop (i : nat) (ts : list tid) : MW () :=
  match ts with
  | [] => mret ()
  | t :: ts =>
      x ← load_timer t;
      _ ← (if decide (t_circle x ≠ 0) then upd_timer t (set_circle (t_circle x - 1))
           else
             _ ← slot_del t i;
             _ ← modify (λ w, set_toSlot (delete t (timerToSlot w)) w);
             _ ← upd_timer t (set_active false);
             modify (λ w, set_pending (pending w ++ [t]) w));
      tick_loop i ts
  end.

Definition tickHandle : MW () :=
  _ ← modify (λ w, set_now (now w + interval w) w);
  _ ← modify (λ w, set_currSlot ((currSlot w + 1) `rem` slotNum w) w);
  w ← get;
  match slots w !! Z.to_nat (currSlot w) with
  | None => panic
  | Some s => tick_loop (Z.to_nat (currSlot w)) (elements s)
  end.

Definition call_handle (t : tid) : MW () := modify (λ w, set_fired (fired w ++ [t]) w).

Definition checkExpire (t : tid) : MW () :=
  x ← load_timer t;
  if negb (has_handle x) then mret ()
  else
    w ← get;
    let actual := now w - t_begin x in
    if decide (actual >= t_timeout x) then call_handle t
    else
      _ ← upd_timer t (set_delay (t_timeout x - actual));
      r ← Add t;
      match r with
      | Ok _ => mret ()
      | Err _ => call_handle t
      end.

Definition quitHandle : MW () :=
  _ ← modify (set_toSlot ∅);
  _ ← modify (λ w, set_slots (map (λ _, ∅) (slots w)) w);
  modify (set_stopped true).

(** ** The wheel and the goroutines around it *)

Inductive event : Type :=
| EAdd (t : tid)      (* a goroutine calls [Add] *)
| EDel (t : tid)
| ETick               (* [run] serves the ticker *)
| EAddHandle          (* ... the next timer to add *)
| EDelHandle
| ECheck (n : nat)    (* the [n]-th started [checkExpire] runs *)
| EQuit.

(** [None]: nothing to do. *)
Definition step (e : event) (w : TimeWheel) : option (outcome (() * TimeWheel)) :=
  match e with
  | EAdd t => Some ((_ ← Add t; mret ()) w)
  | EDel t => Some (Del t w)
  | ETick => if stopped w then None else Some (tickHandle w)
  | EAddHandle =>
      match (if stopped w then [] else timersToAdd w) with
      | t :: ts => Some (addTimerHandle t (set_toAdd ts w))
      | [] => None
      end
  | EDelHandle =>
      match (if stopped w then [] else timersToDel w) with
      | t :: ts => Some (delTimerHandle t (set_toDel ts w))
      | [] => None
      end
  | ECheck n =>
      match pending w !! n with
      | Some t => Some (checkExpire t (set_pending (delete n (pending w)) w))
      | None => None
      end
  | EQuit => if stopped w then None else Some (quitHandle w)
  end.

Fixpoint run (es : list event) (w : TimeWheel) : outcome TimeWheel :=
  match es with
  | [] => Ret w
  | e :: es =>
      match step e w with
      | None => run es w
      | Some (Ret (_, w')) => run es w'
      | Some Panic => Panic
      | Some NoFuel => NoFuel
      end
  end.

(** ** Invariant *)

Record wheel_ok (w : TimeWheel) : Prop := {
  wk_itv : 1000000 ≤ interval w ≤ maxDuration;
  wk_num : 0 < slotNum w;
  wk_len : zlen (slots w) = slotNum w;
  wk_curr : 0 ≤ currSlot w < slotNum w;
  wk_slot t i : timerToSlot w !! t = Some i ↔ ∃ s, slots w !! i = Some s ∧ t ∈ s;
  wk_known t : t ∈ timersToAdd w ∨ t ∈ timersToDel w ∨ t ∈ pending w ∨ is_Some (timerToSlot w !! t) →
    is_Some (timers w !! t);
  wk_begin t x : timers w !! t = Some x → t_begin x ≤ now w;
  wk_delay t x : timers w !! t = Some x → interval w ≤ t_delay x → interval w ≤ t_timeout x;
  wk_active t x : timers w !! t = Some x → t_isActive x = true → interval w ≤ t_delay x;
  wk_queued t x : timers w !! t = Some x → t ∈ timersToAdd w → 0 ≤ t_delay x
}.

(** Rounding does not go below the interval. *)
Lemma Round_ge d m : 0 < m ≤ maxDuration → m ≤ d → m ≤ Round d m.
Proof.
  intros Hm Hd. unfold Round. rewrite decide_False by lia. rewrite decide_False by lia.
  rewrite Z.rem_mod_nonneg by lia. pose proof (Z.mod_pos_bound d m ltac:(lia)).
  pose proof (Z.div_mod d m ltac:(lia)).
  assert (1 ≤ d `div` m) by (apply Z.div_le_lower_bound; lia).
  repeat case_decide; nia.
Qed.

Lemma Milliseconds_pos d : 1000000 ≤ d → 0 < Milliseconds d.
Proof.
  intros. unfold Milliseconds. rewrite Z.quot_div_nonneg by lia.
  assert (1 ≤ d `div` 1000000) by (apply Z.div_le_lower_bound; lia). lia.
Qed.

Lemma Milliseconds_mono d d' : 0 ≤ d ≤ d' → Milliseconds d ≤ Milliseconds d'.
Proof.
  intros. unfold Milliseconds. rewrite !Z.quot_div_nonneg by lia. apply Z.div_le_mono; lia.
Qed.

(** The number of ticks a delay stands for. *)
Definition ticks_of (w : TimeWheel) (x : Timer) : Z :=
  Milliseconds (t_delay x) `div` Milliseconds (interval w).

Lemma calIndexAndCircle_ok w x :
  wheel_ok w → interval w ≤ t_delay x →
  let n := ticks_of w x in
  1 ≤ n ∧
  calIndexAndCircle x w =
    Ret (((currSlot w + n) `mod` slotNum w, (n - 1) `div` slotNum w), w).
Proof.
  intros Hw Hd n. destruct (wk_itv _ Hw) as [Hi _]. pose proof (wk_num _ Hw). pose proof (wk_curr _ Hw).
  pose proof (Milliseconds_pos _ Hi) as Hpi.
  pose proof (Milliseconds_mono (interval w) (t_delay x) ltac:(lia)) as Hmono.
  assert (1 ≤ n) as Hn by (apply Z.div_le_lower_bound; lia).
  split; [done|]. unfold calIndexAndCircle. mpure. cbv zeta.
  rewrite decide_False by lia. unfold mret, M_ret.
  rewrite Z.quot_div_nonneg by lia. fold (ticks_of w x). fold n.
  rewrite Z.rem_mod_nonneg by lia.
  rewrite (Z.quot_div_nonneg (_ - _)) by lia.
  assert ((Milliseconds (t_delay x) - Milliseconds (interval w)) `div` Milliseconds (interval w) = n - 1) as ->.
  { unfold n, ticks_of. replace (Milliseconds (t_delay x) - Milliseconds (interval w))
      with (Milliseconds (t_delay x) + (-1) * Milliseconds (interval w)) by lia.
    rewrite Z.div_add by lia. lia. }
  by rewrite Z.quot_div_nonneg by lia.
Qed.

(** Whatever the delay, the slot exists. *)
Lemma calIndexAndCircle_range w x :
  wheel_ok w → 0 ≤ t_delay x →
  ∃ i c, calIndexAndCircle x w = Ret ((i, c), w) ∧ 0 ≤ i < slotNum w.
Proof.
  intros Hw Hd. destruct (wk_itv _ Hw) as [Hi _]. pose proof (wk_num _ Hw). pose proof (wk_curr _ Hw).
  pose proof (Milliseconds_pos _ Hi) as Hpi. pose proof (Milliseconds_mono 0 (t_delay x) ltac:(lia)) as Hm.
  change (Milliseconds 0) with 0 in Hm.
  unfold calIndexAndCircle. mpure. cbv zeta. rewrite decide_False by lia.
  eexists _, _. split; [reflexivity|]. rewrite Z.quot_div_nonneg by lia.
  pose proof (Z.div_pos (Milliseconds (t_delay x)) (Milliseconds (interval w)) ltac:(lia) ltac:(lia)).
  rewrite Z.rem_mod_nonneg by lia. apply Z.mod_pos_bound. lia.
Qed.

Lemma load_timer_ok t x w : timers w !! t = Some x → load_timer t w = Ret (x, w).
Proof. intros E. unfold load_timer. by rewrite E. Qed.

(** *** Updating one timer *)

Lemma alter_alter_same (m : gmap tid Timer) t f g h :
  (∀ x, f (g x) = h x) → alter f t (alter g t m) = alter h t m.
Proof.
  intros Hfg. apply map_eq. intros t'. destruct (decide (t = t')) as [<-|].
  - rewrite !lookup_alter_eq. destruct (m !! t) as [y|]; [exact (f_equal Some (Hfg y))|done].
  - by rewrite !lookup_alter_ne by done.
Qed.

(** Updates of a timer that only concern its schedule. *)
Lemma wheel_ok_upd w t f :
  wheel_ok w →
  (∀ x, timers w !! t = Some x →
     t_begin (f x) ≤ now w ∧ (interval w ≤ t_delay (f x) → interval w ≤ t_timeout (f x)) ∧
     (t_isActive (f x) = true → interval w ≤ t_delay (f x)) ∧
     (t ∈ timersToAdd w → 0 ≤ t_delay (f x))) →
  wheel_ok (set_timers (alter f t (timers w)) w).
Proof.
  intros [Hi Hn Hl Hc Hs Hk Hb Hd Ha Hq] Hf. split; simpl; try done.
  - intros t' Ht'. destruct (Hk t' Ht') as [x Hx]. rewrite lookup_alter. case_decide; [|by eexists].
    subst t'. rewrite Hx. by eexists.
  - intros t' x Hx. rewrite lookup_alter in Hx. case_decide; [|by eapply Hb].
    subst t'. apply fmap_Some in Hx as (x0 & Hx0 & ->). by apply Hf.
  - intros t' x Hx. rewrite lookup_alter in Hx. case_decide; [|by eapply Hd].
    subst t'. apply fmap_Some in Hx as (x0 & Hx0 & ->). by apply Hf.
  - intros t' x Hx. rewrite lookup_alter in Hx. case_decide; [|by eapply Ha].
    subst t'. apply fmap_Some in Hx as (x0 & Hx0 & ->). by apply Hf.
  - intros t' x Hx. rewrite lookup_alter in Hx. case_decide; [|by eapply Hq].
    subst t'. apply fmap_Some in Hx as (x0 & Hx0 & ->). by apply Hf.
Qed.

(** Taking a timer out of the wheel. *)
Definition removed (t : tid) (i : nat) (w : TimeWheel) : TimeWheel :=
  set_toSlot (delete t (timerToSlot w)) (set_slots (alter (λ s, s ∖ {[t]}) i (slots w)) w).

Lemma removed_ok w t i : wheel_ok w → timerToSlot w !! t = Some i → wheel_ok (removed t i w).
Proof.
  intros [Hi Hn Hl Hc Hs Hk Hb Hd Ha Hq] Hti. split; simpl; try done.
  - unfold zlen in *. by rewrite length_alter.
  - intros t' j. rewrite lookup_delete_Some, list_lookup_alter. split.
    + intros [Hne Hj]. apply Hs in Hj as (s & Hsj & Hin). case_decide as Hij.
      * subst j. rewrite Hsj. exists (s ∖ {[t]}). split; [done|]. set_solver.
      * by exists s.
    + intros (s & Hsj & Hin). case_decide as Hij.
      * subst j. apply fmap_Some in Hsj as (s0 & Hs0 & ->). split; [set_solver|].
        apply Hs. exists s0. split; [done|set_solver].
      * split; [|apply Hs; by exists s]. intros <-.
        assert (timerToSlot w !! t = Some j) as E by (apply Hs; by exists s). congruence.
  - intros t' Ht'. apply Hk. destruct Ht' as [?|[?|[?|[j Hj]]]]; auto.
    apply lookup_delete_Some in Hj as [_ Hj]. right. right. right. by eexists.
Qed.

Lemma wheel_del_ok t w :
  wheel_ok w →
  ∃ w', wheel_del t w = Ret ((), w') ∧ wheel_ok w' ∧ timerToSlot w' = delete t (timerToSlot w) ∧
        timers w' = timers w ∧ currSlot w' = currSlot w ∧ slotNum w' = slotNum w ∧ interval w' = interval w ∧
        timersToAdd w' = timersToAdd w ∧ now w' = now w ∧ pending w' = pending w.
Proof.
  intros Hw. unfold wheel_del. mpure. destruct (timerToSlot w !! t) as [i|] eqn:E.
  - mpure. eexists. split; [done|]. split; [by apply (removed_ok w t i)|]. done.
  - exists w. split; [done|]. split; [done|]. split; [by rewrite delete_id|done].
Qed.

(** Putting a timer into a slot. *)
Lemma inserted_ok w t i x :
  wheel_ok w → timerToSlot w !! t = None → timers w !! t = Some x →
  0 ≤ i < slotNum w →
  wheel_ok (set_toSlot (<[t := Z.to_nat i]> (timerToSlot w))
             (set_slots (alter (λ s, {[t]} ∪ s) (Z.to_nat i) (slots w)) w)).
Proof.
  intros [Hi Hn Hl Hc Hs Hk Hb Hd Ha Hq] Hti Hx Hir. split; simpl; try done.
  - unfold zlen in *. by rewrite length_alter.
  - intros t' j. rewrite lookup_insert_Some, list_lookup_alter. split.
    + intros [[-> <-]|[Hne Hj]].
      * rewrite decide_True by done.
        destruct (slots w !! Z.to_nat i) as [s|] eqn:E;
          [|apply lookup_ge_None in E; unfold zlen in Hl; lia].
        exists ({[t']} ∪ s). split; [done|]. set_solver.
      * apply Hs in Hj as (s & Hsj & Hin). case_decide as Hij; [|by exists s].
        subst j. rewrite Hsj. exists ({[t]} ∪ s). split; [done|]. set_solver.
    + intros (s & Hsj & Hin). destruct (decide (t = t')) as [->|Hne].
      * left. split; [done|]. case_decide as Hij; [done|]. exfalso.
        assert (timerToSlot w !! t' = Some j) as E by (apply Hs; by exists s). congruence.
      * right. split; [done|]. apply Hs. case_decide as Hij; [|by exists s].
        subst j. apply fmap_Some in Hsj as (s0 & Hs0 & ->). exists s0. split; [done|set_solver].
  - intros t' Ht'. destruct (decide (t' = t)) as [->|]; [by eexists|].
    apply Hk. destruct Ht' as [?|[?|[?|Hj]]]; auto. rewrite lookup_insert_ne in Hj by done. auto.
Qed.

(** [addTimerHandle] files the timer under the slot and the count that
    [calIndexAndCircle] gives. *)
Lemma addTimerHandle_filed t x w i c :
  wheel_ok w → timers w !! t = Some x → calIndexAndCircle x w = Ret ((i, c), w) → 0 ≤ i < slotNum w →
  ∃ w', addTimerHandle t w = Ret ((), w') ∧ wheel_ok w' ∧
    timerToSlot w' = <[t := Z.to_nat i]> (timerToSlot w) ∧
    timers w' = <[t := set_circle c x]> (timers w) ∧
    currSlot w' = currSlot w ∧ slotNum w' = slotNum w ∧ interval w' = interval w ∧
    pending w' = pending w ∧ now w' = now w ∧ timersToAdd w' = timersToAdd w.
Proof.
  intros Hw Hx Hcal Hir. unfold addTimerHandle.
  destruct (wheel_del_ok t w Hw) as (w1 & Hr & Hw1 & Et & Ex & Ec & En & Ei & Ea & Enow & Ep).
  erewrite bind_Ret by exact Hr. assert (timers w1 !! t = Some x) as Hx1 by (by rewrite Ex).
  erewrite bind_Ret by (by apply load_timer_ok).
  assert (calIndexAndCircle x w1 = Ret ((i, c), w1)) as Hcal1.
  { unfold calIndexAndCircle in *. erewrite bind_Ret in Hcal |- * by reflexivity. cbv zeta in *.
    rewrite Ei, Ec, En. case_decide; [done|]. unfold mret, M_ret in *. by simplify_eq. }
  erewrite bind_Ret by exact Hcal1. cbv beta iota. mpure. mpure.
  rewrite decide_False by (simpl; rewrite (wk_len _ Hw1), En; lia). mpure.
  set (w2 := set_timers (alter (set_circle c) t (timers w1)) w1).
  assert (wheel_ok w2) as Hw2.
  { apply wheel_ok_upd; [done|]. intros x0 Hx0. simplify_eq. simpl.
    split; [by apply (wk_begin _ Hw1 t)|].
    split; [by apply (wk_delay _ Hw1 t)|]. split; [by apply (wk_active _ Hw1 t)|by apply (wk_queued _ Hw1 t)]. }
  assert (timers w2 = <[t := set_circle c x]> (timers w)) as Ex2.
  { unfold w2. simpl. rewrite Ex. apply map_eq. intros t'. rewrite lookup_alter, lookup_insert.
    case_decide; [subst; by rewrite Hx|done]. }
  eexists. split; [done|]. split.
  - apply (inserted_ok w2 t i (set_circle c x)); try done.
    + unfold w2. simpl. rewrite Et. apply lookup_delete_eq.
    + rewrite Ex2. apply lookup_insert_eq.
    + unfold w2. simpl. by rewrite En.
  - simpl. rewrite Et, insert_delete_eq. split; [done|]. split; [exact Ex2|]. done.
Qed.

(** ... which is [n] ticks ahead. *)
Lemma addTimerHandle_ok t x w :
  wheel_ok w → timers w !! t = Some x → interval w ≤ t_delay x →
  let n := ticks_of w x in
  1 ≤ n ∧
  ∃ w', addTimerHandle t w = Ret ((), w') ∧ wheel_ok w' ∧
    timerToSlot w' = <[t := Z.to_nat ((currSlot w + n) `mod` slotNum w)]> (timerToSlot w) ∧
    timers w' = <[t := set_circle ((n - 1) `div` slotNum w) x]> (timers w) ∧
    currSlot w' = currSlot w ∧ slotNum w' = slotNum w ∧ interval w' = interval w ∧
    pending w' = pending w ∧ now w' = now w ∧ timersToAdd w' = timersToAdd w.
Proof.
  intros Hw Hx Hd n. destruct (calIndexAndCircle_ok w x Hw Hd) as [Hn Hcal]. fold n in Hn, Hcal.
  split; [done|]. apply addTimerHandle_filed; [done|done|done|].
  apply Z.mod_pos_bound, Hw.
Qed.

(** *** Ticks *)

(** What a tick does to timer [t] of the slot that is visited, [x] being its record. *)
Definition visited (w w' : TimeWheel) (t : tid) (x : Timer) : Prop :=
  if decide (t_circle x = 0) then
    timerToSlot w' !! t = None ∧ timers w' !! t = Some (set_active false x) ∧ t ∈ pending w'
  else
    timerToSlot w' !! t = timerToSlot w !! t ∧
    timers w' !! t = Some (set_circle (t_circle x - 1) x) ∧ (t ∈ pending w' → t ∈ pending w).

Record ticked (ts : list tid) (w w' : TimeWheel) : Prop := {
  tk_ok : wheel_ok w';
  tk_in t x : t ∈ ts → timers w !! t = Some x → visited w w' t x;
  tk_out t : t ∉ ts → timerToSlot w' !! t = timerToSlot w !! t ∧ timers w' !! t = timers w !! t ∧
    (t ∈ pending w' → t ∈ pending w);
  tk_pending t : t ∈ pending w → t ∈ pending w';
  tk_curr : currSlot w' = currSlot w;
  tk_num : slotNum w' = slotNum w;
  tk_itv : interval w' = interval w;
  tk_now : now w' = now w
}.

Lemma wheel_ok_pending w t :
  wheel_ok w → is_Some (timers w !! t) → wheel_ok (set_pending (pending w ++ [t]) w).
Proof.
  intros [] Ht. split; simpl; try done. intros t' [?|[?|[Hin|?]]]; auto.
  apply elem_of_app in Hin as [?| ->%list_elem_of_singleton]; auto.
Qed.

(** Serving one timer. *)
Lemma tick_one_ok t i x w ts :
  wheel_ok w → timerToSlot w !! t = Some i → timers w !! t = Some x →
  ∃ w1, tick_loop i (t :: ts) w = tick_loop i ts w1 ∧ ticked [t] w w1.
Proof.
  intros Hw Hi Hx. cbn [tick_loop]. erewrite bind_Ret by (by apply load_timer_ok).
  assert (∀ f, wheel_ok (set_timers (alter f t (timers w)) w) →
    ∀ t', t' ∉ [t] → alter f t (timers w) !! t' = timers w !! t') as Hne.
  { intros f _ t' Hn. rewrite lookup_alter_ne; [done|]. intros ->. by apply Hn, list_elem_of_singleton. }
  case_decide as Hc.
  - mpure. eexists. split; [done|].
    assert (wheel_ok (set_timers (alter (set_circle (t_circle x - 1)) t (timers w)) w)) as Hok.
    { apply wheel_ok_upd; [done|]. intros x0 Hx0. simplify_eq. simpl. split; [by apply (wk_begin _ Hw t)|].
      split; [by apply (wk_delay _ Hw t)|]. split; [by apply (wk_active _ Hw t)|by apply (wk_queued _ Hw t)]. }
    split; try done.
    + intros t' x' ->%list_elem_of_singleton Hx'. simplify_eq. unfold visited. rewrite decide_False by done.
      simpl. by rewrite lookup_alter_eq, Hx.
    + intros t' Hn. simpl. split; [done|]. split; [by apply (Hne _ Hok)|done].
  - rewrite bind_assoc_run. mpure. rewrite bind_assoc_run. mpure. rewrite bind_assoc_run. mpure. mpure.
    eexists. split; [done|].
    pose proof (removed_ok w t i Hw Hi) as Hw1.
    set (w1 := set_timers (alter (set_active false) t (timers (removed t i w))) (removed t i w)).
    assert (wheel_ok w1) as Hw2.
    { apply wheel_ok_upd; [done|]. simpl. intros x0 Hx0. simplify_eq. simpl. split; [by apply (wk_begin _ Hw t)|].
      split; [by apply (wk_delay _ Hw t)|]. split; [done|by apply (wk_queued _ Hw t)]. }
    split; try done.
    + apply (wheel_ok_pending w1 t Hw2). simpl. rewrite lookup_alter_eq, Hx. by eexists.
    + intros t' x' ->%list_elem_of_singleton Hx'. simplify_eq. unfold visited. rewrite decide_True by lia.
      simpl. rewrite lookup_delete_eq, lookup_alter_eq, Hx. split; [done|]. split; [done|].
      apply elem_of_app. right. by apply list_elem_of_singleton.
    + intros t' Hn. simpl. assert (t ≠ t') by (intros ->; by apply Hn, list_elem_of_singleton).
      rewrite lookup_delete_ne, lookup_alter_ne by done. split; [done|]. split; [done|].
      rewrite elem_of_app, list_elem_of_singleton. intros [?|?]; [done|congruence].
    + intros t' ?. simpl. apply elem_of_app. by left.
Qed.

Lemma tick_loop_ok i ts w :
  NoDup ts → wheel_ok w → (∀ t, t ∈ ts → timerToSlot w !! t = Some i) →
  ∃ w', tick_loop i ts w = Ret ((), w') ∧ ticked ts w w'.
Proof.
  revert w. induction ts as [|t ts IH]; intros w Hnd Hw Hi.
  - exists w. split; [done|]. split; try done. intros t x Ht. by apply not_elem_of_nil in Ht.
  - apply list.NoDup_cons in Hnd as [Hni Hnd].
    assert (timerToSlot w !! t = Some i) as Hti by (apply Hi; left).
    destruct (wk_known _ Hw t) as [x Hx]; [by right; right; right; eexists|].
    destruct (tick_one_ok t i x w ts Hw Hti Hx) as (w1 & -> & [Hok1 Hin1 Hout1 Hp1 Hc1 Hn1 Hi1 Hnow1]).
    destruct (IH w1 Hnd Hok1) as (w2 & Hr & [Hok2 Hin2 Hout2 Hp2 Hc2 Hn2 Hi2 Hnow2]).
    { intros t' Ht'. destruct (Hout1 t') as [-> _]; [|apply Hi; by right].
      intros ->%list_elem_of_singleton. done. }
    exists w2. split; [done|]. split; try congruence; auto.
    + intros t' x' Ht' Hx'. apply elem_of_cons in Ht' as [->|Ht'].
      * specialize (Hin1 t x' ltac:(by apply list_elem_of_singleton) Hx').
        destruct (Hout2 t Hni) as (E1 & E2 & E3). unfold visited in *.
        case_decide; destruct Hin1 as (V1 & V2 & V3); rewrite E1, E2; split_and!; auto.
      * destruct (Hout1 t') as (E1 & E2 & E3); [intros ->%list_elem_of_singleton; done|].
        specialize (Hin2 t' x' Ht' ltac:(congruence)). unfold visited in *.
        case_decide; destruct Hin2 as (V1 & V2 & V3); rewrite ?V1, ?E1; split_and!; auto.
    + intros t' Ht'. apply not_elem_of_cons in Ht' as [Hne Ht'].
      destruct (Hout1 t') as (E1 & E2 & E3); [intros ->%list_elem_of_singleton; done|].
      destruct (Hout2 t' Ht') as (F1 & F2 & F3). rewrite F1, F2, E1, E2. split_and!; auto.
Qed.

(** Ticks left until [t] is taken from its slot. *)
Definition due (w : TimeWheel) (t : tid) (k : Z) : Prop :=
  ∃ i x, timerToSlot w !! t = Some i ∧ timers w !! t = Some x ∧ 0 ≤ t_circle x ∧
    k = (Z.of_nat i - currSlot w - 1) `mod` slotNum w + 1 + t_circle x * slotNum w.

Lemma slot_index w t i : wheel_ok w → timerToSlot w !! t = Some i → 0 ≤ Z.of_nat i < slotNum w.
Proof.
  intros Hw Hi. apply (wk_slot _ Hw) in Hi as (s & Hs & _). apply lookup_lt_Some in Hs.
  pose proof (wk_len _ Hw) as Hl. unfold zlen in Hl. lia.
Qed.

Lemma tick_mod a c n :
  0 < n → 0 ≤ a < n → 0 ≤ c < n →
  (a - (c + 1) `mod` n - 1) `mod` n =
    if decide (a = (c + 1) `mod` n) then n - 1 else (a - c - 1) `mod` n - 1.
Proof.
  intros Hn Ha Hc. destruct (decide (c + 1 = n)) as [E|].
  - assert ((c + 1) `mod` n = 0) as -> by (rewrite E; apply Z.mod_same; lia).
    case_decide as Hd.
    + subst a. symmetry. apply (Z.mod_unique _ _ (-1)); lia.
    + rewrite Z.mod_small by lia.
      assert ((a - c - 1) `mod` n = a) as -> by (symmetry; apply (Z.mod_unique _ _ (-1)); lia). lia.
  - rewrite (Z.mod_small (c + 1)) by lia. case_decide as Hd.
    + symmetry. apply (Z.mod_unique _ _ (-1)); lia.
    + destruct (decide (a < c + 1)).
      * assert ((a - c - 1) `mod` n = a - c - 1 + n) as -> by (symmetry; apply (Z.mod_unique _ _ (-1)); lia).
        symmetry. apply (Z.mod_unique _ _ (-1)); lia.
      * rewrite !Z.mod_small by lia. lia.
Qed.

Lemma tickHandle_ok w :
  wheel_ok w →
  ∃ w' ts, tickHandle w = Ret ((), w') ∧
    ticked ts (set_currSlot ((currSlot w + 1) `mod` slotNum w) (set_now (now w + interval w) w)) w' ∧
    (∀ t, t ∈ ts ↔ timerToSlot w !! t = Some (Z.to_nat ((currSlot w + 1) `mod` slotNum w))).
Proof.
  intros Hw. unfold tickHandle. mpure. mpure. mpure.
  pose proof (wk_num _ Hw). pose proof (wk_curr _ Hw).
  change (currSlot (set_now _ w)) with (currSlot w). change (slotNum (set_now _ w)) with (slotNum w).
  rewrite Z.rem_mod_nonneg by lia. set (c := (currSlot w + 1) `mod` slotNum w).
  assert (0 ≤ c < slotNum w) as Hc by (apply Z.mod_pos_bound; lia).
  set (w1 := set_currSlot c (set_now (now w + interval w) w)).
  assert (wheel_ok w1) as Hw1.
  { destruct Hw. split; simpl; try done. intros t x Hx. specialize (wk_begin0 t x Hx). lia. }
  change (slots w1) with (slots w). change (currSlot w1) with c.
  destruct (slots w !! Z.to_nat c) as [s|] eqn:Es;
    [|apply lookup_ge_None in Es; pose proof (wk_len _ Hw) as Hl; unfold zlen in Hl; lia].
  assert (∀ t, t ∈ elements s ↔ timerToSlot w !! t = Some (Z.to_nat c)) as Hts.
  { intros t. rewrite elem_of_elements, (wk_slot _ Hw). split; [intros; by exists s|].
    intros (s' & ? & ?). by simplify_eq. }
  destruct (tick_loop_ok (Z.to_nat c) (elements s) w1 (NoDup_elements s) Hw1) as (w' & Hr & Htk).
  { intros t Ht. by apply Hts. }
  exists w', (elements s). split; [exact Hr|]. by split.
Qed.

(** One tick brings a timer one tick closer; at the last one it is handed over to
    [checkExpire]. *)
Lemma due_tick w t k :
  wheel_ok w → due w t k → t ∉ pending w →
  1 ≤ k ∧ ∃ w', tickHandle w = Ret ((), w') ∧ wheel_ok w' ∧ interval w' = interval w ∧
    now w' = now w + interval w ∧
    (k = 1 → timerToSlot w' !! t = None ∧ t ∈ pending w' ∧
       ∃ x, timers w !! t = Some x ∧ timers w' !! t = Some (set_active false x)) ∧
    (1 < k → due w' t (k - 1) ∧ t ∉ pending w' ∧
       ∃ x c, timers w !! t = Some x ∧ timers w' !! t = Some (set_circle c x)).
Proof.
  intros Hw (i & x & Hi & Hx & Hcx & Hk) Hnp. pose proof (slot_index w t i Hw Hi) as Hir.
  pose proof (wk_num _ Hw). pose proof (wk_curr _ Hw) as Hcur.
  pose proof (Z.mod_pos_bound (Z.of_nat i - currSlot w - 1) (slotNum w) ltac:(lia)) as Hmb.
  pose proof (tick_mod (Z.of_nat i) (currSlot w) (slotNum w) ltac:(lia) Hir Hcur) as Htm.
  destruct (tickHandle_ok w Hw) as (w' & ts & Hr & [Hok Hin Hout Hp Hc Hn Hit Hnow] & Hts).
  simpl in *. set (c := (currSlot w + 1) `mod` slotNum w) in *.
  assert (0 ≤ c < slotNum w) as Hcr by (apply Z.mod_pos_bound; lia).
  split; [nia|]. exists w'. split; [done|]. split; [done|]. split; [done|]. split; [done|].
  destruct (decide (t ∈ ts)) as [Ht|Ht].
  - assert (Z.of_nat i = c) as Eic by (apply Hts in Ht; simplify_eq; lia).
    specialize (Hin t x Ht Hx). unfold visited in Hin.
    assert ((Z.of_nat i - currSlot w - 1) `mod` slotNum w = 0) as Ez.
    { rewrite Eic. unfold c. destruct (decide (currSlot w + 1 = slotNum w)) as [E|].
      - rewrite E, Z.mod_same by lia. symmetry. apply (Z.mod_unique _ _ (-1)); lia.
      - rewrite (Z.mod_small (currSlot w + 1)) by lia. rewrite Z.mod_small by lia. lia. }
    rewrite Ez in Hk. case_decide as Hcz; destruct Hin as (V1 & V2 & V3).
    + split; [|nia]. intros _. split; [done|]. split; [done|]. by exists x.
    + split; [nia|]. intros _. split; [|split; [by intros ?%V3|by exists x, (t_circle x - 1)]].
      exists i, (set_circle (t_circle x - 1) x). rewrite V1, V2. split; [done|]. split; [done|].
      split; [simpl; lia|]. rewrite Hc, Hn, Htm, decide_True by done. simpl. lia.
  - destruct (Hout t Ht) as (O1 & O2 & O3). split.
    + intros ->. exfalso. apply Ht, Hts. rewrite Hi. f_equal.
      assert ((Z.of_nat i - currSlot w - 1) `mod` slotNum w = 0) as Ez by nia.
      apply Z.mod_divide in Ez as [q Hq]; [|lia].
      assert (Z.of_nat i = c); [|lia]. unfold c.
      apply (Z.mod_unique _ _ (- q)); [lia|]. lia.
    + intros _. split; [|split; [by intros ?%O3|]].
      * exists i, x. rewrite O1, O2. split; [done|]. split; [done|]. split; [done|]. rewrite Hc, Hn, Htm.
        rewrite decide_False; [lia|]. intros E. apply Ht, Hts. rewrite Hi. f_equal. lia.
      * exists x, (t_circle x). rewrite O2, Hx. split; [done|]. by destruct x.
Qed.

Fixpoint ticks (n : nat) : MW () :=
  match n with
  | O => mret ()
  | S n => _ ← tickHandle; ticks n
  end.

Lemma due_ticks n w t k :
  wheel_ok w → due w t k → t ∉ pending w → Z.of_nat n < k →
  ∃ w', ticks n w = Ret ((), w') ∧ wheel_ok w' ∧ due w' t (k - Z.of_nat n) ∧ t ∉ pending w' ∧
        interval w' = interval w ∧ now w' = now w + Z.of_nat n * interval w.
Proof.
  revert w k. induction n as [|n IH]; intros w k Hw Hd Hp Hk; cbn [ticks].
  - exists w. rewrite Z.sub_0_r. split_and!; try done. lia.
  - destruct (due_tick w t k Hw Hd Hp) as (_ & w1 & Hr & Hw1 & Hi1 & Hn1 & _ & Hmore).
    destruct (Hmore ltac:(lia)) as (Hd1 & Hp1 & _). erewrite bind_Ret by exact Hr.
    destruct (IH w1 (k - 1) Hw1 Hd1 Hp1 ltac:(lia)) as (w' & Hr' & Hw' & Hd' & Hp' & Hi' & Hn').
    exists w'. split; [done|]. split; [done|]. split; [by replace (k - Z.of_nat (S n)) with (k - 1 - Z.of_nat n) by lia|].
    split; [done|]. split; [congruence|]. rewrite Hn', Hi1, Hn1. lia.
Qed.

Lemma ticks_snoc n w : ticks (S n) w = (_ ← ticks n; tickHandle) w.
Proof.
  revert w. induction n as [|n IH]; intros w.
  - cbn [ticks]. unfold mbind, M_bind, mret, M_ret. by destruct (tickHandle w) as [[[] w']| |].
  - change (ticks (S (S n)) w) with ((_ ← tickHandle; ticks (S n)) w).
    change (ticks (S n)) with (_ ← tickHandle; ticks n : MW ()). rewrite bind_assoc_run.
    unfold mbind at 1 3, M_bind. destruct (tickHandle w) as [[[] w']| |]; [|done..]. apply IH.
Qed.

(** *** The other operations keep the invariant *)

Lemma Add_ok t x w :
  wheel_ok w → timers w !! t = Some x →
  ∃ r w', Add t w = Ret (r, w') ∧ wheel_ok w' ∧ dom (timers w') = dom (timers w).
Proof.
  intros Hw Hx. unfold Add. erewrite bind_Ret by (by apply load_timer_ok). mpure.
  pose proof (wk_delay _ Hw t x Hx) as Hdl. destruct (wk_itv _ Hw) as [Hi1 Hi2].
  destruct (t_isActive x) eqn:Ea; [|case_decide as Hs].
  - mpure. eexists _, _. split; [done|]. split; [|simpl; by rewrite dom_alter_L].
    pose proof (wk_active _ Hw t x Hx Ea) as Hact. specialize (Hdl Hact).
    apply wheel_ok_upd; [done|]. intros x0 Hx0. rewrite Hx in Hx0. injection Hx0 as <-. simpl.
    split; [lia|]. split; [done|]. split; [done|lia].
  - by exists (Err AShortDelay), w.
  - mpure. mpure. eexists _, _. split; [done|]. split; [|simpl; by rewrite dom_alter_L].
    assert (interval w ≤ Round (t_timeout x) (interval w)) as Hrd by (apply Round_ge; lia).
    set (w1 := set_timers _ w). assert (wheel_ok w1) as [? ? ? ? ? Hk ? ? ? Hq].
    { apply wheel_ok_upd; [done|]. intros x0 Hx0. rewrite Hx in Hx0. injection Hx0 as <-. simpl.
      split; [lia|]. split; [intros _; lia|]. split; [done|lia]. }
    split; simpl; try done.
    + intros t' [Hin|Ho]; [|apply Hk; auto].
      apply elem_of_app in Hin as [?| ->%list_elem_of_singleton]; [by apply Hk; left|].
      unfold w1. simpl. rewrite lookup_alter_eq, Hx. by eexists.
    + intros t' x' Hx' Hin.
      apply elem_of_app in Hin as [?| ->%list_elem_of_singleton]; [by apply (Hq t')|].
      unfold w1 in Hx'. simpl in Hx'. rewrite lookup_alter_eq, Hx in Hx'. simplify_eq/=. lia.
Qed.

Lemma Del_ok t x w :
  wheel_ok w → timers w !! t = Some x →
  ∃ w', Del t w = Ret ((), w') ∧ wheel_ok w' ∧ dom (timers w') = dom (timers w).
Proof.
  intros Hw Hx. unfold Del. erewrite bind_Ret by (by apply load_timer_ok). mpure.
  eexists. split; [done|]. split; [|simpl; by rewrite dom_alter_L].
  set (w1 := set_timers _ w). assert (wheel_ok w1) as [].
  { apply wheel_ok_upd; [done|]. intros x0 Hx0. simpl.
    split; [by apply (wk_begin _ Hw t)|]. split; [by apply (wk_delay _ Hw t)|].
    split; [done|by apply (wk_queued _ Hw t)]. }
  split; simpl; try done. intros t' [?|[Hin|?]]; auto.
  apply elem_of_app in Hin as [?| ->%list_elem_of_singleton]; auto.
  rewrite lookup_alter_eq, Hx. by eexists.
Qed.

Lemma call_handle_ok t w : wheel_ok w → wheel_ok (set_fired (fired w ++ [t]) w).
Proof. by intros []. Qed.

Lemma checkExpire_ok t x w :
  wheel_ok w → timers w !! t = Some x →
  ∃ w', checkExpire t w = Ret ((), w') ∧ wheel_ok w' ∧ dom (timers w') = dom (timers w).
Proof.
  intros Hw Hx. unfold checkExpire. erewrite bind_Ret by (by apply load_timer_ok).
  destruct (negb _); [by exists w|]. mpure. cbv zeta. case_decide as Hex.
  { eexists. split; [done|]. split; [by apply call_handle_ok|done]. }
  mpure. pose proof (wk_begin _ Hw t x Hx) as Hb. destruct (wk_itv _ Hw) as [Hi1 Hi2].
  destruct (t_isActive x) eqn:Ea.
  - (* another goroutine has armed the timer again: [Add] restores its delay *)
    unfold Add. rewrite bind_assoc_run. erewrite bind_Ret by (apply load_timer_ok; simpl; by rewrite lookup_alter_eq, Hx).
    rewrite bind_assoc_run. mpure. simpl t_isActive. rewrite Ea. rewrite bind_assoc_run. mpure. mpure.
    eexists. split; [done|]. split; [|simpl; by rewrite !dom_alter_L].
    pose proof (wk_delay _ Hw t x Hx (wk_active _ Hw t x Hx Ea)) as Ht.
    assert (wheel_ok (set_timers (alter (λ x, set_delay (t_timeout x) (set_begin (now w) x)) t (timers w)) w)) as Hok.
    { apply wheel_ok_upd; [done|]. intros x0 Hx0. rewrite Hx in Hx0. injection Hx0 as <-. simpl.
      split; [lia|]. split; [done|]. split; [done|lia]. }
    simpl. unfold set_timers in *. simpl. rewrite (alter_alter_same (timers w) t _ _ (λ x, set_delay (t_timeout x) (set_begin (now w) x))); [exact Hok|].
    intros x0. by destruct x0.
  - set (w1 := set_timers _ w). assert (wheel_ok w1) as Hw1.
    { apply wheel_ok_upd; [done|]. intros x0 Hx0. rewrite Hx in Hx0. injection Hx0 as <-. simpl.
      split; [done|]. split; [lia|]. split; [congruence|lia]. }
    destruct (Add_ok t (set_delay (t_timeout x - (now w - t_begin x)) x) w1 Hw1) as (r & w2 & Hr & Hw2 & Hd2).
    { unfold w1. simpl. by rewrite lookup_alter_eq, Hx. }
    erewrite bind_Ret by exact Hr. unfold w1 in Hd2. simpl in Hd2. rewrite dom_alter_L in Hd2.
    destruct r; eexists; (split; [done|]); (split; [|exact Hd2]); [done|by apply call_handle_ok].
Qed.

(** Events that name timers the program has created. *)
Definition event_ok (w : TimeWheel) (e : event) : Prop :=
  match e with EAdd t | EDel t => is_Some (timers w !! t) | _ => True end.

Lemma step_ok e w :
  wheel_ok w → event_ok w e →
  match step e w with
  | None => True
  | Some o => ∃ w', o = Ret ((), w') ∧ wheel_ok w' ∧ dom (timers w') = dom (timers w)
  end.
Proof.
  intros Hw He. destruct e as [t|t| | | |n|]; simpl.
  - destruct He as [x Hx]. destruct (Add_ok t x w Hw Hx) as (r & w' & Hr & ? & ?).
    erewrite bind_Ret by exact Hr. by exists w'.
  - destruct He as [x Hx]. by apply (Del_ok t x).
  - destruct (stopped w); [done|]. destruct (tickHandle_ok w Hw) as (w' & ts & Hr & Htk & Hts).
    exists w'. split; [done|]. split; [apply Htk|]. destruct Htk as [_ Hin Hout _ _ _ _ _]. simpl in *.
    apply set_eq. intros t. rewrite !elem_of_dom. destruct (decide (t ∈ ts)) as [Ht|Ht].
    + assert (is_Some (timers w !! t)) as [x Hx].
      { apply (wk_known _ Hw). right. right. right. eexists. by apply Hts. }
      specialize (Hin t x Ht Hx). unfold visited in Hin. rewrite Hx.
      case_decide; destruct Hin as (_ & -> & _); split; by eexists.
    + by destruct (Hout t Ht) as (_ & -> & _).
  - destruct (stopped w); [done|]. destruct (timersToAdd w) as [|t ts] eqn:E; [done|].
    assert (wheel_ok (set_toAdd ts w)) as Hw1.
    { destruct Hw. rewrite E in *. split; simpl; try done.
      - intros t' [?|?]; apply wk_known0; [left; by right|by right].
      - intros t' x' Hx' ?. apply (wk_queued0 t' x' Hx'). by right. }
    destruct (wk_known _ Hw t) as [x Hx]; [left; rewrite E; left|].
    destruct (calIndexAndCircle_range (set_toAdd ts w) x Hw1) as (i & c & Hcal & Hir).
    { apply (wk_queued _ Hw t x Hx). rewrite E. left. }
    destruct (addTimerHandle_filed t x _ i c Hw1 Hx Hcal Hir) as (w' & Hr & Hw' & _ & Ex & _).
    exists w'. split; [done|]. split; [done|]. rewrite Ex. simpl. rewrite dom_insert_L.
    assert (t ∈ dom (timers w)) by (apply elem_of_dom; by eexists). set_solver.
  - destruct (stopped w); [done|]. destruct (timersToDel w) as [|t ts] eqn:E; [done|].
    assert (wheel_ok (set_toDel ts w)) as Hw1.
    { destruct Hw. rewrite E in *. split; simpl; try done.
      intros t' [?|[?|?]]; apply wk_known0; [by left|right; left; by right|by right; right]. }
    destruct (wheel_del_ok t _ Hw1) as (w' & Hr & Hw' & _ & Ex & _). exists w'. by rewrite Ex.
  - destruct (pending w !! n) as [t|] eqn:E; [|done].
    set (w1 := set_pending (delete n (pending w)) w). assert (wheel_ok w1) as Hw1.
    { destruct Hw. split; simpl; try done. intros t' [?|[?|[Hin|?]]]; auto. apply wk_known0.
      right. right. left. apply list_elem_of_lookup in Hin as [m Hm]. rewrite list_lookup_delete in Hm.
      case_match; apply list_elem_of_lookup; by eexists. }
    destruct (wk_known _ Hw t) as [x Hx]; [right; right; left; by eapply list_elem_of_lookup_2|].
    destruct (checkExpire_ok t x w1 Hw1 Hx) as (w' & Hr & Hw' & Hd). by exists w'.
  - destruct (stopped w); [done|]. eexists. split; [done|]. split; [|done].
    destruct Hw. split; simpl; try done.
    + unfold zlen in *. by rewrite length_map.
    + intros t i. rewrite lookup_empty. split; [done|]. intros (s & Hs & Hin).
      apply list_lookup_fmap_Some in Hs as (? & -> & _). set_solver.
    + intros t [?|[?|[?|[? Hl]]]]; auto. by rewrite lookup_empty in Hl.
Qed.

Lemma run_ok es w :
  wheel_ok w → Forall (event_ok w) es → ∃ w', run es w = Ret w' ∧ wheel_ok w'.
Proof.
  revert w. induction es as [|e es IH]; intros w Hw He; simpl; [by exists w|].
  apply Forall_cons_1 in He as [He Hes]. pose proof (step_ok e w Hw He) as Hs.
  destruct (step e w) as [o|]; [|by apply IH]. destruct Hs as (w' & -> & Hw' & Hd).
  apply IH; [done|]. eapply Forall_impl; [|exact Hes].
  intros e'. destruct e'; simpl; try done; rewrite <-!elem_of_dom; by rewrite Hd.
Qed.

(** A program's wheel when it has created its timers. *)
Definition with_timers (ts : gmap tid Timer) (w : TimeWheel) : TimeWheel := set_timers ts w.

Lemma with_timers_ok start itv num ts w :
  1000000 ≤ itv ≤ maxDuration → NewTimeWheel start itv num = Ok w →
  map_Forall (λ _ x, t_begin x ≤ start ∧ t_isActive x = false ∧ t_delay x ≤ t_timeout x) ts →
  wheel_ok (with_timers ts w).
Proof.
  intros Hi Hn Hts. unfold NewTimeWheel in Hn. case_decide as Hd; [done|]. simplify_eq.
  split; simpl; try done; try lia.
  - unfold zlen. rewrite length_replicate. lia.
  - intros t i. rewrite lookup_empty. split; [done|]. intros (s & [-> _]%lookup_replicate & Hin). set_solver.
  - intros t [H|[H|[H|[? H]]]]; try (by apply not_elem_of_nil in H). by rewrite lookup_empty in H.
  - intros t x Hx. by apply (Hts t x Hx).
  - intros t x Hx. destruct (Hts t x Hx) as (_ & _ & ?). lia.
  - intros t x Hx Ha. destruct (Hts t x Hx) as (_ & Hf & _). congruence.
  - intros t x Hx Hin. by apply not_elem_of_nil in Hin.
Qed.

(** ** Properties *)

(** A timer is handed to [checkExpire] at the [n]-th tick, not before. *)
Lemma due_n_ticks n w t :
  wheel_ok w → due w t (Z.of_nat (S n)) → t ∉ pending w →
  ∃ w', ticks (S n) w = Ret ((), w') ∧ timerToSlot w' !! t = None ∧ t ∈ pending w' ∧
        ∃ x, timers w' !! t = Some x ∧ t_isActive x = false.
Proof.
  intros Hw Hd Hp. destruct (due_ticks n w t _ Hw Hd Hp ltac:(lia)) as (w1 & Hr & Hw1 & Hd1 & Hp1 & _).
  replace (Z.of_nat (S n) - Z.of_nat n) with 1 in Hd1 by lia.
  destruct (due_tick w1 t 1 Hw1 Hd1 Hp1) as (_ & w' & Hr' & _ & _ & _ & Hlast & _).
  destruct (Hlast eq_refl) as (Hn & Hin & x & _ & Hx).
  exists w'. rewrite ticks_snoc. erewrite bind_Ret by exact Hr.
  split; [done|]. split; [done|]. split; [done|]. by eexists.
Qed.

(** C29: a timer whose delay is at least one interval is taken off the wheel by exactly the
    (delay / interval)-th tick after [addTimerHandle] has filed it: during all the
    earlier ticks it stays in its slot and no [checkExpire] is started for it,
    whatever the other timers do and however many rounds of the wheel the delay
    takes. *)
Theorem timer_is_served_after_its_delay (w : TimeWheel) (t : tid) (x : Timer) (n : nat)
  (Hw : wheel_ok w) (Hx : timers w !! t = Some x) (Hd : interval w ≤ t_delay x)
  (Hp : t ∉ pending w)
  (Hn : Z.of_nat n = Milliseconds (t_delay x) `div` Milliseconds (interval w)) :
  ∃ w1, addTimerHandle t w = Ret ((), w1) ∧
    (∀ m, (m < n)%nat → ∃ w', ticks m w1 = Ret ((), w') ∧ is_Some (timerToSlot w' !! t) ∧ t ∉ pending w') ∧
    (∃ w', ticks n w1 = Ret ((), w') ∧ timerToSlot w' !! t = None ∧ t ∈ pending w' ∧
       ∃ x', timers w' !! t = Some x' ∧ t_isActive x' = false).
Proof.
  destruct (addTimerHandle_ok t x w Hw Hx Hd) as (Hn1 & w1 & Hr & Hw1 & Et & Ex & Ec & En & Ei & Ep & _).
  unfold ticks_of in *. rewrite <-Hn in *. pose proof (wk_num _ Hw). pose proof (wk_curr _ Hw).
  assert (due w1 t (Z.of_nat n)) as Hdue.
  { eexists _, _. rewrite Et, Ex. split; [apply lookup_insert_eq|]. split; [apply lookup_insert_eq|].
    pose proof (Z.div_mod (Z.of_nat n - 1) (slotNum w) ltac:(lia)) as Hdm.
    pose proof (Z.mod_pos_bound (currSlot w + Z.of_nat n) (slotNum w) ltac:(lia)).
    simpl. split; [apply Z.div_pos; lia|]. rewrite Ec, En, Z2Nat.id by lia.
    replace ((currSlot w + Z.of_nat n) `mod` slotNum w - currSlot w - 1)
      with ((currSlot w + Z.of_nat n) `mod` slotNum w - (currSlot w + 1)) by lia.
    rewrite Zminus_mod_idemp_l.
    replace (currSlot w + Z.of_nat n - (currSlot w + 1)) with (Z.of_nat n - 1) by lia. lia. }
  rewrite <-Ep in Hp. exists w1. split; [exact Hr|]. split.
  - intros m Hm. destruct (due_ticks m w1 t _ Hw1 Hdue Hp ltac:(lia)) as (w' & Hr' & _ & Hd' & Hp' & _).
    exists w'. split; [exact Hr'|]. split; [|exact Hp']. destruct Hd' as (i & ? & Hi & _). by eexists.
  - destruct n as [|n]; [lia|]. by apply due_n_ticks.
Qed.

(** The default wheel, with one timer of ten seconds. *)
Definition wheel0 : TimeWheel := Wheel 0 [] [] ∅ (replicate 60 ∅) Second 60 0 ∅ [] [] false.
Definition wheel1 : TimeWheel := with_timers {[ 1%positive := NewTimer true (10 * Second) ]} wheel0.

Lemma wheel1_ok : wheel_ok wheel1.
Proof.
  apply (with_timers_ok 0 Second 60); [unfold Second, maxDuration; lia|reflexivity|].
  apply map_Forall_singleton. split; [reflexivity|]. split; [reflexivity|]. simpl. lia.
Qed.

Lemma timer_is_served_after_its_delay_witness :
  ∃ w1, addTimerHandle 1 wheel1 = Ret ((), w1) ∧
    (∀ m, (m < 10)%nat → ∃ w', ticks m w1 = Ret ((), w') ∧ is_Some (timerToSlot w' !! 1%positive) ∧ 1%positive ∉ pending w') ∧
    (∃ w', ticks 10 w1 = Ret ((), w') ∧ timerToSlot w' !! 1%positive = None ∧ 1%positive ∈ pending w' ∧
       ∃ x', timers w' !! 1%positive = Some x' ∧ t_isActive x' = false).
Proof.
  apply (timer_is_served_after_its_delay wheel1 1 (NewTimer true (10 * Second)) 10).
  - exact wheel1_ok.
  - reflexivity.
  - simpl. unfold Second. lia.
  - apply not_elem_of_nil.
  - reflexivity.
Defined.



(** [checkExpire] calls the timer's handle exactly when the timer has one and either
    its timeout has elapsed since it was last refreshed, or it is not armed and
    less than one interval is missing: a connection is closed at most one tick
    early.  In every other case the timer is refreshed (when it is armed again
    meanwhile) or queued once more. *)
Theorem handle_runs_only_when_expired (w : TimeWheel) (t : tid) (x : Timer)
  (Hx : timers w !! t = Some x) :
  let idle := now w - t_begin x in
  let fires := has_handle x = true ∧
     (idle >= t_timeout x ∨ (t_isActive x = false ∧ t_timeout x - idle < interval w)) in
  ∃ w', checkExpire t w = Ret ((), w') ∧
    (fires → fired w' = fired w ++ [t] ∧ timersToAdd w' = timersToAdd w) ∧
    (¬ fires → fired w' = fired w ∧
       timersToAdd w' = timersToAdd w ++ (if has_handle x && negb (t_isActive x) then [t] else [])).
Proof.
  intros idle fires. unfold fires, checkExpire. erewrite bind_Ret by (by apply load_timer_ok).
  destruct (has_handle x) eqn:Eh; simpl; [|eexists; split; [done|]; rewrite app_nil_r; naive_solver].
  mpure. fold idle. case_decide as Hd; [eexists; split; [done|]; naive_solver|].
  mpure. set (w1 := set_timers _ w).
  assert (load_timer t w1 = Ret (set_delay (t_timeout x - idle) x, w1)) as Hload.
  { apply load_timer_ok. unfold w1. simpl. by rewrite lookup_alter_eq, Hx. }
  unfold Add. rewrite bind_assoc_run. erewrite bind_Ret by exact Hload.
  rewrite bind_assoc_run. mpure. change (t_isActive (set_delay _ x)) with (t_isActive x).
  destruct (t_isActive x); simpl.
  - rewrite bind_assoc_run. mpure. mpure. eexists. split; [done|]. simpl. rewrite app_nil_r. naive_solver.
  - case_decide as Hs.
    + mpure. eexists. split; [done|]. naive_solver.
    + rewrite bind_assoc_run. mpure. rewrite bind_assoc_run. mpure. mpure.
      eexists. split; [done|]. simpl. naive_solver.
Qed.

Lemma handle_runs_only_when_expired_witness :
  ∃ w', checkExpire 1 (set_now (10 * Second) wheel1) = Ret ((), w') ∧ fired w' = [1%positive].
Proof.
  destruct (handle_runs_only_when_expired (set_now (10 * Second) wheel1) 1 (NewTimer true (10 * Second)) eq_refl)
    as (w' & Hr & Hf & _).
  exists w'. split; [exact Hr|]. apply Hf. split; [reflexivity|]. left. simpl. lia.
Defined.

(** an armed timer of ten seconds that is refreshed for the last time after five
    seconds is not fired when its owner has been idle for ten seconds (at second
    15), nor at second 19: [checkExpire] computes the five seconds that are left,
    but the [Add] it calls puts the whole timeout back and restarts the clock, and
    the handle runs at second 20, after fifteen idle seconds. *)
Theorem refreshed_timer_fires_late :
  let second := [ETick; ECheck 0; EAddHandle] in
  let upto n := [EAdd 1; EAddHandle] ++ concat (replicate 5 second) ++ [EAdd 1] ++
                concat (replicate (n - 5) second) in
  (∃ w, run (upto 19%nat) wheel1 = Ret w ∧ fired w = [] ∧ now w = 19 * Second) ∧
  (∃ w, run (upto 20%nat) wheel1 = Ret w ∧ fired w = [1%positive] ∧ now w = 20 * Second).
Proof.
  intros second upto. split.
  - eexists. split; [vm_compute; reflexivity|]. split; reflexivity.
  - eexists. split; [vm_compute; reflexivity|]. split; reflexivity.
Qed.

(** [NewTimeWheel] accepts every positive interval, but the wheel computes in whole
    milliseconds: with an interval below one millisecond the first timer that is
    added divides by zero, in the goroutine of [run]. *)
Theorem short_interval_panics (start itv num : Z) (h : bool) (d : Z)
  (Hi : 0 < itv < 1000000) (Hn : 0 < num) (Hd : itv ≤ d) :
  ∃ w, NewTimeWheel start itv num = Ok w ∧
       run [EAdd 1; EAddHandle] (with_timers {[ 1%positive := NewTimer h d ]} w) = Panic.
Proof.
  eexists. split; [unfold NewTimeWheel; by rewrite decide_False by lia|].
  cbn [run step]. set (w := with_timers _ _).
  assert (∃ w1 x, (_ ← Add 1; mret ()) w = Ret ((), w1) ∧ timersToAdd w1 = [1%positive] ∧
    stopped w1 = false ∧ interval w1 = itv ∧ timerToSlot w1 = ∅ ∧ timers w1 !! 1%positive = Some x)
    as (w1 & x & -> & Eq & Es & Ei & Et & Hx).
  { eexists _, _. unfold Add. rewrite bind_assoc_run.
    erewrite bind_Ret by (apply load_timer_ok; unfold w; simpl; apply lookup_singleton_eq).
    rewrite bind_assoc_run. mpure. simpl. rewrite decide_False by lia.
    rewrite bind_assoc_run. mpure. rewrite bind_assoc_run. mpure. mpure. split; [done|]. simpl. done. }
  rewrite Es, Eq. cbn [run step]. unfold addTimerHandle.
  assert (wheel_del 1 (set_toAdd [] w1) = Ret ((), set_toAdd [] w1)) as Hdel.
  { unfold wheel_del. mpure. simpl. by rewrite Et. }
  erewrite bind_Ret by exact Hdel. erewrite bind_Ret by (by apply load_timer_ok).
  assert (calIndexAndCircle x (set_toAdd [] w1) = Panic) as Hcal.
  { unfold calIndexAndCircle. mpure. cbv zeta. simpl. rewrite Ei. rewrite decide_True; [done|].
    unfold Milliseconds. apply Z.quot_small. lia. }
  unfold mbind at 1, M_bind. by rewrite Hcal.
Qed.

Lemma short_interval_panics_witness :
  ∃ w, NewTimeWheel 0 500000 60 = Ok w ∧
       run [EAdd 1; EAddHandle] (with_timers {[ 1%positive := NewTimer true Second ]} w) = Panic.
Proof. apply short_interval_panics; unfold Second; lia. Defined.
