(* ===== verification/Options.v ===== *)
(** * Service options (src/options.go)

    The options of a service as the code builds them: every [With...] function gives
    a change of the [options] record, [newOptions] is what the constructors of both
    services do, applying the changes in order to the defaults.  Handlers are names.
    Durations are [Z] nanoseconds.

    The theorem states the result field by field: the last option that sets a field
    wins, a field nobody sets has its default. *)

From stdpp Require Import base list numbers.
From S2P Require Import Prelude AsyncTimer.

Local Open Scope Z_scope.

(** Constants of tcpconn.go, netfd.go and tnet.go. *)
Definition defaultTCPKeepAlive : Z := 15 * Second.
Definition defaultUDPBufferSize : Z := 65535.
Definition defaultExactUDPBufferSizeEnabled : bool := false.
Definition defaultGracefulRestartTimeout : Z := 2 * Second.

Section Options.
Context {H : Type}.

Record options : Type := MkOptions {
  o_onTCPOpened : option H;
  o_onTCPClosed : option H;
  o_onUDPClosed : option H;
  o_tcpKeepAlive : Z;
  o_tcpIdleTimeout : Z;
  o_tcpWriteIdleTimeout : Z;
  o_tcpReadIdleTimeout : Z;
  o_tcpOutboundBufferLimit : Z;
  o_nonblocking : bool;
  o_safeWrite : bool;
  o_maxUDPPacketSize : Z;
  o_exactUDPBufferSizeEnabled : bool;
  o_gracefulRestartTimeout : Z
}.

(** [options{}] *)
Definition zero_options : options := MkOptions None None None 0 0 0 0 0 false false 0 false 0.

Definition setDefault (o : options) : options :=
  MkOptions (o_onTCPOpened o) (o_onTCPClosed o) (o_onUDPClosed o) defaultTCPKeepAlive (o_tcpIdleTimeout o)
    (o_tcpWriteIdleTimeout o) (o_tcpReadIdleTimeout o) (o_tcpOutboundBufferLimit o) (o_nonblocking o)
    (o_safeWrite o) defaultUDPBufferSize defaultExactUDPBufferSizeEnabled defaultGracefulRestartTimeout.

(** An [Option] is its function [f]. *)
Definition Option : Type := options → options.

Definition WithTCPKeepAlive (keepAlive : Z) : Option := λ o,
  MkOptions (o_onTCPOpened o) (o_onTCPClosed o) (o_onUDPClosed o) keepAlive (o_tcpIdleTimeout o)
    (o_tcpWriteIdleTimeout o) (o_tcpReadIdleTimeout o) (o_tcpOutboundBufferLimit o) (o_nonblocking o)
    (o_safeWrite o) (o_maxUDPPacketSize o) (o_exactUDPBufferSizeEnabled o) (o_gracefulRestartTimeout o).
Definition WithTCPWriteIdleTimeout (idleTimeout : Z) : Option := λ o,
  MkOptions (o_onTCPOpened o) (o_onTCPClosed o) (o_onUDPClosed o) (o_tcpKeepAlive o) (o_tcpIdleTimeout
    o) idleTimeout (o_tcpReadIdleTimeout o) (o_tcpOutboundBufferLimit o) (o_nonblocking o) (o_safeWrite
    o) (o_maxUDPPacketSize o) (o_exactUDPBufferSizeEnabled o) (o_gracefulRestartTimeout o).
Definition WithTCPReadIdleTimeout (idleTimeout : Z) : Option := λ o,
  MkOptions (o_onTCPOpened o) (o_onTCPClosed o) (o_onUDPClosed o) (o_tcpKeepAlive o) (o_tcpIdleTimeout
    o) (o_tcpWriteIdleTimeout o) idleTimeout (o_tcpOutboundBufferLimit o) (o_nonblocking o) (o_safeWrite
    o) (o_maxUDPPacketSize o) (o_exactUDPBufferSizeEnabled o) (o_gracefulRestartTimeout o).
Definition WithTCPIdleTimeout (idleTimeout : Z) : Option := λ o,
  MkOptions (o_onTCPOpened o) (o_onTCPClosed o) (o_onUDPClosed o) (o_tcpKeepAlive o) idleTimeout
    (o_tcpWriteIdleTimeout o) (o_tcpReadIdleTimeout o) (o_tcpOutboundBufferLimit o) (o_nonblocking o)
    (o_safeWrite o) (o_maxUDPPacketSize o) (o_exactUDPBufferSizeEnabled o) (o_gracefulRestartTimeout o).
Definition WithTCPOutboundBufferLimit (limit : Z) : Option := λ o,
  MkOptions (o_onTCPOpened o) (o_onTCPClosed o) (o_onUDPClosed o) (o_tcpKeepAlive o) (o_tcpIdleTimeout
    o) (o_tcpWriteIdleTimeout o) (o_tcpReadIdleTimeout o) limit (o_nonblocking o) (o_safeWrite o)
    (o_maxUDPPacketSize o) (o_exactUDPBufferSizeEnabled o) (o_gracefulRestartTimeout o).
Definition WithOnTCPOpened (h : option H) : Option := λ o,
  MkOptions h (o_onTCPClosed o) (o_onUDPClosed o) (o_tcpKeepAlive o) (o_tcpIdleTimeout o)
    (o_tcpWriteIdleTimeout o) (o_tcpReadIdleTimeout o) (o_tcpOutboundBufferLimit o) (o_nonblocking o)
    (o_safeWrite o) (o_maxUDPPacketSize o) (o_exactUDPBufferSizeEnabled o) (o_gracefulRestartTimeout o).
Definition WithOnTCPClosed (h : option H) : Option := λ o,
  MkOptions (o_onTCPOpened o) h (o_onUDPClosed o) (o_tcpKeepAlive o) (o_tcpIdleTimeout o)
    (o_tcpWriteIdleTimeout o) (o_tcpReadIdleTimeout o) (o_tcpOutboundBufferLimit o) (o_nonblocking o)
    (o_safeWrite o) (o_maxUDPPacketSize o) (o_exactUDPBufferSizeEnabled o) (o_gracefulRestartTimeout o).
Definition WithOnUDPClosed (h : option H) : Option := λ o,
  MkOptions (o_onTCPOpened o) (o_onTCPClosed o) h (o_tcpKeepAlive o) (o_tcpIdleTimeout o)
    (o_tcpWriteIdleTimeout o) (o_tcpReadIdleTimeout o) (o_tcpOutboundBufferLimit o) (o_nonblocking o)
    (o_safeWrite o) (o_maxUDPPacketSize o) (o_exactUDPBufferSizeEnabled o) (o_gracefulRestartTimeout o).
Definition WithNonBlocking (nonblock : bool) : Option := λ o,
  MkOptions (o_onTCPOpened o) (o_onTCPClosed o) (o_onUDPClosed o) (o_tcpKeepAlive o) (o_tcpIdleTimeout
    o) (o_tcpWriteIdleTimeout o) (o_tcpReadIdleTimeout o) (o_tcpOutboundBufferLimit o) nonblock
    (o_safeWrite o) (o_maxUDPPacketSize o) (o_exactUDPBufferSizeEnabled o) (o_gracefulRestartTimeout o).
Definition WithTCPFlushWrite (flush : bool) : Option := λ o, o.
Definition WithFlushWrite (flush : bool) : Option := λ o, o.
Definition WithSafeWrite (safe : bool) : Option := λ o,
  MkOptions (o_onTCPOpened o) (o_onTCPClosed o) (o_onUDPClosed o) (o_tcpKeepAlive o) (o_tcpIdleTimeout
    o) (o_tcpWriteIdleTimeout o) (o_tcpReadIdleTimeout o) (o_tcpOutboundBufferLimit o) (o_nonblocking o)
    safe (o_maxUDPPacketSize o) (o_exactUDPBufferSizeEnabled o) (o_gracefulRestartTimeout o).
Definition WithMaxUDPPacketSize (size : Z) : Option := λ o,
  MkOptions (o_onTCPOpened o) (o_onTCPClosed o) (o_onUDPClosed o) (o_tcpKeepAlive o) (o_tcpIdleTimeout
    o) (o_tcpWriteIdleTimeout o) (o_tcpReadIdleTimeout o) (o_tcpOutboundBufferLimit o) (o_nonblocking o)
    (o_safeWrite o) size (o_exactUDPBufferSizeEnabled o) (o_gracefulRestartTimeout o).
Definition WithExactUDPBufferSizeEnabled (exact : bool) : Option := λ o,
  MkOptions (o_onTCPOpened o) (o_onTCPClosed o) (o_onUDPClosed o) (o_tcpKeepAlive o) (o_tcpIdleTimeout
    o) (o_tcpWriteIdleTimeout o) (o_tcpReadIdleTimeout o) (o_tcpOutboundBufferLimit o) (o_nonblocking o)
    (o_safeWrite o) (o_maxUDPPacketSize o) exact (o_gracefulRestartTimeout o).
Definition WithGracefulRestartTimeout (timeout : Z) : Option := λ o,
  MkOptions (o_onTCPOpened o) (o_onTCPClosed o) (o_onUDPClosed o) (o_tcpKeepAlive o) (o_tcpIdleTimeout
    o) (o_tcpWriteIdleTimeout o) (o_tcpReadIdleTimeout o) (o_tcpOutboundBufferLimit o) (o_nonblocking o)
    (o_safeWrite o) (o_maxUDPPacketSize o) (o_exactUDPBufferSizeEnabled o) timeout.

(** What [newTCPService] and [newUDPService] do with their options. *)
Definition newOptions (opt : list Option) : options := foldl (λ o f, f o) (setDefault zero_options) opt.

(** ** The specification *)

(** The exported options, by name. *)
Inductive setting : Type :=
| STCPKeepAlive (keepAlive : Z)
| STCPWriteIdleTimeout (idleTimeout : Z)
| STCPReadIdleTimeout (idleTimeout : Z)
| STCPIdleTimeout (idleTimeout : Z)
| STCPOutboundBufferLimit (limit : Z)
| SOnTCPOpened (h : option H)
| SOnTCPClosed (h : option H)
| SOnUDPClosed (h : option H)
| SNonBlocking (nonblock : bool)
| STCPFlushWrite (flush : bool)
| SFlushWrite (flush : bool)
| SSafeWrite (safe : bool)
| SMaxUDPPacketSize (size : Z)
| SExactUDPBufferSizeEnabled (exact : bool)
| SGracefulRestartTimeout (timeout : Z).

Definition option_of (s : setting) : Option :=
  match s with
  | STCPKeepAlive x => WithTCPKeepAlive x
  | STCPWriteIdleTimeout x => WithTCPWriteIdleTimeout x
  | STCPReadIdleTimeout x => WithTCPReadIdleTimeout x
  | STCPIdleTimeout x => WithTCPIdleTimeout x
  | STCPOutboundBufferLimit x => WithTCPOutboundBufferLimit x
  | SOnTCPOpened x => WithOnTCPOpened x
  | SOnTCPClosed x => WithOnTCPClosed x
  | SOnUDPClosed x => WithOnUDPClosed x
  | SNonBlocking x => WithNonBlocking x
  | STCPFlushWrite x => WithTCPFlushWrite x
  | SFlushWrite x => WithFlushWrite x
  | SSafeWrite x => WithSafeWrite x
  | SMaxUDPPacketSize x => WithMaxUDPPacketSize x
  | SExactUDPBufferSizeEnabled x => WithExactUDPBufferSizeEnabled x
  | SGracefulRestartTimeout x => WithGracefulRestartTimeout x
  end.

(** The last setting that [f] knows about. *)
Fixpoint last_set {A} (f : setting → option A) (ss : list setting) : option A :=
  match ss with
  | [] => None
  | s :: ss => match last_set f ss with Some x => Some x | None => f s end
  end.

Definition setting_or {A} (d : A) (f : setting → option A) (ss : list setting) : A := default d (last_set f ss).

Definition options_spec (ss : list setting) : options :=
  MkOptions
    (setting_or None (λ s, match s with SOnTCPOpened x => Some x | _ => None end) ss)
    (setting_or None (λ s, match s with SOnTCPClosed x => Some x | _ => None end) ss)
    (setting_or None (λ s, match s with SOnUDPClosed x => Some x | _ => None end) ss)
    (setting_or defaultTCPKeepAlive (λ s, match s with STCPKeepAlive x => Some x | _ => None end) ss)
    (setting_or 0 (λ s, match s with STCPIdleTimeout x => Some x | _ => None end) ss)
    (setting_or 0 (λ s, match s with STCPWriteIdleTimeout x => Some x | _ => None end) ss)
    (setting_or 0 (λ s, match s with STCPReadIdleTimeout x => Some x | _ => None end) ss)
    (setting_or 0 (λ s, match s with STCPOutboundBufferLimit x => Some x | _ => None end) ss)
    (setting_or false (λ s, match s with SNonBlocking x => Some x | _ => None end) ss)
    (setting_or false (λ s, match s with SSafeWrite x => Some x | _ => None end) ss)
    (setting_or defaultUDPBufferSize (λ s, match s with SMaxUDPPacketSize x => Some x | _ => None end) ss)
    (setting_or defaultExactUDPBufferSizeEnabled (λ s, match s with SExactUDPBufferSizeEnabled x => Some x | _ => None end) ss)
    (setting_or defaultGracefulRestartTimeout (λ s, match s with SGracefulRestartTimeout x => Some x | _ => None end) ss).

Lemma last_set_snoc {A} (f : setting → option A) ss s :
  last_set f (ss ++ [s]) = match f s with Some x => Some x | None => last_set f ss end.
Proof. induction ss as [|s' ss IH]; simpl; [by destruct (f s)|]. rewrite IH. by destruct (f s). Qed.

(** C32: the options of a service are those of the specification: every field has the
    value of the last option that sets it, whatever comes before, between or after, and
    its default when none does; the two deprecated options set nothing. *)
Theorem last_option_wins (ss : list setting) : newOptions (map option_of ss) = options_spec ss.
Proof.
  induction ss as [|s ss IH] using rev_ind; [done|].
  unfold newOptions in *. rewrite map_app, foldl_app, IH. unfold options_spec, setting_or.
  rewrite !last_set_snoc. by destruct s.
Qed.

End Options.
Arguments options : clear implicits.
Arguments Option : clear implicits.
