(* ===== verification/Threads.v ===== *)
(** * Goroutines and their invariants

    A method of a connection is a program ([prog]) of atomic actions: a buffer method
    under its lock, an atomic load or compare-and-swap, a system call.  A [pool] of
    goroutines interleaves such programs in any order.  [wp] is the proof rule the
    connections use: every goroutine owns a piece of ghost state, every action
    must re-establish an invariant between the shared state and all the pieces.
    [pool_invariant] and [pool_progress] carry that over to whole executions.

    An action may wait ([None]), crash the process ([Some Panic]) or go through.
    Endless loops run on fuel; [Some NoFuel] says that the model ends there, and a
    goroutine in that state counts as one that can go on. *)

From stdpp Require Import base list numbers.
From S2P Require Import Prelude SafeJob.

(** ** Programs *)

Definition act (S A : Type) : Type := S → option (outcome (A * S)).

Inductive thread (S R : Type) : Type :=
| Fin (r : R)
| Do (A : Type) (a : act S A) (k : A → thread S R).
Arguments Fin {S R} r.
Arguments Do {S R} A a k.

#[export] Instance thread_ret S : MRet (thread S) := λ R r, Fin r.
#[export] Instance thread_bind S : MBind (thread S) := λ R R' f,
  fix go (p : thread S R) : thread S R' :=
  match p with
  | Fin r => f r
  | Do A a k => Do A a (λ x, go (k x))
  end.

(** One action as a program. *)
Definition atomic {S A} (a : act S A) : thread S A := Do A a Fin.

(** A deterministic computation, done in one piece. *)
Definition atomically {S A} (m : M S A) : thread S A := atomic (λ s, Some (m s)).

(** A method of a component of the state. *)
Definition method {S T A} (proj : S → T) (upd : T → S → S) (m : M T A) : thread S A :=
  atomically (zoom proj upd m).

Definition read {S A} (f : S → A) : thread S A := atomically (gets f).
Definition write {S} (f : S → S) : thread S () := atomically (modify f).
Definition crash {S A} : thread S A := atomically panic.

(** Waiting for a condition. *)
Definition await {S A} (f : S → option (A * S)) : thread S A :=
  atomic (λ s, match f s with Some (x, s') => Some (Ret (x, s')) | None => None end).

(** The programs of the jobs, on a component of the state. *)
Fixpoint of_job {S T R} (proj : S → T) (upd : T → S → S) (p : prog T R) : thread S R :=
  match p with
  | Done r => Fin r
  | Act a k =>
      Do bool (λ s, match a (proj s) with
                    | Some (b, t) => Some (Ret (b, upd t s))
                    | None => None
                    end) (λ b, of_job proj upd (k b))
  end.

(** At most [n] rounds of a loop; the body says whether to go on. *)
Fixpoint rounds {S} (n : nat) (body : thread S bool) : thread S () :=
  match n with
  | O => Fin ()
  | Datatypes.S n => b ← body; if (b : bool) then rounds n body else Fin ()
  end.

(** ** Pools *)

Record pool (S : Type) : Type := Pool { p_state : S; p_threads : list (thread S ()) }.
Arguments Pool {S} _ _.
Arguments p_state {S} _.
Arguments p_threads {S} _.

(** One step of goroutine [i]: [None] when it has ended or has to wait. *)
Definition pool_next {S} (i : nat) (w : pool S) : option (outcome (pool S)) :=
  match p_threads w !! i with
  | Some (Do A a k) =>
      match a (p_state w) with
      | Some (Ret (x, s')) => Some (Ret (Pool s' (<[i := k x]> (p_threads w))))
      | Some Panic => Some Panic
      | Some NoFuel => Some NoFuel
      | None => None
      end
  | _ => None
  end.

(** Executions all states of which satisfy [live]. *)
Inductive pool_reach {S} (live : S → Prop) (w : pool S) : pool S → Prop :=
| PR_refl : live (p_state w) → pool_reach live w w
| PR_step w' w'' i :
    pool_reach live w w' → pool_next i w' = Some (Ret w'') → live (p_state w'') →
    pool_reach live w w''.

(** A schedule, for concrete runs. *)
Fixpoint pool_run {S} (sched : list nat) (w : pool S) : pool S :=
  match sched with
  | [] => w
  | i :: sched =>
      match pool_next i w with Some (Ret w') => pool_run sched w' | _ => pool_run sched w end
  end.

(** Nobody can go on. *)
Definition quiescent {S} (w : pool S) : Prop := ∀ i, pool_next i w = None.

(** ** The rule for programs *)

Section WP.
Context {S G : Type}.
(** The states executions are followed through. *)
Variable live : S → Prop.
Variable Inv : S → list G → Prop.
(** When a piece of ghost state obliges its goroutine to go on. *)
Variable busy : S → G → Prop.

Fixpoint wp {R} (p : thread S R) (g : G) (Q : R → G → Prop) : Prop :=
  match p with
  | Fin r => Q r g
  | Do A a k =>
      ∀ s gs i, gs !! i = Some g → live s → Inv s gs →
      match a s with
      | None => ¬ busy s g
      | Some (Ret (x, s')) => live s' → ∃ g', Inv s' (<[i := g']> gs) ∧ wp (k x) g' Q
      | Some Panic => False
      | Some NoFuel => True
      end
  end.

Lemma wp_fin {R} (r : R) g (Q : R → G → Prop) : Q r g → wp (Fin r) g Q.
Proof. done. Qed.

Lemma wp_mono {R} (p : thread S R) g (Q Q' : R → G → Prop) :
  (∀ r g', Q r g' → Q' r g') → wp p g Q → wp p g Q'.
Proof.
  intros HQ. revert g. induction p as [r|A a k IH]; intros g; simpl; [by apply HQ|].
  intros Hp s gs i Hi Hl HI. specialize (Hp s gs i Hi Hl HI).
  destruct (a s) as [[[x s']| |]|]; try done. intros Hl'.
  destruct (Hp Hl') as (g' & HI' & Hw). exists g'. split; [done|by apply IH].
Qed.

Lemma wp_bind {R R'} (p : thread S R) (f : R → thread S R') g Q :
  wp p g (λ r g', wp (f r) g' Q) → wp (p ≫= f) g Q.
Proof.
  revert g. induction p as [r|A a k IH]; intros g; simpl; [done|].
  intros Hp s gs i Hi Hl HI. specialize (Hp s gs i Hi Hl HI).
  destruct (a s) as [[[x s']| |]|]; try done. intros Hl'.
  destruct (Hp Hl') as (g' & HI' & Hw). exists g'. split; [done|by apply IH].
Qed.

(** Loops. *)
Lemma wp_rounds n (body : thread S bool) g :
  wp body g (λ _ g', g' = g) → wp (rounds n body) g (λ _ g', g' = g).
Proof.
  intros Hb. induction n as [|n IH]; [done|]. cbn [rounds]. apply wp_bind.
  eapply wp_mono; [|exact Hb]. intros [] g' ->; [exact IH|done].
Qed.

(** *** Whole executions *)

Definition pool_ok (w : pool S) : Prop :=
  ∃ gs, Inv (p_state w) gs ∧
        Forall2 (λ p g, wp p g (λ _ g', ∀ s, ¬ busy s g')) (p_threads w) gs.

Lemma pool_step_ok w i :
  pool_ok w → live (p_state w) →
  match pool_next i w with
  | None => True
  | Some (Ret w') => live (p_state w') → pool_ok w'
  | Some Panic => False
  | Some NoFuel => True
  end.
Proof.
  intros (gs & HI & Hps) Hl. destruct w as [s ps]. unfold pool_next. simpl in *.
  destruct (ps !! i) as [[r|A a k]|] eqn:Hi; try done.
  destruct (Forall2_lookup_l _ _ _ _ _ Hps Hi) as (g & Hg & Hp).
  specialize (Hp s gs i Hg Hl HI). destruct (a s) as [[[x s']| |]|]; try done.
  intros Hl'. destruct (Hp Hl') as (g' & HI' & Hw). exists (<[i := g']> gs). split; [done|].
  by apply Forall2_insert.
Qed.

Lemma pool_reach_ok w w' : pool_ok w → pool_reach live w w' → pool_ok w' ∧ live (p_state w').
Proof.
  intros Hw. induction 1 as [|w' w'' i _ IH Hn Hl']; [done|].
  destruct IH as [Hok Hl]. pose proof (pool_step_ok w' i Hok Hl) as Hs. rewrite Hn in Hs. by split; [apply Hs|].
Qed.

(** In every state on the way the invariant holds, and nobody is about to crash. *)
Lemma pool_invariant w w' :
  pool_ok w → pool_reach live w w' →
  ∃ gs, Inv (p_state w') gs ∧ length gs = length (p_threads w') ∧
        ∀ i, pool_next i w' ≠ Some Panic.
Proof.
  intros Hw Hr. destruct (pool_reach_ok _ _ Hw Hr) as [Hok Hl].
  destruct Hok as (gs & HI & Hps). exists gs. split; [done|].
  split; [symmetry; by eapply Forall2_length|]. intros i.
  pose proof (pool_step_ok w' i ltac:(by exists gs) Hl) as Hs.
  destruct (pool_next i w') as [[| |]|]; done.
Qed.

(** When nobody can go on, nobody has an obligation. *)
Lemma pool_progress w w' :
  pool_ok w → pool_reach live w w' → quiescent w' →
  ∃ gs, Inv (p_state w') gs ∧ Forall (λ g, ¬ busy (p_state w') g) gs ∧
        Forall2 (λ p g, wp p g (λ _ g', ∀ s, ¬ busy s g')) (p_threads w') gs.
Proof.
  intros Hw Hr Hq. destruct (pool_reach_ok _ _ Hw Hr) as [(gs & HI & Hps) Hl].
  exists gs. split; [done|]. split; [|done]. apply Forall_lookup_2. intros i g Hg.
  destruct (Forall2_lookup_r _ _ _ _ _ Hps Hg) as (p & Hi & Hp). specialize (Hq i).
  unfold pool_next in Hq. rewrite Hi in Hq. destruct p as [r|A a k]; [done|].
  specialize (Hp _ gs i Hg Hl HI). destruct (a (p_state w')) as [[[x s']| |]|]; done.
Qed.

End WP.

(** *** Schedules *)

Lemma pool_run_snoc {S} sched i (w : pool S) :
  pool_run (sched ++ [i]) w =
  match pool_next i (pool_run sched w) with
  | Some (Ret w') => w'
  | _ => pool_run sched w
  end.
Proof.
  revert w. induction sched as [|j sched IH]; intros w; simpl; [by destruct (pool_next i w) as [[]|]|].
  by destruct (pool_next j w) as [[]|]; rewrite IH.
Qed.

Lemma pool_run_reach {S} (live : S → Prop) sched (w : pool S) :
  Forall (λ n, live (p_state (pool_run (take n sched) w))) (seq 0 (Datatypes.S (length sched))) →
  pool_reach live w (pool_run sched w).
Proof.
  intros Hl. assert (∀ n, n ≤ length sched → live (p_state (pool_run (take n sched) w))) as Hall.
  { intros n Hn. apply (Forall_lookup_1 _ _ n n Hl). apply lookup_seq. simpl. lia. }
  clear Hl. revert Hall. induction sched as [|i sched IH] using rev_ind; intros Hall.
  - apply PR_refl. apply (Hall 0). lia.
  - pose proof (pool_run_snoc (S := S) sched i) as Hsnoc.
    assert (pool_reach live w (pool_run sched w)) as Hr.
    { apply IH. intros n Hn. specialize (Hall n). rewrite length_app, take_app_le in Hall by lia.
      apply Hall. simpl. lia. }
    rewrite Hsnoc. destruct (pool_next i (pool_run sched w)) as [[w'| |]|] eqn:E; try done.
    apply (PR_step _ _ _ _ i Hr E). specialize (Hall (length (sched ++ [i]))).
    rewrite firstn_all, Hsnoc, E in Hall. by apply Hall.
Qed.

(** ** One goroutine on its own *)

(** A method that nothing interrupts; [None] when it would wait. *)
Fixpoint run_alone {S R} (p : thread S R) (s : S) : option (outcome (R * S)) :=
  match p with
  | Fin r => Some (Ret (r, s))
  | Do A a k =>
      match a s with
      | Some (Ret (x, s')) => run_alone (k x) s'
      | Some Panic => Some Panic
      | Some NoFuel => Some NoFuel
      | None => None
      end
  end.

Lemma run_alone_bind {S R R'} (p : thread S R) (f : R → thread S R') s x s' :
  run_alone p s = Some (Ret (x, s')) → run_alone (p ≫= f) s = run_alone (f x) s'.
Proof.
  revert s. induction p as [r|A a k IH]; intros s; simpl; [by intros [= -> ->]|].
  destruct (a s) as [[[y s1]| |]|]; [apply IH|done..].
Qed.

(** The same for any outcome. *)
Lemma run_alone_then {S R R'} (p : thread S R) (f : R → thread S R') s :
  run_alone (p ≫= f) s = match run_alone p s with
                         | Some (Ret (x, s')) => run_alone (f x) s'
                         | Some Panic => Some Panic
                         | Some NoFuel => Some NoFuel
                         | None => None
                         end.
Proof.
  revert s. induction p as [r|A a k IH]; intros s; simpl; [done|].
  destruct (a s) as [[[y s1]| |]|]; [apply IH|done..].
Qed.

Lemma run_atomically {S A} (m : M S A) s x s' :
  m s = Ret (x, s') → run_alone (atomically m) s = Some (Ret (x, s')).
Proof. intros Hm. simpl. by rewrite Hm. Qed.

Lemma run_method {S T A} (proj : S → T) upd (m : M T A) s x t :
  m (proj s) = Ret (x, t) → run_alone (method proj upd m) s = Some (Ret (x, upd t s)).
Proof. intros Hm. by apply run_atomically, zoom_Ret. Qed.

(** A job's program on a component with the laws of a field. *)
Lemma run_of_job {S T R} (proj : S → T) (upd : T → S → S) (p : prog T R) s r t :
  (∀ s, upd (proj s) s = s) → (∀ t s, proj (upd t s) = t) → (∀ t t' s, upd t' (upd t s) = upd t' s) →
  run_prog p (proj s) = Some (r, t) → run_alone (of_job proj upd p) s = Some (Ret (r, upd t s)).
Proof.
  intros L1 L2 L3. revert s. induction p as [r'|a k IH]; intros s; simpl.
  { intros [= -> <-]. by rewrite L1. }
  destruct (a (proj s)) as [[b t1]|]; [|done]. intros Hr.
  rewrite (IH b (upd t1 s)) by (by rewrite L2). by rewrite L3.
Qed.

(** The program, run on its own, returns, and what it returns satisfies [Q]: neither
    a panic nor waiting for somebody else. *)
Definition returns {S R} (p : thread S R) (Q : R → S → Prop) (s : S) : Prop :=
  ∃ r s', run_alone p s = Some (Ret (r, s')) ∧ Q r s'.

Lemma returns_fin {S R} (r : R) (Q : R → S → Prop) s : Q r s → returns (Fin r) Q s.
Proof. intros H. by exists r, s. Qed.

Lemma returns_bind {S R R'} (p : thread S R) (f : R → thread S R') Q s :
  returns p (λ r s', returns (f r) Q s') s → returns (p ≫= f) Q s.
Proof.
  intros (r & s' & Hp & r' & s'' & Hf & HQ). exists r', s''. split; [|done].
  by rewrite (run_alone_bind _ _ _ _ _ Hp).
Qed.

Lemma returns_mono {S R} (p : thread S R) (Q Q' : R → S → Prop) s :
  returns p Q s → (∀ r s', Q r s' → Q' r s') → returns p Q' s.
Proof. intros (r & s' & Hp & HQ) Hm. exists r, s'. auto. Qed.

Lemma returns_seq {S R R'} (p : thread S R) (f : R → thread S R') Q Q' s :
  returns p Q s → (∀ r s', Q r s' → returns (f r) Q' s') → returns (p ≫= f) Q' s.
Proof. intros Hp Hf. apply returns_bind. by eapply returns_mono. Qed.

Lemma returns_run {S R} (p : thread S R) (Q : R → S → Prop) s r s' :
  run_alone p s = Some (Ret (r, s')) → Q r s' → returns p Q s.
Proof. intros Hp HQ. by exists r, s'. Qed.

Lemma returns_atomically {S A} (m : M S A) Q s x s' :
  m s = Ret (x, s') → Q x s' → returns (atomically m) Q s.
Proof. intros Hm. apply returns_run. by apply run_atomically. Qed.

Lemma returns_read {S A} (f : S → A) (Q : A → S → Prop) s : Q (f s) s → returns (read f) Q s.
Proof. by apply returns_atomically. Qed.

Lemma returns_write {S} (f : S → S) (Q : () → S → Prop) s : Q () (f s) → returns (write f) Q s.
Proof. by apply returns_atomically. Qed.

Lemma returns_await {S A} (f : S → option (A * S)) (Q : A → S → Prop) s x s' :
  f s = Some (x, s') → Q x s' → returns (await f) Q s.
Proof. intros Hf. apply returns_run. simpl. by rewrite Hf. Qed.

Ltac arun Hr := erewrite run_alone_bind by (exact Hr).
Ltac apure := erewrite run_alone_bind by reflexivity.
