(* ===== verification/Track.v ===== *)
(** * Following goroutines through all executions

    [Threads.wp] follows a program as long as nobody crashes.  [track] follows it
    through every execution: an action may panic, when the panic is [harmless] (its
    reason is none the proof is about), and may wait, when the wait is explained
    ([waits]).  It also constrains what the next action of a goroutine touches
    ([may]).  Every goroutine owns a piece of ghost state; every action has to
    re-establish the invariant between the shared state and all the pieces.

    [ignores] says of an action that it neither reads nor writes a part of the state. *)

From stdpp Require Import base list numbers.
From S2P Require Import Prelude SafeJob Threads.

(** ** Actions that leave a part of the state alone *)

Definition then_upd {S A} (f : S → S) (o : outcome (A * S)) : outcome (A * S) :=
  match o with Ret (x, s) => Ret (x, f s) | Panic => Panic | NoFuel => NoFuel end.

(** [upd v] replaces the part by [v]: the action does the same, whatever is there, and
    leaves it there. *)
Definition ignores {S V A} (upd : V → S → S) (a : act S A) : Prop :=
  ∀ v s, a (upd v s) = then_upd (upd v) <$> a s.

(** The same for a computation. *)
Definition overlooks {S V A} (upd : V → S → S) (m : M S A) : Prop :=
  ∀ v s, m (upd v s) = then_upd (upd v) (m s).

Create HintDb overlook.

Section Overlooks.
Context {S V : Type} (upd : V → S → S).

Lemma overlooks_ret {A} (x : A) : overlooks upd (mret x : M S A).
Proof. done. Qed.

Lemma overlooks_bind {A B} (m : M S A) (f : A → M S B) :
  overlooks upd m → (∀ x, overlooks upd (f x)) → overlooks upd (m ≫= f).
Proof.
  intros Hm Hf v s. unfold mbind, M_bind. rewrite Hm. by destruct (m s) as [[x s']| |]; [apply Hf| |].
Qed.

Lemma overlooks_gets {A} (f : S → A) : (∀ v s, f (upd v s) = f s) → overlooks upd (gets f).
Proof. intros Hf v s. unfold gets. simpl. by rewrite Hf. Qed.

Lemma overlooks_modify (f : S → S) : (∀ v s, f (upd v s) = upd v (f s)) → overlooks upd (modify f).
Proof. intros Hf v s. unfold modify. simpl. by rewrite Hf. Qed.

Lemma overlooks_zoom {T A} (proj : S → T) (upd' : T → S → S) (m : M T A) :
  (∀ v s, proj (upd v s) = proj s) → (∀ v s t, upd' t (upd v s) = upd v (upd' t s)) →
  overlooks upd (zoom proj upd' m).
Proof.
  intros Hp Hu v s. unfold zoom. rewrite Hp. destruct (m (proj s)) as [[x t]| |]; simpl; try done.
  by rewrite Hu.
Qed.

Lemma overlooks_panic {A} : overlooks upd (panic : M S A).
Proof. done. Qed.

Lemma overlooks_nofuel {A} : overlooks upd (nofuel : M S A).
Proof. done. Qed.

Lemma ignores_atomic {A} (m : M S A) : overlooks upd m → ignores upd (λ s, Some (m s)).
Proof. intros Hm v s. simpl. by rewrite Hm. Qed.

(** What is ignored is not changed. *)
Lemma ignores_keeps {A} (a : act S A) (get : S → V) s x s' :
  (∀ s, upd (get s) s = s) → (∀ v s, get (upd v s) = v) →
  ignores upd a → a s = Some (Ret (x, s')) → get s' = get s.
Proof.
  intros H1 H2 Ha E. specialize (Ha (get s) s). rewrite H1, E in Ha. simpl in Ha.
  injection Ha as Ha. rewrite Ha at 1. apply H2.
Qed.

End Overlooks.

#[export] Hint Resolve overlooks_ret overlooks_panic overlooks_nofuel : overlook.
#[export] Hint Resolve overlooks_bind : overlook.
#[export] Hint Extern 1 (overlooks _ (gets _)) => apply overlooks_gets; reflexivity : overlook.
#[export] Hint Extern 1 (overlooks _ (modify _)) => apply overlooks_modify; reflexivity : overlook.
#[export] Hint Extern 1 (overlooks _ (zoom _ _ _)) => apply overlooks_zoom; reflexivity : overlook.

(** ** The rule for programs *)

Section Track.
Context {S G : Type}.
Variable Inv : S → list G → Prop.
(** What the owner of a piece may do next. *)
Variable may : G → ∀ A : Type, act S A → Prop.
Variable harmless : ∀ A : Type, act S A → S → Prop.
(** Why the owner of a piece has to wait. *)
Variable waits : S → G → Prop.

Fixpoint track {R} (p : thread S R) (g : G) (Q : R → G → Prop) : Prop :=
  match p with
  | Fin r => Q r g
  | Do A a k =>
      may g A a ∧
      ∀ s gs i, gs !! i = Some g → Inv s gs →
      match a s with
      | None => waits s g
      | Some (Ret (x, s')) => ∃ g', Inv s' (<[i := g']> gs) ∧ track (k x) g' Q
      | Some Panic => harmless A a s
      | Some NoFuel => True
      end
  end.

(** Programs that give back the piece they got. *)
Definition steady {R} (p : thread S R) (g : G) : Prop := track p g (λ _ g', g' = g).

Lemma track_mono {R} (p : thread S R) g (Q Q' : R → G → Prop) :
  track p g Q → (∀ r g', Q r g' → Q' r g') → track p g Q'.
Proof.
  intros Hp HQ. revert g Hp. induction p as [r|A a k IH]; intros g; simpl; [apply HQ|].
  intros [Hm Hp]. split; [done|]. intros s gs i Hi HI. specialize (Hp s gs i Hi HI).
  destruct (a s) as [[[x s']| |]|]; try done. destruct Hp as (g' & HI' & Ht). eauto.
Qed.

Lemma track_bind {R R'} (p : thread S R) (f : R → thread S R') g Q :
  track p g (λ r g', track (f r) g' Q) → track (p ≫= f) g Q.
Proof.
  revert g. induction p as [r|A a k IH]; intros g; simpl; [done|].
  intros [Hm Hp]. split; [done|]. intros s gs i Hi HI. specialize (Hp s gs i Hi HI).
  destruct (a s) as [[[x s']| |]|]; try done. destruct Hp as (g' & HI' & Ht).
  exists g'. split; [done|]. by apply IH.
Qed.

Lemma steady_fin {R} (r : R) g : steady (Fin r) g.
Proof. done. Qed.

Lemma track_seq {R R'} (p : thread S R) (f : R → thread S R') g Q :
  steady p g → (∀ r, track (f r) g Q) → track (p ≫= f) g Q.
Proof. intros Hp Hf. apply track_bind. eapply track_mono; [exact Hp|]. by intros r g' ->. Qed.

Lemma steady_bind {R R'} (p : thread S R) (f : R → thread S R') g :
  steady p g → (∀ r, steady (f r) g) → steady (p ≫= f) g.
Proof. apply track_seq. Qed.

(** ** Whole executions *)

(** [over] is what a goroutine is left with. *)
Variable over : G → Prop.

Definition followed (w : pool S) (gs : list G) : Prop :=
  Inv (p_state w) gs ∧ Forall2 (λ p g, track p g (λ _ g', over g')) (p_threads w) gs.

Lemma followed_step w gs i w' :
  followed w gs → pool_next i w = Some (Ret w') → ∃ g', followed w' (<[i := g']> gs).
Proof.
  intros [HI Hps]. destruct w as [s ps]. unfold pool_next. simpl in *.
  destruct (ps !! i) as [[r|A a k]|] eqn:Hi; try done.
  destruct (Forall2_lookup_l _ _ _ _ _ Hps Hi) as (g & Hg & _ & Hp).
  specialize (Hp s gs i Hg HI). destruct (a s) as [[[x s']| |]|]; try done.
  intros [= <-]. destruct Hp as (g' & HI' & Ht). exists g'. split; [done|].
  by apply Forall2_insert.
Qed.

Lemma followed_reach live w w' gs :
  followed w gs → pool_reach live w w' → ∃ gs', followed w' gs'.
Proof.
  intros Hw. induction 1 as [|w' w'' i _ [gs' IH] Hn _]; [eauto|].
  destruct (followed_step _ _ _ _ IH Hn) as [g' Hg']. eauto.
Qed.

(** What the goroutine that is to move may do. *)
Lemma followed_may w gs i A a k :
  followed w gs → p_threads w !! i = Some (Do A a k) → ∃ g, gs !! i = Some g ∧ may g A a.
Proof.
  intros [_ Hps] Hi. destruct (Forall2_lookup_l _ _ _ _ _ Hps Hi) as (g & Hg & Hm & _). eauto.
Qed.

Lemma followed_panic w gs i A a k :
  followed w gs → p_threads w !! i = Some (Do A a k) → a (p_state w) = Some Panic →
  harmless A a (p_state w).
Proof.
  intros [HI Hps] Hi E. destruct (Forall2_lookup_l _ _ _ _ _ Hps Hi) as (g & Hg & _ & Hp).
  specialize (Hp _ gs i Hg HI). by rewrite E in Hp.
Qed.

(** When nobody can go on, everybody is through or waits for a reason. *)
Lemma followed_quiescent w gs i g :
  followed w gs → quiescent w → gs !! i = Some g →
  (∃ r, p_threads w !! i = Some (Fin r)) ∧ over g ∨ waits (p_state w) g.
Proof.
  intros [HI Hps] Hq Hg. destruct (Forall2_lookup_r _ _ _ _ _ Hps Hg) as (p & Hi & Hp).
  specialize (Hq i). unfold pool_next in Hq. rewrite Hi in Hq.
  destruct p as [r|A a k]; simpl in Hp; [left; eauto|right].
  destruct Hp as [_ Hp]. specialize (Hp _ gs i Hg HI).
  by destruct (a (p_state w)) as [[[x s']| |]|].
Qed.

End Track.
