(* ===== verification/Timer.v ===== *)
(** * Deadline timers (src/internal/timer/timer.go)

    The read and write deadlines of connections.  A [time.Timer] of the runtime is
    its expiry, if it is running, and whether its channel (of capacity one) holds
    a value; [elapse] is what the runtime does to it as time passes.  The zero
    [time.Time] is [None]. *)

From stdpp Require Import base list numbers.
From S2P Require Import Prelude.

Local Open Scope Z_scope.

(** ** time.Timer *)

Record gotimer : Type := GoTimer { gt_when : option Z; gt_chan : bool }.

Definition gt_new (now d : Z) : gotimer := GoTimer (Some (now + Z.max 0 d)) false.

(** [Stop] reports whether the timer was running. *)
Definition gt_stop (g : gotimer) : bool * gotimer :=
  (match gt_when g with Some _ => true | None => false end, GoTimer None (gt_chan g)).

Definition gt_reset (now d : Z) (g : gotimer) : gotimer := GoTimer (Some (now + Z.max 0 d)) (gt_chan g).

(** The runtime sends the time when it is due, unless the channel is full. *)
Definition gt_elapse (now : Z) (g : gotimer) : gotimer :=
  match gt_when g with
  | Some t => if decide (t <= now) then GoTimer None true else g
  | None => g
  end.

(** [select { case <-g.C: default: }] *)
Definition gt_drain (g : gotimer) : gotimer := GoTimer (gt_when g) false.

(** ** The package's timer *)

Record timer : Type := MkTimer { tm_deadline : option Z; tm_timer : option gotimer }.

Abbreviation MT := (M timer).

Definition timer_New (t : option Z) : timer := MkTimer t None.

(** [time.Until(deadline)]: the zero time is far in the past. *)
Definition until (now : Z) (deadline : option Z) : Z :=
  match deadline with Some t => t - now | None => - 2 ^ 63 end.

Definition stopped_and_drained (g : gotimer) : gotimer :=
  let '(running, g) := gt_stop g in if running : bool then g else gt_drain g.

Definition Start (now : Z) : MT () :=
  modify (λ t,
    match tm_timer t with
    | None => MkTimer (tm_deadline t) (Some (gt_new now (until now (tm_deadline t))))
    | Some g => MkTimer (tm_deadline t) (Some (gt_reset now (until now (tm_deadline t)) (stopped_and_drained g)))
    end).

Definition Stop : MT () :=
  modify (λ t,
    match tm_timer t with
    | None => t
    | Some g => MkTimer None (Some (stopped_and_drained g))
    end).

(** Whether the channel that [Wait] returns has a value; [t.timer] must not be nil. *)
Definition Wait : MT bool :=
  t ← get;
  match tm_timer t with
  | None => panic
  | Some g => mret (gt_chan g)
  end.

(** Receiving it. *)
Definition Received : MT () :=
  modify (λ t, MkTimer (tm_deadline t) (gt_drain <$> tm_timer t)).

Definition Reset (u : option Z) : MT () := modify (λ t, MkTimer u (tm_timer t)).

Definition Expired (now : Z) : MT bool :=
  gets (λ t, match tm_deadline t with Some d => bool_decide (d < now) | None => false end).

Definition IsZero : MT bool :=
  gets (λ t, match tm_deadline t with Some _ => false | None => true end).

Definition elapse (now : Z) (t : timer) : timer :=
  MkTimer (tm_deadline t) (gt_elapse now <$> tm_timer t).

(** ** Properties *)

(** A timer that was run has its channel empty while it is running. *)
Definition timer_ok (t : timer) : Prop :=
  ∀ g, tm_timer t = Some g → gt_when g ≠ None → gt_chan g = false.

(** C37: a timer that is given a new deadline and started fires exactly once and exactly
    when that deadline has come: whatever it was doing before (running for another
    deadline, expired and not yet noticed, stopped), no value of the past is left in
    the channel, one appears as soon as the clock reaches the deadline, and after
    it was received none follows.  [Stop] clears both. *)
Theorem started_timer_fires_at_its_deadline (t : timer) (d now later last : Z)
  (Ht : timer_ok t) (Hnow : now ≤ later) (Hlast : later ≤ last) :
  ∃ t', (_ ← Reset (Some d); Start now) t = Ret ((), t') ∧ timer_ok t' ∧
    (∀ b t'', Wait t' = Ret (b, t'') → b = false) ∧
    Wait (elapse later t') = Ret (bool_decide (Z.max d now ≤ later), elapse later t') ∧
    (Z.max d now ≤ later → ∃ t'', Received (elapse later t') = Ret ((), t'') ∧
       Wait (elapse last t'') = Ret (false, elapse last t'')) ∧
    (∃ ts, Stop t' = Ret ((), ts) ∧ Wait (elapse last ts) = Ret (false, elapse last ts) ∧
       Expired last ts = Ret (false, ts)).
Proof.
  assert (∃ g, (_ ← Reset (Some d); Start now) t = Ret ((), MkTimer (Some d) (Some g)) ∧
    gt_when g = Some (Z.max d now) ∧ gt_chan g = false) as (g & -> & Hw & Hc).
  { mpure. unfold Start, modify. simpl. unfold until.
    destruct t as [dl [g|]]; simpl.
    - eexists. split; [reflexivity|]. unfold stopped_and_drained, gt_stop. specialize (Ht g eq_refl).
      destruct (gt_when g) as [w|]; simpl in *; (split; [f_equal; lia|]); [by apply Ht|done].
    - eexists. split; [reflexivity|]. simpl. split; [f_equal; lia|done]. }
  eexists. split; [reflexivity|]. split; [by intros g' [= <-]|].
  split; [intros b t'' Hb; unfold Wait, mbind, M_bind, get, mret, M_ret in Hb; simpl in Hb; by simplify_eq|].
  assert (elapse later (MkTimer (Some d) (Some g)) =
    MkTimer (Some d) (Some (if decide (Z.max d now ≤ later) then GoTimer None true else g))) as El.
  { unfold elapse, gt_elapse. simpl. rewrite Hw. by case_decide. }
  rewrite El. split; [|split].
  - unfold Wait. mpure. simpl. case_decide; case_bool_decide; try done. by rewrite Hc.
  - intros Hd. rewrite decide_True by done. eexists. split; [reflexivity|]. done.
  - unfold Stop, modify. simpl. unfold stopped_and_drained, gt_stop. rewrite Hw. eexists. split; [reflexivity|].
    split; [|done]. unfold elapse, Wait. simpl. mpure. simpl. by rewrite Hc.
Qed.

Lemma started_timer_fires_at_its_deadline_witness :
  ∃ t', (_ ← Reset (Some 50); Start 10) (MkTimer (Some 5) (Some (GoTimer None true))) = Ret ((), t') ∧
    Wait (elapse 49 t') = Ret (false, elapse 49 t').
Proof.
  destruct (started_timer_fires_at_its_deadline (MkTimer (Some 5) (Some (GoTimer None true))) 50 10 49 60)
    as (t' & Hr & _ & _ & Hw & _).
  - by intros g [= <-].
  - lia.
  - lia.
  - exists t'. split; [exact Hr|exact Hw].
Defined.
