(* ===== verification/Kernel.v ===== *)
(** * The system calls the library relies on

    The operating system is a parameter of the model: [Kernel] lists the system calls
    that the poller and the sockets use, [KernelLaws] what their manual pages promise
    as far as the library relies on it.  [script_kernel] is one concrete kernel; it
    shows that the promises can be kept and serves concrete runs. *)

From stdpp Require Import base gmap list numbers.
From S2P Require Import Prelude.

Local Open Scope Z_scope.

(** ** Constants of the Linux interface *)

Definition EPOLLIN : Z := 0x1.
Definition EPOLLPRI : Z := 0x2.
Definition EPOLLOUT : Z := 0x4.
Definition EPOLLERR : Z := 0x8.
Definition EPOLLHUP : Z := 0x10.
Definition EPOLLRDHUP : Z := 0x2000.

Definition EPOLL_CTL_ADD : Z := 1.
Definition EPOLL_CTL_DEL : Z := 2.
Definition EPOLL_CTL_MOD : Z := 3.

Definition ENOENT : Z := 2.
Definition EINTR : Z := 4.
Definition EAGAIN : Z := 11.
Definition EEXIST : Z := 17.
Definition EMSGSIZE : Z := 90.

(** The most one call transfers (read(2), write(2)). *)
Definition MAX_RW_COUNT : Z := 0x7ffff000.

(** Addresses of [poller.Desc] objects, as stored in the data word of an event. *)
Abbreviation dloc := positive.

(** ** The interface *)

(** Results are error numbers, zero for success. *)
Class Kernel (W : Type) := {
  (** epoll_ctl(epfd, op, fd, event) *)
  k_epoll_ctl : Z → Z → Z → option (Z * dloc) → W → Z * W;
  (** writev(fd, iov): the bytes taken, or an error number *)
  k_writev : Z → list (list byte) → W → result Z Z * W;
  (** readv(fd, iov): the bytes received into vectors of these lengths *)
  k_readv : Z → list Z → W → result Z (list byte) * W;
  (** close(fd) *)
  k_close : Z → W → Z * W;
  (** epoll_create1, eventfd: a new descriptor, or an error number *)
  k_epoll_create1 : W → result Z Z * W;
  k_eventfd : W → result Z Z * W;
  (** read and write on an eventfd: an error number *)
  k_read : Z → W → Z * W;
  k_write : Z → W → Z * W
}.

(** What can be observed of it: the events a descriptor is registered for with an
    epoll instance, and the bytes a socket has taken and delivered. *)
Class KernelLaws (W : Type) `{Kernel W} := {
  k_interest : W → Z → Z → option (Z * dloc);
  k_sent : W → Z → list byte;
  k_received : W → Z → list byte;

  epoll_ctl_ok ep op fd ev w w' :
    k_epoll_ctl ep op fd ev w = (0, w') →
    (op = EPOLL_CTL_ADD ∨ op = EPOLL_CTL_MOD → k_interest w' ep fd = ev) ∧
    (op = EPOLL_CTL_DEL → k_interest w' ep fd = None) ∧
    (∀ ep' fd', (ep', fd') ≠ (ep, fd) → k_interest w' ep' fd' = k_interest w ep' fd') ∧
    (∀ fd, k_sent w' fd = k_sent w fd) ∧ (∀ fd, k_received w' fd = k_received w fd);
  epoll_ctl_fail ep op fd ev w e w' :
    k_epoll_ctl ep op fd ev w = (e, w') → e ≠ 0 →
    (∀ ep' fd', k_interest w' ep' fd' = k_interest w ep' fd') ∧
    (∀ fd, k_sent w' fd = k_sent w fd) ∧ (∀ fd, k_received w' fd = k_received w fd);

  writev_ok fd iov w k w' :
    k_writev fd iov w = (Ok k, w') →
    0 ≤ k ≤ zlen (concat iov) ∧ k ≤ MAX_RW_COUNT ∧ k_sent w' fd = k_sent w fd ++ ztake k (concat iov);
  writev_fail fd iov w e w' : k_writev fd iov w = (Err e, w') → k_sent w' fd = k_sent w fd;
  writev_frame fd iov w r w' :
    k_writev fd iov w = (r, w') →
    (∀ ep fd', k_interest w' ep fd' = k_interest w ep fd') ∧
    (∀ fd', k_received w' fd' = k_received w fd') ∧
    (∀ fd', fd' ≠ fd → k_sent w' fd' = k_sent w fd');

  readv_ok fd lens w d w' :
    k_readv fd lens w = (Ok d, w') →
    zlen d ≤ sumZ lens ∧ zlen d ≤ MAX_RW_COUNT ∧ k_received w' fd = k_received w fd ++ d;
  readv_fail fd lens w e w' : k_readv fd lens w = (Err e, w') → k_received w' fd = k_received w fd;
  readv_frame fd lens w r w' :
    k_readv fd lens w = (r, w') →
    (∀ ep fd', k_interest w' ep fd' = k_interest w ep fd') ∧
    (∀ fd', k_sent w' fd' = k_sent w fd') ∧
    (∀ fd', fd' ≠ fd → k_received w' fd' = k_received w fd')
}.

(** ** A scripted kernel

    Every socket takes what a script says (an error number, or how many bytes it
    has room for) and delivers the chunks of a script, split as the reader's
    vectors require.  An exhausted script says [EAGAIN]. *)
Record script : Type := Script {
  sk_interest : gmap (Z * Z) (Z * dloc);
  sk_tx : list (result Z Z);
  sk_rx : list (result Z (list byte));
  sk_sent : gmap Z (list byte);
  sk_received : gmap Z (list byte)
}.

Definition script_epoll_ctl (ep op fd : Z) (ev : option (Z * dloc)) (w : script) : Z * script :=
  let upd m := Script m (sk_tx w) (sk_rx w) (sk_sent w) (sk_received w) in
  if decide (op = EPOLL_CTL_DEL) then
    match sk_interest w !! (ep, fd) with
    | Some _ => (0, upd (delete (ep, fd) (sk_interest w)))
    | None => (ENOENT, w)
    end
  else
    match ev, sk_interest w !! (ep, fd) with
    | Some x, None => if decide (op = EPOLL_CTL_ADD) then (0, upd (<[(ep, fd) := x]> (sk_interest w))) else (ENOENT, w)
    | Some x, Some _ => if decide (op = EPOLL_CTL_MOD) then (0, upd (<[(ep, fd) := x]> (sk_interest w))) else (EEXIST, w)
    | None, _ => (ENOENT, w)
    end.

Definition script_writev (fd : Z) (iov : list (list byte)) (w : script) : result Z Z * script :=
  match sk_tx w with
  | [] => (Err EAGAIN, w)
  | Err e :: tx => (Err e, Script (sk_interest w) tx (sk_rx w) (sk_sent w) (sk_received w))
  | Ok n :: tx =>
      let k := Z.max 0 (Z.min (Z.min n MAX_RW_COUNT) (zlen (concat iov))) in
      (Ok k, Script (sk_interest w) tx (sk_rx w)
               (<[fd := default [] (sk_sent w !! fd) ++ ztake k (concat iov)]> (sk_sent w)) (sk_received w))
  end.

Definition script_readv (fd : Z) (lens : list Z) (w : script) : result Z (list byte) * script :=
  match sk_rx w with
  | [] => (Err EAGAIN, w)
  | Err e :: rx => (Err e, Script (sk_interest w) (sk_tx w) rx (sk_sent w) (sk_received w))
  | Ok d :: rx =>
      let k := Z.max 0 (Z.min MAX_RW_COUNT (sumZ lens)) in
      let rest := zdrop k d in
      (if decide (sumZ lens < 0) then Err EAGAIN else Ok (ztake k d),
       if decide (sumZ lens < 0) then w
       else Script (sk_interest w) (sk_tx w) (if decide (rest = []) then rx else Ok rest :: rx) (sk_sent w)
              (<[fd := default [] (sk_received w !! fd) ++ ztake k d]> (sk_received w)))
  end.

#[export] Instance script_kernel : Kernel script := {
  k_epoll_ctl := script_epoll_ctl;
  k_writev := script_writev;
  k_readv := script_readv;
  k_close _ w := (0, w);
  k_epoll_create1 w := (Ok 3, w);
  k_eventfd w := (Ok 4, w);
  k_read _ w := (0, w);
  k_write _ w := (0, w)
}.

#[export] Instance script_laws : KernelLaws script.
Proof.
  refine {| k_interest w ep fd := sk_interest w !! (ep, fd);
            k_sent w fd := default [] (sk_sent w !! fd);
            k_received w fd := default [] (sk_received w !! fd) |}; simpl.
  - intros ep op fd ev w w'. unfold script_epoll_ctl. intros Hr.
    destruct (decide (op = EPOLL_CTL_DEL)) as [->|Hop].
    + destruct (sk_interest w !! (ep, fd)); [|done]. simplify_eq/=. split; [intros [?|?]; done|].
      split; [intros _; apply lookup_delete_eq|]. split; [|done].
      intros ep' fd' Hne. by rewrite lookup_delete_ne by congruence.
    + destruct ev as [x|]; [|done].
      assert (∃ m, m = <[(ep, fd) := x]> (sk_interest w) ∧
        w' = Script m (sk_tx w) (sk_rx w) (sk_sent w) (sk_received w)) as (m & -> & ->).
      { destruct (sk_interest w !! (ep, fd)); case_decide; simplify_eq/=; by eexists. }
      simpl. split; [intros _; apply lookup_insert_eq|]. split; [done|]. split; [|done].
      intros ep' fd' Hne. by rewrite lookup_insert_ne by congruence.
  - intros ep op fd ev w e w'. unfold script_epoll_ctl. intros Hr He.
    repeat (case_match; simplify_eq/=; try done).
  - intros fd iov w k w'. unfold script_writev. destruct (sk_tx w) as [|[n|e] tx]; intros Hr; simplify_eq/=.
    pose proof (zlen_nonneg (concat iov)). unfold MAX_RW_COUNT. split; [lia|]. split; [lia|]. by rewrite lookup_insert_eq.
  - intros fd iov w e w'. unfold script_writev. destruct (sk_tx w) as [|[n|?] tx]; intros Hr; by simplify_eq/=.
  - intros fd iov w r w'. unfold script_writev. destruct (sk_tx w) as [|[n|e] tx]; intros Hr; simplify_eq/=; try done.
    split; [done|]. split; [done|]. intros fd' Hne. by rewrite lookup_insert_ne by done.
  - intros fd lens w d w'. unfold script_readv. destruct (sk_rx w) as [|[x|e] rx]; intros Hr; simplify_eq/=.
    case_decide; [done|]. simplify_eq/=. rewrite lookup_insert_eq. unfold MAX_RW_COUNT in *.
    unfold zlen, ztake. rewrite length_take. split; [lia|]. split; [lia|done].
  - intros fd lens w e w'. unfold script_readv. destruct (sk_rx w) as [|[x|?] rx]; intros Hr; simplify_eq/=; try done.
    by case_decide; simplify_eq/=.
  - intros fd lens w r w'. unfold script_readv. destruct (sk_rx w) as [|[x|e] rx]; intros Hr; simplify_eq/=; try done.
    case_decide; simplify_eq/=; [done|]. split; [done|]. split; [done|].
    intros fd' Hne. by rewrite lookup_insert_ne by done.
Defined.
