(* ===== verification/DescCache.v ===== *)
(** * The cache of poller descriptors (src/internal/poller/desc.go, desc_cache.go)

    The kernel stores raw pointers to [Desc] objects, so they are never garbage:
    [descCache] keeps them all and recycles them.  A descriptor is given back in two
    steps: [markFree] only notes its index; a poller that has served all the events
    it knows of calls [free], which resets the noted ones and puts them back on the
    free chain.  The file proves that no descriptor is ever handed out twice. *)

From stdpp Require Import base gmap sets list numbers.
From S2P Require Import Prelude Kernel.

Local Open Scope Z_scope.

Section DescCache.

(** The values stored in [Data] (connections), the names of callbacks. *)
Context {D CB : Type}.
(** unsafe.Sizeof(Desc{}) *)
Variable pdSize : Z.

Record Desc : Type := MkDesc {
  d_next : option dloc;
  d_poller : option nat;
  d_index : Z;
  d_Data : option D;
  d_OnRead : option CB;
  d_OnWrite : option CB;
  d_OnHup : option CB;
  d_FD : Z
}.

Definition set_next (v : option dloc) (d : Desc) : Desc :=
  MkDesc v (d_poller d) (d_index d) (d_Data d) (d_OnRead d) (d_OnWrite d) (d_OnHup d) (d_FD d).
Definition set_poller (v : option nat) (d : Desc) : Desc :=
  MkDesc (d_next d) v (d_index d) (d_Data d) (d_OnRead d) (d_OnWrite d) (d_OnHup d) (d_FD d).
Definition set_FD (v : Z) (d : Desc) : Desc :=
  MkDesc (d_next d) (d_poller d) (d_index d) (d_Data d) (d_OnRead d) (d_OnWrite d) (d_OnHup d) v.

(** [Desc.reset] *)
Definition desc_reset (d : Desc) : Desc :=
  MkDesc (d_next d) None (d_index d) None None None None 0.

Record descCache : Type := DescCache {
  dc_first : option dloc;
  dc_cache : list dloc;
  dc_freeList : list Z;
  dc_heap : gmap dloc Desc;
  dc_fresh : dloc
}.

Abbreviation MD := (M descCache).

Definition init_cache : descCache := DescCache None [] [] ∅ 1%positive.

Definition set_first v dc := DescCache v (dc_cache dc) (dc_freeList dc) (dc_heap dc) (dc_fresh dc).
Definition set_freeList v dc := DescCache (dc_first dc) (dc_cache dc) v (dc_heap dc) (dc_fresh dc).
Definition set_dheap v dc := DescCache (dc_first dc) (dc_cache dc) (dc_freeList dc) v (dc_fresh dc).

Definition load_desc (p : dloc) : MD Desc := λ dc,
  match dc_heap dc !! p with Some d => Ret (d, dc) | None => Panic end.

Definition upd_desc (p : dloc) (f : Desc → Desc) : MD () :=
  modify (λ dc, set_dheap (alter f p (dc_heap dc)) dc).

Definition pollBlockSize : Z := 4 * 1024.

(** The loop that makes a block of descriptors. *)
Fixpoint new_descs (n : nat) (index : Z) : MD () :=
  match n with
  | O => mret ()
  | S n =>
      _ ← modify (λ dc,
            let pd := dc_fresh dc in
            DescCache (Some pd) (dc_cache dc ++ [pd]) (dc_freeList dc)
              (<[pd := MkDesc (dc_first dc) None index None None None None 0]> (dc_heap dc))
              (Pos.succ pd));
      new_descs n (i32 (index + 1))
  end.

Definition block_descs : Z :=
  let n := pollBlockSize `quot` pdSize in if decide (n = 0) then 1 else n.

Definition alloc : MD dloc :=
  dc ← get;
  _ ← (match dc_first dc with
       | None => new_descs (Z.to_nat block_descs) (i32 (zlen (dc_cache dc)))
       | Some _ => mret ()
       end);
  dc ← get;
  match dc_first dc with
  | None => panic
  | Some pd =>
      d ← load_desc pd;
      _ ← modify (set_first (d_next d));
      mret pd
  end.

Definition markFree (pd : dloc) : MD () :=
  d ← load_desc pd;
  modify (λ dc, set_freeList (dc_freeList dc ++ [d_index d]) dc).

Fixpoint free_descs (is_ : list Z) : MD () :=
  match is_ with
  | [] => mret ()
  | i :: is_ =>
      dc ← get;
      match (if decide (i < 0) then None else dc_cache dc !! Z.to_nat i) with
      | None => panic
      | Some pd =>
          _ ← upd_desc pd desc_reset;
          _ ← upd_desc pd (set_next (dc_first dc));
          _ ← modify (set_first (Some pd));
          free_descs is_
      end
  end.

Definition dc_free : MD () :=
  dc ← get;
  if decide (dc_freeList dc = []) then mret ()
  else
    _ ← free_descs (dc_freeList dc);
    modify (set_freeList []).

(** The functions on the cache of the process. *)
Definition NewDesc : MD dloc := alloc.
Definition FreeDesc (pd : dloc) : MD () := markFree pd.
Definition freeDesc : MD () := dc_free.

(** ** Invariant *)

(** The chain of free descriptors. *)
Inductive chained (h : gmap dloc Desc) : option dloc → list dloc → Prop :=
| chained_nil : chained h None []
| chained_cons p d ps :
    h !! p = Some d → d = desc_reset d → chained h (d_next d) ps → chained h (Some p) (p :: ps).

(** [free] descriptors on the chain, [marked] ones to be recycled, and [inuse] ones. *)
Record dc_wf (dc : descCache) (free marked : list dloc) (inuse : gset dloc) : Prop := {
  dk_chain : chained (dc_heap dc) (dc_first dc) free;
  dk_nodup : NoDup (free ++ marked);
  dk_inuse p : p ∈ inuse → p ∉ free ++ marked ∧ p ∈ dc_cache dc;
  dk_cache p : p ∈ free ++ marked → p ∈ dc_cache dc;
  dk_index i p : dc_cache dc !! i = Some p → ∃ d, dc_heap dc !! p = Some d ∧ d_index d = Z.of_nat i;
  dk_size : zlen (dc_cache dc) < 2 ^ 31;
  dk_fresh p : is_Some (dc_heap dc !! p) → (p < dc_fresh dc)%positive
}.

(** The index of a descriptor, and the invariant with the free list. *)
Definition index_of (h : gmap dloc Desc) (p : dloc) : Z := default (-1) (d_index <$> h !! p).

Definition dc_ok (dc : descCache) (free marked : list dloc) (inuse : gset dloc) : Prop :=
  dc_wf dc free marked inuse ∧ dc_freeList dc = map (index_of (dc_heap dc)) marked.

(** Fewer descriptors than the 32 bit index can name: the memory bound. *)
Definition dc_room (dc : descCache) : Prop := zlen (dc_cache dc) + block_descs < 2 ^ 31.

Implicit Types dc : descCache.
Implicit Types p q : dloc.

Lemma chained_insert h o ps p d : p ∉ ps → chained h o ps → chained (<[p := d]> h) o ps.
Proof.
  intros Hp Hc. induction Hc as [|q e qs Hq He Hc IH]; [constructor|].
  apply not_elem_of_cons in Hp as [? Hp]. econstructor; [|exact He|by apply IH].
  by rewrite lookup_insert_ne.
Qed.

Lemma chained_alter h o ps p f : p ∉ ps → chained h o ps → chained (alter f p h) o ps.
Proof.
  intros Hp Hc. induction Hc as [|q e qs Hq He Hc IH]; [constructor|].
  apply not_elem_of_cons in Hp as [? Hp]. econstructor; [|exact He|by apply IH].
  by rewrite lookup_alter_ne.
Qed.

Lemma dk_known dc free marked inuse p :
  dc_wf dc free marked inuse → p ∈ dc_cache dc → ∃ d, dc_heap dc !! p = Some d.
Proof.
  intros H [i Hi]%list_elem_of_lookup. destruct (dk_index _ _ _ _ H i p Hi) as (d & ? & _). by exists d.
Qed.

(** One new descriptor. *)
Lemma new_desc_ok dc free marked inuse :
  dc_ok dc free marked inuse → zlen (dc_cache dc) + 1 < 2 ^ 31 →
  dc_ok (DescCache (Some (dc_fresh dc)) (dc_cache dc ++ [dc_fresh dc]) (dc_freeList dc)
           (<[dc_fresh dc := MkDesc (dc_first dc) None (zlen (dc_cache dc)) None None None None 0]>
              (dc_heap dc)) (Pos.succ (dc_fresh dc)))
        (dc_fresh dc :: free) marked inuse.
Proof.
  intros [H Hm] Hsz. set (pd := dc_fresh dc).
  assert (∀ p, p ∈ dc_cache dc → p ≠ pd) as Hne.
  { intros p Hp ->. destruct (dk_known _ _ _ _ _ H Hp) as [d Hd].
    pose proof (dk_fresh _ _ _ _ H pd ltac:(by eexists)). unfold pd in *. lia. }
  assert (pd ∉ free ++ marked) as Hni by (intros Hin; by apply (Hne pd (dk_cache _ _ _ _ H _ Hin))).
  destruct H as [Hc Hnd Hu Hk Hi Hs Hf]. split; [split; simpl|simpl].
  - econstructor; [apply lookup_insert_eq|done|]. simpl. apply chained_insert; [set_solver|done].
  - apply list.NoDup_cons. done.
  - intros p Hp. destruct (Hu p Hp) as [? ?]. split; [|set_solver]. pose proof (Hne p). set_solver.
  - intros p Hp. apply elem_of_cons in Hp as [->|Hp]; [set_solver|]. pose proof (Hk p Hp). set_solver.
  - intros i p Hp. apply lookup_app_Some in Hp as [Hp|[Hlen Hp]].
    + assert (p ∈ dc_cache dc) by (by eapply list_elem_of_lookup_2).
      rewrite lookup_insert_ne by (symmetry; by apply Hne). by apply Hi.
    + apply list_lookup_singleton_Some in Hp as [Hz <-]. rewrite lookup_insert_eq. eexists. split; [done|].
      simpl. unfold zlen. lia.
  - rewrite zlen_app. unfold zlen in *. simpl. lia.
  - intros p. destruct (decide (p = pd)) as [->|]; [unfold pd; lia|].
    rewrite lookup_insert_ne by done. intros Hp%Hf. unfold pd. lia.
  - rewrite Hm. apply map_ext_in. intros p Hp%list_elem_of_In. unfold index_of.
    rewrite lookup_insert_ne; [done|]. intros <-. set_solver.
Qed.

Lemma new_descs_ok n dc free marked inuse :
  dc_ok dc free marked inuse → zlen (dc_cache dc) + Z.of_nat n < 2 ^ 31 →
  ∃ dc' new, new_descs n (i32 (zlen (dc_cache dc))) dc = Ret ((), dc') ∧
    dc_ok dc' (new ++ free) marked inuse ∧ length new = n ∧
    zlen (dc_cache dc') = zlen (dc_cache dc) + Z.of_nat n.
Proof.
  revert dc free. induction n as [|n IH]; intros dc free H Hsz; [exists dc, []; split_and!; try done; lia|].
  pose proof (zlen_nonneg (dc_cache dc)). rewrite i32_small by lia.
  pose proof (new_desc_ok _ _ _ _ H ltac:(lia)) as H1. cbn [new_descs]. mpure.
  edestruct (IH _ _ H1) as (dc' & new & Hr & H' & Hl & Hz).
  { simpl. zlen_lia. }
  simpl in Hr, Hz. rewrite zlen_app, zlen_cons, zlen_nil in Hr, Hz. rewrite Z.add_0_r in Hr.
  exists dc', (new ++ [dc_fresh dc]). split; [exact Hr|]. rewrite <-app_assoc. split; [done|].
  rewrite length_app. simpl. split; lia.
Qed.

Lemma block_descs_pos : 0 < pdSize → 0 < block_descs.
Proof.
  intros. unfold block_descs. case_decide; [lia|].
  assert (0 ≤ pollBlockSize `quot` pdSize) by (apply Z.quot_pos; unfold pollBlockSize; lia). lia.
Qed.

(** [alloc] hands out a descriptor that nobody else has, clean but for its index. *)
Lemma alloc_ok dc free marked inuse :
  0 < pdSize → dc_ok dc free marked inuse → dc_room dc →
  ∃ p d dc' free', alloc dc = Ret (p, dc') ∧ p ∉ inuse ∧ p ∉ marked ∧
    dc_ok dc' free' marked ({[p]} ∪ inuse) ∧ dc_heap dc' !! p = Some d ∧ d = desc_reset d ∧
    zlen (dc_cache dc') ≤ zlen (dc_cache dc) + block_descs.
Proof.
  intros Hpd H Hroom. unfold alloc. mpure.
  pose proof (block_descs_pos Hpd) as Hb.
  set (grow := match dc_first dc with Some _ => _ | None => _ end).
  assert (∃ dc1 p free1, grow dc = Ret ((), dc1) ∧ dc_ok dc1 (p :: free1) marked inuse ∧
     zlen (dc_cache dc1) ≤ zlen (dc_cache dc) + block_descs) as (dc1 & p & free1 & Hr1 & H1 & Hl1).
  { unfold grow. clear grow. destruct (dc_first dc) as [p|] eqn:Ef.
    - destruct free as [|p' free]; [pose proof (dk_chain _ _ _ _ (proj1 H)) as Hc; rewrite Ef in Hc; inversion Hc|].
      exists dc, p', free. split; [done|]. split; [done|lia].
    - destruct (new_descs_ok (Z.to_nat block_descs) dc free marked inuse H) as (dc1 & new & Hr & H1 & Hl & Hz).
      { unfold dc_room in Hroom. lia. }
      destruct new as [|p new]; [simpl in Hl; lia|].
      exists dc1, p, (new ++ free). split; [exact Hr|]. split; [done|]. rewrite Hz, Z2Nat.id by lia. lia. }
  erewrite bind_Ret by exact Hr1. mpure.
  destruct H1 as [H1 Hm]. pose proof (dk_chain _ _ _ _ H1) as Hc. inversion Hc as [|p' d ps Hp Hd Hrest Eo]; subst p' ps.
  unfold load_desc. erewrite bind_Ret by (by rewrite Hp). mpure.
  destruct H1 as [_ Hnd Hu Hk Hi Hs Hf].
  apply list.NoDup_cons in Hnd as [Hni Hnd].
  eexists p, d, _, free1. split; [reflexivity|].
  split; [intros Hin; destruct (Hu p Hin) as [Hn _]; set_solver|].
  split; [set_solver|]. split; [|done]. split; [split; simpl; try done|exact Hm].
  - intros q [->%elem_of_singleton|Hq]%elem_of_union; [split; [done|apply Hk; set_solver]|].
    destruct (Hu q Hq) as [? ?]. set_solver.
  - intros q Hq. apply Hk. set_solver.
Qed.

(** [markFree] of a descriptor in use. *)
Lemma markFree_ok dc free marked inuse p :
  dc_ok dc free marked inuse → p ∈ inuse →
  ∃ dc', markFree p dc = Ret ((), dc') ∧ dc_ok dc' free (marked ++ [p]) (inuse ∖ {[p]}) ∧
         dc_cache dc' = dc_cache dc.
Proof.
  intros [H Hm] Hp. destruct (dk_inuse _ _ _ _ H p Hp) as [Hni Hpc].
  destruct (dk_known _ _ _ _ _ H Hpc) as [d Hd]. unfold markFree, load_desc.
  erewrite bind_Ret by (by rewrite Hd). eexists. split; [reflexivity|]. split; [|done].
  destruct H as [Hc Hnd Hu Hk Hi Hs Hf]. split; [split; simpl; try done|simpl].
  - rewrite app_assoc. apply list.NoDup_app. split; [done|]. split; [set_solver|]. apply NoDup_singleton.
  - intros q [Hq Hne]%elem_of_difference. destruct (Hu q Hq) as [? ?]. split; [|done].
    rewrite app_assoc. set_solver.
  - intros q Hq. rewrite app_assoc in Hq. apply elem_of_app in Hq as [Hq|Hq]; [by apply Hk|]. set_solver.
  - rewrite Hm, map_app. simpl. unfold index_of at 3. by rewrite Hd.
Qed.

(** Recycling one descriptor. *)
Lemma free_desc_ok dc free marked inuse p idx :
  dc_wf dc free (p :: marked) inuse →
  ∃ dc', free_descs (index_of (dc_heap dc) p :: idx) dc = free_descs idx dc' ∧
    dc_wf dc' (p :: free) marked inuse ∧
    (∀ q, index_of (dc_heap dc') q = index_of (dc_heap dc) q) ∧ dc_cache dc' = dc_cache dc.
Proof.
  intros H. assert (p ∈ dc_cache dc) as Hpc by (apply (dk_cache _ _ _ _ H); set_solver).
  apply list_elem_of_lookup in Hpc as [i Hi]. cbn [free_descs].
  destruct (dk_index _ _ _ _ H i p Hi) as (d & Hd & Hix).
  assert (index_of (dc_heap dc) p = Z.of_nat i) as -> by (unfold index_of; by rewrite Hd).
  mpure. rewrite decide_False by lia. rewrite Nat2Z.id, Hi.
  mpure. mpure. mpure.
  eexists. split; [reflexivity|]. simpl.
  assert (∀ q, d_index <$> alter (set_next (dc_first dc)) p (alter desc_reset p (dc_heap dc)) !! q =
               d_index <$> dc_heap dc !! q) as Hsame.
  { intros q. destruct (decide (p = q)) as [<-|]; [|by rewrite !lookup_alter_ne].
    rewrite !lookup_alter_eq, Hd. done. }
  split; [|split; [intros q; unfold index_of; by rewrite Hsame|done]].
  destruct H as [Hc Hnd Hu Hk Hin Hs Hf].
  apply list.NoDup_app in Hnd as (N1 & N2 & N3). apply list.NoDup_cons in N3 as [Hpm N3].
  assert (p ∉ free) as Hpf by (intros Hx; apply (N2 p Hx); set_solver).
  split; simpl; try done.
  - econstructor; [by rewrite !lookup_alter_eq, Hd|done|]. simpl.
    apply chained_alter; [done|]. by apply chained_alter.
  - apply list.NoDup_cons. split; [set_solver|]. apply list.NoDup_app. split; [done|]. split; [|done]. set_solver.
  - intros q Hq. destruct (Hu q Hq) as [? ?]. set_solver.
  - intros q Hq. apply Hk. set_solver.
  - intros j q Hq. destruct (Hin j q Hq) as (e & He & Hei). specialize (Hsame q). rewrite He in Hsame.
    apply fmap_Some in Hsame as (e' & He' & E). exists e'. split; [done|]. congruence.
  - intros q [e Hq]. apply Hf. specialize (Hsame q). rewrite Hq in Hsame.
    symmetry in Hsame. apply fmap_Some in Hsame as (e' & ? & _). by eexists.
Qed.

Lemma free_descs_ok marked dc free inuse :
  dc_wf dc free marked inuse →
  ∃ dc', free_descs (map (index_of (dc_heap dc)) marked) dc = Ret ((), dc') ∧
    dc_wf dc' (reverse marked ++ free) [] inuse ∧ dc_cache dc' = dc_cache dc.
Proof.
  revert dc free. induction marked as [|p marked IH]; intros dc free H; [by exists dc|].
  destruct (free_desc_ok _ _ _ _ _ (map (index_of (dc_heap dc)) marked) H) as (dc1 & Hr & H1 & Hsame & Hca).
  cbn [map]. rewrite Hr. destruct (IH _ _ H1) as (dc2 & Hr2 & H2 & Hca2).
  rewrite (map_ext _ _ Hsame) in Hr2. exists dc2. split; [done|]. split; [|congruence].
  by rewrite reverse_cons, <-app_assoc.
Qed.

(** [free] puts the marked descriptors, and no others, back on the chain. *)
Lemma dc_free_ok dc free marked inuse :
  dc_ok dc free marked inuse →
  ∃ dc', dc_free dc = Ret ((), dc') ∧ dc_ok dc' (reverse marked ++ free) [] inuse ∧
         dc_cache dc' = dc_cache dc.
Proof.
  intros [H Hm]. unfold dc_free. mpure. case_decide as He.
  - rewrite He in Hm. destruct marked; [|done]. exists dc. split; [done|]. by split.
  - destruct (free_descs_ok _ _ _ _ H) as (dc1 & Hr & H1 & Hca). rewrite Hm.
    erewrite bind_Ret by exact Hr. eexists. split; [reflexivity|]. split; [|exact Hca].
    by destruct H1.
Qed.

(** The owner of a descriptor sets its fields. *)
Lemma upd_desc_ok dc free marked inuse p f :
  dc_ok dc free marked inuse → p ∈ inuse → (∀ d, d_index (f d) = d_index d) →
  ∃ dc', upd_desc p f dc = Ret ((), dc') ∧ dc_ok dc' free marked inuse ∧ dc_cache dc' = dc_cache dc ∧
         dc_heap dc' !! p = f <$> dc_heap dc !! p.
Proof.
  intros [H Hm] Hp Hfi. eexists. split; [reflexivity|]. simpl. split; [|split; [done|apply lookup_alter_eq]].
  destruct (dk_inuse _ _ _ _ H p Hp) as [Hni Hpc].
  assert (∀ q, d_index <$> alter f p (dc_heap dc) !! q = d_index <$> dc_heap dc !! q) as Hsame.
  { intros q. destruct (decide (p = q)) as [<-|]; [|by rewrite lookup_alter_ne].
    rewrite lookup_alter_eq. destruct (dc_heap dc !! p); simpl; [by rewrite Hfi|done]. }
  destruct H as [Hc Hnd Hu Hk Hin Hs Hf]. split; [split; simpl; try done|simpl].
  - apply chained_alter; [set_solver|done].
  - intros j q Hq. destruct (Hin j q Hq) as (e & He & Hei). specialize (Hsame q). rewrite He in Hsame.
    apply fmap_Some in Hsame as (e' & He' & E). exists e'. split; [done|]. congruence.
  - intros q [e Hq]. apply Hf. specialize (Hsame q). rewrite Hq in Hsame.
    symmetry in Hsame. apply fmap_Some in Hsame as (e' & ? & _). by eexists.
  - rewrite Hm. apply map_ext. intros q. unfold index_of. by rewrite Hsame.
Qed.

Lemma init_cache_ok : dc_ok init_cache [] [] ∅.
Proof.
  split; [|done]. split; simpl.
  - constructor.
  - constructor.
  - set_solver.
  - done.
  - done.
  - done.
  - intros p [? Hp]. by rewrite lookup_empty in Hp.
Qed.

(** ** Histories of the cache *)

(** The pollers and connections at work: [alloc] makes a descriptor one in use, its
    owner sets its fields and finally marks it; any poller may call [free]. *)
Inductive dc_reach : descCache → gset dloc → Prop :=
| DR_init : dc_reach init_cache ∅
| DR_alloc dc inuse p dc' :
    dc_reach dc inuse → dc_room dc → alloc dc = Ret (p, dc') → dc_reach dc' ({[p]} ∪ inuse)
| DR_set dc inuse p f dc' :
    dc_reach dc inuse → p ∈ inuse → (∀ d, d_index (f d) = d_index d) →
    upd_desc p f dc = Ret ((), dc') → dc_reach dc' inuse
| DR_mark dc inuse p dc' :
    dc_reach dc inuse → p ∈ inuse → markFree p dc = Ret ((), dc') → dc_reach dc' (inuse ∖ {[p]})
| DR_free dc inuse dc' : dc_reach dc inuse → dc_free dc = Ret ((), dc') → dc_reach dc' inuse.

Lemma dc_reach_ok dc inuse :
  0 < pdSize → dc_reach dc inuse → ∃ free marked, dc_ok dc free marked inuse.
Proof.
  intros Hpd. induction 1 as [|dc inuse p dc' _ (free & marked & H) Hroom Hr|dc inuse p f dc' _ (free & marked & H) Hp Hf Hr
    |dc inuse p dc' _ (free & marked & H) Hp Hr|dc inuse dc' _ (free & marked & H) Hr].
  - exists [], []. apply init_cache_ok.
  - destruct (alloc_ok _ _ _ _ Hpd H Hroom) as (p' & d & dc1 & free' & Hr' & _ & _ & H' & _).
    rewrite Hr in Hr'. simplify_eq. by exists free', marked.
  - destruct (upd_desc_ok _ _ _ _ _ f H Hp Hf) as (dc1 & Hr' & H' & _). rewrite Hr in Hr'. simplify_eq.
    by exists free, marked.
  - destruct (markFree_ok _ _ _ _ _ H Hp) as (dc1 & Hr' & H' & _). rewrite Hr in Hr'. simplify_eq. eauto.
  - destruct (dc_free_ok _ _ _ _ H) as (dc1 & Hr' & H' & _). rewrite Hr in Hr'. simplify_eq. eauto.
Qed.

(** C36: whatever the history of allocations, field updates, [markFree] by owners and
    [free] by pollers, [alloc] returns a descriptor that no one else has in use, and it
    carries nothing of a former life (no poller, data or callback, file descriptor 0);
    [markFree] of a descriptor in use and [free] never panic. *)
Theorem desc_cache_never_shares (dc : descCache) (inuse : gset dloc)
  (Hpd : 0 < pdSize) (Hr : dc_reach dc inuse) (Hroom : dc_room dc) :
  (∃ p dc' i n, alloc dc = Ret (p, dc') ∧ p ∉ inuse ∧
     dc_heap dc' !! p = Some (MkDesc n None i None None None None 0)) ∧
  (∀ p, p ∈ inuse → ∃ dc', markFree p dc = Ret ((), dc')) ∧
  (∃ dc', dc_free dc = Ret ((), dc') ∧ dc_freeList dc' = []).
Proof.
  destruct (dc_reach_ok _ _ Hpd Hr) as (free & marked & H). split; [|split].
  - destruct (alloc_ok _ _ _ _ Hpd H Hroom) as (p & d & dc1 & free' & Hr' & Hp & _ & _ & Hd & Hc & _).
    exists p, dc1, (d_index d), (d_next d). split; [done|]. split; [done|]. by rewrite Hd, Hc.
  - intros p Hp. destruct (markFree_ok _ _ _ _ _ H Hp) as (dc1 & ? & _). by exists dc1.
  - destruct (dc_free_ok _ _ _ _ H) as (dc1 & ? & [_ H'] & _). by exists dc1.
Qed.

End DescCache.

Arguments Desc : clear implicits.
Arguments descCache : clear implicits.

(** Three descriptors per block; one in use, one marked. *)
Definition demo_cache : outcome (dloc * descCache nat nat) :=
  (p ← alloc 1200; q ← alloc 1200; _ ← markFree q; mret p) init_cache.

Lemma desc_cache_never_shares_witness :
  ∃ dc, demo_cache = Ret (3%positive, dc) ∧
    ∃ p dc' i n, alloc 1200 dc = Ret (p, dc') ∧ p ∉ ({[3%positive]} : gset dloc) ∧
      dc_heap dc' !! p = Some (MkDesc n None i None None None None 0).
Proof.
  assert (∃ dc, demo_cache = Ret (3%positive, dc) ∧ dc_reach 1200 dc {[3%positive]} ∧ dc_room 1200 dc)
    as (dc & Hr & Hre & Hroom).
  { destruct (alloc 1200 (init_cache (D := nat) (CB := nat))) as [[p1 dc1]| |] eqn:E1; [|vm_compute in E1; done..].
    destruct (alloc 1200 dc1) as [[p2 dc2]| |] eqn:E2;
      [|vm_compute in E1; injection E1 as <- <-; vm_compute in E2; done..].
    destruct (markFree p2 dc2) as [[[] dc3]| |] eqn:E3;
      [|vm_compute in E1; injection E1 as <- <-; vm_compute in E2; injection E2 as <- <-; vm_compute in E3; done..].
    assert (dc_reach 1200 dc3 (({[p2]} ∪ ({[p1]} ∪ ∅)) ∖ {[p2]})) as Hre.
    { eapply DR_mark; [|set_solver|exact E3]. eapply DR_alloc; [|..|exact E2].
      - eapply DR_alloc; [apply DR_init|vm_compute; done|exact E1].
      - vm_compute in E1. injection E1 as <- <-. vm_compute. done. }
    exists dc3. unfold demo_cache. unfold mbind, M_bind. rewrite E1, E2, E3.
    vm_compute in E1. injection E1 as <- <-. vm_compute in E2. injection E2 as <- <-.
    vm_compute in E3. injection E3 as <-. split; [reflexivity|]. split; [|vm_compute; done].
    replace ({[3%positive]} : gset dloc) with (({[2%positive]} ∪ ({[3%positive]} ∪ ∅)) ∖ {[2%positive]} : gset dloc); [exact Hre|].
    apply set_eq. vm_compute; done || set_solver. }
  exists dc. split; [exact Hr|].
  apply (desc_cache_never_shares 1200 dc {[3%positive]}); [lia|exact Hre|exact Hroom].
Defined.
