(* ===== verification/IOVec.v ===== *)
(** * I/O vectors (src/internal/iovec)

    The two slices that a scatter read or gather write uses: the byte slices and
    the kernel's descriptions of them.  A vector entry is the slice it points to;
    [None] stands for nil.  Lengths shrink by [Reset] while the memory stays, so the
    slices are kept with their capacity. *)

From stdpp Require Import base list numbers.
From S2P Require Import Prelude.

Local Open Scope Z_scope.

(** A Go slice of pointers: its backing array and its length. *)
Record vec (A : Type) : Type := Vec { v_arr : list (option A); v_len : nat }.
Arguments Vec {A} _ _.
Arguments v_arr {A} _.
Arguments v_len {A} _.

Definition v_elems {A} (v : vec A) : list (option A) := take (v_len v) (v_arr v).
Definition vec_ok {A} (v : vec A) : Prop := (v_len v ≤ length (v_arr v))%nat.

(** [append(v[:n], xs...)] for [n] within the capacity: the backing array is
    overwritten, or moved when it is too small. *)
Definition v_append {A} (v : vec A) (xs : list (option A)) : vec A :=
  Vec (v_elems v ++ xs ++ drop (v_len v + length xs) (v_arr v)) (v_len v + length xs).

(** What the kernel is given: base address and length of a byte slice. *)
Record iovec : Type := Iovec { iov_base : option (list byte); iov_Len : Z }.

Record IOData : Type := MkIOData {
  ByteVec : option (vec slice);
  IOVec : option (vec iovec)
}.

Definition DefaultLength : Z := 8.

(** [NewIOData(WithLength(n))]; [make] panics when [n] is negative. *)
Definition NewIOData (length : Z) : outcome IOData :=
  if decide (length < 0) then Panic
  else
    let n := Z.to_nat length in
    Ret (MkIOData (Some (Vec (replicate n None) n)) (Some (Vec (replicate n (Some (Iovec None 0))) n))).

Definition IsNil (d : IOData) : bool :=
  match ByteVec d, IOVec d with Some _, Some _ => false | _, _ => true end.

(** Length of a possibly nil slice. *)
Definition olen {A} (v : option (vec A)) : Z :=
  match v with Some v => Z.of_nat (v_len v) | None => 0 end.

Definition clear_base (e : option iovec) : option iovec :=
  match e with Some e => Some (Iovec None (iov_Len e)) | None => None end.

Definition iodata_Release (sliceCnt : Z) (d : IOData) : IOData :=
  let sliceCnt := if decide (sliceCnt > olen (ByteVec d)) then olen (ByteVec d) else sliceCnt in
  let sliceCnt := if decide (sliceCnt > olen (IOVec d)) then olen (IOVec d) else sliceCnt in
  let n := Z.to_nat sliceCnt in
  MkIOData
    ((λ v, Vec (replicate (n `min` length (v_arr v)) None ++ drop n (v_arr v)) (v_len v)) <$> ByteVec d)
    ((λ v, Vec (map clear_base (take n (v_arr v)) ++ drop n (v_arr v)) (v_len v)) <$> IOVec d).

Definition iodata_Reset (d : IOData) : IOData :=
  MkIOData ((λ v, Vec (v_arr v) 0) <$> ByteVec d) ((λ v, Vec (v_arr v) 0) <$> IOVec d).

(** [SetIOVec]: [&d.ByteVec[i][0]] panics past the length and for an empty slice. *)
Definition SetIOVec (num : Z) (d : IOData) : outcome IOData :=
  match ByteVec d with
  | None => if decide (num <= 0) then Ret (MkIOData None ((λ v, Vec (v_arr v) 0) <$> IOVec d)) else Panic
  | Some bv =>
      let entry (e : option slice) : option iovec :=
        match e with
        | Some s => if decide (s_len s <= 0) then None else Some (Iovec (Some (s_bytes s)) (u64 (s_len s)))
        | None => None
        end in
      let ivs := map entry (take (Z.to_nat num) (v_elems bv)) in
      if bool_decide (num > Z.of_nat (v_len bv)) || existsb (λ e, match e with None => true | Some _ => false end) ivs then Panic
      else Ret (MkIOData (Some bv) (Some (v_append (Vec (default [] (v_arr <$> IOVec d)) 0) ivs)))
  end.
