(* ===== verification/Poller.v ===== *)
(** * Pollers (src/internal/poller: poller_epoll.go, loadbalance_roundrobin.go, pollmgr.go)

    An [epoll] poller waits for events and serves them: [handle] calls the callbacks
    of the descriptors the events name, detaches the ones that hung up and recycles
    descriptors.  Callbacks and the data they get are parameters (names and a
    function that runs them), so is the kernel.  [roundRobinLB] and [PollMgr]
    spread descriptors over pollers. *)

From stdpp Require Import base gmap sets list numbers.
From S2P Require Import Prelude Kernel IOVec DescCache.

Local Open Scope Z_scope.

(** ** Events *)

Definition rflags : Z := Z.lor (Z.lor (Z.lor (Z.lor EPOLLIN EPOLLRDHUP) EPOLLHUP) EPOLLERR) EPOLLPRI.
Definition wflags : Z := Z.lor (Z.lor EPOLLOUT EPOLLHUP) EPOLLERR.
Definition defaultEventCount : Z := 64.

(** [Event]; a value outside of the constants is [Other]. *)
Inductive Event : Type :=
| Readable | ModReadable | Writable | ModWritable | ReadWriteable | ModReadWriteable | Detach
| Other (n : Z).

#[export] Instance Event_eq_dec : EqDecision Event.
Proof. solve_decision. Defined.

(** Errors of [Control]: an error number, or an event that is not supported. *)
Inductive perr : Type := PErrno (e : Z) | PErrEvent.

Section Epoll.

Context {D CB W : Type} `{Kernel W}.
Variable pdSize : Z.
Abbreviation cache := (descCache D CB).

(** The poller's own fields, the cache of descriptors, the world outside, and the
    goroutines started for [onHup], oldest first. *)
Record epoll : Type := Epoll {
  ep_desc : dloc;
  ep_ioData : IOData;
  ep_fd : Z;
  ep_notified : Z;
  ep_ignoreTaskError : bool;
  ep_freeDescCounter : Z;
  ep_cache : cache;
  ep_world : W;
  ep_hups : list (CB * D)
}.

Definition set_ioData v p := Epoll (ep_desc p) v (ep_fd p) (ep_notified p) (ep_ignoreTaskError p) (ep_freeDescCounter p) (ep_cache p) (ep_world p) (ep_hups p).
Definition set_notified v p := Epoll (ep_desc p) (ep_ioData p) (ep_fd p) v (ep_ignoreTaskError p) (ep_freeDescCounter p) (ep_cache p) (ep_world p) (ep_hups p).
Definition set_counter v p := Epoll (ep_desc p) (ep_ioData p) (ep_fd p) (ep_notified p) (ep_ignoreTaskError p) v (ep_cache p) (ep_world p) (ep_hups p).
Definition set_cache v p := Epoll (ep_desc p) (ep_ioData p) (ep_fd p) (ep_notified p) (ep_ignoreTaskError p) (ep_freeDescCounter p) v (ep_world p) (ep_hups p).
Definition set_world v p := Epoll (ep_desc p) (ep_ioData p) (ep_fd p) (ep_notified p) (ep_ignoreTaskError p) (ep_freeDescCounter p) (ep_cache p) v (ep_hups p).
Definition set_hups v p := Epoll (ep_desc p) (ep_ioData p) (ep_fd p) (ep_notified p) (ep_ignoreTaskError p) (ep_freeDescCounter p) (ep_cache p) (ep_world p) v.

Abbreviation ME := (M epoll).

Definition on_cache {A} : M cache A → ME A := zoom ep_cache set_cache.

(** A system call. *)
Definition syscall {A} (f : W → A * W) : ME A := λ p,
  let '(r, w) := f (ep_world p) in Ret (r, set_world w p).

(** ** Control *)

Definition errno_result (e : Z) : result perr () :=
  if decide (e = 0) then Ok () else Err (PErrno e).

(** [insert], [interest] and [remove] through [epollCtl]. *)
Definition ep_insert (fd : Z) (evt : Z * dloc) : ME (result perr ()) :=
  p ← get; e ← syscall (k_epoll_ctl (ep_fd p) EPOLL_CTL_ADD fd (Some evt)); mret (errno_result e).
Definition ep_interest (fd : Z) (evt : Z * dloc) : ME (result perr ()) :=
  p ← get; e ← syscall (k_epoll_ctl (ep_fd p) EPOLL_CTL_MOD fd (Some evt)); mret (errno_result e).
Definition ep_remove (fd : Z) : ME (result perr ()) :=
  p ← get; e ← syscall (k_epoll_ctl (ep_fd p) EPOLL_CTL_DEL fd None); mret (errno_result e).

Definition Control (desc : dloc) (e : Event) : ME (result perr ()) :=
  d ← on_cache (load_desc desc);
  let fd := d_FD d in
  match e with
  | Readable => ep_insert fd (rflags, desc)
  | Writable => ep_insert fd (wflags, desc)
  | ReadWriteable => ep_insert fd (Z.lor rflags wflags, desc)
  | ModReadable => ep_interest fd (rflags, desc)
  | ModWritable => ep_interest fd (wflags, desc)
  | ModReadWriteable => ep_interest fd (Z.lor rflags wflags, desc)
  | Detach => ep_remove fd
  | Other _ => mret (Err PErrEvent)
  end.

(** ** Serving events *)

(** Running a callback: whether it returned an error. *)
Variable call_write : CB → D → M (cache * W) bool.
Variable call_read : CB → D → IOData → M (cache * W) (bool * IOData).

Definition on_outside {A} : M (cache * W) A → ME A :=
  zoom (λ p, (ep_cache p, ep_world p)) (λ cw p, set_world cw.2 (set_cache cw.1 p)).

Definition has_flag (events flags : Z) : bool := negb (bool_decide (Z.land events flags = 0)).

(** One iteration of the loop of [handle]: whether it was the wake-up descriptor,
    and whether the descriptor hung up. *)
Definition handle_event (events : Z) (desc : dloc) : ME (bool * bool) :=
  d ← on_cache (load_desc desc);
  p ← get;
  own ← on_cache (load_desc (ep_desc p));
  if decide (d_FD d = d_FD own) then
    _ ← syscall (k_read (d_FD own));
    mret (true, false)
  else
    let inHup := has_flag events (Z.lor (Z.lor EPOLLHUP EPOLLRDHUP) EPOLLERR) in
    let readable := has_flag events (Z.lor EPOLLIN EPOLLPRI) in
    let writable := has_flag events EPOLLOUT in
    inHup ← (match writable, d_OnWrite d, d_Data d with
             | true, Some onWrite, Some data =>
                 failed ← on_outside (call_write onWrite data);
                 mret (inHup || failed && negb (ep_ignoreTaskError p))
             | _, _, _ => mret inHup
             end);
    inHup ← (match readable, d_OnRead d, d_Data d with
             | true, Some onRead, Some data =>
                 r ← on_outside (call_read onRead data (ep_ioData p));
                 _ ← modify (set_ioData (iodata_Reset r.2));
                 mret (inHup || r.1 && negb (ep_ignoreTaskError p))
             | _, _, _ => mret inHup
             end);
    mret (false, inHup).

Fixpoint handle_loop (evs : list (Z * dloc)) (hups : list dloc) (wakeUp : bool) : ME (list dloc * bool) :=
  match evs with
  | [] => mret (hups, wakeUp)
  | (events, desc) :: evs =>
      r ← handle_event events desc;
      let '(own, inHup) := r : bool * bool in
      handle_loop evs (if inHup then hups ++ [desc] else hups) (wakeUp || own)
  end.

Definition runAsyncTasks : ME () := modify (set_notified 0).

Fixpoint detach_control (hups : list dloc) : ME () :=
  match hups with
  | [] => mret ()
  | desc :: hups => _ ← Control desc Detach; detach_control hups
  end.

Fixpoint detach_hups (hups : list dloc) : ME () :=
  match hups with
  | [] => mret ()
  | desc :: hups =>
      d ← on_cache (load_desc desc);
      _ ← (match d_Data d, d_OnHup d with
           | Some data, Some onHup => modify (λ p, set_hups (ep_hups p ++ [(onHup, data)]) p)
           | _, _ => mret ()
           end);
      detach_hups hups
  end.

Definition detach (hups : list dloc) : ME () := _ ← detach_control hups; detach_hups hups.

Definition counterTriggerValue : Z := 1000.

Definition handle (evs : list (Z * dloc)) : ME () :=
  r ← handle_loop evs [] false;
  let '(hups, wakeUp) := r : list dloc * bool in
  _ ← (if wakeUp : bool then runAsyncTasks else mret ());
  if decide (hups ≠ []) then
    _ ← detach hups;
    _ ← on_cache freeDesc;
    modify (set_counter 0)
  else
    _ ← modify (λ p, set_counter (u16 (ep_freeDescCounter p + 1)) p);
    p ← get;
    if decide (ep_freeDescCounter p > counterTriggerValue) then
      _ ← modify (set_counter 0);
      on_cache freeDesc
    else mret ().

(** One round of [Wait]: what [epoll_wait] gave, an error number or the events; the
    answer is the error it returns with, or the next [msec]. *)
Definition wait_round (r : result Z (list (Z * dloc))) : ME (result Z Z) :=
  match r with
  | Err e => if decide (e ≠ EINTR) then mret (Err e) else mret (Ok (-1))
  | Ok [] => mret (Ok (-1))
  | Ok evs => _ ← handle evs; mret (Ok 0)
  end.

(** [Trigger] and [notify]; the loop of [notify] runs on fuel. *)
Fixpoint notify (fuel : nat) : ME (result perr ()) :=
  match fuel with
  | O => nofuel
  | S fuel =>
      p ← get;
      d ← on_cache (load_desc (ep_desc p));
      e ← syscall (k_write (d_FD d));
      if decide (e ≠ EINTR ∧ e ≠ EAGAIN) then mret (errno_result e) else notify fuel
  end.

Definition Trigger (fuel : nat) : ME (result perr ()) :=
  p ← get;
  if decide (ep_notified p = 0) then _ ← modify (set_notified 1); notify fuel else mret (Ok ()).

(** [Close] *)
Definition epoll_Close : ME (result perr ()) :=
  p ← get;
  e ← syscall (k_close (ep_fd p));
  if decide (e ≠ 0) then mret (Err (PErrno e))
  else
    d ← on_cache (load_desc (ep_desc p));
    e ← syscall (k_close (d_FD d));
    mret (errno_result e).

(** [newPoller]: descriptors of a new epoll instance and of its wake-up event. *)
Definition newPoller (ignoreTaskError : bool) (c : cache) (w : W) : outcome (result Z epoll * (cache * W)) :=
  match k_epoll_create1 w with
  | (Err e, w) => Ret (Err e, (c, w))
  | (Ok fd, w) =>
      match k_eventfd w with
      | (Err e, w) => Ret (Err e, (c, w))
      | (Ok efd, w) =>
          match alloc pdSize c with
          | Ret (desc, c) =>
              match upd_desc desc (set_FD efd) c, NewIOData DefaultLength with
              | Ret (_, c), Ret io =>
                  match Control desc Readable (Epoll desc (iodata_Reset io) fd 0 ignoreTaskError 0 c w []) with
                  | Ret (_, p) => Ret (Ok p, (ep_cache p, ep_world p))
                  | Panic => Panic
                  | NoFuel => NoFuel
                  end
              | _, _ => Panic
              end
          | Panic => Panic
          | NoFuel => NoFuel
          end
      end
  end.

End Epoll.

Arguments epoll : clear implicits.

(** ** Load balancing *)

Section LoadBalance.
Context {P : Type}.

Record roundRobinLB : Type := RR { rr_pollers : list P; rr_accepted : Z; rr_pollSize : Z }.

Definition rr_Register (poller : P) : M roundRobinLB () :=
  modify (λ r, RR (rr_pollers r ++ [poller]) (rr_accepted r) (rr_pollSize r + 1)).

(** [accepted] is a 64 bit word that wraps around; its conversion to [int] may be
    negative, and so is then the remainder. *)
Definition rr_Pick : M roundRobinLB P :=
  _ ← modify (λ r, RR (rr_pollers r) (u64 (rr_accepted r + 1)) (rr_pollSize r));
  r ← get;
  if decide (rr_pollSize r = 0) then panic
  else
    let idx := i64 (rr_accepted r) `rem` rr_pollSize r in
    match (if decide (idx < 0) then None else rr_pollers r !! Z.to_nat idx) with
    | Some p => mret p
    | None => panic
    end.

Definition rr_Len : M roundRobinLB Z := gets rr_pollSize.

(** [Iterate] with a function that goes on as long as it returns true. *)
Fixpoint rr_iterate {S} (f : nat → P → M S bool) (i : nat) (ps : list P) : M S () :=
  match ps with
  | [] => mret ()
  | p :: ps => go ← f i p; if (go : bool) then rr_iterate f (Datatypes.S i) ps else mret ()
  end.

(** ** Poller managers *)

(** [S] is the state that making a poller changes. *)
Context {S : Type}.
Variable newPoller : bool → M S (result Z P).

Record PollMgr : Type := MkPollMgr { pm_lb : roundRobinLB; pm_ignoreTaskError : bool; pm_rest : S }.

Abbreviation MPM := (M PollMgr).

Definition on_lb {A} : M roundRobinLB A → MPM A :=
  zoom pm_lb (λ lb m, MkPollMgr lb (pm_ignoreTaskError m) (pm_rest m)).
Definition on_rest {A} : M S A → MPM A :=
  zoom pm_rest (λ r m, MkPollMgr (pm_lb m) (pm_ignoreTaskError m) r).

(** The loop of [run], [n] pollers to make. *)
Fixpoint pm_run (n : nat) : MPM () :=
  match n with
  | O => mret ()
  | Datatypes.S n =>
      m ← get;
      r ← on_rest (newPoller (pm_ignoreTaskError m));
      match r with
      | Err _ => panic
      | Ok poller => _ ← on_lb (rr_Register poller); pm_run n
      end
  end.

Definition pm_SetNumPollers (loops : Z) : MPM bool :=
  len ← on_lb rr_Len;
  if decide (loops = 0 ∨ loops < len) then mret false
  else _ ← pm_run (Z.to_nat (loops - len)); mret true.

Definition pm_NumPollers : MPM Z := on_lb rr_Len.
Definition pm_Pick : MPM P := on_lb rr_Pick.

End LoadBalance.
Arguments roundRobinLB : clear implicits.
Arguments PollMgr : clear implicits.
