(* ===== verification/PollerSpec.v ===== *)
(** * Pollers: properties

    Fairness of the load balancer, what one round of a poller does to the descriptors
    that hang up, and that marked descriptors are recycled. *)

From stdpp Require Import base gmap sets list numbers.
From S2P Require Import Prelude Kernel IOVec DescCache Poller.

Local Open Scope Z_scope.

(** ** Round robin *)

Section Fair.
Context {P : Type}.

Fixpoint picks (n : nat) : M (roundRobinLB P) (list P) :=
  match n with
  | O => mret []
  | S n => p ← rr_Pick; ps ← picks n; mret (p :: ps)
  end.

Lemma rr_Pick_ok (ps : list P) a :
  0 ≤ a → a + 1 < 2 ^ 63 → ps ≠ [] →
  ∃ p, ps !! Z.to_nat ((a + 1) `mod` zlen ps) = Some p ∧
       rr_Pick (RR ps a (zlen ps)) = Ret (p, RR ps (a + 1) (zlen ps)).
Proof.
  intros Ha Hb Hne. assert (0 < zlen ps) as Hpos.
  { pose proof (zlen_nonneg ps). destruct (decide (zlen ps = 0)) as [E|]; [|lia]. by apply zlen_0_inv in E. }
  pose proof (Z.mod_pos_bound (a + 1) (zlen ps) Hpos) as Hm.
  destruct (lookup_lt_is_Some_2 ps (Z.to_nat ((a + 1) `mod` zlen ps))) as [p Hp]; [unfold zlen in *; lia|].
  exists p. split; [done|]. unfold rr_Pick. mpure. mpure. simpl.
  rewrite decide_False by lia. rewrite u64_small by lia. rewrite i64_small by lia.
  rewrite Z.rem_mod_nonneg by lia. rewrite decide_False by lia. by rewrite Hp.
Qed.

(** The pollers from position [r] on, cyclically. *)
Definition turn (r : nat) (ps : list P) : list P := drop r ps ++ take r ps.

(** [n] picks in a row, not past the end of a turn. *)
Lemma picks_part (ps : list P) n r a :
  0 ≤ a → a + Z.of_nat n < 2 ^ 63 → (r + n ≤ length ps)%nat → ps ≠ [] →
  (a + 1) `mod` zlen ps = Z.of_nat r →
  picks n (RR ps a (zlen ps)) = Ret (take n (drop r ps), RR ps (a + Z.of_nat n) (zlen ps)).
Proof.
  revert r a. induction n as [|n IH]; intros r a Ha Hb Hr Hne Hm.
  { cbn [picks]. rewrite take_0, Z.add_0_r. done. }
  destruct (rr_Pick_ok ps a Ha ltac:(lia) Hne) as (p & Hp & Hr1). rewrite Hm, Nat2Z.id in Hp.
  cbn [picks]. erewrite bind_Ret by exact Hr1.
  rewrite (drop_S _ _ _ Hp), firstn_cons.
  destruct n as [|n].
  { cbn [picks]. mpure. by rewrite take_0. }
  assert ((a + 1 + 1) `mod` zlen ps = Z.of_nat (S r)) as Hm1.
  { assert (0 < zlen ps) by (unfold zlen; lia).
    rewrite <-Zplus_mod_idemp_l, Hm. rewrite Z.mod_small; unfold zlen; lia. }
  erewrite bind_Ret by (apply (IH (S r)); [lia|lia|lia|done|done]).
  unfold mret, M_ret. do 3 f_equal. lia.
Qed.

Lemma picks_add (ps : list P) n m a xs b ys c :
  picks n (RR ps a (zlen ps)) = Ret (xs, RR ps b (zlen ps)) →
  picks m (RR ps b (zlen ps)) = Ret (ys, c) →
  picks (n + m) (RR ps a (zlen ps)) = Ret (xs ++ ys, c).
Proof.
  revert a xs. generalize (RR (P := P) ps). intros f. intros a xs. generalize (f a (zlen ps)), (f b (zlen ps)).
  clear. intros s s'. revert s xs. induction n as [|n IH]; intros s xs Hn Hm.
  { cbn [picks] in Hn. unfold mret, M_ret in Hn. by simplify_eq/=. }
  cbn [picks Nat.add] in *. unfold mbind, M_bind in *. destruct (rr_Pick s) as [[p s1]| |]; [|done..].
  destruct (picks n s1) as [[zs s2]| |] eqn:E; [|done..]. unfold mret, M_ret in *. simplify_eq/=.
  by rewrite (IH _ _ E Hm).
Qed.

(** One turn picks every poller once, starting anywhere. *)
Lemma picks_turn (ps : list P) a :
  0 ≤ a → a + zlen ps < 2 ^ 63 → ps ≠ [] →
  picks (length ps) (RR ps a (zlen ps)) =
    Ret (turn (Z.to_nat ((a + 1) `mod` zlen ps)) ps, RR ps (a + zlen ps) (zlen ps)).
Proof.
  intros Ha Hb Hne. assert (0 < zlen ps) as Hpos.
  { pose proof (zlen_nonneg ps). destruct (decide (zlen ps = 0)) as [E|]; [|lia]. by apply zlen_0_inv in E. }
  pose proof (Z.mod_pos_bound (a + 1) (zlen ps) Hpos) as Hm. set (r := Z.to_nat _).
  assert ((a + 1) `mod` zlen ps = Z.of_nat r) as Hr by (unfold r; lia).
  assert ((r < length ps)%nat) as Hrl by (unfold zlen in *; lia).
  pose proof (picks_part ps (length ps - r) r a Ha ltac:(unfold zlen in *; lia) ltac:(lia) Hne Hr) as H1.
  assert ((a + Z.of_nat (length ps - r) + 1) `mod` zlen ps = Z.of_nat 0) as Hz.
  { replace (a + Z.of_nat (length ps - r) + 1) with (a + 1 + (zlen ps - Z.of_nat r)) by (unfold zlen; lia).
    rewrite <-Zplus_mod_idemp_l, Hr. replace (Z.of_nat r + (zlen ps - Z.of_nat r)) with (zlen ps) by lia.
    apply Z.mod_same. lia. }
  pose proof (picks_part ps r 0 (a + Z.of_nat (length ps - r)) ltac:(lia) ltac:(unfold zlen in *; lia) ltac:(lia) Hne Hz) as H2.
  pose proof (picks_add _ _ _ _ _ _ _ _ H1 H2) as H3.
  replace (length ps - r + r)%nat with (length ps) in H3 by lia. rewrite H3.
  unfold turn. rewrite drop_0. do 3 f_equal; [apply take_ge; rewrite length_drop; lia|unfold zlen; lia].
Qed.

Lemma turn_perm r (ps : list P) : turn r ps ≡ₚ ps.
Proof. unfold turn. rewrite Permutation_app_comm. by rewrite take_drop. Qed.

Lemma picks_fair (ps : list P) k a :
  0 ≤ a → a + Z.of_nat k * zlen ps < 2 ^ 63 → ps ≠ [] →
  ∃ xs, picks (k * length ps) (RR ps a (zlen ps)) = Ret (xs, RR ps (a + Z.of_nat k * zlen ps) (zlen ps)) ∧
        xs ≡ₚ concat (replicate k ps).
Proof.
  revert a. induction k as [|k IH]; intros a Ha Hb Hne.
  { exists []. cbn [picks Nat.mul]. split; [|done]. by rewrite Z.mul_0_l, Z.add_0_r. }
  assert (0 ≤ Z.of_nat k * zlen ps) by (pose proof (zlen_nonneg ps); nia).
  pose proof (zlen_nonneg ps).
  destruct (IH (a + zlen ps) ltac:(lia) ltac:(lia) Hne) as (xs & Hx & Hp).
  pose proof (picks_turn ps a Ha ltac:(lia) Hne) as Ht. eexists. split.
  - cbn [Nat.mul]. rewrite (picks_add _ _ _ _ _ _ _ _ Ht Hx). do 3 f_equal. lia.
  - simpl. by rewrite Hp, turn_perm.
Qed.

(** *** Scaling up *)

Context {S : Type} (newPoller : bool → M S (result Z P)).

Lemma pm_run_ok n lb ig s ps :
  (∀ s, ∃ p s', newPoller ig s = Ret (Ok p, s')) →
  rr_pollers lb = ps → rr_pollSize lb = zlen ps →
  ∃ new s', pm_run newPoller n (MkPollMgr lb ig s) =
    Ret ((), MkPollMgr (RR (ps ++ new) (rr_accepted lb) (zlen (ps ++ new))) ig s') ∧ length new = n.
Proof.
  intros Hnew. revert lb s ps. induction n as [|n IH]; intros lb s ps Hps Hsz.
  { exists [], s. rewrite app_nil_r. destruct lb. simpl in *. subst. split; done. }
  cbn [pm_run]. mpure. simpl.
  destruct (Hnew s) as (p & s1 & Hp).
  erewrite bind_Ret by (unfold on_rest; apply zoom_Ret; exact Hp). cbv beta iota.
  mpure. simpl.
  edestruct (IH (RR (rr_pollers lb ++ [p]) (rr_accepted lb) (rr_pollSize lb + 1)) s1 (ps ++ [p])) as (new & s2 & Hr & Hl);
    [simpl; congruence|simpl; zlen_lia|].
  exists (p :: new), s2. simpl in Hr. rewrite Hr. rewrite <-app_assoc. split; [done|]. simpl. by rewrite Hl.
Qed.

End Fair.

(** A manager asked for [n] more than its current pollers keeps those it has and
    makes the missing ones; a number that is zero or too small is refused and changes
    nothing.  Afterwards any [k * n] consecutive picks (before the 2^63rd) give
    every poller exactly [k] times, wherever the turn starts. *)
Theorem pollers_are_picked_fairly {P S : Type} (newPoller : bool → M S (result Z P)) (ps : list P)
  (ig : bool) (s : S) (n a : Z) (k : nat)
  (Hnew : ∀ s, ∃ p s', newPoller ig s = Ret (Ok p, s'))
  (Ha : 0 ≤ a) (Hk : a + Z.of_nat k * n < 2 ^ 63) :
  let m := MkPollMgr (RR ps a (zlen ps)) ig s in
  (n = 0 ∨ n < zlen ps → pm_SetNumPollers newPoller n m = Ret (false, m)) ∧
  (0 < n → zlen ps ≤ n →
    ∃ new s' xs lb', zlen (ps ++ new) = n ∧
      pm_SetNumPollers newPoller n m = Ret (true, MkPollMgr (RR (ps ++ new) a n) ig s') ∧
      picks (k * Z.to_nat n) (RR (ps ++ new) a n) = Ret (xs, lb') ∧
      xs ≡ₚ concat (replicate k (ps ++ new))).
Proof.
  intros m. unfold pm_SetNumPollers. split; intros Hn.
  - mpure. simpl. by rewrite decide_True by lia.
  - intros Hle.
    destruct (pm_run_ok newPoller (Z.to_nat (n - zlen ps)) (RR ps a (zlen ps)) ig s ps Hnew eq_refl eq_refl)
      as (new & s' & Hr & Hl).
    assert (zlen (ps ++ new) = n) as Hz.
    { rewrite zlen_app. unfold zlen in *. lia. }
    destruct (picks_fair (ps ++ new) k a Ha ltac:(lia)) as (xs & Hx & Hp).
    { intros E. rewrite E in Hz. unfold zlen in Hz. simpl in Hz. lia. }
    rewrite Hz in Hx. replace (length (ps ++ new)) with (Z.to_nat n) in Hx by (unfold zlen in *; lia).
    exists new, s', xs, (RR (ps ++ new) (a + Z.of_nat k * n) n). split; [done|]. split; [|done].
    mpure. simpl. rewrite decide_False by lia.
    erewrite bind_Ret by exact Hr. simpl. by rewrite Hz.
Qed.

Lemma pollers_are_picked_fairly_witness :
  ∃ new s' xs lb', zlen (([7] ++ new) : list Z) = 3 ∧
    pm_SetNumPollers (λ _ s, Ret (Ok s, s + 1)) 3 (MkPollMgr (RR [7] 5 1) false 8) =
      Ret (true, MkPollMgr (RR ([7] ++ new) 5 3) false s') ∧
    picks (2 * 3) (RR ([7] ++ new) 5 3) = Ret (xs, lb') ∧ xs ≡ₚ concat (replicate 2 ([7] ++ new)).
Proof.
  apply (pollers_are_picked_fairly (λ _ s, Ret (Ok s, s + 1)) [7] false 8 3 5 2).
  - intros s. by exists s, (s + 1).
  - lia.
  - lia.
  - lia.
  - unfold zlen. simpl. lia.
Defined.

(** ** Rounds of a poller *)

Section Rounds.
Context {D CB W : Type} `{Kernel W}.
Variable call_write : CB → D → M (descCache D CB * W) bool.
Variable call_read : CB → D → IOData → M (descCache D CB * W) (bool * IOData).

Implicit Types p : epoll D CB W.

Abbreviation phandle := (Poller.handle call_write call_read).

Definition cache_good (c : descCache D CB) : Prop := ∃ free marked inuse, dc_ok c free marked inuse.
Definition known (c : descCache D CB) (q : dloc) : Prop := is_Some (dc_heap c !! q).
Definition extends (c c' : descCache D CB) : Prop := cache_good c' ∧ ∀ q, known c q → known c' q.

(** Callbacks work on the cache through its operations and do not panic. *)
Definition well_behaved {A} (m : M (descCache D CB * W) A) : Prop :=
  ∀ c w, cache_good c → ∃ r c' w', m (c, w) = Ret (r, (c', w')) ∧ extends c c'.

Hypothesis Hwrite : ∀ cb d, well_behaved (call_write cb d).
Hypothesis Hread : ∀ cb d io, well_behaved (call_read cb d io).

(** What a step of the poller leaves as it was. *)
Record round_step (p p' : epoll D CB W) : Prop := {
  rs_cache : extends (ep_cache p) (ep_cache p');
  rs_desc : ep_desc p' = ep_desc p;
  rs_counter : ep_freeDescCounter p' = ep_freeDescCounter p
}.

Lemma extends_refl c : cache_good c → extends c c.
Proof. by split. Qed.

Lemma round_step_refl p : cache_good (ep_cache p) → round_step p p.
Proof. intros. split; [by apply extends_refl|done..]. Qed.

Lemma round_step_trans p1 p2 p3 : round_step p1 p2 → round_step p2 p3 → round_step p1 p3.
Proof.
  intros [[_ E1] D1 C1] [[G2 E2] D2 C2]. split; [|congruence..]. split; [done|]. auto.
Qed.

Lemma load_known c q : known c q → ∃ d, load_desc q c = Ret (d, c).
Proof. intros [d Hd]. exists d. unfold load_desc. by rewrite Hd. Qed.

Lemma on_cache_load p desc :
  known (ep_cache p) desc → ∃ d, on_cache (load_desc desc) p = Ret (d, p).
Proof.
  intros [d Hd]%load_known. exists d. unfold on_cache. rewrite (zoom_Ret _ _ _ _ _ _ Hd). by destruct p.
Qed.

Lemma Control_ok desc e p :
  cache_good (ep_cache p) → known (ep_cache p) desc →
  ∃ r p', Control desc e p = Ret (r, p') ∧ round_step p p'.
Proof.
  intros Hg Hk. destruct (on_cache_load p desc Hk) as [d Hd]. unfold Control.
  assert (∀ ep op fd ev (k : Z → result perr ()), ∃ r p',
    (x ← syscall (k_epoll_ctl ep op fd ev); mret (k x)) p = Ret (r, p') ∧ round_step p p') as Hsys.
  { intros ep op fd ev k. unfold syscall, mbind, M_bind. destruct (k_epoll_ctl ep op fd ev (ep_world p)) as [e' w].
    eexists _, _. split; [reflexivity|]. split; [by apply extends_refl|done..]. }
  erewrite bind_Ret by exact Hd.
  destruct e; try apply (Hsys (ep_fd p)); try (eexists _, _; split; [reflexivity|by apply round_step_refl]).
Qed.

Lemma on_outside_ok {A} (m : M (descCache D CB * W) A) p :
  well_behaved m → cache_good (ep_cache p) →
  ∃ r p', on_outside m p = Ret (r, p') ∧ round_step p p'.
Proof.
  intros Hm Hg. destruct (Hm (ep_cache p) (ep_world p) Hg) as (r & c' & w' & Hr & He).
  eexists r, _. split; [unfold on_outside; apply zoom_Ret; exact Hr|]. by split.
Qed.

Lemma handle_event_ok events desc p :
  cache_good (ep_cache p) → known (ep_cache p) desc → known (ep_cache p) (ep_desc p) →
  ∃ r p', handle_event call_write call_read events desc p = Ret (r, p') ∧ round_step p p'.
Proof.
  intros Hg Hk Ho. destruct (on_cache_load p desc Hk) as [d Hd].
  destruct (on_cache_load p (ep_desc p) Ho) as [own Hown]. unfold handle_event.
  erewrite bind_Ret by exact Hd. mpure. erewrite bind_Ret by exact Hown.
  case_decide as Hfd.
  { unfold syscall, mbind, M_bind. destruct (k_read (d_FD own) (ep_world p)) as [e w].
    eexists _, _. split; [reflexivity|]. split; [by apply extends_refl|done..]. }
  cbv zeta. set (mw := match has_flag events EPOLLOUT with true => _ | false => _ end).
  assert (∃ b p1, mw p = Ret (b, p1) ∧ round_step p p1) as (b & p1 & Hr1 & H1).
  { unfold mw. destruct (has_flag events EPOLLOUT), (d_OnWrite d) as [cb|], (d_Data d) as [data|];
      try (eexists _, _; split; [reflexivity|by apply round_step_refl]).
    destruct (on_outside_ok _ p (Hwrite cb data) Hg) as (r & p' & Hr & H').
    erewrite bind_Ret by exact Hr. by eexists _, _. }
  erewrite bind_Ret by exact Hr1. pose proof (proj1 (rs_cache _ _ H1)) as Hg1.
  destruct (has_flag events (Z.lor EPOLLIN EPOLLPRI)), (d_OnRead d) as [cb|], (d_Data d) as [data|];
    try (eexists _, _; split; [reflexivity|exact H1]).
  rewrite bind_assoc_run. destruct (on_outside_ok _ p1 (Hread cb data (ep_ioData p)) Hg1) as (r & p2 & Hr2 & H2).
  erewrite bind_Ret by exact Hr2. rewrite bind_assoc_run. mpure.
  eexists _, _. split; [reflexivity|]. eapply round_step_trans; [exact H1|].
  destruct H2 as [E2 D2 C2]. by split.
Qed.

Lemma handle_loop_ok evs hups wake p :
  cache_good (ep_cache p) → Forall (λ e, known (ep_cache p) e.2) evs → Forall (known (ep_cache p)) hups →
  known (ep_cache p) (ep_desc p) →
  ∃ hups' wake' p', handle_loop call_write call_read evs hups wake p = Ret ((hups', wake'), p') ∧
    round_step p p' ∧ Forall (known (ep_cache p')) hups'.
Proof.
  revert hups wake p. induction evs as [|[events desc] evs IH]; intros hups wake p Hg Hevs Hhups Ho.
  { eexists _, _, p. split; [reflexivity|]. split; [by apply round_step_refl|done]. }
  apply Forall_cons_1 in Hevs as [Hd Hevs]. simpl in Hd.
  destruct (handle_event_ok events desc p Hg Hd Ho) as ([own hup] & p1 & Hr1 & H1).
  cbn [handle_loop]. erewrite bind_Ret by exact Hr1. destruct H1 as [[Hg1 He1] Hd1 Hc1].
  destruct (IH (if hup then hups ++ [desc] else hups) (wake || own) p1 Hg1) as (hups' & wake' & p2 & Hr2 & H2 & Hh2).
  - eapply Forall_impl; [|exact Hevs]. intros e He. by apply He1.
  - assert (Forall (known (ep_cache p1)) hups) by (eapply Forall_impl; [exact He1|exact Hhups]).
    destruct hup; [|done]. apply Forall_app. split; [done|]. repeat constructor. by apply He1.
  - rewrite Hd1. by apply He1.
  - exists hups', wake', p2. split; [exact Hr2|]. split; [|exact Hh2].
    eapply round_step_trans; [|exact H2]. by split; [split|..].
Qed.

Lemma detach_ok hups p :
  cache_good (ep_cache p) → Forall (known (ep_cache p)) hups →
  ∃ p', detach hups p = Ret ((), p') ∧ round_step p p'.
Proof.
  intros Hg Hh. unfold detach.
  assert (∃ p1, detach_control hups p = Ret ((), p1) ∧ round_step p p1) as (p1 & Hr1 & H1).
  { revert p Hg Hh. induction hups as [|desc hups IH]; intros p Hg Hh.
    { exists p. split; [reflexivity|by apply round_step_refl]. }
    apply Forall_cons_1 in Hh as [Hd Hh]. destruct (Control_ok desc Detach p Hg Hd) as (r & p1 & Hr & H1).
    destruct (IH p1) as (p2 & Hr2 & H2); [apply H1|eapply Forall_impl; [apply H1|exact Hh]|].
    exists p2. cbn [detach_control]. erewrite bind_Ret by exact Hr. split; [exact Hr2|].
    by eapply round_step_trans. }
  erewrite bind_Ret by exact Hr1.
  assert (Forall (known (ep_cache p1)) hups) as Hh1 by (eapply Forall_impl; [apply H1|exact Hh]).
  pose proof (proj1 (rs_cache _ _ H1)) as Hg1.
  assert (∃ p2, detach_hups hups p1 = Ret ((), p2) ∧ round_step p1 p2) as (p2 & Hr2 & H2);
    [|exists p2; split; [exact Hr2|by eapply round_step_trans]].
  clear Hh Hr1 H1 p Hg. revert p1 Hg1 Hh1. induction hups as [|desc hups IH]; intros p Hg Hh.
  { exists p. split; [reflexivity|by apply round_step_refl]. }
  apply Forall_cons_1 in Hh as [Hd Hh]. destruct (on_cache_load p desc Hd) as [d Hd'].
  cbn [detach_hups]. erewrite bind_Ret by exact Hd'.
  set (m := match d_Data d with Some _ => _ | None => _ end).
  assert (∃ p1, m p = Ret ((), p1) ∧ round_step p p1) as (p1 & Hr1 & H1).
  { unfold m. destruct (d_Data d), (d_OnHup d); eexists; (split; [reflexivity|]);
      try (by apply round_step_refl). split; [by apply extends_refl|done..]. }
  erewrite bind_Ret by exact Hr1.
  destruct (IH p1) as (p2 & Hr2 & H2); [apply H1|eapply Forall_impl; [apply H1|exact Hh]|].
  exists p2. split; [exact Hr2|by eapply round_step_trans].
Qed.

Lemma freeDesc_ok p :
  cache_good (ep_cache p) →
  ∃ p', on_cache freeDesc p = Ret ((), p') ∧ round_step p p' ∧ dc_freeList (ep_cache p') = [].
Proof.
  intros (free & marked & inuse & Hok). destruct (dc_free_ok _ _ _ _ Hok) as (c & Hr & Hok' & Hca).
  eexists. split; [unfold on_cache, freeDesc; apply zoom_Ret; exact Hr|]. simpl. split; [|apply Hok'].
  split; [|done..]. simpl. split; [by eexists _, _, _|]. intros q [d Hq]. destruct Hok as [Hok _], Hok' as [Hok' _].
  unfold dc_free in Hr. unfold mbind, M_bind, get in Hr. case_decide; [unfold mret, M_ret in Hr; simplify_eq; by eexists|].
  assert (∀ idx (c c' : descCache D CB), free_descs idx c = Ret ((), c') → known c q → known c' q) as Hkn.
  { clear. induction idx as [|i idx IH]; intros c c' Hr Hk; cbn [free_descs] in Hr.
    - unfold mret, M_ret in Hr. by simplify_eq.
    - unfold mbind, M_bind, get in Hr. destruct (if decide (i < 0) then None else dc_cache c !! Z.to_nat i) as [pd|]; [|done].
      simpl in Hr. eapply IH; [exact Hr|]. unfold known in *. simpl. destruct Hk as [d Hd].
      rewrite !lookup_alter. case_decide as Hq; [subst|by eexists]. rewrite decide_True by done. rewrite Hd. by eexists. }
  destruct (free_descs (dc_freeList (ep_cache p)) (ep_cache p)) as [[[] c1]| |] eqn:E; [|done..].
  unfold modify in Hr. injection Hr as <-. apply (Hkn _ _ _ E). by eexists.
Qed.

(** One round: the free list was emptied, or the counter has moved on. *)
Lemma handle_ok evs p :
  cache_good (ep_cache p) → Forall (λ e, known (ep_cache p) e.2) evs → known (ep_cache p) (ep_desc p) →
  0 ≤ ep_freeDescCounter p ≤ counterTriggerValue →
  ∃ p', phandle evs p = Ret ((), p') ∧ extends (ep_cache p) (ep_cache p') ∧ ep_desc p' = ep_desc p ∧
    ((ep_freeDescCounter p' = 0 ∧ dc_freeList (ep_cache p') = []) ∨
     ep_freeDescCounter p' = ep_freeDescCounter p + 1 ∧ ep_freeDescCounter p' ≤ counterTriggerValue).
Proof.
  intros Hg Hevs Ho Hc. unfold Poller.handle.
  destruct (handle_loop_ok evs [] false p Hg Hevs (List.Forall_nil _) Ho) as (hups & wake & p1 & Hr1 & H1 & Hh1).
  erewrite bind_Ret by exact Hr1. cbv beta iota.
  assert (∃ p2, (if wake : bool then runAsyncTasks else mret ()) p1 = Ret ((), p2) ∧ round_step p1 p2 ∧
    ep_cache p2 = ep_cache p1) as (p2 & Hr2 & H2 & Ec2).
  { destruct wake; eexists; (split; [reflexivity|]); (split; [|done]); split; try done; apply extends_refl, H1. }
  erewrite bind_Ret by exact Hr2. pose proof (round_step_trans _ _ _ H1 H2) as H12.
  pose proof (proj1 (rs_cache _ _ H12)) as Hg2. case_decide as Hne.
  - destruct (detach_ok hups p2 Hg2) as (p3 & Hr3 & H3); [by rewrite Ec2|].
    erewrite bind_Ret by exact Hr3. pose proof (round_step_trans _ _ _ H12 H3) as H13.
    destruct (freeDesc_ok p3) as (p4 & Hr4 & H4 & Hf); [apply H3|].
    erewrite bind_Ret by exact Hr4. pose proof (round_step_trans _ _ _ H13 H4) as [E14 D14 C14].
    eexists. split; [reflexivity|]. simpl. split; [done|]. split; [done|]. by left.
  - mpure. mpure.
    destruct H12 as [E12 D12 C12]. simpl. rewrite C12.
    assert (u16 (ep_freeDescCounter p + 1) = ep_freeDescCounter p + 1) as ->.
    { unfold u16. apply Z.mod_small. unfold counterTriggerValue in *. lia. }
    case_decide as Hgt.
    + mpure. set (p3 := set_counter 0 _).
      destruct (freeDesc_ok p3) as (p4 & Hr4 & [E4 D4 C4] & Hf); [exact Hg2|].
      exists p4. split; [exact Hr4|]. split; [|split; [by rewrite D4|left; split; [exact C4|exact Hf]]].
      split; [apply E4|]. intros q Hq. apply E4. by apply E12.
    + eexists. split; [reflexivity|]. simpl. split; [done|]. split; [done|]. right. split; [done|lia].
Qed.

Fixpoint handle_rounds (rs : list (list (Z * dloc))) : M (epoll D CB W) () :=
  match rs with
  | [] => mret ()
  | evs :: rs => _ ← phandle evs; handle_rounds rs
  end.

(** A poller does not panic however many rounds of events it serves, as long as the
    callbacks do not, and within any 1001 rounds there is one after which no marked
    descriptor is left waiting: all were reset and are back on the free chain. *)
Theorem poller_recycles_descriptors (rs : list (list (Z * dloc))) p
  (Hg : cache_good (ep_cache p)) (Hevs : Forall (Forall (λ e, known (ep_cache p) e.2)) rs)
  (Ho : known (ep_cache p) (ep_desc p)) (Hc : 0 ≤ ep_freeDescCounter p ≤ 1000) :
  (∃ p', handle_rounds rs p = Ret ((), p') ∧ 0 ≤ ep_freeDescCounter p' ≤ 1000) ∧
  (1001 ≤ zlen rs → ∃ n p', 0 < n ≤ 1001 ∧ handle_rounds (ztake n rs) p = Ret ((), p') ∧
     dc_freeList (ep_cache p') = []).
Proof.
  assert (∀ n, ep_freeDescCounter p + zlen rs > 1000 ∨ n = 0 →
    (∃ p', handle_rounds rs p = Ret ((), p') ∧ 0 ≤ ep_freeDescCounter p' ≤ 1000) ∧
    (n ≠ 0 → ∃ n p', 0 < n ≤ 1001 - ep_freeDescCounter p ∧ handle_rounds (ztake n rs) p = Ret ((), p') ∧
       dc_freeList (ep_cache p') = [])) as Hgen.
  { revert p Hg Hevs Ho Hc. induction rs as [|evs rs IH]; intros p Hg Hevs Ho Hc n Hn.
    { split; [by exists p|]. intros ?. exfalso. unfold zlen in Hn. simpl in Hn. lia. }
    apply Forall_cons_1 in Hevs as [He Hevs].
    destruct (handle_ok evs p Hg He Ho Hc) as (p1 & Hr1 & [Hg1 He1] & Hd1 & Hcase).
    assert (Forall (Forall (λ e, known (ep_cache p1) e.2)) rs) as Hevs1.
    { eapply Forall_impl; [|exact Hevs]. intros l Hl. eapply Forall_impl; [|exact Hl]. intros e. apply He1. }
    assert (known (ep_cache p1) (ep_desc p1)) as Ho1 by (rewrite Hd1; by apply He1).
    assert (0 ≤ ep_freeDescCounter p1 ≤ 1000) as Hc1 by (unfold counterTriggerValue in *; lia).
    rewrite zlen_cons in Hn. split.
    - cbn [handle_rounds]. erewrite bind_Ret by exact Hr1. by apply (IH p1 Hg1 Hevs1 Ho1 Hc1 0); right.
    - intros Hn0. destruct Hcase as [[_ Hf]|[Hcc Hle]].
      + exists 1, p1. split; [lia|]. split; [|done]. change (ztake 1 (evs :: rs)) with [evs].
        cbn [handle_rounds]. by erewrite bind_Ret by exact Hr1.
      + destruct (IH p1 Hg1 Hevs1 Ho1 Hc1 1) as [_ Hex]; [left; lia|].
        destruct (Hex ltac:(done)) as (m & p2 & Hm & Hr2 & Hf). exists (m + 1), p2. split; [lia|]. split; [|done].
        replace (ztake (m + 1) (evs :: rs)) with (evs :: ztake m rs).
        * cbn [handle_rounds]. by erewrite bind_Ret by exact Hr1.
        * unfold ztake. by replace (Z.to_nat (m + 1)) with (S (Z.to_nat m)) by lia. }
  split; [apply (Hgen 0); by right|]. intros Hl.
  destruct (Hgen 1) as [_ Hex]; [left; lia|]. destruct (Hex ltac:(done)) as (m & p' & Hm & ? & ?).
  exists m, p'. split; [lia|done].
Qed.

End Rounds.

(** A poller on the scripted kernel, with callbacks that do nothing. *)
Definition no_write {D CB W} : CB → D → M (descCache D CB * W) bool := λ _ _, mret false.
Definition no_read {D CB W} : CB → D → IOData → M (descCache D CB * W) (bool * IOData) :=
  λ _ _ io, mret (false, io).

Definition empty_script : script := Script ∅ [] [] ∅ ∅.

(** One descriptor that is marked, and the poller's own. *)
Definition demo_poller : outcome (epoll nat nat script) :=
  match newPoller 1200 false init_cache empty_script with
  | Ret (Ok p, _) =>
      match (q ← alloc 1200; markFree q) (ep_cache p) with
      | Ret (_, c) => Ret (set_cache c p)
      | _ => Panic
      end
  | _ => Panic
  end.

Definition quiet_rounds (n : nat) : list (list (Z * dloc)) := replicate n [].

Lemma poller_recycles_descriptors_witness :
  ∃ p n p', demo_poller = Ret p ∧ dc_freeList (ep_cache p) ≠ [] ∧ 0 < n ≤ 1001 ∧
    handle_rounds no_write no_read (ztake n (quiet_rounds (Z.to_nat 1001))) p = Ret ((), p') ∧ dc_freeList (ep_cache p') = [].
Proof.
  assert (∃ p, demo_poller = Ret p ∧ dc_freeList (ep_cache p) ≠ [] ∧ cache_good (ep_cache p) ∧
    known (ep_cache p) (ep_desc p) ∧ ep_freeDescCounter p = 0) as (p & Hr & Hne & Hg & Hk & Hc).
  { unfold demo_poller. destruct (newPoller 1200 false init_cache empty_script) as [[[p|e] cw]| |] eqn:E;
      [|exfalso; revert E; unfold newPoller; simpl; vm_compute; done..].
    destruct (alloc_ok (D := nat) (CB := nat) 1200 init_cache [] [] ∅ ltac:(lia) init_cache_ok ltac:(vm_compute; done))
      as (q1 & d1 & c1 & free1 & Ha1 & _ & _ & H1 & _).
    assert (q1 ∈ ({[q1]} ∪ ∅ : gset dloc)) as Hq1 by set_solver.
    destruct (upd_desc_ok _ _ _ _ q1 (set_FD 4) H1 Hq1 ltac:(done)) as (c2 & Hu & H2 & Hca2 & _).
    unfold newPoller in E. simpl in E. rewrite Ha1 in E. simpl in E.
    unfold upd_desc, modify in Hu. injection Hu as Hu. unfold upd_desc, modify in E. simpl in E. rewrite Hu in E.
    unfold Control in E. destruct (dk_known _ _ _ _ q1 (proj1 H2)) as [d2 Hd2].
    { by apply (dk_inuse _ _ _ _ (proj1 H2)). }
    unfold mbind, M_bind, on_cache, zoom, load_desc in E. simpl in E. rewrite Hd2 in E. simpl in E.
    injection E as Ep _. assert (ep_cache p = c2) as Ec by (by rewrite <-Ep).
    assert (dc_room 1200 c2) as Hroom.
    { unfold dc_room. rewrite Hca2. vm_compute in Ha1. injection Ha1 as <- <-. vm_compute. done. }
    destruct (alloc_ok 1200 c2 _ _ _ ltac:(lia) H2 Hroom) as (q & d & c3 & free3 & Ha3 & Hq & _ & H3 & _).
    destruct (markFree_ok _ _ _ _ q H3 ltac:(set_solver)) as (c4 & Hm & H4 & Hca4).
    rewrite Ec. unfold mbind, M_bind. rewrite Ha3, Hm. eexists. split; [reflexivity|]. simpl.
    split; [rewrite (proj2 H4), map_app; intros Hx; apply app_eq_nil in Hx as [_ Hx]; discriminate Hx|].
    split; [by eexists _, _, _|]. rewrite <-Ep. simpl. split; [|done].
    apply (dk_known _ _ _ _ _ (proj1 H4)). apply (dk_inuse _ _ _ _ (proj1 H4)). set_solver. }
  exists p. destruct (poller_recycles_descriptors (no_write (D := nat) (CB := nat) (W := script)) no_read) with (rs := quiet_rounds (Z.to_nat 1001)) (p := p) as [_ Hex].
  - intros cb d c w Hcg. eexists _, c, w. split; [reflexivity|by split].
  - intros cb d io c w Hcg. eexists _, c, w. split; [reflexivity|by split].
  - exact Hg.
  - unfold quiet_rounds. apply Forall_replicate. constructor.
  - exact Hk.
  - lia.
  - destruct Hex as (n & p' & Hn & Hrun & Hf); [unfold quiet_rounds; rewrite zlen_replicate; lia|].
    by exists n, p'.
Defined.

(** *** A stale event *)

(** A connection on socket 7 is scheduled and closed again, as [netFD] does it; its
    event was already taken from the kernel.  The number 7 goes to a new
    connection, which is scheduled with the same poller. *)
Definition fd_reused : M (epoll nat nat script) (dloc * dloc) :=
  old ← on_cache (alloc 1200);
  _ ← on_cache (upd_desc old (λ d, MkDesc (d_next d) (d_poller d) (d_index d) (Some 1%nat) None None None 7));
  _ ← Control old Readable;
  _ ← Control old Detach;
  _ ← on_cache (markFree old);
  _ ← syscall (k_close 7);
  new ← on_cache (alloc 1200);
  _ ← on_cache (upd_desc new (λ d, MkDesc (d_next d) (d_poller d) (d_index d) (Some 2%nat) None None None 7));
  _ ← Control new Readable;
  mret (old, new).

