(* ===== verification/SysType.v ===== *)
(** * Pools of system call arguments (src/internal/cache/systype/systype.go)

    Vectors for [writev], lists of byte slices and message headers come from three
    pools.  What the pools hand out are slices, which share their array with the
    wrapper that goes back, so a pool has the arrays as a store and the slices that
    are free.  Which one [sync.Pool] gives is a parameter; it may also make a new one.

    [SlicePool] is what a pool promises: an array that is handed out is no other's, and
    what others hold is not written.  The three pools are instances; the theorem follows
    them through any history of taking and giving back. *)

From stdpp Require Import base gmap numbers list list_relations.
From S2P Require Import Prelude LinkedBuffer.

Local Open Scope Z_scope.

(** A Go slice: its array, length and capacity. *)
Record gslice : Type := GSlice { g_arr : nat; g_len : Z; g_cap : Z }.

Definition g_reslice (s : gslice) (n : Z) : option gslice :=
  if decide (0 ≤ n ≤ g_cap s) then Some (GSlice (g_arr s) n (g_cap s)) else None.

Record arrays (T : Type) : Type := Arrays { pl_mem : gmap nat (list T); pl_free : list gslice }.
Arguments Arrays {T}.
Arguments pl_mem {T}.
Arguments pl_free {T}.

(** What a user may rely on: the slice has an array of its capacity. *)
Definition in_mem {T} (p : arrays T) (s : gslice) : Prop :=
  0 ≤ g_len s ≤ g_cap s ∧ ∃ a, pl_mem p !! g_arr s = Some a ∧ zlen a = g_cap s.

(** Every array belongs to one slice of the pool or to one user. *)
Record pool_ok {T} (used : list nat) (p : arrays T) : Prop := {
  po_distinct : NoDup ((g_arr <$> pl_free p) ++ used);
  po_free : Forall (λ s, in_mem p s ∧ g_len s = 0 ∧ g_cap s = MaxLen) (pl_free p);
  po_used : Forall (λ a, is_Some (pl_mem p !! a)) used
}.

Section Pools.
Variable choose : list gslice → option nat.

Section Slices.
Context {T : Type} (zero : T).

(** [make([]T, n, c)] *)
Definition make (n c : Z) : M (arrays T) gslice := λ p,
  if decide (0 ≤ n ≤ c) then
    let a := fresh (dom (pl_mem p)) in
    Ret (GSlice a n c, Arrays (<[a := replicate (Z.to_nat c) zero]> (pl_mem p)) (pl_free p))
  else Panic.

(** [sync.Pool]: one of the pool or a new one. *)
Definition pool_Get (n : Z) : M (arrays T) gslice := λ p,
  match choose (pl_free p) with
  | Some i =>
      match pl_free p !! i with
      | Some s => Ret (s, Arrays (pl_mem p) (delete i (pl_free p)))
      | None => make n MaxLen p
      end
  | None => make n MaxLen p
  end.

Definition pool_Put (s : gslice) : M (arrays T) () := modify (λ p, Arrays (pl_mem p) (s :: pl_free p)).

(** [s[:n]] *)
Definition slice_to (s : gslice) (n : Z) : M (arrays T) gslice :=
  match g_reslice s n with Some s => mret s | None => panic end.

(** [append(s, x)]: in place while there is room, else in a new array of a capacity
    that the language leaves open. *)
Definition append (grow : Z → Z) (s : gslice) (x : T) : M (arrays T) gslice := λ p,
  match pl_mem p !! g_arr s with
  | None => Panic
  | Some a =>
      if decide (g_len s < g_cap s) then
        Ret (GSlice (g_arr s) (g_len s + 1) (g_cap s),
             Arrays (<[g_arr s := <[Z.to_nat (g_len s) := x]> a]> (pl_mem p)) (pl_free p))
      else
        let b := fresh (dom (pl_mem p)) in
        let c := Z.max (grow (g_cap s)) (g_len s + 1) in
        Ret (GSlice b (g_len s + 1) c,
             Arrays (<[b := ztake (g_len s) a ++ [x] ++ replicate (Z.to_nat (c - g_len s - 1)) zero]> (pl_mem p)) (pl_free p))
  end.
End Slices.

(** ** Vectors for [writev] *)

(** A byte slice is its address, [&b[0]], and its length. *)
Definition bytes_at : Type := nat * Z.
Record Iovec : Type := MkIovec { Base : option nat; Len : Z }.
Definition zero_iovec : Iovec := MkIovec None 0.

Definition convertUint (i : Z) : Z := u64 i.

Variable grow : Z → Z.

Fixpoint append_iovecs (bs : list bytes_at) (v : gslice) : M (arrays Iovec) gslice :=
  match bs with
  | [] => mret v
  | (b, n) :: bs =>
      if decide (n = 0) then append_iovecs bs v
      else v ← append zero_iovec grow v (MkIovec (Some b) (convertUint n)); append_iovecs bs v
  end.

(** The wrapper is the slice it holds; [None] is nil. *)
Definition GetIOVECWrapper (bs : list bytes_at) : M (arrays Iovec) (gslice * option gslice) :=
  if decide (zlen bs <= MaxLen) then
    h ← pool_Get zero_iovec 0;
    v ← append_iovecs bs h;
    mret (v, Some h)
  else
    v ← make zero_iovec 0 (zlen bs);
    v ← append_iovecs bs v;
    mret (v, None).

Definition PutIOVECWrapper (h : option gslice) : M (arrays Iovec) () :=
  match h with
  | None => panic
  | Some h =>
      if decide (g_cap h ≠ MaxLen) then mret ()
      else h ← slice_to h 0; pool_Put h
  end.

(** ** Lists of byte slices *)

Definition GetIOData (size : Z) : M (arrays (option bytes_at)) (gslice * option gslice) :=
  if decide (size > MaxLen) then v ← make None size size; mret (v, None)
  else d ← pool_Get None 0; v ← slice_to d size; mret (v, Some d).

Definition PutIOData (d : option gslice) : M (arrays (option bytes_at)) () :=
  match d with
  | None => panic
  | Some d => if decide (g_cap d ≠ MaxLen) then mret () else d ← slice_to d 0; pool_Put d
  end.

(** ** Message headers *)

(** The fields of a header that the package sets. *)
Record MMsghdr : Type := MkMMsghdr { Iovlen : Z; Iov : option Iovec; Name : option nat; Namelen : Z }.
Definition zero_MMsghdr : MMsghdr := MkMMsghdr 0 None None 0.

Definition GetMMsghdrs (size : Z) : M (arrays MMsghdr) gslice :=
  if decide (size > MaxLen) then make zero_MMsghdr size size
  else m ← pool_Get zero_MMsghdr MaxLen; slice_to m size.

Definition PutMMsghdrs (m : gslice) : M (arrays MMsghdr) () :=
  if decide (g_cap m ≠ MaxLen) then mret () else m ← slice_to m 0; pool_Put m.

(** [BuildMMsg] and [BuildMsg] on a header; an empty name or buffer has no first byte. *)
Definition BuildMMsg (name buf : bytes_at) : M MMsghdr () := λ m,
  if decide (name.2 = 0 ∨ buf.2 = 0) then Panic
  else Ret ((), MkMMsghdr 1 (Some (MkIovec (Some buf.1) (convertUint (buf.2)))) (Some name.1) (u32 name.2)).

(** ** What a pool promises *)

Record handed_out {T} (used : list nat) (p : arrays T) (v : gslice) (h : option gslice) (p' : arrays T) : Prop := {
  ho_ok : pool_ok (g_arr v :: used) p';
  ho_others a : a ∈ used → pl_mem p' !! a = pl_mem p !! a;
  ho_slice : in_mem p' v;
  ho_handle s : h = Some s → g_arr s = g_arr v ∧ in_mem p' s
}.

Class SlicePool {T R} (get : R → M (arrays T) (gslice * option gslice)) (put : option gslice → M (arrays T) ())
    (accepts : R → Prop) : Prop := {
  sp_get used p r : pool_ok used p → accepts r → ∃ v h p', get r p = Ret ((v, h), p') ∧ handed_out used p v h p';
  sp_put used p s : pool_ok (g_arr s :: used) p → in_mem p s →
    ∃ p', put (Some s) p = Ret ((), p') ∧ pool_ok used p' ∧ pl_mem p' = pl_mem p
}.

(** *** The pools keep it *)

Section Laws.
Context {T : Type} (zero : T).
Implicit Types p : arrays T.

Lemma make_ok used p n c :
  pool_ok used p → 0 ≤ n ≤ c → ∃ v p', make zero n c p = Ret (v, p') ∧ handed_out used p v None p' ∧ g_len v = n ∧ g_cap v = c.
Proof.
  intros [Hd Hf Hu] Hn. unfold make. rewrite decide_True by done. set (a := fresh _).
  assert (Ha : pl_mem p !! a = None) by (apply not_elem_of_dom; apply is_fresh).
  assert (Hne : ∀ b, is_Some (pl_mem p !! b) → b ≠ a) by (intros b [x Hx] ->; congruence).
  do 2 eexists. split; [done|]. split; [|done].
  assert (∀ s, in_mem p s → in_mem (Arrays (<[a := replicate (Z.to_nat c) zero]> (pl_mem p)) (pl_free p)) s) as Hmem.
  { intros s [Hs (x & Hx & Hl)]. split; [done|]. exists x. simpl. split; [|done].
    rewrite lookup_insert_ne; [done|]. apply not_eq_sym, Hne. eauto. }
  split; simpl.
  - split; simpl.
    + apply NoDup_app in Hd as (Hd1 & Hd2 & Hd3). apply NoDup_app. split; [done|].
      rewrite Forall_forall in Hf. rewrite Forall_forall in Hu. split.
      * intros b Hb Hin. apply elem_of_cons in Hin as [->|Hin]; [|by eapply Hd2].
        apply list_elem_of_fmap in Hb as (s & -> & Hs). destruct (Hf s Hs) as [[_ (x & Hx & _)] _]. by rewrite Ha in Hx.
      * apply NoDup_cons. split; [|done]. intros Hin. destruct (Hu a Hin) as [x Hx]. by rewrite Ha in Hx.
    + eapply Forall_impl; [exact Hf|]. intros s [Hs ?]. auto.
    + apply Forall_cons. split; [rewrite lookup_insert_eq; eauto|]. eapply Forall_impl; [exact Hu|]. intros b Hb.
      rewrite lookup_insert_ne by (apply not_eq_sym; auto). done.
  - intros b Hb. rewrite Forall_forall in Hu. rewrite lookup_insert_ne; [done|]. apply not_eq_sym, Hne; auto.
  - split; [done|]. simpl. rewrite lookup_insert_eq. eexists. split; [done|]. rewrite zlen_replicate. lia.
  - done.
Qed.

(** Taking a slice of the pool, whichever it is. *)
Lemma pool_Get_ok used p n :
  pool_ok used p → 0 ≤ n ≤ MaxLen →
  ∃ v p', pool_Get zero n p = Ret (v, p') ∧ handed_out used p v None p' ∧ (g_len v = 0 ∨ g_len v = n) ∧ g_cap v = MaxLen.
Proof.
  intros Hp Hn. unfold pool_Get.
  assert (∃ v p', make zero n MaxLen p = Ret (v, p') ∧ handed_out used p v None p' ∧ (g_len v = 0 ∨ g_len v = n) ∧ g_cap v = MaxLen) as Hmake.
  { destruct (make_ok used p n MaxLen Hp Hn) as (v & p' & ? & ? & ? & ?). exists v, p'. auto. }
  destruct (choose _) as [i|]; [|done]. destruct (pl_free p !! i) as [s|] eqn:Es; [|done].
  destruct Hp as [Hd Hf Hu]. pose proof (delete_Permutation _ _ _ Es) as Hperm.
  rewrite Hperm in Hd, Hf. apply Forall_cons in Hf as [[Hs [Hl Hc]] Hf].
  exists s. eexists. split; [done|]. split; [|auto].
  split; simpl; [|done|done|done]. split; simpl.
  - rewrite <-Permutation_middle. exact Hd.
  - eapply Forall_impl; [exact Hf|]. done.
  - apply Forall_cons. split; [|done]. destruct Hs as [_ (a & -> & _)]. eauto.
Qed.

Lemma pool_Put_ok used p s :
  pool_ok (g_arr s :: used) p → in_mem p s → g_len s = 0 → g_cap s = MaxLen →
  ∃ p', pool_Put s p = Ret ((), p') ∧ pool_ok used p' ∧ pl_mem p' = pl_mem p.
Proof.
  intros [Hd Hf Hu] Hs Hl Hc. eexists. split; [done|]. split; [|done]. split; simpl.
  - rewrite Permutation_middle. exact Hd.
  - apply Forall_cons. split; [done|]. eapply Forall_impl; [exact Hf|]. done.
  - by apply Forall_cons_1 in Hu as [_ Hu].
Qed.

(** What is not given back is garbage. *)
Lemma pool_ok_forget used p a : pool_ok (a :: used) p → pool_ok used p.
Proof.
  intros [Hd Hf Hu]. split; [|done|by apply Forall_cons_1 in Hu as [_ Hu]].
  rewrite <-Permutation_middle in Hd. by apply NoDup_cons in Hd as [_ Hd].
Qed.

(** Giving a slice back, as the three pools do. *)
Lemma give_back_ok used p s :
  pool_ok (g_arr s :: used) p → in_mem p s →
  ∃ p', (if decide (g_cap s ≠ MaxLen) then mret () else s ← slice_to s 0; pool_Put s) p = Ret ((), p') ∧
        pool_ok used p' ∧ pl_mem p' = pl_mem p.
Proof.
  intros Hp Hs. case_decide as Hc.
  { exists p. split; [done|]. split; [|done]. by eapply pool_ok_forget. }
  unfold slice_to, g_reslice. destruct Hs as [Hl Ha]. rewrite decide_True by lia. mpure.
  apply (pool_Put_ok used p (GSlice (g_arr s) 0 (g_cap s))); [done| |done|simpl; lia].
  split; [simpl; lia|done].
Qed.

(** Writing into one's own array. *)
Lemma write_own_ok used p s a' :
  pool_ok (g_arr s :: used) p → in_mem p s → zlen a' = g_cap s →
  handed_out used p s (Some s) (Arrays (<[g_arr s := a']> (pl_mem p)) (pl_free p)).
Proof.
  intros [Hd Hf Hu] [Hl Ha] Hz.
  rewrite <-Permutation_middle in Hd. apply NoDup_cons in Hd as [Hn Hd]. apply not_elem_of_app in Hn as [Hn1 Hn2].
  assert (in_mem (Arrays (<[g_arr s := a']> (pl_mem p)) (pl_free p)) s) as Hs.
  { split; [done|]. simpl. rewrite lookup_insert_eq. eauto. }
  split.
  - split; simpl.
    + rewrite <-Permutation_middle. apply NoDup_cons. split; [|done]. by apply not_elem_of_app.
    + rewrite Forall_forall in Hf. apply Forall_forall. intros t Ht. destruct (Hf t Ht) as [[? (x & Hx & ?)] ?].
      split; [|done]. split; [done|]. exists x. simpl. split; [|done]. rewrite lookup_insert_ne; [done|].
      intros E. apply Hn1. rewrite E. by apply list_elem_of_fmap_2.
    + eapply Forall_impl; [exact Hu|]. intros b Hb. simpl. destruct (decide (b = g_arr s)) as [->|Hne].
      * rewrite lookup_insert_eq. eauto.
      * by rewrite lookup_insert_ne by congruence.
  - intros b Hb. simpl. rewrite lookup_insert_ne; [done|]. by intros <-.
  - done.
  - intros ? [= <-]. done.
Qed.

Lemma handed_out_trans used p v h p1 v' h' p2 :
  handed_out used p v h p1 → handed_out used p1 v' h' p2 → handed_out used p v' h' p2.
Proof.
  intros [_ H1 _ _] [H2 H3 H4 H5]. split; [done| |done|done]. intros a Ha. by rewrite H3, H1.
Qed.

(** Other slices of the array that is handed out. *)
Lemma handed_out_slice used p v h p' w h' :
  handed_out used p v h p' → g_arr w = g_arr v → g_cap w = g_cap v → 0 ≤ g_len w ≤ g_cap w →
  (∀ s, h' = Some s → s = v ∨ h = Some s) → handed_out used p w h' p'.
Proof.
  intros [H1 H2 H3 H4] Ha Hc Hl Hh. destruct H3 as [Hv (a & Hm & Hz)].
  split; rewrite ?Ha; try done.
  - split; [done|]. exists a. by rewrite Ha, Hc.
  - intros s Hs. destruct (Hh s Hs) as [->|E]; [|by apply H4].
    split; [done|]. split; [done|]. eauto.
Qed.

Lemma append_ok used p v x :
  pool_ok (g_arr v :: used) p → in_mem p v → g_len v < g_cap v →
  ∃ a p', append zero grow v x p = Ret (GSlice (g_arr v) (g_len v + 1) (g_cap v), p') ∧
    handed_out used p (GSlice (g_arr v) (g_len v + 1) (g_cap v)) (Some v) p' ∧
    pl_mem p !! g_arr v = Some a ∧ pl_mem p' !! g_arr v = Some (<[Z.to_nat (g_len v) := x]> a).
Proof.
  intros Hp Hv Hl. destruct (Hv) as [Hl' (a & Ha & Hz)]. unfold append. rewrite Ha, decide_True by done.
  exists a. eexists. split; [done|]. split_and!; [|done|simpl; by rewrite lookup_insert_eq].
  eapply handed_out_slice; [apply (write_own_ok used p v); [done|done|]| | | |].
  - unfold zlen in *. by rewrite length_insert.
  - done.
  - done.
  - simpl. lia.
  - intros s [= <-]. by left.
Qed.

End Laws.

(** *** Instances *)

Definition iovecs (bs : list bytes_at) : list Iovec :=
  (λ b, MkIovec (Some b.1) (convertUint b.2)) <$> filter (λ b, b.2 ≠ 0) bs.

Lemma zlen_iovecs bs : zlen (iovecs bs) ≤ zlen bs.
Proof. unfold iovecs, zlen. rewrite length_fmap. apply Nat2Z.inj_le, length_filter. Qed.

Lemma iovecs_cons b n bs : iovecs ((b, n) :: bs) = if decide (n = 0) then iovecs bs else MkIovec (Some b) (convertUint n) :: iovecs bs.
Proof. unfold iovecs. rewrite filter_cons. simpl. destruct (decide (n = 0)); by case_decide. Qed.

(** The vector is filled in place, with the slices that are not empty. *)
Lemma append_iovecs_ok used bs p v a :
  pool_ok (g_arr v :: used) p → in_mem p v → pl_mem p !! g_arr v = Some a → g_len v + zlen (iovecs bs) ≤ g_cap v →
  ∃ v' p' a', append_iovecs bs v p = Ret (v', p') ∧ handed_out used p v' (Some v) p' ∧
    g_arr v' = g_arr v ∧ g_cap v' = g_cap v ∧ g_len v' = g_len v + zlen (iovecs bs) ∧
    pl_mem p' !! g_arr v = Some a' ∧ ztake (g_len v') a' = ztake (g_len v) a ++ iovecs bs.
Proof.
  revert p v a. induction bs as [|[b n] bs IH]; intros p v a Hp Hv Ha Hl.
  - exists v, p, a. split; [done|]. destruct (Hv) as [Hl' _].
    assert (zlen (iovecs []) = 0) as Hz by done. rewrite Hz, Z.add_0_r.
    split_and!; try done; [|by rewrite app_nil_r].
    split; [done|done|done|]. intros s [= <-]. done.
  - cbn [append_iovecs].
    rewrite iovecs_cons in *. destruct (decide (n = 0)) as [->|Hn]; [by apply IH|].
    rewrite zlen_cons in *.
    pose proof (zlen_nonneg (iovecs bs)).
    destruct (append_ok zero_iovec used p v (MkIovec (Some b) (convertUint n)) Hp Hv ltac:(lia))
      as (a0 & p1 & Hr & Ho & Ha0 & Ha1). rewrite Ha in Ha0. injection Ha0 as <-.
    destruct (IH p1 (GSlice (g_arr v) (g_len v + 1) (g_cap v)) _ (ho_ok _ _ _ _ _ Ho) (ho_slice _ _ _ _ _ Ho) Ha1)
      as (v' & p' & a' & Hr' & Ho' & Hv1 & Hv2 & Hv3 & Ha' & Ht); [simpl; lia|]. simpl in *.
    exists v', p', a'. mrun Hr. split; [done|]. split_and!; try done; try lia.
    + pose proof (handed_out_trans _ _ _ _ _ _ _ _ Ho Ho') as [H1 H2 H3 H4].
      split; try done. intros s [= <-]. split; [done|]. destruct (H3) as [_ (y & Hy & Hz)].
      destruct Hv as [Hv _]. split; [done|]. exists y. split; [by rewrite <-Hv1|by rewrite Hz].
    + rewrite Ht. destruct Hv as [Hv (y & Hy & Hz)]. rewrite Ha in Hy. injection Hy as <-.
      unfold ztake. replace (Z.to_nat (g_len v + 1)) with (S (Z.to_nat (g_len v))) by lia.
      rewrite (take_S_r _ _ (MkIovec (Some b) (convertUint n))).
      * rewrite take_insert_ge by lia. by rewrite <-app_assoc.
      * apply list_lookup_insert_eq. unfold zlen in *. lia.
Qed.

#[export] Instance iovec_pool : SlicePool GetIOVECWrapper PutIOVECWrapper (λ _, True).
Proof.
  split.
  - intros used p bs Hp _. unfold GetIOVECWrapper. pose proof (zlen_iovecs bs). pose proof (zlen_nonneg bs).
    assert (∀ v p1 h, handed_out used p v None p1 → g_len v = 0 → zlen bs ≤ g_cap v → (h = None ∨ h = Some v) →
      ∃ v' h' p', (v' ← append_iovecs bs v; mret (v', h)) p1 = Ret ((v', h'), p') ∧ handed_out used p v' h' p') as Hfill.
    { intros v p1 h Ho Hl Hc Hh. destruct (ho_slice _ _ _ _ _ Ho) as [Hv (a & Ha & Hz)].
      destruct (append_iovecs_ok used bs p1 v a (ho_ok _ _ _ _ _ Ho) (ho_slice _ _ _ _ _ Ho) Ha ltac:(lia))
        as (v' & p2 & a' & Hr & Ho' & _). mrun Hr. do 3 eexists. split; [done|].
      destruct (handed_out_trans _ _ _ _ _ _ _ _ Ho Ho') as [H1 H2 H3 H4]. split; try done.
      intros s Hs. apply H4. destruct Hh as [->| ->]; congruence. }
    case_decide.
    + destruct (pool_Get_ok zero_iovec used p 0 Hp) as (v & p1 & Hr & Ho & Hl & Hc); [unfold MaxLen; lia|].
      mrun Hr. apply Hfill; [done|lia|lia|by right].
    + destruct (make_ok zero_iovec used p 0 (zlen bs) Hp) as (v & p1 & Hr & Ho & Hl & Hc); [lia|].
      mrun Hr. apply Hfill; [done|lia|lia|by left].
  - intros used p s. apply give_back_ok.
Qed.

#[export] Instance iodata_pool : SlicePool GetIOData PutIOData (λ size, 0 ≤ size).
Proof.
  split.
  - intros used p size Hp Hsize. unfold GetIOData. case_decide.
    + destruct (make_ok None used p size size Hp) as (v & p1 & Hr & Ho & _); [lia|]. mrun Hr. eauto 10.
    + destruct (pool_Get_ok None used p 0 Hp) as (v & p1 & Hr & Ho & Hl & Hc); [unfold MaxLen; lia|].
      mrun Hr. unfold slice_to, g_reslice. rewrite decide_True by (rewrite Hc; lia). mpure.
      do 3 eexists. split; [done|]. apply (handed_out_slice _ _ _ _ _ _ _ Ho); [done|done|simpl; lia|].
      intros s [= <-]. by left.
  - intros used p s. apply give_back_ok.
Qed.

(** Headers go back as slices, without a wrapper. *)
Definition GetMMsghdrs_slice (size : Z) : M (arrays MMsghdr) (gslice * option gslice) :=
  m ← GetMMsghdrs size; mret (m, Some m).
Definition PutMMsghdrs_slice (m : option gslice) : M (arrays MMsghdr) () :=
  match m with Some m => PutMMsghdrs m | None => mret () end.

#[export] Instance mmsghdrs_pool : SlicePool GetMMsghdrs_slice PutMMsghdrs_slice (λ size, 0 ≤ size).
Proof.
  split.
  - intros used p size Hp Hsize. unfold GetMMsghdrs_slice, GetMMsghdrs. case_decide.
    + destruct (make_ok zero_MMsghdr used p size size Hp) as (v & p1 & Hr & Ho & _); [lia|].
      erewrite bind_Ret by exact Hr. do 3 eexists. split; [done|].
      apply (handed_out_slice _ _ _ _ _ _ _ Ho); [done|done|by apply (ho_slice _ _ _ _ _ Ho)|]. intros s [= <-]. by left.
    + destruct (pool_Get_ok zero_MMsghdr used p MaxLen Hp) as (v & p1 & Hr & Ho & Hl & Hc); [unfold MaxLen; lia|].
      rewrite bind_assoc_run. mrun Hr. unfold slice_to, g_reslice. rewrite decide_True by (rewrite Hc; lia). mpure.
      do 3 eexists. split; [done|].
      pose proof (handed_out_slice _ _ _ _ _ (GSlice (g_arr v) size (g_cap v)) None Ho eq_refl eq_refl) as Ho'.
      simpl in Ho'. specialize (Ho' ltac:(lia) ltac:(done)). destruct Ho' as [H1 H2 H3 _].
      split; try done. intros s [= <-]. done.
  - intros used p s. apply give_back_ok.
Qed.

(** ** Histories *)

Section History.
Context {T R : Type} {get : R → M (arrays T) (gslice * option gslice)} {put : option gslice → M (arrays T) ()}
        {accepts : R → Prop} `{SP : !SlicePool get put accepts}.

(** A slice in use, what goes back for it, and what its user has in its array. *)
Record held : Type := Held { hd_slice : gslice; hd_handle : option gslice; hd_content : list T }.

Definition arrays_of (hs : list held) : list nat := (λ h, g_arr (hd_slice h)) <$> hs.

(** Taking a slice, writing into one's own, giving it back. *)
Inductive history : arrays T → list held → Prop :=
| history_start : history (Arrays ∅ []) []
| history_take p hs r v h p' c :
    history p hs → accepts r → get r p = Ret ((v, h), p') → pl_mem p' !! g_arr v = Some c →
    history p' (Held v h c :: hs)
| history_write p hs i v h c k x :
    history p hs → hs !! i = Some (Held v h c) → (k < length c)%nat →
    history (Arrays (<[g_arr v := <[k := x]> c]> (pl_mem p)) (pl_free p)) (<[i := Held v h (<[k := x]> c)]> hs)
| history_give p hs i v s c p' :
    history p hs → hs !! i = Some (Held v (Some s) c) → put (Some s) p = Ret ((), p') →
    history p' (delete i hs).

(** What a history keeps. *)
Definition held_ok (p : arrays T) (h : held) : Prop :=
  in_mem p (hd_slice h) ∧ pl_mem p !! g_arr (hd_slice h) = Some (hd_content h) ∧
  ∀ s, hd_handle h = Some s → g_arr s = g_arr (hd_slice h) ∧ in_mem p s.

Lemma held_ok_same p p' h :
  pl_mem p' !! g_arr (hd_slice h) = pl_mem p !! g_arr (hd_slice h) → held_ok p h → held_ok p' h.
Proof.
  intros E ([Hl Ha] & Hc & Hh). split; [|split].
  - split; [done|]. by rewrite E.
  - by rewrite E.
  - intros s Hs. destruct (Hh s Hs) as [Hs1 [Hs2 Hs3]]. split; [done|]. split; [done|]. by rewrite Hs1 in *; rewrite E.
Qed.

Lemma arrays_of_perm hs i h : hs !! i = Some h → arrays_of hs ≡ₚ g_arr (hd_slice h) :: arrays_of (delete i hs).
Proof. intros Hi. unfold arrays_of. by rewrite (delete_Permutation _ _ _ Hi) at 1. Qed.

Lemma insert_Permutation (hs : list held) i h : (i < length hs)%nat → <[i := h]> hs ≡ₚ h :: delete i hs.
Proof.
  revert i. induction hs as [|h0 hs IH]; intros [|i] Hi; simpl in *; try lia; [done|].
  rewrite IH by lia. apply Permutation_swap.
Qed.

#[local] Instance arrays_of_Permutation : Proper ((≡ₚ) ==> (≡ₚ)) arrays_of.
Proof. intros hs hs' E. by apply fmap_Permutation. Qed.

#[local] Instance pool_ok_Permutation : Proper ((≡ₚ) ==> eq ==> iff) (pool_ok (T := T)).
Proof. intros u u' E p p' <-. by split; intros [Hd Hf Hu]; split; rewrite ?E in *. Qed.

Lemma held_ok_others p p' hs :
  (∀ a, a ∈ arrays_of hs → pl_mem p' !! a = pl_mem p !! a) → Forall (held_ok p) hs → Forall (held_ok p') hs.
Proof.
  intros E Hf. rewrite Forall_forall in *. intros h Hh. apply (held_ok_same p); [|by apply Hf].
  apply E. by apply (list_elem_of_fmap_2 (λ h, g_arr (hd_slice h))).
Qed.

Lemma history_ok p hs : history p hs → pool_ok (arrays_of hs) p ∧ Forall (held_ok p) hs.
Proof.
  induction 1 as [|p hs r v h p' c _ [Hp Hf] Hr Hg Hc|p hs i v h c k x _ [Hp Hf] Hi Hk|p hs i v s c p' _ [Hp Hf] Hi Hg].
  - split; [|done]. by split; constructor.
  - destruct (sp_get (arrays_of hs) p r Hp Hr) as (v' & h' & p1 & Hg' & [H1 H2 H3 H4]).
    rewrite Hg in Hg'. injection Hg' as <- <- <-. split; [done|]. apply Forall_cons. split; [done|].
    by apply (held_ok_others p).
  - pose proof (Forall_lookup_1 _ _ _ _ Hf Hi) as ([Hl Ha] & Hc & Hh). simpl in *.
    destruct Ha as (a & Ha & Hz). rewrite Hc in Ha. injection Ha as <-.
    pose proof Hp as Hp'. rewrite (arrays_of_perm _ _ _ Hi) in Hp'. simpl in Hp'.
    destruct (write_own_ok (arrays_of (delete i hs)) p v (<[k := x]> c) Hp') as [H1 H2 H3 H4].
    { split; [done|eauto]. }
    { unfold zlen in *. by rewrite length_insert. }
    rewrite (insert_Permutation hs i (Held v h (<[k := x]> c))) by (by eapply lookup_lt_Some).
    split; [exact H1|]. apply Forall_cons. split.
    + split; [done|]. simpl. rewrite lookup_insert_eq. split; [done|].
      intros s Hs. destruct (Hh s Hs) as [Hs1 [Hs2 (y & Hy & Hz2)]]. split; [done|]. split; [done|].
      exists (<[k := x]> c). simpl. rewrite Hs1, lookup_insert_eq. split; [done|]. rewrite Hs1, Hc in Hy. injection Hy as <-.
      unfold zlen in *. by rewrite length_insert.
    + apply (held_ok_others p); [done|]. by apply Forall_delete.
  - pose proof (Forall_lookup_1 _ _ _ _ Hf Hi) as (Hv & Hc & Hh). simpl in *. destruct (Hh s eq_refl) as [Hs1 Hs2].
    pose proof Hp as Hp'. rewrite (arrays_of_perm _ _ _ Hi) in Hp'. simpl in Hp'. rewrite <-Hs1 in Hp'.
    destruct (sp_put _ p s Hp' Hs2) as (p1 & Hg' & Hok & Hm). rewrite Hg in Hg'. injection Hg' as <-.
    split; [done|]. apply (held_ok_others p); [by rewrite Hm|]. by apply Forall_delete.
Qed.

(** However slices are taken, written and given back: no two that are in use share
    an array, each has in its array what its own user has written there and nothing
    else, and taking another and giving one back always succeed. *)
Lemma held_slices_are_private p hs :
  history p hs →
  NoDup (arrays_of hs) ∧
  (∀ i h, hs !! i = Some h → pl_mem p !! g_arr (hd_slice h) = Some (hd_content h)) ∧
  (∀ r, accepts r → ∃ v h p' c, get r p = Ret ((v, h), p') ∧ history p' (Held v h c :: hs)) ∧
  (∀ i v s c, hs !! i = Some (Held v (Some s) c) → ∃ p', put (Some s) p = Ret ((), p') ∧ history p' (delete i hs)).
Proof.
  intros Hh. destruct (history_ok p hs Hh) as [Hp Hf]. split_and!.
  - by apply po_distinct, NoDup_app in Hp as (_ & _ & ?).
  - intros i h Hi. by apply (Forall_lookup_1 _ _ _ _ Hf Hi).
  - intros r Hr. destruct (sp_get _ p r Hp Hr) as (v & h & p' & Hg & Ho).
    destruct (ho_slice _ _ _ _ _ Ho) as [_ (c & Hc & _)]. exists v, h, p', c. split; [done|]. by eapply history_take.
  - intros i v s c Hi. pose proof (Forall_lookup_1 _ _ _ _ Hf Hi) as (_ & _ & Hs). destruct (Hs s eq_refl) as [Hs1 Hs2].
    pose proof Hp as Hp'. rewrite (arrays_of_perm _ _ _ Hi) in Hp'. simpl in *. rewrite <-Hs1 in Hp'.
    destruct (sp_put _ p s Hp' Hs2) as (p' & Hg & _ & _). exists p'. split; [done|]. by eapply history_give.
Qed.
End History.

(** [held_slices_are_private] for a pool. *)
Definition private_pool {T R} (get : R → M (arrays T) (gslice * option gslice)) (put : option gslice → M (arrays T) ())
    (accepts : R → Prop) : Prop :=
  ∀ p hs, history (get := get) (put := put) (accepts := accepts) p hs →
    NoDup (arrays_of hs) ∧
    (∀ i h, hs !! i = Some h → pl_mem p !! g_arr (hd_slice h) = Some (hd_content h)) ∧
    (∀ r, accepts r → ∃ v h p' c, get r p = Ret ((v, h), p') ∧
       history (get := get) (put := put) (accepts := accepts) p' (Held v h c :: hs)) ∧
    (∀ i v s c, hs !! i = Some (Held v (Some s) c) →
       ∃ p', put (Some s) p = Ret ((), p') ∧ history (get := get) (put := put) (accepts := accepts) p' (delete i hs)).

(** C38: However vectors, lists of slices and message headers are taken from their
    pools, written and given back: no two that are in use share an array, each has in
    its array what its own user has written there and nothing else, and taking another
    and giving one back always succeed. *)
Theorem pooled_slices_are_private :
  private_pool GetIOVECWrapper PutIOVECWrapper (λ _, True) ∧
  private_pool GetIOData PutIOData (λ size, 0 ≤ size) ∧
  private_pool GetMMsghdrs_slice PutMMsghdrs_slice (λ size, 0 ≤ size).
Proof. split_and!; intros p hs; apply held_slices_are_private. Qed.

(** A vector holds the slices that are not empty, in order, wherever it comes from. *)
Theorem iovec_holds_nonempty_slices used p bs :
  pool_ok used p →
  ∃ v h p' a, GetIOVECWrapper bs p = Ret ((v, h), p') ∧ pl_mem p' !! g_arr v = Some a ∧ ztake (g_len v) a = iovecs bs.
Proof.
  intros Hp. unfold GetIOVECWrapper. pose proof (zlen_iovecs bs). pose proof (zlen_nonneg bs).
  assert (∀ v p1 (h : option gslice), handed_out used p v None p1 → g_len v = 0 → zlen bs ≤ g_cap v →
    ∃ v' h' p' a, (v' ← append_iovecs bs v; mret (v', h)) p1 = Ret ((v', h'), p') ∧ pl_mem p' !! g_arr v' = Some a ∧
                  ztake (g_len v') a = iovecs bs) as Hfill.
  { intros v p1 h Ho Hl Hc. destruct (ho_slice _ _ _ _ _ Ho) as [Hv (a & Ha & Hz)].
    destruct (append_iovecs_ok used bs p1 v a (ho_ok _ _ _ _ _ Ho) (ho_slice _ _ _ _ _ Ho) Ha ltac:(lia))
      as (v' & p2 & a' & Hr & _ & Hv1 & _ & _ & Ha' & Ht). mrun Hr. do 4 eexists. split; [done|].
    rewrite Hv1. split; [exact Ha'|]. by rewrite Ht, Hl, ztake_0. }
  case_decide.
  - destruct (pool_Get_ok zero_iovec used p 0 Hp) as (v & p1 & Hr & Ho & Hl & Hc); [unfold MaxLen; lia|].
    mrun Hr. apply Hfill; [done|lia|lia].
  - destruct (make_ok zero_iovec used p 0 (zlen bs) Hp) as (v & p1 & Hr & Ho & Hl & Hc); [lia|].
    mrun Hr. apply Hfill; [done|lia|lia].
Qed.

End Pools.

(** ** A history *)

Definition newest (free : list gslice) : option nat := match free with [] => None | _ => Some 0%nat end.

(** A vector is taken and given back, a longer one is taken: the array is used again. *)
Example demo_reuse :
  ('(_, h) ← GetIOVECWrapper newest (Z.mul 2) [(7%nat, 3); (8%nat, 0)];
   _ ← PutIOVECWrapper h;
   '(v, _) ← GetIOVECWrapper newest (Z.mul 2) [(9%nat, 1); (4%nat, 2)];
   a ← gets (λ p, pl_mem p !! g_arr v);
   mret (v, ztake 2 <$> a)) (Arrays ∅ []) =
  Ret ((GSlice 0 2 64, Some [MkIovec (Some 9%nat) 1; MkIovec (Some 4%nat) 2]),
       Arrays {[0%nat := [MkIovec (Some 9%nat) 1; MkIovec (Some 4%nat) 2] ++ replicate 62 zero_iovec]} []).
Proof. vm_compute. reflexivity. Qed.
