(* ===== verification/Monitor.v ===== *)
(** * Watching the counters (parts of src/tcpconn.go and src/metrics/metric.go)

    A goroutine of the package compares the counters of created and closed connections
    every second and turns the clean-up of buffers on when there are many connections.
    The counters are loaded one after the other while connections come and go, so
    the round is a program of the goroutines of [Threads].  The printed metrics are
    differences of counters and ratios of them.

    The theorems: a round by itself counts the open connections; a round among others
    never counts more than were open when it began, unless more have been closed than
    had been created, when the difference wraps around; the differences of a period are
    what was added in it. *)

From stdpp Require Import base list numbers.
From S2P Require Import Prelude SafeJob AutoPostpone Threads.
Import Metrics.

Local Open Scope Z_scope.

(** ** The clean-up flags *)

Definition DefaultCleanUpThrottle : Z := 10000.
Definition defaultCleanUpCheckInterval : Z := 10 ^ 9.

(** The counters, [buffer.cleanUp] and [MassiveConnections]. *)
Record monitor : Type := Monitor { mon_table : table; mon_cleanUp : bool; MassiveConnections : bool }.

Definition set_mon_table v m := Monitor v (mon_cleanUp m) (MassiveConnections m).
Definition SetCleanUp (b : bool) : thread monitor () := write (λ m, Monitor (mon_table m) b (MassiveConnections m)).
Definition store_massive (b : bool) : thread monitor () := write (λ m, Monitor (mon_table m) (mon_cleanUp m) b).

Definition mon_Get (name : Z) : thread monitor Z := method mon_table set_mon_table (Get name).
Definition mon_Add (name delta : Z) : thread monitor () := method mon_table set_mon_table (Add name delta).

(** One tick of the loop; [throttle] is the variable [DefaultCleanUpThrottle], an [int]. *)
Definition checkAndSetBufferCleanUp (throttle : Z) : thread monitor () :=
  created ← mon_Get TCPConnsCreate;
  closed ← mon_Get TCPConnsClose;
  if decide (u64 (created - closed) >= u64 throttle) then
    _ ← SetCleanUp true; store_massive true
  else
    _ ← SetCleanUp false; store_massive false.

(** *** What a round finds *)

Definition count (name : Z) (t : table) : Z := t !!! Z.to_nat name.

Lemma Get_ok name t : 0 ≤ name < metricNum → Get name t = Ret (count name t, t).
Proof. intros H. unfold Get. rewrite !decide_False by lia. done. Qed.

Lemma mon_Get_alone {B} name m (k : Z → thread monitor B) :
  0 ≤ name < metricNum → run_alone (mon_Get name ≫= k) m = run_alone (k (count name (mon_table m))) m.
Proof. intros H. simpl. unfold zoom. rewrite Get_ok by done. by destruct m. Qed.

(** By itself a round sets both flags to whether as many connections are open as the
    threshold says. *)
Lemma check_alone throttle m n :
  count TCPConnsCreate (mon_table m) = count TCPConnsClose (mon_table m) + n → 0 ≤ n < 2 ^ 64 → 0 ≤ throttle < 2 ^ 64 →
  run_alone (checkAndSetBufferCleanUp throttle) m =
    Some (Ret ((), Monitor (mon_table m) (bool_decide (throttle ≤ n)) (bool_decide (throttle ≤ n)))).
Proof.
  intros Hc Hn Ht. unfold checkAndSetBufferCleanUp. rewrite mon_Get_alone by done. rewrite mon_Get_alone by done.
  rewrite Hc. replace (count TCPConnsClose (mon_table m) + n - count TCPConnsClose (mon_table m)) with n by lia.
  rewrite !u64_small by lia.
  destruct (decide (n >= throttle)) as [H|H]; simpl.
  - rewrite bool_decide_eq_true_2 by lia. done.
  - rewrite bool_decide_eq_false_2 by lia. done.
Qed.

(** Among others: the second counter is loaded after [d] more connections have been
    closed.  The number found is [d] below the number of connections that were open at
    the first load, or wraps around when [d] is more than that. *)
Lemma stale_count created closed d :
  0 ≤ closed ≤ created → created < 2 ^ 64 → 0 ≤ d → closed + d < 2 ^ 64 →
  u64 (created - (closed + d)) =
    if decide (d ≤ created - closed) then created - closed - d else 2 ^ 64 + (created - closed - d).
Proof.
  intros H1 H2 H3 H4. case_decide as E.
  - rewrite u64_small by lia. lia.
  - unfold u64. replace (created - (closed + d)) with (2 ^ 64 + (created - closed - d) + (-1) * 2 ^ 64) by lia.
    rewrite Z.mod_add by done. apply Z.mod_small. lia.
Qed.

(** A connection, as far as the counters go. *)
Definition come_and_go : thread monitor () := _ ← mon_Add TCPConnsCreate 1; mon_Add TCPConnsClose 1.

(** One connection that comes and goes between the two loads is counted as very many. *)
Theorem short_connection_counts_as_massive :
  let w := pool_run [0; 1; 1; 0; 0; 0]%nat
             (Pool (Monitor zero false false) [checkAndSetBufferCleanUp DefaultCleanUpThrottle; come_and_go]) in
  mon_cleanUp (p_state w) = true ∧ MassiveConnections (p_state w) = true ∧
  count TCPConnsCreate (mon_table (p_state w)) = 1 ∧ count TCPConnsClose (mon_table (p_state w)) = 1.
Proof. vm_compute. done. Qed.

(** ** The metrics of a period *)

(** What [ShowMetricsOfPeriod] shows of two readings. *)
Definition period (old new : list Z) : list Z := zip_with (λ n o, u64 (n - o)) new old.

(** A ratio is shown when calls succeeded: bytes per call, rounded down. *)
Definition readvEfficiency (m : list Z) : option Z :=
  let readvSucc := u64 (m !!! Z.to_nat TCPReadvCalls - m !!! Z.to_nat TCPReadvFails) in
  if decide (readvSucc > 0) then Some (m !!! Z.to_nat TCPReadvBytes `div` readvSucc) else None.

(** Additions to the counters, in any order. *)
Definition adds (l : list (Z * Z)) : M table () := foldr (λ x k, _ ← Add x.1 x.2; k) (mret ()) l.

Definition added (m : Z) (l : list (Z * Z)) : Z := sumZ (snd <$> filter (λ x, x.1 = m) l).

Lemma adds_ok l t :
  ok t → Forall (λ x, 0 ≤ x.1) l →
  ∃ t', adds l t = Ret ((), t') ∧ ok t' ∧
    ∀ m, 0 ≤ m < metricNum → count m t' = u64 (count m t + added m l).
Proof.
  revert t. induction l as [|[name d] l IH]; intros t Ht Hl.
  - exists t. split; [done|]. split; [done|]. intros m Hm. unfold added. simpl. rewrite Z.add_0_r, u64_small; [done|].
    destruct Ht as [Hlen Hf]. unfold count. rewrite list_lookup_total_alt.
    destruct (t !! Z.to_nat m) as [v|] eqn:E; [apply (Forall_lookup_1 _ _ _ _ Hf E)|simpl; lia].
  - apply Forall_cons_1 in Hl as [Hn Hl]. simpl in Hn.
    destruct (table_Add_ok name d t Ht Hn) as (t1 & Hr & Ht1 & Hm1).
    destruct (IH t1 Ht1 Hl) as (t2 & Hr2 & Ht2 & Hm2).
    exists t2. split; [simpl; by mrun Hr|]. split; [done|]. intros m Hm.
    rewrite Hm2 by done. unfold count. rewrite Hm1 by done. unfold added. rewrite filter_cons. simpl.
    destruct (decide (name = m)) as [->|Hne]; [|by rewrite decide_False by congruence].
    rewrite decide_True by done. csimpl. unfold u64. rewrite Zplus_mod_idemp_l. f_equal. lia.
Qed.

(** Differences of readings are what was added between them, modulo the width. *)
Theorem period_shows_what_was_added l t :
  ok t → Forall (λ x, 0 ≤ x.1) l →
  ∃ t', adds l t = Ret ((), t') ∧
    ∀ m, 0 ≤ m < Max →
      period (take (Z.to_nat Max) t) (take (Z.to_nat Max) t') !! Z.to_nat m = Some (u64 (added m l)).
Proof.
  intros Ht Hl. destruct (adds_ok l t Ht Hl) as (t' & Hr & [Hlen' _] & Hm). exists t'. split; [done|].
  intros m Hmr. destruct Ht as [Hlen _]. unfold period.
  assert (∀ u : table, length u = Z.to_nat metricNum → take (Z.to_nat Max) u !! Z.to_nat m = Some (count m u)) as Hlook.
  { intros u Hu. rewrite lookup_take_lt by (unfold Max in *; lia). unfold count. apply list_lookup_lookup_total_lt.
    rewrite Hu. unfold metricNum, TCPOutboundBufferLimitExceeded. unfold Max in *. lia. }
  apply lookup_zip_with_Some. eexists _, _. split; [|split; by apply Hlook].
  rewrite Hm by (unfold metricNum, TCPOutboundBufferLimitExceeded; lia).
  unfold u64. rewrite Zminus_mod_idemp_l. f_equal. f_equal. lia.
Qed.
