(* ===== verification/Stat.v ===== *)
(** * Usage statistics (src/internal/stat/stat.go)

    The reporter collects what kinds of clients and servers a process has and posts
    them once a day; the open source build has no address to post to and [Report] does
    nothing.  Environment, JSON encoding and HTTP are parameters.

    The theorems: what is posted depends on which kinds there are and not on when and
    how often they were reported; one goroutine posts; the second address is sent what
    the first one has left. *)

From Stdlib Require Import String.
From stdpp Require Import base gmap sets list numbers strings sorting.
From S2P Require Import Prelude.

Local Open Scope Z_scope.

(** ** Attributes *)

Definition ClientAttr : Z := 0.
Definition ServerAttr : Z := 1.
Definition cs_String (a : Z) : string :=
  if decide (a = ClientAttr) then "client" else if decide (a = ServerAttr) then "server" else "invalid".

Definition TCPAttr : Z := 0.
Definition UDPAttr : Z := 1.
Definition network_String (a : Z) : string :=
  if decide (a = TCPAttr) then "tcp" else if decide (a = UDPAttr) then "udp" else "invalid".

Definition unknown : string := "unknown".

Definition Report (cs network : Z) : () := ().

(** ** The reporter *)

Record statInfo : Type := StatInfo {
  si_App : string; si_Server : string; si_IP : string; si_Container : string;
  si_Lang : string; si_Version : string; si_Plugin : string; si_Git : string; si_Owners : list string
}.

(** [beginOnce] is whether it was used; [rp_loops] counts the goroutines started. *)
Record reporter : Type := Reporter { rp_begun : bool; rp_loops : nat; rp_attrs : gset string; rp_posts : list (list byte) }.

Definition newReporter : reporter := Reporter false 0 ∅ [].

Definition report (cs network : Z) : M reporter () :=
  _ ← modify (λ r, Reporter (rp_begun r) (rp_loops r) ({[cs_String cs +:+ "-" +:+ network_String network]} ∪ rp_attrs r) (rp_posts r));
  r ← get;
  if rp_begun r then mret ()
  else modify (λ r, Reporter true (S (rp_loops r)) (rp_attrs r) (rp_posts r)).

(** [strings.Join] *)
Fixpoint Join (sep : string) (l : list string) : string :=
  match l with
  | [] => ""
  | [s] => s
  | s :: l => s +:+ sep +:+ Join sep l
  end.

Definition getAttributes (r : reporter) : string := Join "++" (merge_sort String.le (elements (rp_attrs r))).

Section Stat.
Variable environ : gmap string string.
Variable Marshal : statInfo → option (list byte).

Definition getEnvVar (key : string) : string :=
  match environ !! key with Some value => value | None => unknown end.

Definition lang : string := "go".
Definition tnetVersion : string := "v0.1.1".
Definition plugin : string := "tnet".

(** One round of [reportLoop]: whether there is another. *)
Definition reportLoop : M reporter bool :=
  r ← get;
  let stat := StatInfo (getEnvVar "SUMERU_APP") (getEnvVar "SUMERU_SERVER") (getEnvVar "HOST_IP")
                (getEnvVar "SUMERU_CONTAINER_NAME") lang tnetVersion plugin (getAttributes r) [] in
  match Marshal stat with
  | None => mret false
  | Some stats =>
      _ ← modify (λ r, Reporter (rp_begun r) (rp_loops r) (rp_attrs r) (rp_posts r ++ [stats]));
      mret true
  end.

(** [http.Post] with the reader as body: whether it succeeded, and how much of the
    reader it has read. *)
Variable http_Post : string → list byte → bool * Z.

(** [post] on a reader: its rest. *)
Definition post (reader : list byte) (api : string) : bool * list byte :=
  let '(ok, n) := http_Post api reader in (ok, zdrop n reader).

(** What the two addresses were sent. *)
Definition defaultPoster (inAPI outAPI : string) (data : list byte) : list (string * list byte) :=
  let '(ok, rest) := post data inAPI in
  if ok then [(inAPI, data)] else [(inAPI, data); (outAPI, rest)].

(** ** What is reported *)

Definition reports (calls : list (Z * Z)) : M reporter () := foldr (λ c k, _ ← report c.1 c.2; k) (mret ()) calls.

Definition kinds (calls : list (Z * Z)) : gset string :=
  list_to_set ((λ c, cs_String c.1 +:+ "-" +:+ network_String c.2) <$> calls).

Lemma reports_run calls r :
  reports calls r = Ret ((), Reporter (rp_begun r || negb (bool_decide (calls = [])))
                               (rp_loops r + if rp_begun r then 0 else if decide (calls = []) then 0 else 1)
                               (kinds calls ∪ rp_attrs r) (rp_posts r)).
Proof.
  revert r. induction calls as [|[cs n] calls IH]; intros [b k a p].
  - unfold kinds. simpl. unfold mret, M_ret. rewrite orb_false_r, (left_id_L ∅ (∪)). do 3 f_equal. destruct b; lia.
  - simpl reports. unfold report at 1. rewrite bind_assoc_run. mpure. simpl. rewrite bind_assoc_run. mpure. simpl.
    destruct b; mpure; rewrite IH; simpl; unfold kinds; simpl; do 3 f_equal; try (set_solver by done); lia.
Qed.

(** From a new reporter: one goroutine as soon as there is a call, and attributes that
    do not depend on the order or the number of the calls. *)
Theorem reports_are_sets calls calls' :
  kinds calls = kinds calls' →
  ∃ r r', reports calls newReporter = Ret ((), r) ∧ reports calls' newReporter = Ret ((), r') ∧
          getAttributes r = getAttributes r' ∧ (rp_loops r ≤ 1)%nat.
Proof.
  intros Hk. do 2 eexists. rewrite !reports_run. split; [done|]. split; [done|]. split.
  - unfold getAttributes. simpl. by rewrite Hk.
  - simpl. case_decide; lia.
Qed.

(** The attributes are posted in the order of strings, each once. *)
Lemma attributes_sorted r :
  Sorted String.le (merge_sort String.le (elements (rp_attrs r))) ∧
  merge_sort String.le (elements (rp_attrs r)) ≡ₚ elements (rp_attrs r) ∧ NoDup (elements (rp_attrs r)).
Proof. split; [apply Sorted_merge_sort; apply _|]. split; [apply merge_sort_Permutation|apply NoDup_elements]. Qed.

(** When the first address has read the data before it failed, the second is sent
    nothing. *)
Theorem second_post_is_empty inAPI outAPI data :
  http_Post inAPI data = (false, zlen data) → defaultPoster inAPI outAPI data = [(inAPI, data); (outAPI, [])].
Proof. intros Hp. unfold defaultPoster, post. rewrite Hp. by rewrite zdrop_ge. Qed.

End Stat.
