(* ===== verification/Balance.v ===== *)
(** * The registry of load balancers and poller managers (src/internal/poller: loadbalance.go, pollmgr.go)

    Load balancers are registered by name ([lbs]) and managers made by name:
    [NewPollMgr].  [init_package] runs the [init] functions of the package; the
    manager of the process depends on their order. *)

From Stdlib Require Import String.
From stdpp Require Import base gmap list numbers strings pretty.
From S2P Require Import Prelude Poller PollerSpec.

Local Open Scope Z_scope.

(** ** Names of events *)

(** [Event.String]; the constants are numbered in order. *)
Definition Event_String (e : Event) : string :=
  match e with
  | Readable => "Readable"
  | ModReadable => "ModReadable"
  | Writable => "Writeable"
  | ModWritable => "ModWriteable"
  | ReadWriteable => "ReadWriteable"
  | ModReadWriteable => "ModReadWriteable"
  | Detach => "Detach"
  | Other n => "Event(" +:+ pretty n +:+ ")"
  end.

(** No two events have the same name. *)
Lemma Event_String_inj e1 e2 : Event_String e1 = Event_String e2 → e1 = e2.
Proof.
  destruct e1 as [| | | | | | |n], e2 as [| | | | | | |m]; try done.
  unfold Event_String. intros H%(inj (String.append "Event(")). f_equal. apply (inj pretty). revert H.
  generalize (pretty n) (pretty m). intros s. induction s as [|a s IH]; intros [|b t]; cbn [String.append]; intros [=]; subst.
  - done.
  - by destruct t.
  - by destruct s.
  - f_equal. by apply IH.
Qed.

Section Balance.
Context {P S : Type}.

(** [BalanceBuilder]; the balancers of the package are [roundRobinLB]. *)
Definition BalanceBuilder : Type := () → roundRobinLB P.

(** [lbs], and the state that making and closing pollers changes. *)
Record package : Type := Package { lbs : gmap string BalanceBuilder; pk_rest : S }.

Abbreviation MPk := (M package).

Definition on_pk {A} : M S A → MPk A := zoom pk_rest (λ r p, Package (lbs p) r).

Definition GetBalanceBuilder (name : string) : MPk (option BalanceBuilder) := gets (λ p, lbs p !! name).

(** [None] is a nil builder. *)
Definition RegisterBalanceBuilder (name : string) (builder : option BalanceBuilder) : MPk () :=
  match builder with
  | None => panic
  | Some builder =>
      if decide (name = "") then panic
      else modify (λ p, Package (<[name := builder]> (lbs p)) (pk_rest p))
  end.

(** ** Round robin *)

Definition RoundRobin : string := "RoundRobinLB".
Definition rr_Name : string := RoundRobin.
Definition new_roundRobinLB : BalanceBuilder := λ _, RR [] 0 0.
Definition init_roundrobin : MPk () := RegisterBalanceBuilder RoundRobin (Some new_roundRobinLB).

(** ** Managers *)

Record mgr_options : Type := MgrOptions { mo_ignoreTaskError : bool }.
Definition MgrOption : Type := mgr_options → mgr_options.
Definition WithIgnoreTaskError (ignore : bool) : MgrOption := λ _, MgrOptions ignore.

Variable newPoller : bool → M S (result Z P).
Variable poller_Close : P → M S ().   (* its error is ignored *)

Inductive mgr_err : Type := MNotRegistered | MLoops.

(** A manager without the state of the process. *)
Definition NewPollMgr (balance : string) (loops : Z) (opts : list MgrOption) : MPk (result mgr_err (roundRobinLB P * bool)) :=
  let o := foldl (λ o opt, opt o) (MgrOptions false) opts in
  builder ← GetBalanceBuilder balance;
  match builder with
  | None => mret (Err MNotRegistered)
  | Some builder =>
      on_pk (λ s,
        match pm_SetNumPollers newPoller loops (MkPollMgr (builder ()) (mo_ignoreTaskError o) s) with
        | Ret (true, m) => Ret (Ok (pm_lb m, pm_ignoreTaskError m), pm_rest m)
        | Ret (false, m) => Ret (Err MLoops, pm_rest m)
        | Panic => Panic
        | NoFuel => NoFuel
        end)
  end.

(** [Close] goes on with the next poller whatever the last one says. *)
Definition pm_Close : M (PollMgr P S) () :=
  m ← get;
  on_rest (rr_iterate (λ _ p, _ ← poller_Close p; mret true) 0 (rr_pollers (pm_lb m))).

(** [init] of pollmgr.go: the manager of the process. *)
Definition init_pollmgr : MPk (roundRobinLB P * bool) :=
  r ← NewPollMgr RoundRobin 1 [];
  match r with Ok m => mret m | Err _ => panic end.

(** ** Making and closing managers *)

Hypothesis Hnew : ∀ ig s, ∃ p s', newPoller ig s = Ret (Ok p, s').

Lemma pm_SetNumPollers_ok loops ig s :
  0 < loops →
  ∃ ps s', pm_SetNumPollers newPoller loops (MkPollMgr (RR [] 0 0) ig s) =
             Ret (true, MkPollMgr (RR ps 0 (zlen ps)) ig s') ∧ zlen ps = loops.
Proof.
  intros Hl. destruct (pm_run_ok newPoller (Z.to_nat loops) (RR [] 0 0) ig s [] (Hnew ig) eq_refl eq_refl)
    as (ps & s' & Hr & Hlen). simpl in Hr.
  exists ps, s'. split; [|unfold zlen; lia].
  unfold pm_SetNumPollers, on_lb, rr_Len. erewrite bind_Ret by reflexivity. simpl. rewrite decide_False by lia.
  rewrite Z.sub_0_r. erewrite bind_Ret by exact Hr. done.
Qed.

(** Making a manager: by a name that is not registered, or of no poller, it is refused
    and nothing is made; else it has the number of pollers asked for, and its option
    is the last one given. *)
Lemma NewPollMgr_ok balance loops opts pk :
  (lbs pk !! balance = None → NewPollMgr balance loops opts pk = Ret (Err MNotRegistered, pk)) ∧
  (lbs pk !! balance = Some new_roundRobinLB →
     (loops <= 0 → NewPollMgr balance loops opts pk = Ret (Err MLoops, pk)) ∧
     (0 < loops → ∃ ps s',
        NewPollMgr balance loops opts pk =
          Ret (Ok (RR ps 0 (zlen ps), mo_ignoreTaskError (foldl (λ o opt, opt o) (MgrOptions false) opts)), Package (lbs pk) s') ∧
        zlen ps = loops)).
Proof.
  unfold NewPollMgr. split.
  - intros Hb. unfold GetBalanceBuilder. mpure. by rewrite Hb.
  - intros Hb. unfold GetBalanceBuilder. split; intros Hl; mpure; rewrite Hb; unfold new_roundRobinLB; cbv beta.
    + unfold on_pk, zoom, pm_SetNumPollers, on_lb, rr_Len. erewrite bind_Ret by reflexivity. simpl.
      rewrite decide_True by lia. simpl. by destruct pk.
    + destruct (pm_SetNumPollers_ok loops (mo_ignoreTaskError (foldl (λ o opt, opt o) (MgrOptions false) opts)) (pk_rest pk) Hl)
        as (ps & s' & Hr & Hz).
      exists ps, s'. split; [|done]. unfold on_pk, zoom. by rewrite Hr.
Qed.

(** The [init] functions run in the order of the files, loadbalance_roundrobin.go before
    pollmgr.go: the process has a manager with one poller.  In the other order it
    would not start. *)
Theorem process_has_one_poller pk :
  (∃ p s', (_ ← init_roundrobin; init_pollmgr) pk =
     Ret ((RR [p] 0 1, false), Package (<[RoundRobin := new_roundRobinLB]> (lbs pk)) s')) ∧
  (lbs pk !! RoundRobin = None → init_pollmgr pk = Panic).
Proof.
  split.
  - set (pk1 := Package (<[RoundRobin := new_roundRobinLB]> (lbs pk)) (pk_rest pk)).
    destruct (NewPollMgr_ok RoundRobin 1 [] pk1) as [_ H1]. destruct (H1 (lookup_insert_eq _ _ _)) as [_ H2].
    destruct (H2 ltac:(lia)) as (ps & s' & Hr & Hz). destruct ps as [|p [|]]; [done| |by unfold zlen in Hz; simpl in Hz; lia].
    exists p, s'. unfold init_roundrobin, RegisterBalanceBuilder. rewrite decide_False by done.
    erewrite bind_Ret by reflexivity. unfold init_pollmgr. by erewrite bind_Ret by exact Hr.
  - intros Hn. destruct (NewPollMgr_ok RoundRobin 1 [] pk) as [H1 _]. unfold init_pollmgr.
    by erewrite bind_Ret by (by apply H1).
Qed.

End Balance.

(** Closing a manager closes every poller once, in the order they were made. *)
Lemma pm_Close_ok {P} lb ig (closed : list P) :
  pm_Close (λ p, modify (λ l, l ++ [p])) (MkPollMgr lb ig closed) = Ret ((), MkPollMgr lb ig (closed ++ rr_pollers lb)).
Proof.
  unfold pm_Close. mpure. unfold on_rest. simpl. erewrite zoom_Ret; [reflexivity|]. simpl.
  generalize 0%nat. generalize (rr_pollers lb). intros ps. revert closed. induction ps as [|p ps IH]; intros closed i.
  { by rewrite app_nil_r. }
  cbn [rr_iterate]. specialize (IH (closed ++ [p]) (Datatypes.S i)). rewrite <-app_assoc in IH. etransitivity; [|exact IH]. done.
Qed.
