(* ===== verification/Kqueue.v ===== *)
(** * The poller of BSD systems (src/internal/poller/poller_kqueue.go, poller_kqueue64.go)

    [kqueue] keeps one filter for reading and one for writing per descriptor, where epoll has a
    set of events.  [KqKernel] is the system call, [KqLaws] what kqueue(2) promises:
    a list of changes is applied in order, up to the first that fails, and deleting
    a filter that is not there fails.

    [pollers_agree] compares the two: as long as reading stays registered, as
    tnet does it, both pollers end up interested in the same events;
    [mod_writable_registers_nothing] shows an event for which they differ. *)

From stdpp Require Import base gmap sets list numbers.
From S2P Require Import Prelude Kernel IOVec DescCache Poller PollerSpec.

Local Open Scope Z_scope.

(** ** Constants of the BSD interface *)

Definition EVFILT_READ : Z := -1.
Definition EVFILT_WRITE : Z := -2.
Definition EVFILT_USER : Z := -11.
Definition EV_ADD : Z := 0x1.
Definition EV_DELETE : Z := 0x2.
Definition EV_ENABLE : Z := 0x4.
Definition EV_CLEAR : Z := 0x20.
Definition EV_RECEIPT : Z := 0x40.
Definition EV_ERROR : Z := 0x4000.
Definition EV_EOF : Z := 0x8000.
Definition NOTE_TRIGGER : Z := 0x1000000.
Definition BSD_EAGAIN : Z := 35.

Definition defaultKevent : Z := 64.

(** [unix.Kevent_t]; the data word holds the address of a descriptor or nothing. *)
Record Kevent_t : Type := Kevent { ke_Ident : Z; ke_Filter : Z; ke_Flags : Z; ke_Fflags : Z; ke_Udata : option dloc }.

Definition newKeventIdent (i : Z) : Z := u64 i.

(** kqueue(), fcntl(fd, F_SETFD, FD_CLOEXEC), kevent() with changes, close(): results
    are error numbers, zero for success. *)
Class KqKernel (W : Type) := {
  kq_kqueue : W → result Z Z * W;
  kq_closeOnExec : Z → W → Z * W;
  kq_kevent : Z → list Kevent_t → W → Z * W;
  kq_close : Z → W → Z * W
}.

(** ** The filters of a kqueue *)

Abbreviation filters := (gmap (Z * Z) (option dloc)).

Definition ke_key (c : Kevent_t) : Z * Z := (ke_Ident c, ke_Filter c).
Definition is_add (c : Kevent_t) : bool := has_flag (ke_Flags c) EV_ADD.
Definition is_delete (c : Kevent_t) : bool := has_flag (ke_Flags c) EV_DELETE.

(** A list of changes and the answer: in order, up to the first that fails. *)
Inductive changed : filters → list Kevent_t → Z → filters → Prop :=
| CH_done F : changed F [] 0 F
| CH_add F c cs e F' : is_add c = true → changed (<[ke_key c := ke_Udata c]> F) cs e F' → changed F (c :: cs) e F'
| CH_add_fails F c cs e : is_add c = true → e ≠ 0 → changed F (c :: cs) e F
| CH_delete F c cs e F' :
    is_add c = false → is_delete c = true → is_Some (F !! ke_key c) →
    changed (delete (ke_key c) F) cs e F' → changed F (c :: cs) e F'
| CH_delete_fails F c cs e :
    is_add c = false → is_delete c = true → F !! ke_key c = None → e ≠ 0 → changed F (c :: cs) e F
| CH_other F c cs e F' : is_add c = false → is_delete c = false → changed F cs e F' → changed F (c :: cs) e F'
| CH_other_fails F c cs e : is_add c = false → is_delete c = false → e ≠ 0 → changed F (c :: cs) e F.

Class KqLaws (W : Type) `{KqKernel W} := {
  kq_filters : W → Z → filters;
  kq_kevent_ok kq cs w e w' :
    kq_kevent kq cs w = (e, w') → changed (kq_filters w kq) cs e (kq_filters w' kq)
}.

(** ** The poller *)

Section Kqueue.
Context {D CB W : Type} `{KK : KqKernel W}.
Abbreviation cache := (descCache D CB).

Record kqueue : Type := Kqueue {
  kq_fd : Z;
  kq_notified : Z;
  kq_ioData : IOData;
  kq_ignoreTaskError : bool;
  kq_cache : cache;
  kq_world : W;
  kq_hups : list (CB * D)
}.

Definition kset_notified v k := Kqueue (kq_fd k) v (kq_ioData k) (kq_ignoreTaskError k) (kq_cache k) (kq_world k) (kq_hups k).
Definition kset_ioData v k := Kqueue (kq_fd k) (kq_notified k) v (kq_ignoreTaskError k) (kq_cache k) (kq_world k) (kq_hups k).
Definition kset_cache v k := Kqueue (kq_fd k) (kq_notified k) (kq_ioData k) (kq_ignoreTaskError k) v (kq_world k) (kq_hups k).
Definition kset_world v k := Kqueue (kq_fd k) (kq_notified k) (kq_ioData k) (kq_ignoreTaskError k) (kq_cache k) v (kq_hups k).
Definition kset_hups v k := Kqueue (kq_fd k) (kq_notified k) (kq_ioData k) (kq_ignoreTaskError k) (kq_cache k) (kq_world k) v.

Abbreviation MK := (M kqueue).

Definition on_kcache {A} : M cache A → MK A := zoom kq_cache kset_cache.

(** [unix.Kevent(k.fd, changes, nil, nil)] *)
Definition kevent (changes : list Kevent_t) : MK Z := λ k,
  let '(e, w) := kq_kevent (kq_fd k) changes (kq_world k) in Ret (e, kset_world w k).

Definition add_flags (flags : Z) : Z := Z.lor (Z.lor (Z.lor EV_ADD EV_ENABLE) EV_RECEIPT) flags.

Definition filter_event (desc : dloc) (filter flags : Z) : MK Kevent_t :=
  d ← on_kcache (load_desc desc); mret (Kevent (newKeventIdent (d_FD d)) filter flags 0 (Some desc)).

Definition addRead (desc : dloc) (flags : Z) : MK (result perr ()) :=
  evt ← filter_event desc EVFILT_READ (add_flags flags); e ← kevent [evt]; mret (errno_result e).
Definition addWrite (desc : dloc) (flags : Z) : MK (result perr ()) :=
  evt ← filter_event desc EVFILT_WRITE (add_flags flags); e ← kevent [evt]; mret (errno_result e).
Definition addReadWrite (desc : dloc) (flags : Z) : MK (result perr ()) :=
  evt1 ← filter_event desc EVFILT_READ (add_flags flags);
  evt2 ← filter_event desc EVFILT_WRITE (add_flags flags);
  e ← kevent [evt1; evt2]; mret (errno_result e).
Definition modRead (desc : dloc) (flags : Z) : MK (result perr ()) :=
  evt ← filter_event desc EVFILT_WRITE (Z.lor EV_DELETE flags); e ← kevent [evt]; mret (errno_result e).
Definition modWrite (desc : dloc) (flags : Z) : MK (result perr ()) :=
  evt ← filter_event desc EVFILT_READ (Z.lor EV_DELETE flags); e ← kevent [evt]; mret (errno_result e).
Definition kq_delete (desc : dloc) : MK (result perr ()) :=
  evt1 ← filter_event desc EVFILT_READ EV_DELETE;
  evt2 ← filter_event desc EVFILT_WRITE EV_DELETE;
  e ← kevent [evt1; evt2]; mret (errno_result e).

Definition kq_Control (desc : dloc) (event : Event) : MK (result perr ()) :=
  match event with
  | Readable => addRead desc 0
  | ModReadable => modRead desc 0
  | Writable => addWrite desc 0
  | ModWritable => modWrite desc 0
  | ReadWriteable | ModReadWriteable => addReadWrite desc 0
  | Detach => kq_delete desc
  | Other _ => mret (Err PErrEvent)
  end.

(** ** Serving events *)

Variable call_write : CB → D → M (cache * W) bool.
Variable call_read : CB → D → IOData → M (cache * W) (bool * IOData).

Definition on_kworld {A} : M (cache * W) A → MK A :=
  zoom (λ k, (kq_cache k, kq_world k)) (λ cw k, kset_world cw.2 (kset_cache cw.1 k)).

Definition served_filter (event : Kevent_t) (filter : Z) : bool :=
  bool_decide (ke_Filter event = filter) && has_flag (ke_Flags event) EV_ENABLE.

(** One iteration of the loop of [handle], for an event with a descriptor. *)
Definition kq_handle_event (event : Kevent_t) (hups : list dloc) : MK (list dloc) :=
  match ke_Udata event with
  | None => panic   (* a nil descriptor *)
  | Some desc =>
      d ← on_kcache (load_desc desc);
      let eof := has_flag (ke_Flags event) EV_EOF || has_flag (ke_Flags event) EV_ERROR in
      let hups := if eof then hups ++ [desc] else hups in
      hups ← (match served_filter event EVFILT_READ, d_OnRead d, d_Data d with
              | true, Some onRead, Some data =>
                  k ← get;
                  r ← on_kworld (call_read onRead data (kq_ioData k));
                  _ ← modify (kset_ioData (iodata_Reset r.2));
                  mret (if r.1 && negb (kq_ignoreTaskError k) then hups ++ [desc] else hups)
              | _, _, _ => mret hups
              end);
      match served_filter event EVFILT_WRITE, d_OnWrite d, d_Data d with
      | true, Some onWrite, Some data =>
          k ← get;
          failed ← on_kworld (call_write onWrite data);
          mret (if (failed : bool) && negb (kq_ignoreTaskError k) then hups ++ [desc] else hups)
      | _, _, _ => mret hups
      end
  end.

Fixpoint kq_handle_loop (evs : list Kevent_t) (hups : list dloc) (wakeUp : bool) : MK (list dloc * bool) :=
  match evs with
  | [] => mret (hups, wakeUp)
  | event :: evs =>
      if decide (ke_Ident event = 0) then kq_handle_loop evs hups true
      else hups ← kq_handle_event event hups; kq_handle_loop evs hups wakeUp
  end.

Definition kq_runAsyncTasks : MK () := modify (kset_notified 0).

Fixpoint kq_detach_control (hups : list dloc) : MK () :=
  match hups with
  | [] => mret ()
  | desc :: hups => _ ← kq_Control desc Detach; kq_detach_control hups
  end.

Fixpoint kq_detach_hups (hups : list dloc) : MK () :=
  match hups with
  | [] => mret ()
  | desc :: hups =>
      d ← on_kcache (load_desc desc);
      _ ← (match d_Data d, d_OnHup d with
           | Some data, Some onHup => modify (λ k, kset_hups (kq_hups k ++ [(onHup, data)]) k)
           | _, _ => mret ()
           end);
      kq_detach_hups hups
  end.

Definition kq_detach (hups : list dloc) : MK () :=
  _ ← kq_detach_control hups; _ ← kq_detach_hups hups; on_kcache freeDesc.

Definition kq_handle (evs : list Kevent_t) : MK () :=
  r ← kq_handle_loop evs [] false;
  let '(hups, wakeUp) := r : list dloc * bool in
  _ ← (if wakeUp : bool then kq_runAsyncTasks else mret ());
  if decide (hups ≠ []) then kq_detach hups else mret ().

(** One round of [Wait]: what [kevent] gave; the answer is the error it returns with, or
    the next timeout, none or zero. *)
Definition kq_wait_round (r : result Z (list Kevent_t)) : MK (result Z (option Z)) :=
  match r with
  | Err e => if decide (e = EINTR) then mret (Ok None) else mret (Err e)
  | Ok [] => mret (Ok None)
  | Ok evs => _ ← kq_handle evs; mret (Ok (Some 0))
  end.

Definition user_event (flags fflags : Z) : Kevent_t := Kevent 0 EVFILT_USER flags fflags None.

(** [Trigger] and [notify]; the loop of [notify] runs on fuel. *)
Fixpoint kq_notify (fuel : nat) : MK (result perr ()) :=
  match fuel with
  | O => nofuel
  | S fuel =>
      e ← kevent [user_event 0 NOTE_TRIGGER];
      if decide (e ≠ EINTR ∧ e ≠ BSD_EAGAIN) then mret (errno_result e) else kq_notify fuel
  end.

Definition kq_Trigger (fuel : nat) : MK (result perr ()) :=
  k ← get;
  if decide (kq_notified k = 0) then _ ← modify (kset_notified 1); kq_notify fuel else mret (Ok ()).

Definition kq_Close : MK (result perr ()) := λ k,
  let '(e, w) := kq_close (kq_fd k) (kq_world k) in Ret (errno_result e, kset_world w k).

Definition kq_newPoller (ignoreTaskError : bool) (c : cache) (w : W) : outcome (result Z kqueue * (cache * W)) :=
  match kq_kqueue w with
  | (Err e, w) => Ret (Err e, (c, w))
  | (Ok fd, w) =>
      let '(e, w) := kq_closeOnExec fd w in
      if decide (e ≠ 0) then Ret (Err e, (c, w))
      else
        let '(e, w) := kq_kevent fd [user_event (Z.lor EV_ADD EV_CLEAR) 0] w in
        if decide (e ≠ 0) then Ret (Err e, (c, w))
        else
          match NewIOData DefaultLength with
          | Ret io => Ret (Ok (Kqueue fd 0 (iodata_Reset io) ignoreTaskError c w []), (c, w))
          | Panic => Panic
          | NoFuel => NoFuel
          end
  end.

End Kqueue.

Arguments kqueue : clear implicits.

(** ** Both pollers are interested in the same events *)

(** Registering one event after the other, with the answers. *)
Fixpoint run_controls {S} (control : Event → M S (result perr ())) (es : list Event) : M S (list (result perr ())) :=
  match es with
  | [] => mret []
  | e :: es => r ← control e; rs ← run_controls control es; mret (r :: rs)
  end.

(** What is wanted of a descriptor: to read, to write. *)
Definition wanted (w : bool * bool) (e : Event) : bool * bool :=
  match e with
  | Readable | ModReadable => (true, false)
  | Writable | ModWritable => (false, true)
  | ReadWriteable | ModReadWriteable => (true, true)
  | Detach => (false, false)
  | Other _ => w
  end.

Definition ewants (i : option (Z * dloc)) : bool * bool :=
  match i with Some (flags, _) => (has_flag flags EPOLLIN, has_flag flags EPOLLOUT) | None => (false, false) end.

Definition kwants (F : filters) (fd : Z) : bool * bool :=
  (bool_decide (is_Some (F !! (newKeventIdent fd, EVFILT_READ))), bool_decide (is_Some (F !! (newKeventIdent fd, EVFILT_WRITE)))).

#[local] Arguments kwants : simpl never.

(** How sockets use a poller: registered once, to read or to read and write, then
    modified, in the end detached. *)
Fixpoint disciplined (registered : bool) (es : list Event) : Prop :=
  match es with
  | [] => True
  | (Readable | ReadWriteable) :: es => registered = false ∧ disciplined true es
  | (ModReadable | ModReadWriteable) :: es => registered = true ∧ disciplined true es
  | Detach :: es => registered = true ∧ disciplined false es
  | _ => False
  end.

(** Events that register something with kqueue. *)
Definition registers (e : Event) : bool := match e with Readable | ReadWriteable | ModReadWriteable => true | _ => false end.

Section Agree.
Context {D CB W V : Type} `{KernelLaws W} `{KqLaws V}.
Implicit Types (p : epoll D CB W) (k : kqueue D CB V).

Definition desc_of (c : descCache D CB) (desc : dloc) (fd : Z) : Prop :=
  ∃ d, dc_heap c !! desc = Some d ∧ d_FD d = fd.

Definition interest_of p (fd : Z) : bool * bool := ewants (k_interest (ep_world p) (ep_fd p) fd).
Definition filters_of k : filters := kq_filters (kq_world k) (kq_fd k).

Lemma load_desc_of c desc fd : desc_of c desc fd → ∃ d, load_desc desc c = Ret (d, c) ∧ d_FD d = fd.
Proof. intros (d & Hd & Hf). exists d. unfold load_desc. by rewrite Hd. Qed.

(** What [Control] does when it succeeds. *)
Lemma epoll_control_step desc fd e p r p' :
  desc_of (ep_cache p) desc fd → (∀ n, e ≠ Other n) →
  Control desc e p = Ret (r, p') → r = Ok () →
  desc_of (ep_cache p') desc fd ∧ interest_of p' fd = wanted (interest_of p fd) e.
Proof.
  intros Hd Ho. destruct (load_desc_of _ _ _ Hd) as (d & Hl & Hf).
  assert (Hload : on_cache (load_desc desc) p = Ret (d, p)).
  { unfold on_cache. erewrite zoom_Ret by exact Hl. by destruct p. }
  unfold Control. erewrite bind_Ret by exact Hload. rewrite Hf.
  assert (Hctl : ∀ op ev, (x ← syscall (k_epoll_ctl (ep_fd p) op fd ev); mret (errno_result x)) p = Ret (r, p') → r = Ok () →
            desc_of (ep_cache p') desc fd ∧
            (op = EPOLL_CTL_ADD ∨ op = EPOLL_CTL_MOD → interest_of p' fd = ewants ev) ∧
            (op = EPOLL_CTL_DEL → interest_of p' fd = (false, false))).
  { intros op ev. unfold syscall, mbind, M_bind. destruct (k_epoll_ctl (ep_fd p) op fd ev (ep_world p)) as [x w] eqn:E.
    intros [= Hr <-] Hok. rewrite Hok in Hr. unfold errno_result in Hr. case_decide as Hx; [|done]. rewrite Hx in E.
    destruct (epoll_ctl_ok _ _ _ _ _ _ E) as (Hadd & Hdel & _). split; [exact Hd|]. unfold interest_of. simpl.
    split; [intros Hop; by rewrite Hadd|intros Hop; by rewrite Hdel]. }
  destruct e; try (by intros Hc Hr; destruct (Hctl _ _ Hc Hr) as (? & Hw & Hx); split; [done|];
                      first [by rewrite Hw by (by left)|by rewrite Hw by (by right)|by rewrite Hx]).
  by destruct (Ho n).
Qed.

(** *** kqueue *)

Lemma filter_event_run desc fd filter flags k :
  desc_of (kq_cache k) desc fd →
  filter_event desc filter flags k = Ret (Kevent (newKeventIdent fd) filter flags 0 (Some desc), k).
Proof.
  intros Hd. destruct (load_desc_of _ _ _ Hd) as (d & Hl & Hf). unfold filter_event, on_kcache.
  erewrite bind_Ret by (by erewrite zoom_Ret by exact Hl). rewrite Hf. by destruct k.
Qed.

Lemma kevent_run cs k (f : Z → result perr ()) r k' :
  (e ← kevent cs; mret (f e)) k = Ret (r, k') →
  kq_cache k' = kq_cache k ∧ ∃ e, r = f e ∧ changed (filters_of k) cs e (filters_of k').
Proof.
  unfold kevent, mbind, M_bind. destruct (kq_kevent (kq_fd k) cs (kq_world k)) as [e w] eqn:E.
  intros [= <- <-]. split; [done|]. exists e. split; [done|]. by apply (kq_kevent_ok (kq_fd k) cs (kq_world k)).
Qed.

(** Adding a filter that the answer says was accepted, and deleting one. *)
Definition adding (desc : dloc) (fd filter : Z) : Kevent_t := Kevent (newKeventIdent fd) filter (add_flags 0) 0 (Some desc).
Definition deleting (desc : dloc) (fd filter : Z) : Kevent_t := Kevent (newKeventIdent fd) filter EV_DELETE 0 (Some desc).

Lemma changed_add F desc fd filter cs e F' :
  changed F (adding desc fd filter :: cs) e F' → e = 0 →
  changed (<[(newKeventIdent fd, filter) := Some desc]> F) cs e F'.
Proof. intros Hc He. inversion Hc; subst; try done. Qed.

Lemma changed_delete F desc fd filter cs e F' :
  changed F (deleting desc fd filter :: cs) e F' →
  changed (delete (newKeventIdent fd, filter) F) cs e F' ∨ F' = F ∧ F !! (newKeventIdent fd, filter) = None ∧ e ≠ 0.
Proof. intros Hc. inversion Hc; subst; try done; [by left|by right]. Qed.

Lemma changed_nil F e F' : changed F [] e F' → F' = F.
Proof. by inversion 1. Qed.

Lemma errno_ok e : errno_result e = Ok () → e = 0.
Proof. unfold errno_result. by case_decide. Qed.

Lemma kwants_add_read F fd v : kwants (<[(newKeventIdent fd, EVFILT_READ) := v]> F) fd = (true, (kwants F fd).2).
Proof. unfold kwants. by rewrite lookup_insert_eq, lookup_insert_ne. Qed.
Lemma kwants_add_write F fd v : kwants (<[(newKeventIdent fd, EVFILT_WRITE) := v]> F) fd = ((kwants F fd).1, true).
Proof. unfold kwants. by rewrite lookup_insert_eq, lookup_insert_ne. Qed.
Lemma kwants_del_read F fd : kwants (delete (newKeventIdent fd, EVFILT_READ) F) fd = (false, (kwants F fd).2).
Proof. unfold kwants. by rewrite lookup_delete_eq, lookup_delete_ne. Qed.
Lemma kwants_del_write F fd : kwants (delete (newKeventIdent fd, EVFILT_WRITE) F) fd = ((kwants F fd).1, false).
Proof. unfold kwants. by rewrite lookup_delete_eq, lookup_delete_ne. Qed.

Lemma kwants_no_read F fd : F !! (newKeventIdent fd, EVFILT_READ) = None → (kwants F fd).1 = false.
Proof. unfold kwants. by intros ->. Qed.
Lemma kwants_no_write F fd : F !! (newKeventIdent fd, EVFILT_WRITE) = None → (kwants F fd).2 = false.
Proof. unfold kwants. by intros ->. Qed.

(** The changes that an event makes. *)
Lemma kq_control_step desc fd e k r k' :
  desc_of (kq_cache k) desc fd →
  let w := kwants (filters_of k) fd in
  (w.1 = false → w.2 = false) → disciplined w.1 [e] →
  kq_Control desc e k = Ret (r, k') → (registers e = true → r = Ok ()) →
  desc_of (kq_cache k') desc fd ∧ kwants (filters_of k') fd = wanted w e.
Proof.
  intros Hd w. subst w. destruct (kwants (filters_of k) fd) as [a b] eqn:Ew. intros Hinv Hdis Hc Hok. simpl in Hinv.
  destruct e; simpl in Hdis; try done; simpl in Hc;
    unfold addRead, addReadWrite, modRead, kq_delete in Hc;
    repeat (erewrite bind_Ret in Hc by (by apply filter_event_run));
    apply kevent_run in Hc as (Hcache & err & -> & Hch); rewrite Hcache; (split; [exact Hd|]);
    try specialize (errno_ok _ (Hok eq_refl)) as He; destruct Hdis as [-> _].
  - apply changed_add in Hch as ->%changed_nil; [|done]. by rewrite kwants_add_read, Ew, Hinv.
  - apply changed_delete in Hch as [->%changed_nil|(-> & Hno & _)].
    + by rewrite kwants_del_write, Ew.
    + apply kwants_no_write in Hno. rewrite Ew in *. simpl in Hno. by subst.
  - apply changed_add in Hch; [|done]. apply changed_add in Hch as ->%changed_nil; [|done].
    by rewrite kwants_add_write, kwants_add_read.
  - apply changed_add in Hch; [|done]. apply changed_add in Hch as ->%changed_nil; [|done].
    by rewrite kwants_add_write, kwants_add_read.
  - apply changed_delete in Hch as [Hch|(-> & Hno & _)]; cycle 1.
    { apply kwants_no_read in Hno. by rewrite Ew in Hno. }
    apply changed_delete in Hch as [->%changed_nil|(-> & Hno & _)].
    + by rewrite kwants_del_write, kwants_del_read.
    + apply kwants_no_write in Hno. rewrite kwants_del_read in *. cbn [fst snd] in Hno. by rewrite Hno.
Qed.

(** Both pollers, one event after the other. *)
Lemma agree_steps desc fd es p k rs p' rs' k' :
  desc_of (ep_cache p) desc fd → desc_of (kq_cache k) desc fd →
  let w := kwants (filters_of k) fd in
  interest_of p fd = w → (w.1 = false → w.2 = false) → disciplined w.1 es →
  run_controls (Control desc) es p = Ret (rs, p') → Forall (.= Ok ()) rs →
  run_controls (kq_Control desc) es k = Ret (rs', k') → Forall2 (λ e r, registers e = true → r = Ok ()) es rs' →
  interest_of p' fd = foldl wanted w es ∧ kwants (filters_of k') fd = foldl wanted w es.
Proof.
  revert p k rs rs'. induction es as [|e es IH]; intros p k rs rs' Hp Hk w Hw Hinv Hdis Hrp Hok Hrk Hacc.
  { injection Hrp as <- <-. injection Hrk as <- <-. done. }
  cbn [run_controls] in Hrp, Hrk. unfold mbind, M_bind in Hrp, Hrk.
  destruct (Control desc e p) as [[r p1]| |] eqn:Ep; [|done..].
  destruct (kq_Control desc e k) as [[r' k1]| |] eqn:Ek; [|done..].
  destruct (run_controls (Control desc) es p1) as [[rs1 p2]| |] eqn:Ep2; [|done..].
  destruct (run_controls (kq_Control desc) es k1) as [[rs1' k2]| |] eqn:Ek2; [|done..].
  injection Hrp as <- <-. injection Hrk as <- <-.
  apply Forall_cons_1 in Hok as [Hok1 Hok]. apply Forall2_cons_1 in Hacc as [Hacc1 Hacc].
  assert (Hdis1 : disciplined w.1 [e]) by (destruct e; simpl in *; tauto).
  destruct (epoll_control_step desc fd e p r p1 Hp) as [Hp1 Hi1]; [by intros n ->|done|done|].
  destruct (kq_control_step desc fd e k r' k1 Hk Hinv Hdis1 Ek Hacc1) as [Hk1 Hw1].
  rewrite Hw in Hi1. specialize (IH p1 k1 rs1 rs1' Hp1 Hk1). cbv zeta in IH. rewrite Hw1 in IH.
  simpl. apply IH; [done| | |done..].
  - destruct e; simpl in *; try done.
  - destruct e; simpl in *; tauto.
Qed.

(** C20: the two pollers do the same for a socket.  After any events that a socket
    uses (registered once, to read or to read and write, then modified, in the end
    detached), when epoll accepts them and kqueue the registrations among them, both
    are interested in exactly what the last event asks for; that kqueue refuses to
    delete a filter it does not have makes no difference. *)
Theorem pollers_agree desc fd es p k rs p' rs' k' :
  desc_of (ep_cache p) desc fd → desc_of (kq_cache k) desc fd →
  interest_of p fd = (false, false) → kwants (filters_of k) fd = (false, false) → disciplined false es →
  run_controls (Control desc) es p = Ret (rs, p') → Forall (.= Ok ()) rs →
  run_controls (kq_Control desc) es k = Ret (rs', k') → Forall2 (λ e r, registers e = true → r = Ok ()) es rs' →
  interest_of p' fd = foldl wanted (false, false) es ∧ kwants (filters_of k') fd = foldl wanted (false, false) es.
Proof.
  intros Hp Hk Hi Hw Hdis Hrp Hok Hrk Hacc.
  assert (Hs := agree_steps desc fd es p k rs p' rs' k' Hp Hk). cbv zeta in Hs. rewrite Hw in Hs.
  by apply Hs.
Qed.

(** For [ModWritable] they differ: kqueue only deletes the filter for reading, so that a
    descriptor registered to read is left with no filter. *)
Theorem mod_writable_registers_nothing desc fd k k' :
  desc_of (kq_cache k) desc fd → kwants (filters_of k) fd = (true, false) →
  kq_Control desc ModWritable k = Ret (Ok (), k') →
  kwants (filters_of k') fd = (false, false) ∧ wanted (true, false) ModWritable = (false, true).
Proof.
  intros Hd Hw Hc. split; [|done]. simpl in Hc. unfold modWrite in Hc.
  erewrite bind_Ret in Hc by (by apply filter_event_run).
  apply kevent_run in Hc as (_ & e & He & Hch). apply eq_sym, errno_ok in He.
  apply changed_delete in Hch as [->%changed_nil|(_ & _ & Hx)]; [|done]. by rewrite kwants_del_read, Hw.
Qed.

(** *** Recycling *)

Context (call_write : CB → D → M (descCache D CB * V) bool)
        (call_read : CB → D → IOData → M (descCache D CB * V) (bool * IOData)).

(** Callbacks that succeed and leave the descriptors alone. *)
Definition calm {A} (m : M (descCache D CB * V) A) (ok : A → Prop) : Prop :=
  ∀ c v, ∃ x v', m (c, v) = Ret (x, (c, v')) ∧ ok x.

Hypothesis Hwrite : ∀ cb d, calm (call_write cb d) (λ failed, failed = false).
Hypothesis Hread : ∀ cb d io, calm (call_read cb d io) (λ r, r.1 = false).

(** An event of a descriptor that has not hung up. *)
Definition calm_event (c : descCache D CB) (ev : Kevent_t) : Prop :=
  (∃ desc, ke_Udata ev = Some desc ∧ is_Some (dc_heap c !! desc)) ∧
  has_flag (ke_Flags ev) EV_EOF = false ∧ has_flag (ke_Flags ev) EV_ERROR = false.

Lemma on_kworld_calm {A} (m : M (descCache D CB * V) A) ok k :
  calm m ok → ∃ x k', on_kworld m k = Ret (x, k') ∧ ok x ∧ kq_cache k' = kq_cache k.
Proof.
  intros Hm. destruct (Hm (kq_cache k) (kq_world k)) as (x & v' & Hr & Hx).
  eexists x, _. split; [unfold on_kworld; apply zoom_Ret; exact Hr|]. by split.
Qed.

Lemma calm_handle_event ev k :
  calm_event (kq_cache k) ev →
  ∃ k', kq_handle_event call_write call_read ev [] k = Ret ([], k') ∧ kq_cache k' = kq_cache k.
Proof.
  intros ((desc & Hu & d & Hd) & He1 & He2). unfold kq_handle_event. rewrite Hu.
  assert (Hl : on_kcache (load_desc desc) k = Ret (d, k)).
  { unfold on_kcache. erewrite zoom_Ret by (unfold load_desc; by rewrite Hd). by destruct k. }
  erewrite bind_Ret by exact Hl. rewrite He1, He2. cbv zeta. simpl orb. cbv iota.
  set (mr := match served_filter ev EVFILT_READ with true => _ | false => _ end).
  assert (∃ k1, mr k = Ret ([], k1) ∧ kq_cache k1 = kq_cache k) as (k1 & Hr1 & Hc1).
  { unfold mr. destruct (served_filter ev EVFILT_READ), (d_OnRead d) as [cb|], (d_Data d) as [data|]; try by exists k.
    mpure. destruct (on_kworld_calm _ _ k (Hread cb data (kq_ioData k))) as (x & k1 & Hr & Hx & Hc).
    erewrite bind_Ret by exact Hr. mpure. rewrite Hx. by eexists. }
  erewrite bind_Ret by exact Hr1.
  destruct (served_filter ev EVFILT_WRITE), (d_OnWrite d) as [cb|], (d_Data d) as [data|]; try by exists k1.
  mpure. destruct (on_kworld_calm _ _ k1 (Hwrite cb data)) as (x & k2 & Hr & Hx & Hc).
  erewrite bind_Ret by exact Hr. rewrite Hx. exists k2. split; [done|congruence].
Qed.

Fixpoint kq_rounds (rs : list (list Kevent_t)) : M (kqueue D CB V) () :=
  match rs with
  | [] => mret ()
  | evs :: rs => _ ← kq_handle call_write call_read evs; kq_rounds rs
  end.

Lemma calm_handle_loop evs wake k :
  Forall (λ ev, ke_Ident ev = 0 ∨ calm_event (kq_cache k) ev) evs →
  ∃ wake' k', kq_handle_loop call_write call_read evs [] wake k = Ret (([], wake'), k') ∧ kq_cache k' = kq_cache k.
Proof.
  revert wake k. induction evs as [|ev evs IH]; intros wake k Hev; [by exists wake, k|].
  apply Forall_cons_1 in Hev as [Hev Hevs]. cbn [kq_handle_loop]. case_decide as Hid; [by apply IH|].
  destruct Hev as [?|Hev]; [done|]. destruct (calm_handle_event ev k Hev) as (k1 & Hr & Hc). erewrite bind_Ret by exact Hr.
  destruct (IH wake k1) as (wake' & k2 & Hr2 & Hc2); [by rewrite Hc|]. exists wake', k2. split; [exact Hr2|congruence].
Qed.

(** However many rounds pass without a hang-up, no marked descriptor is given back:
    unlike epoll's ([PollerSpec.poller_recycles_descriptors]), this poller only calls
    [freeDesc] when it detaches something. *)
Theorem kqueue_recycles_only_after_hangups rs k :
  Forall (Forall (λ ev, ke_Ident ev = 0 ∨ calm_event (kq_cache k) ev)) rs →
  ∃ k', kq_rounds rs k = Ret ((), k') ∧ kq_cache k' = kq_cache k.
Proof.
  revert k. induction rs as [|evs rs IH]; intros k Hrs; [by exists k|].
  apply Forall_cons_1 in Hrs as [Hev Hrs]. cbn [kq_rounds]. unfold kq_handle at 1.
  destruct (calm_handle_loop evs false k Hev) as (wake & k1 & Hr & Hc).
  rewrite bind_assoc_run. erewrite bind_Ret by exact Hr. cbv beta iota.
  destruct (IH (if wake then kset_notified 0 k1 else k1)) as (k2 & Hr2 & Hc2).
  { destruct wake; simpl; by rewrite Hc. }
  exists k2. split; [|destruct wake; simpl in Hc2; congruence].
  rewrite bind_assoc_run. by destruct wake.
Qed.

End Agree.

(** ** A concrete kqueue *)

(** One kqueue, number 3, that accepts every filter. *)
Fixpoint apply_changes (F : filters) (cs : list Kevent_t) : Z * filters :=
  match cs with
  | [] => (0, F)
  | c :: cs =>
      if is_add c then apply_changes (<[ke_key c := ke_Udata c]> F) cs
      else if is_delete c then
        match F !! ke_key c with
        | Some _ => apply_changes (delete (ke_key c) F) cs
        | None => (ENOENT, F)
        end
      else apply_changes F cs
  end.

#[local] Instance demo_kqueue : KqKernel filters := {|
  kq_kqueue F := (Ok 3, F);
  kq_closeOnExec _ F := (0, F);
  kq_kevent _ cs F := apply_changes F cs;
  kq_close _ F := (0, F)
|}.

Lemma apply_changes_ok cs F : changed F cs (apply_changes F cs).1 (apply_changes F cs).2.
Proof.
  revert F. induction cs as [|c cs IH]; intros F; [constructor|]. simpl.
  destruct (is_add c) eqn:Ea; [by constructor|]. destruct (is_delete c) eqn:Ed; [|by constructor].
  destruct (F !! ke_key c) eqn:El; [constructor; [done|done|by eexists|done]|by constructor].
Qed.

#[local] Instance demo_kqueue_laws : KqLaws filters.
Proof.
  refine {| kq_filters F _ := F |}. intros kq cs F e F' E. pose proof (apply_changes_ok cs F) as Hc.
  simpl in E. by rewrite E in Hc.
Defined.

(** Descriptor 5 for socket 7. *)
Definition demo_descs : descCache nat nat :=
  set_dheap {[5%positive := MkDesc None (Some 0%nat) 0 (Some 1%nat) None None None 7]} init_cache.

Definition demo_epoll : epoll nat nat script := Epoll 1%positive (MkIOData None None) 4 0 false 0 demo_descs empty_script [].
Definition demo_kq : kqueue nat nat filters := Kqueue 3 0 (MkIOData None None) false demo_descs ∅ [].

Definition demo_life : list Event := [Readable; ModReadWriteable; ModReadable; ModReadable; ModReadWriteable].

Lemma pollers_agree_witness :
  ∃ rs p' rs' k',
    run_controls (Control 5%positive) demo_life demo_epoll = Ret (rs, p') ∧
    run_controls (kq_Control 5%positive) demo_life demo_kq = Ret (rs', k') ∧
    rs' !! 3%nat = Some (Err (PErrno ENOENT)) ∧
    interest_of p' 7 = (true, true) ∧ kwants (filters_of k') 7 = (true, true).
Proof.
  destruct (run_controls (Control 5%positive) demo_life demo_epoll) as [[rs p']| |] eqn:Ep; [|by vm_compute in Ep..].
  destruct (run_controls (kq_Control 5%positive) demo_life demo_kq) as [[rs' k']| |] eqn:Ek; [|by vm_compute in Ek..].
  exists rs, p', rs', k'. split; [done|]. split; [done|].
  assert (Hrs : rs = replicate 5 (Ok ())) by (by vm_compute in Ep; injection Ep as <- _).
  assert (Hrs' : rs' = [Ok (); Ok (); Ok (); Err (PErrno ENOENT); Ok ()]) by (by vm_compute in Ek; injection Ek as <- _).
  split; [by rewrite Hrs'|].
  apply (pollers_agree 5%positive 7 demo_life demo_epoll demo_kq rs p' rs' k').
  - by eexists.
  - by eexists.
  - reflexivity.
  - reflexivity.
  - by simpl.
  - exact Ep.
  - rewrite Hrs. by apply Forall_replicate.
  - exact Ek.
  - rewrite Hrs'. repeat (apply Forall2_cons_2; [done|]). apply Forall2_nil_2.
Defined.
