(* ===== verification/NetFD.v ===== *)
(** * Sockets (src/netfd.go)

    A [netFD] ties a file descriptor to a poller descriptor.  Its methods run on an
    environment: the socket's fields, the poller with its descriptor cache and the
    kernel, and the counters of the metrics package.  [close] and [Control] hold the
    socket's mutex from beginning to end, so each is one computation here. *)

From stdpp Require Import base gmap sets list numbers.
From S2P Require Import Prelude Node Kernel IOVec DescCache Poller AutoPostpone.

Local Open Scope Z_scope.

Inductive fdType : Type := fdTCP | fdUDP | fdListen.

#[export] Instance fdType_eq_dec : EqDecision fdType.
Proof. solve_decision. Defined.

(** Errors of sockets and connections.  [errors.Is] looks through wrapping, so an
    error is named by what it wraps. *)
Inductive nerr : Type :=
| NConnClosed            (* ErrConnClosed *)
| NLimitExceeded         (* ErrOutboundBufferLimitExceeded *)
| NEAGAIN                (* tnet.EAGAIN: not enough data *)
| NTimeout               (* a netError with isTimeout *)
| NErrno (e : Z)         (* a system call's error *)
| NPoll (e : perr)       (* an error of the poller *)
| NNotInPoller           (* netFD is not added to a poller *)
| NAlreadyInPoller
| NBuffer (e : Node.err) (* an error of the buffer package *)
| NOther.                (* any other error value, of the package or of a handler *)

#[export] Instance perr_eq_dec : EqDecision perr.
Proof. solve_decision. Defined.
#[export] Instance nerr_eq_dec : EqDecision nerr.
Proof. solve_decision. Defined.

Section NetFD.
Context {D CB W : Type} `{Kernel W}.
Variable pdSize : Z.
(** [sock.Close()] of the standard library's connection. *)
Variable sock_Close : Z → W → W.

Record netFD : Type := NetFD {
  nfd_desc : option dloc;
  nfd_sock : bool;              (* [sock != nil] *)
  nfd_fd : Z;
  nfd_fdtype : fdType;
  nfd_closed : bool;
  nfd_udpBufferSize : Z;
  nfd_exactUDPBufferSizeEnabled : bool
}.

Definition set_desc v n := NetFD v (nfd_sock n) (nfd_fd n) (nfd_fdtype n) (nfd_closed n) (nfd_udpBufferSize n) (nfd_exactUDPBufferSizeEnabled n).
Definition set_nfd_closed v n := NetFD (nfd_desc n) (nfd_sock n) (nfd_fd n) (nfd_fdtype n) v (nfd_udpBufferSize n) (nfd_exactUDPBufferSizeEnabled n).

Record net_env : Type := NetEnv {
  ne_nfd : netFD;
  ne_poll : epoll D CB W;
  ne_metrics : Metrics.table
}.

Definition set_nfd v e := NetEnv v (ne_poll e) (ne_metrics e).
Definition set_poll v e := NetEnv (ne_nfd e) v (ne_metrics e).
Definition set_nmetrics v e := NetEnv (ne_nfd e) (ne_poll e) v.

Abbreviation MN := (M net_env).

Definition on_poll {A} : M (epoll D CB W) A → MN A := zoom ne_poll set_poll.
Definition net_syscall {A} (f : W → A * W) : MN A := on_poll (syscall f).
Definition metric (name delta : Z) : MN () := zoom ne_metrics set_nmetrics (Metrics.Add name delta).

Definition FD : MN Z := gets (λ e, nfd_fd (ne_nfd e)).

(** [Desc.Control] and [Desc.Close]: a descriptor without a poller refuses the one
    and crashes in the other. *)
Definition desc_Control (desc : dloc) (event : Event) : MN (result nerr ()) :=
  d ← on_poll (on_cache (load_desc desc));
  match d_poller d with
  | None => mret (Err NOther)
  | Some _ =>
      r ← on_poll (Control desc event);
      mret (match r with Ok u => Ok u | Err e => Err (NPoll e) end)
  end.

Definition desc_Close (desc : dloc) : MN () :=
  d ← on_poll (on_cache (load_desc desc));
  match d_poller d with
  | None => panic
  | Some _ => _ ← on_poll (Control desc Detach); mret ()
  end.

Definition nfd_close : MN () :=
  e ← get;
  if nfd_closed (ne_nfd e) then mret ()
  else
    _ ← modify (λ e, set_nfd (set_nfd_closed true (ne_nfd e)) e);
    _ ← (match nfd_desc (ne_nfd e) with
         | None => mret ()
         | Some desc =>
             _ ← desc_Close desc;
             _ ← on_poll (on_cache (FreeDesc desc));
             modify (λ e, set_nfd (set_desc None (ne_nfd e)) e)
         end);
    if nfd_sock (ne_nfd e) then net_syscall (λ w, ((), sock_Close (nfd_fd (ne_nfd e)) w))
    else _ ← net_syscall (k_close (nfd_fd (ne_nfd e))); mret ().

Definition nfd_Control (event : Event) : MN (result nerr ()) :=
  e ← get;
  if nfd_closed (ne_nfd e) then mret (Err NConnClosed)
  else
    match nfd_desc (ne_nfd e) with
    | None => mret (Err NNotInPoller)
    | Some desc => desc_Control desc event
    end.

(** [Desc.PickPollerWithPollMgr]; [mgr] picks a poller, [None] is a nil manager. *)
Definition PickPollerWithPollMgr (mgr : option nat) (desc : dloc) : MN (result nerr ()) :=
  d ← on_poll (on_cache (load_desc desc));
  match d_poller d, mgr with
  | Some _, _ => mret (Err NOther)
  | None, None => mret (Err NOther)
  | None, Some poller => _ ← on_poll (on_cache (upd_desc desc (set_poller (Some poller)))); mret (Ok ())
  end.

(** [Schedule]; [listenerMgr] and [defaultMgr] are the two managers. *)
Definition Schedule (listenerMgr defaultMgr : option nat) (onRead onWrite onHup : option CB) (conn : D)
    : MN (result nerr ()) :=
  e ← get;
  match nfd_desc (ne_nfd e) with
  | Some _ => mret (Err NAlreadyInPoller)
  | None =>
      desc ← on_poll (on_cache (alloc pdSize));
      _ ← on_poll (on_cache (upd_desc desc (λ d,
            MkDesc (d_next d) (d_poller d) (d_index d) (Some conn) onRead onWrite onHup (nfd_fd (ne_nfd e)))));
      r ← PickPollerWithPollMgr (if decide (nfd_fdtype (ne_nfd e) = fdListen) then listenerMgr else defaultMgr) desc;
      match r with
      | Err err => _ ← on_poll (on_cache (FreeDesc desc)); mret (Err err)
      | Ok _ =>
          _ ← modify (λ e, set_nfd (set_desc (Some desc) (ne_nfd e)) e);
          nfd_Control Readable
      end
  end.

(** ** Batch reads and writes *)

Definition errno_of {A} (r : result Z A) : result nerr A :=
  match r with Ok a => Ok a | Err e => Err (NErrno e) end.

(** [Readv] into vectors of the given lengths: the bytes received. *)
Definition nfd_Readv (lens : list Z) : MN (result nerr (list byte)) :=
  if decide (lens = []) then mret (Ok [])
  else
    fd ← FD;
    r ← net_syscall (k_readv fd lens);
    _ ← metric Metrics.TCPReadvCalls 1;
    match r with
    | Err e => _ ← metric Metrics.TCPReadvFails 1; mret (Err (NErrno e))
    | Ok d => _ ← metric Metrics.TCPReadvBytes (zlen d); mret (Ok d)
    end.

(** [Writev] of vectors with these contents: the number of bytes taken. *)
Definition nfd_Writev (ivs : list (list byte)) : MN (result nerr Z) :=
  if decide (ivs = []) then mret (Ok 0)
  else
    fd ← FD;
    r ← net_syscall (k_writev fd ivs);
    _ ← metric Metrics.TCPWritevCalls 1;
    match r with
    | Err e => _ ← metric Metrics.TCPWritevFails 1; mret (Err (NErrno e))
    | Ok n => _ ← metric Metrics.TCPWritevBlocks (zlen ivs); mret (Ok n)
    end.

End NetFD.
Arguments net_env : clear implicits.
Arguments NetEnv {D CB W}.

(** ** Closing and scheduling a socket *)

Section Close.
Context {D CB W : Type} `{Kernel W}.
Variable sock_Close : Z → W → W.
Implicit Types e : net_env D CB W.

(** The descriptor of a socket is the poller's. *)
Definition served e (desc : dloc) : Prop :=
  ∃ d, dc_heap (ep_cache (ne_poll e)) !! desc = Some d ∧ d_poller d ≠ None ∧ d_FD d = nfd_fd (ne_nfd e).

(** The system calls of [close]: the registration is deleted, then the socket closed. *)
Definition after_close e : W :=
  let fd := nfd_fd (ne_nfd e) in
  let w := match nfd_desc (ne_nfd e) with
           | None => ep_world (ne_poll e)
           | Some _ => (k_epoll_ctl (ep_fd (ne_poll e)) EPOLL_CTL_DEL fd None (ep_world (ne_poll e))).2
           end in
  if nfd_sock (ne_nfd e) then sock_Close fd w else (k_close fd w).2.

Lemma load_served e desc d :
  dc_heap (ep_cache (ne_poll e)) !! desc = Some d →
  on_poll (on_cache (load_desc desc)) e = Ret (d, e).
Proof.
  intros Hd. destruct e as [n p m]. unfold on_poll, on_cache. erewrite zoom_Ret.
  2: { apply zoom_Ret. unfold load_desc. simpl in *. by rewrite Hd. }
  by destruct p.
Qed.

Lemma nfd_close_ok e :
  nfd_closed (ne_nfd e) = false → (∀ desc, nfd_desc (ne_nfd e) = Some desc → served e desc) →
  ∃ e', nfd_close sock_Close e = Ret ((), e') ∧ nfd_closed (ne_nfd e') = true ∧
    nfd_desc (ne_nfd e') = None ∧ ep_world (ne_poll e') = after_close e.
Proof.
  intros Ho Hd. unfold nfd_close, after_close. mpure. rewrite Ho. mpure.
  set (e1 := set_nfd (set_nfd_closed true (ne_nfd e)) e).
  assert (∃ e2, (match nfd_desc (ne_nfd e) with
                 | None => mret ()
                 | Some desc =>
                     _ ← desc_Close desc; _ ← on_poll (on_cache (FreeDesc desc));
                     modify (λ e, set_nfd (set_desc None (ne_nfd e)) e)
                 end) e1 = Ret ((), e2) ∧ nfd_closed (ne_nfd e2) = true ∧ nfd_desc (ne_nfd e2) = None ∧
     ep_world (ne_poll e2) =
       match nfd_desc (ne_nfd e) with
       | None => ep_world (ne_poll e)
       | Some _ => (k_epoll_ctl (ep_fd (ne_poll e)) EPOLL_CTL_DEL (nfd_fd (ne_nfd e)) None (ep_world (ne_poll e))).2
       end) as (e2 & Hr & Hcl & Hde & Hw).
  { destruct (nfd_desc (ne_nfd e)) as [desc|] eqn:E; [|by exists e1].
    destruct (Hd desc eq_refl) as (d & Hh & Hp & Hfd).
    assert (Hl : on_poll (on_cache (load_desc desc)) e1 = Ret (d, e1)) by (by apply load_served).
    unfold desc_Close. rewrite bind_assoc_run. mrun Hl.
    destruct (d_poller d) as [pn|] eqn:Epn; [|done]. rewrite bind_assoc_run.
    destruct (k_epoll_ctl (ep_fd (ne_poll e)) EPOLL_CTL_DEL (nfd_fd (ne_nfd e)) None (ep_world (ne_poll e)))
      as [er w] eqn:Ek.
    set (e2 := NetFD.set_poll (set_world w (ne_poll e1)) e1).
    assert (Hc : on_poll (Control desc Detach) e1 = Ret (errno_result er, e2)).
    { unfold on_poll. apply zoom_Ret. unfold Control. erewrite bind_Ret.
      2: { unfold on_cache. apply zoom_Ret. unfold load_desc. simpl. by rewrite Hh. }
      cbv zeta. unfold ep_remove. mpure. erewrite bind_Ret.
      2: { unfold syscall. simpl. rewrite Hfd, Ek. reflexivity. }
      simpl. by destruct (ne_poll e). }
    mrun Hc. mpure.
    assert (Hf : ∃ c', on_poll (on_cache (FreeDesc desc)) e2 = Ret ((), NetFD.set_poll (set_cache c' (ne_poll e2)) e2)).
    { eexists. unfold on_poll, on_cache, FreeDesc, markFree. apply zoom_Ret, zoom_Ret.
      erewrite bind_Ret; [reflexivity|]. unfold load_desc. simpl. by rewrite Hh. }
    destruct Hf as [c' Hf]. mrun Hf. eexists. split; [reflexivity|]. done. }
  mrun Hr. destruct (nfd_sock (ne_nfd e)).
  - eexists. unfold net_syscall, on_poll, syscall, zoom. split; [reflexivity|]. cbn. by rewrite Hcl, Hde, Hw.
  - unfold net_syscall, on_poll, syscall.
    destruct (k_close (nfd_fd (ne_nfd e)) (ep_world (ne_poll e2))) as [er w] eqn:Ek.
    exists (NetFD.set_poll (set_world w (ne_poll e2)) e2). split.
    + erewrite bind_Ret; [reflexivity|]. unfold zoom. cbn. by rewrite Ek.
    + cbn. rewrite Hcl, Hde. rewrite Hw in Ek. by rewrite Ek.
Qed.

(** [Schedule] of a socket that is not served yet: it fails without a poller; with one
    the socket gets a descriptor nobody else has, and the answer is that of the kernel. *)
Definition insert_event e (desc : dloc) : Z * W :=
  k_epoll_ctl (ep_fd (ne_poll e)) EPOLL_CTL_ADD (nfd_fd (ne_nfd e)) (Some (rflags, desc)) (ep_world (ne_poll e)).

Lemma on_poll_Ret {A} (m : M (epoll D CB W) A) e x p :
  m (ne_poll e) = Ret (x, p) → on_poll m e = Ret (x, NetFD.set_poll p e).
Proof. apply (zoom_Ret ne_poll NetFD.set_poll). Qed.

Lemma on_poll_cache_Ret {A} (m : M (descCache D CB) A) e x c :
  m (ep_cache (ne_poll e)) = Ret (x, c) →
  on_poll (on_cache m) e = Ret (x, NetFD.set_poll (set_cache c (ne_poll e)) e).
Proof. intros Hm. apply on_poll_Ret. by apply (zoom_Ret ep_cache set_cache). Qed.

Lemma Schedule_ok pdSize mgr onRead onWrite onHup (conn : D) e free marked inuse :
  0 < pdSize → nfd_desc (ne_nfd e) = None → nfd_closed (ne_nfd e) = false → nfd_fdtype (ne_nfd e) ≠ fdListen →
  dc_ok (ep_cache (ne_poll e)) free marked inuse → dc_room pdSize (ep_cache (ne_poll e)) →
  ∃ desc e', Schedule pdSize None mgr onRead onWrite onHup conn e
      = Ret (match mgr with
             | None => Err NOther
             | Some _ => match errno_result (insert_event e desc).1 with Ok u => Ok u | Err x => Err (NPoll x) end
             end, e') ∧
    desc ∉ inuse ∧ ne_metrics e' = ne_metrics e ∧
    ne_nfd e' = (if mgr then set_desc (Some desc) (ne_nfd e) else ne_nfd e) ∧
    ep_world (ne_poll e') = (if mgr then (insert_event e desc).2 else ep_world (ne_poll e)) ∧
    (mgr ≠ None → served e' desc).
Proof.
  intros Hpd Hde Hcl Hty Hok Hroom. unfold Schedule. mpure. rewrite Hde.
  destruct (alloc_ok pdSize _ _ _ _ Hpd Hok Hroom) as (p & d & c1 & free' & Ha & Hni & _ & _ & Hh & Hd & _).
  mrun (on_poll_cache_Ret _ e _ _ Ha). set (e1 := NetFD.set_poll _ e).
  set (f := λ d0 : Desc D CB, MkDesc (d_next d0) (d_poller d0) (d_index d0) (Some conn) onRead onWrite onHup (nfd_fd (ne_nfd e))).
  set (c2 := set_dheap (alter f p (dc_heap c1)) c1).
  mrun (on_poll_cache_Ret (upd_desc p f) e1 () c2 eq_refl). set (e2 := NetFD.set_poll _ e1).
  assert (Hl : dc_heap c2 !! p = Some (f d)) by (simpl; by rewrite lookup_alter_eq, Hh).
  rewrite decide_False by done. unfold PickPollerWithPollMgr. rewrite bind_assoc_run.
  assert (Hld : load_desc p c2 = Ret (f d, c2)) by (unfold load_desc; by rewrite Hl).
  mrun (on_poll_cache_Ret _ e2 _ _ Hld). simpl. rewrite Hd. simpl.
  destruct mgr as [poller|].
  - rewrite bind_assoc_run. set (e3 := NetFD.set_poll _ e2).
    set (c4 := set_dheap (alter (set_poller (Some poller)) p (dc_heap c2)) c2).
    mrun (on_poll_cache_Ret (upd_desc p (set_poller (Some poller))) e3 () c4 eq_refl).
    set (e4 := NetFD.set_poll _ e3). mpure. cbv beta iota. mpure. unfold nfd_Control. mpure. simpl. rewrite Hcl.
    set (e5 := NetFD.set_nfd _ e4). unfold desc_Control.
    set (d' := set_poller (Some poller) (f d)).
    assert (Hl5 : load_desc p c4 = Ret (d', c4)).
    { unfold load_desc, c4. simpl. by rewrite lookup_alter_eq, lookup_alter_eq, Hh. }
    mrun (on_poll_cache_Ret _ e5 _ _ Hl5). simpl. set (e6 := NetFD.set_poll _ e5).
    exists p. destruct (insert_event e p) as [er w] eqn:Ek.
    assert (Hc : Control p Readable (ne_poll e6) = Ret (errno_result er, set_world w (ne_poll e6))).
    { unfold Control. erewrite bind_Ret.
      2: { unfold on_cache. apply zoom_Ret. exact Hl5. }
      cbv zeta. unfold ep_insert. mpure. erewrite bind_Ret.
      2: { unfold syscall. simpl. unfold insert_event in Ek. rewrite Ek. reflexivity. }
      reflexivity. }
    mrun (on_poll_Ret _ e6 _ _ Hc). eexists. split; [reflexivity|].
    split; [done|]. split; [reflexivity|]. split; [reflexivity|]. split; [reflexivity|].
    intros _. exists d'. split; [|done]. unfold c4. simpl. by rewrite lookup_alter_eq, lookup_alter_eq, Hh.
  - mpure. simpl. unfold FreeDesc, markFree. erewrite bind_Ret.
    2: { apply on_poll_cache_Ret. erewrite bind_Ret; [reflexivity|]. unfold load_desc. simpl. by rewrite lookup_alter_eq, Hh. }
    exists p. eexists. split; [reflexivity|]. done.
Qed.

End Close.
