(* ===== verification/TcpService.v ===== *)
(** * TCP services: connections of a listener (src/tcpservice.go)

    The state of [tcpservice] that its connections share, and what is done to it in
    one piece: taking a connection out of the table of connections by file
    descriptor, the delay after failed accepts, the signal that the listener has hung
    up.  Connections are names.  [Service] composes these into the methods that
    goroutines run at the same time. *)

From stdpp Require Import base gmap list numbers.
From S2P Require Import Prelude AsyncTimer.

Local Open Scope Z_scope.

(** Connections. *)
Abbreviation cid := nat.

Definition Millisecond : Z := 1000000.
Definition initialTempDelay : Z := 5 * Millisecond.
Definition maxTempDelay : Z := Second.
Definition tempDelayMultiplier : Z := 2.

Record tcpservice : Type := TcpService {
  sv_conns : gmap Z cid;
  sv_closed : bool;
  sv_restarting : bool;
  sv_tempDelay : Z;
  sv_hup : bool;             (* [hupCh] is closed *)
  sv_broadcasts : nat;       (* calls of [connCond.Broadcast] *)
  sv_slept : list Z          (* calls of [time.Sleep] *)
}.

Abbreviation MS := (M tcpservice).

Definition newTCPService : tcpservice := TcpService ∅ false false 0 false 0 [].

Definition set_conns v s := TcpService v (sv_closed s) (sv_restarting s) (sv_tempDelay s) (sv_hup s) (sv_broadcasts s) (sv_slept s).
Definition set_sv_closed v s := TcpService (sv_conns s) v (sv_restarting s) (sv_tempDelay s) (sv_hup s) (sv_broadcasts s) (sv_slept s).
Definition set_restarting v s := TcpService (sv_conns s) (sv_closed s) v (sv_tempDelay s) (sv_hup s) (sv_broadcasts s) (sv_slept s).
Definition set_tempDelay v s := TcpService (sv_conns s) (sv_closed s) (sv_restarting s) v (sv_hup s) (sv_broadcasts s) (sv_slept s).
Definition set_hup v s := TcpService (sv_conns s) (sv_closed s) (sv_restarting s) (sv_tempDelay s) v (sv_broadcasts s) (sv_slept s).
Definition broadcast s := TcpService (sv_conns s) (sv_closed s) (sv_restarting s) (sv_tempDelay s) (sv_hup s) (S (sv_broadcasts s)) (sv_slept s).
Definition sleep (d : Z) s := TcpService (sv_conns s) (sv_closed s) (sv_restarting s) (sv_tempDelay s) (sv_hup s) (sv_broadcasts s) (sv_slept s ++ [d]).

Definition deleteConn (fd : Z) : MS () :=
  s ← get;
  match sv_conns s !! fd with
  | Some _ => modify (λ s, broadcast (set_conns (delete fd (sv_conns s)) s))
  | None => mret ()
  end.

Definition doTempDelay : MS () :=
  _ ← modify (λ s, if decide (sv_tempDelay s = 0) then set_tempDelay initialTempDelay s
                   else set_tempDelay (sv_tempDelay s * tempDelayMultiplier) s);
  _ ← modify (λ s, if decide (sv_tempDelay s > maxTempDelay) then set_tempDelay maxTempDelay s else s);
  modify (λ s, sleep (sv_tempDelay s) s).

(** [hupOnce.Do(func() { close(s.hupCh) })] *)
Definition tcpServiceOnHup : MS () := modify (set_hup true).

(** The accept loop's answer to a failed accept: temporary errors are waited for. *)
Definition accept_failed (temporary : bool) : MS bool :=
  if temporary then _ ← doTempDelay; mret true else mret false.
Definition accept_succeeded : MS () := modify (set_tempDelay 0).

(** ** Properties *)

Lemma doTempDelay_ok s :
  ∃ s', doTempDelay s = Ret ((), s') ∧ sv_slept s' = sv_slept s ++ [sv_tempDelay s'] ∧
    sv_tempDelay s' = (if decide (sv_tempDelay s = 0) then initialTempDelay
                       else Z.min maxTempDelay (sv_tempDelay s * 2)).
Proof.
  eexists. split; [reflexivity|]. simpl. unfold tempDelayMultiplier.
  repeat (case_decide; simpl in *); unfold initialTempDelay, maxTempDelay, Second, Millisecond in *; split; try done; lia.
Qed.

Fixpoint failed_accepts (n : nat) : MS () :=
  match n with O => mret () | S n => _ ← failed_accepts n; _ ← accept_failed true; mret () end.

(** the delay after temporary accept failures starts at 5 ms, doubles with every
    further failure in a row and stays at one second from the ninth on; a
    successful accept starts it over. *)
Theorem accept_backoff (s : tcpservice) (n : nat) (Hs : sv_tempDelay s = 0) :
  ∃ s', failed_accepts (S n) s = Ret ((), s') ∧
    sv_tempDelay s' = Z.min maxTempDelay (initialTempDelay * 2 ^ Z.of_nat n) ∧
    (∃ pre, sv_slept s' = pre ++ [sv_tempDelay s']) ∧
    (∃ s'', accept_succeeded s' = Ret ((), s'') ∧ sv_tempDelay s'' = 0).
Proof.
  assert (∃ s', failed_accepts (S n) s = Ret ((), s') ∧
    sv_tempDelay s' = Z.min maxTempDelay (initialTempDelay * 2 ^ Z.of_nat n) ∧
    ∃ pre, sv_slept s' = pre ++ [sv_tempDelay s']) as (s' & Hr & Ht & Hp).
  { induction n as [|n IH].
    - destruct (doTempDelay_ok s) as (s' & Hr & Hsl & Ht). exists s'. cbn [failed_accepts].
      mpure. unfold accept_failed. rewrite bind_assoc_run.
      erewrite bind_Ret by exact Hr. split; [done|]. rewrite decide_True in Ht by done.
      split; [|by eexists]. rewrite Ht. unfold initialTempDelay, maxTempDelay, Second, Millisecond. simpl. lia.
    - destruct IH as (s1 & Hr1 & Ht1 & _). destruct (doTempDelay_ok s1) as (s' & Hr & Hsl & Ht).
      exists s'. change (failed_accepts (S (S n))) with (_ ← failed_accepts (S n); _ ← accept_failed true; mret () : MS ()).
      erewrite bind_Ret by exact Hr1. unfold accept_failed. rewrite bind_assoc_run.
      erewrite bind_Ret by exact Hr. split; [done|].
      assert (0 < 2 ^ Z.of_nat n) by (apply Z.pow_pos_nonneg; lia).
      rewrite decide_False in Ht; [|rewrite Ht1; unfold initialTempDelay, maxTempDelay, Second, Millisecond; nia].
      split; [|by eexists]. rewrite Ht, Ht1. rewrite Nat2Z.inj_succ, Z.pow_succ_r by lia.
      unfold initialTempDelay, maxTempDelay, Second, Millisecond. nia. }
  exists s'. split; [done|]. split; [done|]. split; [done|]. eexists. split; [reflexivity|]. done.
Qed.

Lemma accept_backoff_witness :
  ∃ s', failed_accepts 4 newTCPService = Ret ((), s') ∧ sv_tempDelay s' = 40 * Millisecond.
Proof.
  destruct (accept_backoff newTCPService 3 eq_refl) as (s' & Hr & Ht & _). exists s'. split; [exact Hr|].
  rewrite Ht. reflexivity.
Defined.
