(* ===== verification/TcpConn.v ===== *)
(** * TCP connections (src/tcpconn.go)

    [tcpconn]: its fields, the parts of the process it works on (poller, kernel, time
    wheel, clock) and its methods as programs of atomic actions ([Threads]), so that
    any number of goroutines can use a connection at once.  A method of a buffer is
    one action (it runs under the buffer's own lock), so is a system call, an
    atomic load or store and a step of a job.

    Endless loops take fuel and end the model's run ([forever]) when it is used up.
    User handlers are names ([H]) that two parameters run.  Two fields are history
    only: [tc_written] and [tc_taken] record the bytes accepted by [Writev] and
    those the read methods consumed. *)

From stdpp Require Import base gmap sets list numbers.
From S2P Require Import Prelude MCache Node LinkedBuffer FixedBuffer AutoPostpone SafeJob Closer AsyncTimer Threads Timer Kernel IOVec DescCache Poller NetFD TcpService.

Local Open Scope Z_scope.

(** A channel of capacity one. *)
Record chan : Type := Chan { ch_full : bool; ch_closed : bool }.

Section TcpConn.
Context {D CB W H : Type} `{Kernel W}.
Variable sock_Close : Z → W → W.

Record tcpconn : Type := TcpConn {
  tc_inBuffer : Buffer;
  tc_outBuffer : Buffer;
  tc_closedReadBuf : FixedReadBuffer nerr;
  tc_rtimer : option timer;
  tc_wtimer : option timer;
  tc_idleTimer : option tid;
  tc_writeIdleTimer : option tid;
  tc_readIdleTimer : option tid;
  tc_writevData : IOData;
  tc_nfd : netFD;
  tc_closer : closer;
  tc_postpone : PostponeWrite;
  tc_waitReadLen : Z;
  tc_reading : Locker;
  tc_writing : Locker;
  tc_nonblocking : bool;
  tc_safeWrite : bool;
  tc_outboundBufferLimit : Z;
  tc_readTrigger : chan;
  tc_closedFinished : chan;
  tc_reqHandle : option H;
  tc_closeHandle : option H;
  tc_service : option tcpservice;
  tc_poll : epoll D CB W;   (* the poller, its descriptors and the kernel *)
  tc_wheel : TimeWheel;   (* the default time wheel *)
  tc_clock : Z;   (* time.Now() *)
  tc_events : list Z;   (* what epoll_wait will report *)
  tc_coins : list bool;   (* outcomes of select and of the task pool *)
  tc_tasks : nat;   (* calls of tcpAsyncHandler not yet started *)
  tc_hups : nat;   (* calls of tcpOnHup not yet started *)
  tc_written : list byte;   (* history: bytes accepted for writing *)
  tc_taken : list byte   (* history: bytes consumed from the input buffer *)
}.

Definition set_inBuffer (v : Buffer) (c : tcpconn) : tcpconn :=
  TcpConn v (tc_outBuffer c) (tc_closedReadBuf c) (tc_rtimer c) (tc_wtimer c) (tc_idleTimer c)
    (tc_writeIdleTimer c) (tc_readIdleTimer c) (tc_writevData c) (tc_nfd c) (tc_closer c)
    (tc_postpone c) (tc_waitReadLen c) (tc_reading c) (tc_writing c) (tc_nonblocking c)
    (tc_safeWrite c) (tc_outboundBufferLimit c) (tc_readTrigger c) (tc_closedFinished c)
    (tc_reqHandle c) (tc_closeHandle c) (tc_service c) (tc_poll c) (tc_wheel c) (tc_clock c)
    (tc_events c) (tc_coins c) (tc_tasks c) (tc_hups c) (tc_written c) (tc_taken c).
Definition set_outBuffer (v : Buffer) (c : tcpconn) : tcpconn :=
  TcpConn (tc_inBuffer c) v (tc_closedReadBuf c) (tc_rtimer c) (tc_wtimer c) (tc_idleTimer c)
    (tc_writeIdleTimer c) (tc_readIdleTimer c) (tc_writevData c) (tc_nfd c) (tc_closer c)
    (tc_postpone c) (tc_waitReadLen c) (tc_reading c) (tc_writing c) (tc_nonblocking c)
    (tc_safeWrite c) (tc_outboundBufferLimit c) (tc_readTrigger c) (tc_closedFinished c)
    (tc_reqHandle c) (tc_closeHandle c) (tc_service c) (tc_poll c) (tc_wheel c) (tc_clock c)
    (tc_events c) (tc_coins c) (tc_tasks c) (tc_hups c) (tc_written c) (tc_taken c).
Definition set_closedReadBuf (v : FixedReadBuffer nerr) (c : tcpconn) : tcpconn :=
  TcpConn (tc_inBuffer c) (tc_outBuffer c) v (tc_rtimer c) (tc_wtimer c) (tc_idleTimer c)
    (tc_writeIdleTimer c) (tc_readIdleTimer c) (tc_writevData c) (tc_nfd c) (tc_closer c)
    (tc_postpone c) (tc_waitReadLen c) (tc_reading c) (tc_writing c) (tc_nonblocking c)
    (tc_safeWrite c) (tc_outboundBufferLimit c) (tc_readTrigger c) (tc_closedFinished c)
    (tc_reqHandle c) (tc_closeHandle c) (tc_service c) (tc_poll c) (tc_wheel c) (tc_clock c)
    (tc_events c) (tc_coins c) (tc_tasks c) (tc_hups c) (tc_written c) (tc_taken c).
Definition set_rtimer (v : option timer) (c : tcpconn) : tcpconn :=
  TcpConn (tc_inBuffer c) (tc_outBuffer c) (tc_closedReadBuf c) v (tc_wtimer c) (tc_idleTimer c)
    (tc_writeIdleTimer c) (tc_readIdleTimer c) (tc_writevData c) (tc_nfd c) (tc_closer c)
    (tc_postpone c) (tc_waitReadLen c) (tc_reading c) (tc_writing c) (tc_nonblocking c)
    (tc_safeWrite c) (tc_outboundBufferLimit c) (tc_readTrigger c) (tc_closedFinished c)
    (tc_reqHandle c) (tc_closeHandle c) (tc_service c) (tc_poll c) (tc_wheel c) (tc_clock c)
    (tc_events c) (tc_coins c) (tc_tasks c) (tc_hups c) (tc_written c) (tc_taken c).
Definition set_wtimer (v : option timer) (c : tcpconn) : tcpconn :=
  TcpConn (tc_inBuffer c) (tc_outBuffer c) (tc_closedReadBuf c) (tc_rtimer c) v (tc_idleTimer c)
    (tc_writeIdleTimer c) (tc_readIdleTimer c) (tc_writevData c) (tc_nfd c) (tc_closer c)
    (tc_postpone c) (tc_waitReadLen c) (tc_reading c) (tc_writing c) (tc_nonblocking c)
    (tc_safeWrite c) (tc_outboundBufferLimit c) (tc_readTrigger c) (tc_closedFinished c)
    (tc_reqHandle c) (tc_closeHandle c) (tc_service c) (tc_poll c) (tc_wheel c) (tc_clock c)
    (tc_events c) (tc_coins c) (tc_tasks c) (tc_hups c) (tc_written c) (tc_taken c).
Definition set_idleTimer (v : option tid) (c : tcpconn) : tcpconn :=
  TcpConn (tc_inBuffer c) (tc_outBuffer c) (tc_closedReadBuf c) (tc_rtimer c) (tc_wtimer c) v
    (tc_writeIdleTimer c) (tc_readIdleTimer c) (tc_writevData c) (tc_nfd c) (tc_closer c)
    (tc_postpone c) (tc_waitReadLen c) (tc_reading c) (tc_writing c) (tc_nonblocking c)
    (tc_safeWrite c) (tc_outboundBufferLimit c) (tc_readTrigger c) (tc_closedFinished c)
    (tc_reqHandle c) (tc_closeHandle c) (tc_service c) (tc_poll c) (tc_wheel c) (tc_clock c)
    (tc_events c) (tc_coins c) (tc_tasks c) (tc_hups c) (tc_written c) (tc_taken c).
Definition set_writeIdleTimer (v : option tid) (c : tcpconn) : tcpconn :=
  TcpConn (tc_inBuffer c) (tc_outBuffer c) (tc_closedReadBuf c) (tc_rtimer c) (tc_wtimer c)
    (tc_idleTimer c) v (tc_readIdleTimer c) (tc_writevData c) (tc_nfd c) (tc_closer c)
    (tc_postpone c) (tc_waitReadLen c) (tc_reading c) (tc_writing c) (tc_nonblocking c)
    (tc_safeWrite c) (tc_outboundBufferLimit c) (tc_readTrigger c) (tc_closedFinished c)
    (tc_reqHandle c) (tc_closeHandle c) (tc_service c) (tc_poll c) (tc_wheel c) (tc_clock c)
    (tc_events c) (tc_coins c) (tc_tasks c) (tc_hups c) (tc_written c) (tc_taken c).
Definition set_readIdleTimer (v : option tid) (c : tcpconn) : tcpconn :=
  TcpConn (tc_inBuffer c) (tc_outBuffer c) (tc_closedReadBuf c) (tc_rtimer c) (tc_wtimer c)
    (tc_idleTimer c) (tc_writeIdleTimer c) v (tc_writevData c) (tc_nfd c) (tc_closer c)
    (tc_postpone c) (tc_waitReadLen c) (tc_reading c) (tc_writing c) (tc_nonblocking c)
    (tc_safeWrite c) (tc_outboundBufferLimit c) (tc_readTrigger c) (tc_closedFinished c)
    (tc_reqHandle c) (tc_closeHandle c) (tc_service c) (tc_poll c) (tc_wheel c) (tc_clock c)
    (tc_events c) (tc_coins c) (tc_tasks c) (tc_hups c) (tc_written c) (tc_taken c).
Definition set_writevData (v : IOData) (c : tcpconn) : tcpconn :=
  TcpConn (tc_inBuffer c) (tc_outBuffer c) (tc_closedReadBuf c) (tc_rtimer c) (tc_wtimer c)
    (tc_idleTimer c) (tc_writeIdleTimer c) (tc_readIdleTimer c) v (tc_nfd c) (tc_closer c)
    (tc_postpone c) (tc_waitReadLen c) (tc_reading c) (tc_writing c) (tc_nonblocking c)
    (tc_safeWrite c) (tc_outboundBufferLimit c) (tc_readTrigger c) (tc_closedFinished c)
    (tc_reqHandle c) (tc_closeHandle c) (tc_service c) (tc_poll c) (tc_wheel c) (tc_clock c)
    (tc_events c) (tc_coins c) (tc_tasks c) (tc_hups c) (tc_written c) (tc_taken c).
Definition set_nfd (v : netFD) (c : tcpconn) : tcpconn :=
  TcpConn (tc_inBuffer c) (tc_outBuffer c) (tc_closedReadBuf c) (tc_rtimer c) (tc_wtimer c)
    (tc_idleTimer c) (tc_writeIdleTimer c) (tc_readIdleTimer c) (tc_writevData c) v (tc_closer
    c) (tc_postpone c) (tc_waitReadLen c) (tc_reading c) (tc_writing c) (tc_nonblocking c)
    (tc_safeWrite c) (tc_outboundBufferLimit c) (tc_readTrigger c) (tc_closedFinished c)
    (tc_reqHandle c) (tc_closeHandle c) (tc_service c) (tc_poll c) (tc_wheel c) (tc_clock c)
    (tc_events c) (tc_coins c) (tc_tasks c) (tc_hups c) (tc_written c) (tc_taken c).
Definition set_closer (v : closer) (c : tcpconn) : tcpconn :=
  TcpConn (tc_inBuffer c) (tc_outBuffer c) (tc_closedReadBuf c) (tc_rtimer c) (tc_wtimer c)
    (tc_idleTimer c) (tc_writeIdleTimer c) (tc_readIdleTimer c) (tc_writevData c) (tc_nfd c) v
    (tc_postpone c) (tc_waitReadLen c) (tc_reading c) (tc_writing c) (tc_nonblocking c)
    (tc_safeWrite c) (tc_outboundBufferLimit c) (tc_readTrigger c) (tc_closedFinished c)
    (tc_reqHandle c) (tc_closeHandle c) (tc_service c) (tc_poll c) (tc_wheel c) (tc_clock c)
    (tc_events c) (tc_coins c) (tc_tasks c) (tc_hups c) (tc_written c) (tc_taken c).
Definition set_postpone (v : PostponeWrite) (c : tcpconn) : tcpconn :=
  TcpConn (tc_inBuffer c) (tc_outBuffer c) (tc_closedReadBuf c) (tc_rtimer c) (tc_wtimer c)
    (tc_idleTimer c) (tc_writeIdleTimer c) (tc_readIdleTimer c) (tc_writevData c) (tc_nfd c)
    (tc_closer c) v (tc_waitReadLen c) (tc_reading c) (tc_writing c) (tc_nonblocking c)
    (tc_safeWrite c) (tc_outboundBufferLimit c) (tc_readTrigger c) (tc_closedFinished c)
    (tc_reqHandle c) (tc_closeHandle c) (tc_service c) (tc_poll c) (tc_wheel c) (tc_clock c)
    (tc_events c) (tc_coins c) (tc_tasks c) (tc_hups c) (tc_written c) (tc_taken c).
Definition set_waitReadLen (v : Z) (c : tcpconn) : tcpconn :=
  TcpConn (tc_inBuffer c) (tc_outBuffer c) (tc_closedReadBuf c) (tc_rtimer c) (tc_wtimer c)
    (tc_idleTimer c) (tc_writeIdleTimer c) (tc_readIdleTimer c) (tc_writevData c) (tc_nfd c)
    (tc_closer c) (tc_postpone c) v (tc_reading c) (tc_writing c) (tc_nonblocking c)
    (tc_safeWrite c) (tc_outboundBufferLimit c) (tc_readTrigger c) (tc_closedFinished c)
    (tc_reqHandle c) (tc_closeHandle c) (tc_service c) (tc_poll c) (tc_wheel c) (tc_clock c)
    (tc_events c) (tc_coins c) (tc_tasks c) (tc_hups c) (tc_written c) (tc_taken c).
Definition set_reading (v : Locker) (c : tcpconn) : tcpconn :=
  TcpConn (tc_inBuffer c) (tc_outBuffer c) (tc_closedReadBuf c) (tc_rtimer c) (tc_wtimer c)
    (tc_idleTimer c) (tc_writeIdleTimer c) (tc_readIdleTimer c) (tc_writevData c) (tc_nfd c)
    (tc_closer c) (tc_postpone c) (tc_waitReadLen c) v (tc_writing c) (tc_nonblocking c)
    (tc_safeWrite c) (tc_outboundBufferLimit c) (tc_readTrigger c) (tc_closedFinished c)
    (tc_reqHandle c) (tc_closeHandle c) (tc_service c) (tc_poll c) (tc_wheel c) (tc_clock c)
    (tc_events c) (tc_coins c) (tc_tasks c) (tc_hups c) (tc_written c) (tc_taken c).
Definition set_writing (v : Locker) (c : tcpconn) : tcpconn :=
  TcpConn (tc_inBuffer c) (tc_outBuffer c) (tc_closedReadBuf c) (tc_rtimer c) (tc_wtimer c)
    (tc_idleTimer c) (tc_writeIdleTimer c) (tc_readIdleTimer c) (tc_writevData c) (tc_nfd c)
    (tc_closer c) (tc_postpone c) (tc_waitReadLen c) (tc_reading c) v (tc_nonblocking c)
    (tc_safeWrite c) (tc_outboundBufferLimit c) (tc_readTrigger c) (tc_closedFinished c)
    (tc_reqHandle c) (tc_closeHandle c) (tc_service c) (tc_poll c) (tc_wheel c) (tc_clock c)
    (tc_events c) (tc_coins c) (tc_tasks c) (tc_hups c) (tc_written c) (tc_taken c).
Definition set_nonblocking (v : bool) (c : tcpconn) : tcpconn :=
  TcpConn (tc_inBuffer c) (tc_outBuffer c) (tc_closedReadBuf c) (tc_rtimer c) (tc_wtimer c)
    (tc_idleTimer c) (tc_writeIdleTimer c) (tc_readIdleTimer c) (tc_writevData c) (tc_nfd c)
    (tc_closer c) (tc_postpone c) (tc_waitReadLen c) (tc_reading c) (tc_writing c) v
    (tc_safeWrite c) (tc_outboundBufferLimit c) (tc_readTrigger c) (tc_closedFinished c)
    (tc_reqHandle c) (tc_closeHandle c) (tc_service c) (tc_poll c) (tc_wheel c) (tc_clock c)
    (tc_events c) (tc_coins c) (tc_tasks c) (tc_hups c) (tc_written c) (tc_taken c).
Definition set_safeWrite (v : bool) (c : tcpconn) : tcpconn :=
  TcpConn (tc_inBuffer c) (tc_outBuffer c) (tc_closedReadBuf c) (tc_rtimer c) (tc_wtimer c)
    (tc_idleTimer c) (tc_writeIdleTimer c) (tc_readIdleTimer c) (tc_writevData c) (tc_nfd c)
    (tc_closer c) (tc_postpone c) (tc_waitReadLen c) (tc_reading c) (tc_writing c)
    (tc_nonblocking c) v (tc_outboundBufferLimit c) (tc_readTrigger c) (tc_closedFinished c)
    (tc_reqHandle c) (tc_closeHandle c) (tc_service c) (tc_poll c) (tc_wheel c) (tc_clock c)
    (tc_events c) (tc_coins c) (tc_tasks c) (tc_hups c) (tc_written c) (tc_taken c).
Definition set_outboundBufferLimit (v : Z) (c : tcpconn) : tcpconn :=
  TcpConn (tc_inBuffer c) (tc_outBuffer c) (tc_closedReadBuf c) (tc_rtimer c) (tc_wtimer c)
    (tc_idleTimer c) (tc_writeIdleTimer c) (tc_readIdleTimer c) (tc_writevData c) (tc_nfd c)
    (tc_closer c) (tc_postpone c) (tc_waitReadLen c) (tc_reading c) (tc_writing c)
    (tc_nonblocking c) (tc_safeWrite c) v (tc_readTrigger c) (tc_closedFinished c) (tc_reqHandle
    c) (tc_closeHandle c) (tc_service c) (tc_poll c) (tc_wheel c) (tc_clock c) (tc_events c)
    (tc_coins c) (tc_tasks c) (tc_hups c) (tc_written c) (tc_taken c).
Definition set_readTrigger (v : chan) (c : tcpconn) : tcpconn :=
  TcpConn (tc_inBuffer c) (tc_outBuffer c) (tc_closedReadBuf c) (tc_rtimer c) (tc_wtimer c)
    (tc_idleTimer c) (tc_writeIdleTimer c) (tc_readIdleTimer c) (tc_writevData c) (tc_nfd c)
    (tc_closer c) (tc_postpone c) (tc_waitReadLen c) (tc_reading c) (tc_writing c)
    (tc_nonblocking c) (tc_safeWrite c) (tc_outboundBufferLimit c) v (tc_closedFinished c)
    (tc_reqHandle c) (tc_closeHandle c) (tc_service c) (tc_poll c) (tc_wheel c) (tc_clock c)
    (tc_events c) (tc_coins c) (tc_tasks c) (tc_hups c) (tc_written c) (tc_taken c).
Definition set_closedFinished (v : chan) (c : tcpconn) : tcpconn :=
  TcpConn (tc_inBuffer c) (tc_outBuffer c) (tc_closedReadBuf c) (tc_rtimer c) (tc_wtimer c)
    (tc_idleTimer c) (tc_writeIdleTimer c) (tc_readIdleTimer c) (tc_writevData c) (tc_nfd c)
    (tc_closer c) (tc_postpone c) (tc_waitReadLen c) (tc_reading c) (tc_writing c)
    (tc_nonblocking c) (tc_safeWrite c) (tc_outboundBufferLimit c) (tc_readTrigger c) v
    (tc_reqHandle c) (tc_closeHandle c) (tc_service c) (tc_poll c) (tc_wheel c) (tc_clock c)
    (tc_events c) (tc_coins c) (tc_tasks c) (tc_hups c) (tc_written c) (tc_taken c).
Definition set_reqHandle (v : option H) (c : tcpconn) : tcpconn :=
  TcpConn (tc_inBuffer c) (tc_outBuffer c) (tc_closedReadBuf c) (tc_rtimer c) (tc_wtimer c)
    (tc_idleTimer c) (tc_writeIdleTimer c) (tc_readIdleTimer c) (tc_writevData c) (tc_nfd c)
    (tc_closer c) (tc_postpone c) (tc_waitReadLen c) (tc_reading c) (tc_writing c)
    (tc_nonblocking c) (tc_safeWrite c) (tc_outboundBufferLimit c) (tc_readTrigger c)
    (tc_closedFinished c) v (tc_closeHandle c) (tc_service c) (tc_poll c) (tc_wheel c) (tc_clock
    c) (tc_events c) (tc_coins c) (tc_tasks c) (tc_hups c) (tc_written c) (tc_taken c).
Definition set_closeHandle (v : option H) (c : tcpconn) : tcpconn :=
  TcpConn (tc_inBuffer c) (tc_outBuffer c) (tc_closedReadBuf c) (tc_rtimer c) (tc_wtimer c)
    (tc_idleTimer c) (tc_writeIdleTimer c) (tc_readIdleTimer c) (tc_writevData c) (tc_nfd c)
    (tc_closer c) (tc_postpone c) (tc_waitReadLen c) (tc_reading c) (tc_writing c)
    (tc_nonblocking c) (tc_safeWrite c) (tc_outboundBufferLimit c) (tc_readTrigger c)
    (tc_closedFinished c) (tc_reqHandle c) v (tc_service c) (tc_poll c) (tc_wheel c) (tc_clock
    c) (tc_events c) (tc_coins c) (tc_tasks c) (tc_hups c) (tc_written c) (tc_taken c).
Definition set_service (v : option tcpservice) (c : tcpconn) : tcpconn :=
  TcpConn (tc_inBuffer c) (tc_outBuffer c) (tc_closedReadBuf c) (tc_rtimer c) (tc_wtimer c)
    (tc_idleTimer c) (tc_writeIdleTimer c) (tc_readIdleTimer c) (tc_writevData c) (tc_nfd c)
    (tc_closer c) (tc_postpone c) (tc_waitReadLen c) (tc_reading c) (tc_writing c)
    (tc_nonblocking c) (tc_safeWrite c) (tc_outboundBufferLimit c) (tc_readTrigger c)
    (tc_closedFinished c) (tc_reqHandle c) (tc_closeHandle c) v (tc_poll c) (tc_wheel c)
    (tc_clock c) (tc_events c) (tc_coins c) (tc_tasks c) (tc_hups c) (tc_written c) (tc_taken c).
Definition set_poll (v : epoll D CB W) (c : tcpconn) : tcpconn :=
  TcpConn (tc_inBuffer c) (tc_outBuffer c) (tc_closedReadBuf c) (tc_rtimer c) (tc_wtimer c)
    (tc_idleTimer c) (tc_writeIdleTimer c) (tc_readIdleTimer c) (tc_writevData c) (tc_nfd c)
    (tc_closer c) (tc_postpone c) (tc_waitReadLen c) (tc_reading c) (tc_writing c)
    (tc_nonblocking c) (tc_safeWrite c) (tc_outboundBufferLimit c) (tc_readTrigger c)
    (tc_closedFinished c) (tc_reqHandle c) (tc_closeHandle c) (tc_service c) v (tc_wheel c)
    (tc_clock c) (tc_events c) (tc_coins c) (tc_tasks c) (tc_hups c) (tc_written c) (tc_taken c).
Definition set_wheel (v : TimeWheel) (c : tcpconn) : tcpconn :=
  TcpConn (tc_inBuffer c) (tc_outBuffer c) (tc_closedReadBuf c) (tc_rtimer c) (tc_wtimer c)
    (tc_idleTimer c) (tc_writeIdleTimer c) (tc_readIdleTimer c) (tc_writevData c) (tc_nfd c)
    (tc_closer c) (tc_postpone c) (tc_waitReadLen c) (tc_reading c) (tc_writing c)
    (tc_nonblocking c) (tc_safeWrite c) (tc_outboundBufferLimit c) (tc_readTrigger c)
    (tc_closedFinished c) (tc_reqHandle c) (tc_closeHandle c) (tc_service c) (tc_poll c) v
    (tc_clock c) (tc_events c) (tc_coins c) (tc_tasks c) (tc_hups c) (tc_written c) (tc_taken c).
Definition set_clock (v : Z) (c : tcpconn) : tcpconn :=
  TcpConn (tc_inBuffer c) (tc_outBuffer c) (tc_closedReadBuf c) (tc_rtimer c) (tc_wtimer c)
    (tc_idleTimer c) (tc_writeIdleTimer c) (tc_readIdleTimer c) (tc_writevData c) (tc_nfd c)
    (tc_closer c) (tc_postpone c) (tc_waitReadLen c) (tc_reading c) (tc_writing c)
    (tc_nonblocking c) (tc_safeWrite c) (tc_outboundBufferLimit c) (tc_readTrigger c)
    (tc_closedFinished c) (tc_reqHandle c) (tc_closeHandle c) (tc_service c) (tc_poll c)
    (tc_wheel c) v (tc_events c) (tc_coins c) (tc_tasks c) (tc_hups c) (tc_written c) (tc_taken
    c).
Definition set_events (v : list Z) (c : tcpconn) : tcpconn :=
  TcpConn (tc_inBuffer c) (tc_outBuffer c) (tc_closedReadBuf c) (tc_rtimer c) (tc_wtimer c)
    (tc_idleTimer c) (tc_writeIdleTimer c) (tc_readIdleTimer c) (tc_writevData c) (tc_nfd c)
    (tc_closer c) (tc_postpone c) (tc_waitReadLen c) (tc_reading c) (tc_writing c)
    (tc_nonblocking c) (tc_safeWrite c) (tc_outboundBufferLimit c) (tc_readTrigger c)
    (tc_closedFinished c) (tc_reqHandle c) (tc_closeHandle c) (tc_service c) (tc_poll c)
    (tc_wheel c) (tc_clock c) v (tc_coins c) (tc_tasks c) (tc_hups c) (tc_written c) (tc_taken
    c).
Definition set_coins (v : list bool) (c : tcpconn) : tcpconn :=
  TcpConn (tc_inBuffer c) (tc_outBuffer c) (tc_closedReadBuf c) (tc_rtimer c) (tc_wtimer c)
    (tc_idleTimer c) (tc_writeIdleTimer c) (tc_readIdleTimer c) (tc_writevData c) (tc_nfd c)
    (tc_closer c) (tc_postpone c) (tc_waitReadLen c) (tc_reading c) (tc_writing c)
    (tc_nonblocking c) (tc_safeWrite c) (tc_outboundBufferLimit c) (tc_readTrigger c)
    (tc_closedFinished c) (tc_reqHandle c) (tc_closeHandle c) (tc_service c) (tc_poll c)
    (tc_wheel c) (tc_clock c) (tc_events c) v (tc_tasks c) (tc_hups c) (tc_written c) (tc_taken
    c).
Definition set_tasks (v : nat) (c : tcpconn) : tcpconn :=
  TcpConn (tc_inBuffer c) (tc_outBuffer c) (tc_closedReadBuf c) (tc_rtimer c) (tc_wtimer c)
    (tc_idleTimer c) (tc_writeIdleTimer c) (tc_readIdleTimer c) (tc_writevData c) (tc_nfd c)
    (tc_closer c) (tc_postpone c) (tc_waitReadLen c) (tc_reading c) (tc_writing c)
    (tc_nonblocking c) (tc_safeWrite c) (tc_outboundBufferLimit c) (tc_readTrigger c)
    (tc_closedFinished c) (tc_reqHandle c) (tc_closeHandle c) (tc_service c) (tc_poll c)
    (tc_wheel c) (tc_clock c) (tc_events c) (tc_coins c) v (tc_hups c) (tc_written c) (tc_taken
    c).
Definition set_hups (v : nat) (c : tcpconn) : tcpconn :=
  TcpConn (tc_inBuffer c) (tc_outBuffer c) (tc_closedReadBuf c) (tc_rtimer c) (tc_wtimer c)
    (tc_idleTimer c) (tc_writeIdleTimer c) (tc_readIdleTimer c) (tc_writevData c) (tc_nfd c)
    (tc_closer c) (tc_postpone c) (tc_waitReadLen c) (tc_reading c) (tc_writing c)
    (tc_nonblocking c) (tc_safeWrite c) (tc_outboundBufferLimit c) (tc_readTrigger c)
    (tc_closedFinished c) (tc_reqHandle c) (tc_closeHandle c) (tc_service c) (tc_poll c)
    (tc_wheel c) (tc_clock c) (tc_events c) (tc_coins c) (tc_tasks c) v (tc_written c) (tc_taken
    c).
Definition set_written (v : list byte) (c : tcpconn) : tcpconn :=
  TcpConn (tc_inBuffer c) (tc_outBuffer c) (tc_closedReadBuf c) (tc_rtimer c) (tc_wtimer c)
    (tc_idleTimer c) (tc_writeIdleTimer c) (tc_readIdleTimer c) (tc_writevData c) (tc_nfd c)
    (tc_closer c) (tc_postpone c) (tc_waitReadLen c) (tc_reading c) (tc_writing c)
    (tc_nonblocking c) (tc_safeWrite c) (tc_outboundBufferLimit c) (tc_readTrigger c)
    (tc_closedFinished c) (tc_reqHandle c) (tc_closeHandle c) (tc_service c) (tc_poll c)
    (tc_wheel c) (tc_clock c) (tc_events c) (tc_coins c) (tc_tasks c) (tc_hups c) v (tc_taken c).
Definition set_taken (v : list byte) (c : tcpconn) : tcpconn :=
  TcpConn (tc_inBuffer c) (tc_outBuffer c) (tc_closedReadBuf c) (tc_rtimer c) (tc_wtimer c)
    (tc_idleTimer c) (tc_writeIdleTimer c) (tc_readIdleTimer c) (tc_writevData c) (tc_nfd c)
    (tc_closer c) (tc_postpone c) (tc_waitReadLen c) (tc_reading c) (tc_writing c)
    (tc_nonblocking c) (tc_safeWrite c) (tc_outboundBufferLimit c) (tc_readTrigger c)
    (tc_closedFinished c) (tc_reqHandle c) (tc_closeHandle c) (tc_service c) (tc_poll c)
    (tc_wheel c) (tc_clock c) (tc_events c) (tc_coins c) (tc_tasks c) (tc_hups c) (tc_written c)
    v.

Abbreviation T := (thread tcpconn).

(** Running the user's handlers: the request handler's error, the close handler. *)
Variable run_request : H → T (option nerr).
Variable run_closed : H → T ().

(** ** Components *)

Definition net_of (c : tcpconn) : net_env D CB W :=
  NetEnv (tc_nfd c) (tc_poll c) (pw_metrics (tc_postpone c)).
Definition set_net (e : net_env D CB W) (c : tcpconn) : tcpconn :=
  set_postpone (set_metrics (ne_metrics e) (tc_postpone c)) (set_poll (ne_poll e) (set_nfd (ne_nfd e) c)).

Definition on_in {A} : MB A → M tcpconn A := zoom tc_inBuffer set_inBuffer.
Definition on_out {A} : MB A → M tcpconn A := zoom tc_outBuffer set_outBuffer.
Definition on_net {A} (m : M (net_env D CB W) A) : T A := method net_of set_net m.
Definition on_postpone {A} (m : MPW A) : T A := method tc_postpone set_postpone m.
Definition on_wheel {A} (m : MW A) : T A := method tc_wheel set_wheel m.
Definition metrics_Add (name : Z) : T () := on_net (metric name 1).

Definition tc_begin (k : Z) : T bool := of_job tc_closer set_closer (Closer.beginJobSafely k).
Definition tc_end (k : Z) : T () := of_job tc_closer set_closer (Closer.endJobSafely k).
Definition tc_closeJob (k : Z) : T () := of_job tc_closer set_closer (Closer.closeJobSafely k).
Definition tc_closeAllJobs : T () := of_job tc_closer set_closer Closer.closeAllJobs.

Definition kSysRead : Z := key_index sysRead.
Definition kSysWrite : Z := key_index sysWrite.
Definition kApiRead : Z := key_index apiRead.
Definition kApiWrite : Z := key_index apiWrite.
Definition kApiCtrl : Z := key_index apiCtrl.

(** [TryLock] and [Unlock] of the two lockers of a connection. *)
Definition try_lock (proj : tcpconn → Locker) (upd : Locker → tcpconn → tcpconn) : T bool :=
  of_job proj upd (Act Locker_TryLock (λ ok, Done ok)).
Definition unlock (proj : tcpconn → Locker) (upd : Locker → tcpconn → tcpconn) : T () :=
  of_job proj upd (Act Locker_Unlock (λ _, Done ())).
Definition writing_TryLock : T bool := try_lock tc_writing set_writing.
Definition writing_Unlock : T () := unlock tc_writing set_writing.
Definition reading_TryLock : T bool := try_lock tc_reading set_reading.
Definition reading_Unlock : T () := unlock tc_reading set_reading.

(** The model's run ends here. *)
Definition out_of_fuel {A} : T A := atomically nofuel.

Definition IsActive : T bool := read (λ c, negb (closed (tc_closer c))).

Definition in_LenRead : T Z := atomically (on_in LenRead).
Definition out_LenRead : T Z := atomically (on_out LenRead).

(** ** Reading *)

(** [<-tc.readTrigger]: a closed channel is always ready. *)
Definition recv (c : chan) : option chan :=
  if ch_full c then Some (Chan false (ch_closed c))
  else if ch_closed c then Some c else None.

Definition recv_readTrigger : T () :=
  await (λ c, match recv (tc_readTrigger c) with
              | Some ch => Some ((), set_readTrigger ch c)
              | None => None
              end).

(** [select { case tc.readTrigger <- struct{}{}: default: }] *)
Definition send_readTrigger : T () :=
  atomically (λ c,
    if ch_closed (tc_readTrigger c) then Panic
    else Ret ((), set_readTrigger (Chan true false) c)).

(** [close(ch)] *)
Definition close_chan (proj : tcpconn → chan) (upd : chan → tcpconn → tcpconn) : T () :=
  atomically (λ c,
    if ch_closed (proj c) then Panic else Ret ((), upd (Chan (ch_full (proj c)) true) c)).

(** Methods of the read timer, whose pointer must not be nil. *)
Definition on_rtimer {A} (m : MT A) : T A :=
  atomically (λ c,
    match tc_rtimer c with
    | None => Panic
    | Some t =>
        match m t with
        | Ret (a, t) => Ret (a, set_rtimer (Some t) c)
        | Panic => Panic
        | NoFuel => NoFuel
        end
    end).

(** [select] on the trigger and the timer; when both are ready, a coin decides. *)
Inductive selected : Type := SelTrigger | SelTimer.

Definition flip (c : tcpconn) : bool * tcpconn :=
  match tc_coins c with b :: bs => (b, set_coins bs c) | [] => (false, c) end.

Definition select_trigger_timer : T selected :=
  await (λ c,
    let timer_ready := match tc_rtimer c with
                       | Some (Timer.MkTimer _ (Some g)) => gt_chan g
                       | _ => false
                       end in
    let by_timer c := (SelTimer, set_rtimer (match tc_rtimer c with
                                             | Some t => Some (Timer.MkTimer (tm_deadline t) (gt_drain <$> tm_timer t))
                                             | None => None
                                             end) c) in
    match recv (tc_readTrigger c), timer_ready with
    | Some ch, true =>
        let '(b, c) := flip c in
        Some (if b : bool then by_timer c else (SelTrigger, set_readTrigger ch c))
    | Some ch, false => Some (SelTrigger, set_readTrigger ch c)
    | None, true => Some (by_timer c)
    | None, false => None
    end).

Fixpoint wait_loop (fuel : nat) (n : Z) : T (result nerr ()) :=
  match fuel with
  | O => out_of_fuel
  | S fuel =>
      l ← in_LenRead;
      if decide (l < n) then
        active ← IsActive;
        if negb active then Fin (Err NConnClosed)
        else _ ← recv_readTrigger; wait_loop fuel n
      else Fin (Ok ())
  end.

Fixpoint timed_wait_loop (fuel : nat) (n : Z) : T (result nerr ()) :=
  match fuel with
  | O => out_of_fuel
  | S fuel =>
      l ← in_LenRead;
      if decide (l < n) then
        active ← IsActive;
        if negb active then Fin (Err NConnClosed)
        else
          s ← select_trigger_timer;
          match s with
          | SelTrigger => timed_wait_loop fuel n
          | SelTimer =>
              l ← in_LenRead;
              if decide (l >= n) then Fin (Ok ()) else Fin (Err NTimeout)
          end
      else Fin (Ok ())
  end.

Definition waitReadWithTimeout (fuel : nat) (n : Z) : T (result nerr ()) :=
  now ← read tc_clock;
  _ ← on_rtimer (Start now);
  fired ← on_rtimer Wait;
  if (fired : bool) then _ ← on_rtimer Received; Fin (Err NTimeout)
  else timed_wait_loop fuel n.

Definition rtimer_set : T bool :=
  read (λ c, match tc_rtimer c with
             | Some t => match tm_deadline t with Some _ => true | None => false end
             | None => false
             end).

Definition waitRead (fuel : nat) (n : Z) : T (result nerr ()) :=
  active ← IsActive;
  if negb active then Fin (Err NConnClosed)
  else
    l ← in_LenRead;
    if decide (l >= n) then Fin (Ok ())
    else
      _ ← write (set_waitReadLen (i32 n));
      nonblocking ← read tc_nonblocking;
      if (nonblocking : bool) then Fin (Err NEAGAIN)
      else
        timed ← rtimer_set;
        r ← (if (timed : bool) then waitReadWithTimeout fuel n else wait_loop fuel n);
        _ ← write (set_waitReadLen 0);
        Fin r.

(** The buffer's methods, recording what they consume. *)
Definition buffer_error {A} (r : result Node.err A) : result nerr A :=
  match r with Ok a => Ok a | Err e => Err (NBuffer e) end.

Definition took (bs : list byte) : M tcpconn () := modify (λ c, set_taken (tc_taken c ++ bs) c).

Definition in_Read (plen : Z) : T (result nerr (Z * list byte)) :=
  atomically (r ← on_in (Read plen);
              _ ← took (match r with Ok (_, bs) => bs | Err _ => [] end);
              mret (buffer_error r)).

Definition in_Next (n : Z) : T (result nerr (list byte)) :=
  atomically (r ← on_in (Next n);
              _ ← took (match r with Ok s => s_bytes s | Err _ => [] end);
              mret (match r with Ok s => Ok (s_bytes s) | Err e => Err (NBuffer e) end)).

Definition in_Peek (n : Z) : T (result nerr (list byte)) :=
  atomically (r ← on_in (Peek n);
              mret (match r with Ok s => Ok (s_bytes s) | Err e => Err (NBuffer e) end)).

(** What [Skip] is about to discard. *)
Definition ahead (n : Z) (b : Buffer) : list byte :=
  match Peek n b with Ret (Ok s, _) => s_bytes s | _ => [] end.

Definition in_Skip (n : Z) : T (result nerr ()) :=
  atomically (bs ← gets (λ c, ahead n (tc_inBuffer c));
              r ← on_in (Skip n);
              _ ← took (match r with Ok _ => bs | Err _ => [] end);
              mret (buffer_error r)).

Definition in_Release : T () := atomically (on_in Release).

(** *** After the connection was closed *)

Definition fixed_error {A} (r : result (ferr nerr) A) : result nerr A :=
  match r with
  | Ok a => Ok a
  | Err FInvalidParam => Err (NBuffer ErrInvalidParam)
  | Err (FEof e) => Err e
  end.

Definition on_closedReadBuf {A} (m : M (FixedReadBuffer nerr) (result (ferr nerr) A)) : T (result nerr A) :=
  r ← method tc_closedReadBuf set_closedReadBuf m; Fin (fixed_error r).

Definition needReadFromClosedReadBuf (err : option nerr) : T bool :=
  active ← IsActive;
  Fin (negb active && bool_decide (err = Some NConnClosed)).

(** [select] on [closedFinished] and ten milliseconds. *)
Definition waitReadFromClosedReadBuf : T () :=
  start ← read tc_clock;
  await (λ c, if ch_closed (tc_closedFinished c) || bool_decide (start + 10 * Millisecond <= tc_clock c)
              then Some ((), c) else None).

(** The shape of all read methods: [inner] runs as the [apiRead] job; when it failed
    because the connection is closed, [outer] reads what was left. *)
Definition api_read {A} (inner : T (result nerr A)) (outer : T (result nerr A)) : T (result nerr A) :=
  isLocked ← tc_begin kApiRead;
  r ← (if (isLocked : bool) then inner else Fin (Err NConnClosed));
  _ ← (if (isLocked : bool) then tc_end kApiRead else Fin ());
  again ← needReadFromClosedReadBuf (match r with Ok _ => None | Err e => Some e end);
  if (again : bool) then _ ← waitReadFromClosedReadBuf; outer else Fin r.

Definition and_then {A B} (p : T (result nerr A)) (k : A → T (result nerr B)) : T (result nerr B) :=
  r ← p; match r with Ok a => k a | Err e => Fin (Err e) end.

Definition tc_Read (fuel : nat) (plen : Z) : T (result nerr (Z * list byte)) :=
  if decide (plen = 0) then Fin (Ok (0, []))
  else api_read (and_then (waitRead fuel 1) (λ _, in_Read plen)) (on_closedReadBuf (fb_Read plen)).

Definition tc_ReadN (fuel : nat) (n : Z) : T (result nerr (list byte)) :=
  api_read
    (and_then (waitRead fuel n) (λ _,
       if decide (n < 0) then atomically panic   (* make([]byte, n) *)
       else
         and_then (in_Read n) (λ r,
           let dst := overwrite (of_bytes (replicate (Z.to_nat n) 0)) 0 r.2 in
           Fin (Ok (s_bytes dst)))))
    (on_closedReadBuf (fb_ReadN n)).

Definition tc_Next (fuel : nat) (n : Z) : T (result nerr (list byte)) :=
  api_read (and_then (waitRead fuel n) (λ _, in_Next n)) (on_closedReadBuf (fb_Next n)).

Definition tc_Peek (fuel : nat) (n : Z) : T (result nerr (list byte)) :=
  api_read (and_then (waitRead fuel n) (λ _, in_Peek n)) (on_closedReadBuf (fb_Peek n)).

Definition tc_Skip (fuel : nat) (n : Z) : T (result nerr ()) :=
  api_read (and_then (waitRead fuel n) (λ _, in_Skip n)) (on_closedReadBuf (fb_Skip n)).

Definition tc_Release : T () :=
  ok ← tc_begin kApiRead;
  if negb ok then Fin ()
  else _ ← in_Release; tc_end kApiRead.

Definition Len : T Z :=
  ok ← tc_begin kApiCtrl;
  if negb ok then Fin 0
  else l ← in_LenRead; _ ← tc_end kApiCtrl; Fin l.

(** ** Idle timers *)

Definition refresh (field : tcpconn → option tid) : T () :=
  t ← read field;
  match t with
  | None => Fin ()
  | Some t => _ ← on_wheel (AsyncTimer.Add t); Fin ()
  end.

Definition refreshConn : T () := refresh tc_idleTimer.
Definition refreshWriteIdleTimeout : T () := refresh tc_writeIdleTimer.
Definition refreshReadIdleTimeout : T () := refresh tc_readIdleTimer.

Definition delete_timer (field : tcpconn → option tid) : T () :=
  t ← read field;
  match t with
  | None => Fin ()
  | Some t => on_wheel (AsyncTimer.Del t)
  end.

(** [asynctimer.NewTimer]: a timer of its own in the wheel's heap. *)
Definition new_timer (d : Z) : MW tid :=
  w ← get;
  let t := fresh (dom (timers w)) in
  _ ← modify (λ w, set_timers (<[t := AsyncTimer.NewTimer true d]> (timers w)) w);
  mret t.

Definition set_idle_timeout (field : tcpconn → option tid) (upd : option tid → tcpconn → tcpconn) (d : Z)
    : T (result nerr ()) :=
  active ← IsActive;
  if negb active then Fin (Err NConnClosed)
  else
    _ ← delete_timer field;
    if decide (d <= 0) then Fin (Ok ())
    else
      t ← on_wheel (new_timer d);
      _ ← write (upd (Some t));
      r ← on_wheel (AsyncTimer.Add t);
      match r with
      | Ok _ => Fin (Ok ())
      | Err _ => Fin (Err NOther)
      end.

Definition SetIdleTimeout := set_idle_timeout tc_idleTimer set_idleTimer.
Definition SetWriteIdleTimeout := set_idle_timeout tc_writeIdleTimer set_writeIdleTimer.
Definition SetReadIdleTimeout := set_idle_timeout tc_readIdleTimer set_readIdleTimer.

(** ** Deadlines and handlers *)

Definition set_deadline (field : tcpconn → option timer) (upd : option timer → tcpconn → tcpconn)
    (t : option Z) : T (result nerr ()) :=
  active ← IsActive;
  if negb active then Fin (Err NConnClosed)
  else
    _ ← write (λ c, upd (Some (match field c with
                               | None => timer_New t
                               | Some tm => Timer.MkTimer t (tm_timer tm)
                               end)) c);
    Fin (Ok ()).

Definition SetReadDeadline := set_deadline tc_rtimer set_rtimer.
Definition SetWriteDeadline := set_deadline tc_wtimer set_wtimer.

Definition SetDeadline (t : option Z) : T (result nerr ()) :=
  and_then (SetReadDeadline t) (λ _, SetWriteDeadline t).

Definition SetOnClosed (handle : option H) : T (result nerr ()) :=
  active ← IsActive;
  if negb active then Fin (Err NConnClosed)
  else
    match handle with
    | None => Fin (Err NOther)
    | Some h => _ ← write (set_closeHandle (Some h)); Fin (Ok ())
    end.

Definition SetOnRequest (handle : option H) : T (result nerr ()) :=
  match handle with
  | None => Fin (Err NOther)
  | Some h => _ ← write (set_reqHandle (Some h)); Fin (Ok ())
  end.

Definition SetNonBlocking (nonblock : bool) : T () := write (set_nonblocking nonblock).
Definition SetSafeWrite (safe : bool) : T () := write (set_safeWrite safe).

(** ** Writing to the socket *)

(** The slices that [PeekBlocks] stores into [ByteVec]. *)
Definition store_blocks (ss : list slice) (d : IOData) : IOData :=
  MkIOData ((λ v, Vec (map Some ss ++ drop (length ss) (v_arr v)) (v_len v)) <$> ByteVec d) (IOVec d).

Definition iov_bytes (e : option iovec) : list byte :=
  match e with Some (Iovec (Some bs) _) => bs | _ => [] end.

(** The vectors [d.IOVec[:l]]. *)
Definition vectors (l : Z) (d : IOData) : list (list byte) :=
  match IOVec d with Some v => map iov_bytes (take (Z.to_nat l) (v_arr v)) | None => [] end.

Definition CheckAndDisable (l : Z) : T () := on_postpone (CheckAndDisablePostponeWrite l).

Definition writeWithCachedIOData : T (result nerr Z) :=
  bs ← atomically (on_out (PeekBlocks MaxLen));
  _ ← CheckAndDisable (zlen bs);
  (* GetIOVECWrapper leaves empty slices out *)
  on_net (nfd_Writev (map s_bytes (filter (λ s, s_len s ≠ 0) bs))).

Definition writeWithAdhocIOData : T (result nerr Z) :=
  d ← read tc_writevData;
  bs ← atomically (on_out (PeekBlocks (olen (ByteVec d))));
  _ ← write (λ c, set_writevData (store_blocks bs (tc_writevData c)) c);
  let l := zlen bs in
  _ ← CheckAndDisable l;
  ivs ← atomically (λ c,
          match SetIOVec l (tc_writevData c) with
          | Ret d => Ret (vectors l d, set_writevData d c)
          | Panic => Panic
          | NoFuel => NoFuel
          end);
  r ← on_net (nfd_Writev ivs);
  match r with
  | Err e => Fin (Err e)
  | Ok n => _ ← write (λ c, set_writevData (iodata_Release l (tc_writevData c)) c); Fin (Ok n)
  end.

Definition writeToNetFD : T (result nerr ()) :=
  _ ← refreshConn;
  _ ← refreshWriteIdleTimeout;
  d ← read tc_writevData;
  and_then (if IsNil d then writeWithCachedIOData else writeWithAdhocIOData) (λ n,
    r ← atomically (on_out (Skip n));
    match r with
    | Err e => Fin (Err (NBuffer e))
    | Ok _ => _ ← atomically (on_out Release); Fin (Ok ())
    end).

Definition nfd_control (e : Event) : T (result nerr ()) := on_net (nfd_Control e).

Definition notify_poller : T (result nerr ()) :=
  _ ← metrics_Add Metrics.TCPWriteNotify;
  nfd_control ModReadWriteable.

Definition tc_notify : T (result nerr ()) :=
  ok ← writing_TryLock;
  if negb ok then Fin (Ok ()) else notify_poller.

(** After [Unlock]: data that came in meanwhile. *)
Definition recheck : T (result nerr ()) :=
  l ← out_LenRead;
  if decide (l ≠ 0) then
    ok ← writing_TryLock;
    if (ok : bool) then notify_poller else Fin (Ok ())
  else Fin (Ok ()).

Definition flush : T (result nerr ()) :=
  ok ← writing_TryLock;
  if negb ok then Fin (Ok ())
  else
    r ← writeToNetFD;
    match r with
    | Err e => if decide (e ≠ NErrno EAGAIN) then Fin (Err e) else notify_poller
    | Ok _ =>
        _ ← metrics_Add Metrics.TCPFlushCalls;
        l ← out_LenRead;
        if decide (l ≠ 0) then notify_poller
        else _ ← writing_Unlock; recheck
    end.

(** ** Close *)

Definition storeReadBuffer : T () :=
  rlen ← in_LenRead;
  if decide (rlen = 0) then Fin ()
  else
    r ← in_Read rlen;
    match r with
    | Err _ => Fin ()
    | Ok (n, bs) => write (set_closedReadBuf (fb_Initialize (of_bytes bs) NConnClosed))
    end.

Definition stop_timer (field : tcpconn → option timer) (upd : option timer → tcpconn → tcpconn) : T () :=
  write (λ c, match field c with
              | None => c
              | Some t => match Stop t with Ret (_, t) => upd (Some t) c | _ => c end
              end).

Definition Close : T () :=
  first ← tc_begin Closer.closeAll;
  if negb first then Fin ()
  else
    _ ← tc_closeJob kSysRead;
    _ ← close_chan tc_readTrigger set_readTrigger;
    _ ← tc_closeAllJobs;
    _ ← storeReadBuffer;
    _ ← close_chan tc_closedFinished set_closedFinished;
    closeHandle ← read tc_closeHandle;
    _ ← (match closeHandle with Some h => run_closed h | None => Fin () end);
    _ ← stop_timer tc_rtimer set_rtimer;
    _ ← stop_timer tc_wtimer set_wtimer;
    _ ← write (λ c, match tc_service c with
                    | None => c
                    | Some s => match deleteConn (nfd_fd (tc_nfd c)) s with
                                | Ret (_, s) => set_service (Some s) c
                                | _ => c
                                end
                    end);
    _ ← delete_timer tc_idleTimer;
    _ ← delete_timer tc_writeIdleTimer;
    _ ← delete_timer tc_readIdleTimer;
    _ ← on_net (nfd_close sock_Close);
    _ ← atomically (on_in BufferFree);
    _ ← atomically (on_out BufferFree);
    _ ← metrics_Add Metrics.TCPConnsClose;
    tc_end Closer.closeAll.

(** ** Writing *)

Definition writeToOutboundBuffer (p : list slice) : T (result nerr Z) :=
  limit ← read tc_outboundBufferLimit;
  safe ← read tc_safeWrite;
  if decide (limit <= 0) then
    atomically (n ← on_out (LinkedBuffer.Writev safe p);
                _ ← modify (λ c, set_written (tc_written c ++ ztake n (concat (map s_bytes p))) c);
                mret (Ok n))
  else
    atomically (r ← on_out (WritevLimited safe limit p);
                match r with
                | Ok n =>
                    _ ← modify (λ c, set_written (tc_written c ++ ztake n (concat (map s_bytes p))) c);
                    mret (Ok n)
                | Err _ => mret (Err NLimitExceeded)
                end).

Definition write_expired : T bool :=
  read (λ c, match tc_wtimer c with
             | Some t => match tm_deadline t with Some d => bool_decide (d < tc_clock c) | None => false end
             | None => false
             end).

Definition tc_Writev (p : list slice) : T (Z * option nerr) :=
  expired ← write_expired;
  if (expired : bool) then Fin (0, Some NTimeout)
  else
    ok ← tc_begin kApiWrite;
    if negb ok then Fin (0, Some NConnClosed)
    else
      r ← writeToOutboundBuffer p;
      match r with
      | Err e =>
          _ ← tc_end kApiWrite;
          _ ← metrics_Add Metrics.TCPOutboundBufferLimitExceeded;
          _ ← Close;
          Fin (0, Some e)
      | Ok n =>
          enabled ← on_postpone Enabled;
          r ← (if (enabled : bool) then tc_notify else flush);
          match r with
          | Err e => _ ← tc_end kApiWrite; _ ← Close; Fin (n, Some e)
          | Ok _ => _ ← tc_end kApiWrite; Fin (n, None)
          end
      end.

Definition tc_Write (b : slice) : T (Z * option nerr) := tc_Writev [b].

(** ** Handlers of the poller's events *)

Fixpoint request_loop (fuel : nat) (h : H) : T (option nerr) :=
  match fuel with
  | O => out_of_fuel
  | S fuel =>
      l ← Len;
      active ← (if decide (l > 0) then IsActive else Fin false);
      if negb active then Fin None
      else
        e ← run_request h;
        match e with
        | Some e => Fin (Some e)
        | None => request_loop fuel h
        end
  end.

Fixpoint tcpAsyncHandler_loop (fuel : nat) (h : H) : T () :=
  match fuel with
  | O => out_of_fuel
  | S fuel =>
      e ← request_loop fuel h;
      match e with
      | Some _ => _ ← reading_Unlock; Close
      | None =>
          _ ← reading_Unlock;
          _ ← on_postpone ResetReadingTryLockFail;
          l ← Len;
          if decide (l <= 0) then Fin ()
          else
            ok ← reading_TryLock;
            if negb ok then Fin () else tcpAsyncHandler_loop fuel h
      end
  end.

Definition tcpAsyncHandler (fuel : nat) : T () :=
  h ← read tc_reqHandle;
  match h with
  | None => Fin ()
  | Some h => tcpAsyncHandler_loop fuel h
  end.

Fixpoint sync_loop (fuel : nat) (h : H) : T (option nerr) :=
  match fuel with
  | O => out_of_fuel
  | S fuel =>
      l ← Len;
      active ← (if decide (l > 0) then IsActive else Fin false);
      if negb active then Fin None
      else
        _ ← on_postpone IncLoopCnt;
        e ← run_request h;
        match e with
        | Some e => Fin (Some e)
        | None => sync_loop fuel h
        end
  end.

Definition tcpSyncHandle (fuel : nat) : T (result nerr ()) :=
  h ← read tc_reqHandle;
  match h with
  | None => Fin (Err NOther)
  | Some h =>
      _ ← on_postpone ResetLoopCnt;
      e ← sync_loop fuel h;
      match e with
      | Some e => if decide (e = NEAGAIN) then Fin (Ok ()) else Fin (Err e)
      | None => _ ← on_postpone CheckLoopCnt; Fin (Ok ())
      end
  end.

(** [doTask] hands the connection to the goroutine pool, which may refuse. *)
Definition doTask : T (result nerr ()) :=
  _ ← metrics_Add Metrics.TaskAssigned;
  atomically (λ c,
    let '(refused, c) := flip c in
    if refused : bool then Ret (Err NOther, c) else Ret (Ok (), set_tasks (S (tc_tasks c)) c)).

Definition in_Fill : T (result (Node.err + nerr) ()) :=
  atomically (λ c,
    zoom (λ c, (tc_inBuffer c, net_of c)) (λ bn c, set_net bn.2 (set_inBuffer bn.1 c))
      (FillFrom nfd_Readv (tc_waitReadLen c) []) c).

Definition tcpOnRead (fuel : nat) : T (result nerr ()) :=
  ok ← tc_begin kSysRead;
  if negb ok then Fin (Ok ())
  else
    r ← (_ ← refreshReadIdleTimeout;
         _ ← refreshConn;
         f ← in_Fill;
         match f with
         | Err (inl ErrBufferFull) => Fin (Ok ())
         | Err (inl e) => Fin (Err (NBuffer e))
         | Err (inr e) => Fin (Err e)
         | Ok _ =>
             nonblocking ← read tc_nonblocking;
             if (nonblocking : bool) then tcpSyncHandle fuel
             else
               _ ← send_readTrigger;
               h ← read tc_reqHandle;
               match h with
               | None => Fin (Ok ())
               | Some _ =>
                   ok ← reading_TryLock;
                   if negb ok then _ ← on_postpone IncReadingTryLockFail; Fin (Ok ())
                   else doTask
               end
         end);
    _ ← tc_end kSysRead;
    Fin r.

Definition tcpOnWrite : T (result nerr ()) :=
  ok ← tc_begin kSysWrite;
  if negb ok then Fin (Ok ())
  else
    r ← (_ ← metrics_Add Metrics.TCPOnWriteCalls;
         r ← writeToNetFD;
         match r with
         | Err e => if decide (e = NErrno EAGAIN) then Fin (Ok ()) else Fin (Err e)
         | Ok _ =>
             l ← out_LenRead;
             if decide (l ≠ 0) then Fin (Ok ())
             else
               and_then (nfd_control ModReadable) (λ _,
                 _ ← writing_Unlock;
                 recheck)
         end);
    _ ← tc_end kSysWrite;
    Fin r.

Definition tcpOnHup : T () := Close.
Definition tcpOnIdle : T () := Close.

(** ** Goroutines of the library *)

(** A round of the poller for one event of a connection, [Poller.handle] with programs
    for callbacks; [desc] is the descriptor the event names. *)
Definition poll_once (fuel : nat) (desc : dloc) (events : Z) : T () :=
  let hup := has_flag events (Z.lor (Z.lor EPOLLHUP EPOLLRDHUP) EPOLLERR) in
  hup ← (if has_flag events EPOLLOUT then
           r ← tcpOnWrite; Fin (hup || match r with Err _ => true | Ok _ => false end)
         else Fin hup);
  hup ← (if has_flag events (Z.lor EPOLLIN EPOLLPRI) then
           r ← tcpOnRead fuel; Fin (hup || match r with Err _ => true | Ok _ => false end)
         else Fin hup);
  if (hup : bool) then
    _ ← on_net (NetFD.on_poll (Control desc Detach));
    write (λ c, set_hups (S (tc_hups c)) c)
  else Fin ().

(** A goroutine of the pool, one for [onHup], and the clock. *)
Definition task_worker (fuel : nat) : T () :=
  _ ← await (λ c, match tc_tasks c with S n => Some ((), set_tasks n c) | O => None end);
  tcpAsyncHandler fuel.

Definition hup_worker : T () :=
  _ ← await (λ c, match tc_hups c with S n => Some ((), set_hups n c) | O => None end);
  tcpOnHup.

Definition clock_tick (d : Z) : T () :=
  write (λ c,
    let now := tc_clock c + Z.max 0 d in
    set_clock now (set_rtimer (elapse now <$> tc_rtimer c) (set_wtimer (elapse now <$> tc_wtimer c) c))).

End TcpConn.

Arguments tcpconn : clear implicits.
