(* ===== verification/TcpGuard.v ===== *)
(** * Who may touch the buffers of a TCP connection

    The jobs of a connection guard its buffers: whoever touches them runs a job, except
    for the goroutine that closes the connection, which touches them only after it
    has closed all jobs.  The file states this as an invariant between a connection
    and a role per goroutine (where it stands in each job, how far it has come with
    closing) and proves the rules ([Track]) for the steps the methods consist of.

    [nb] says whether the connection may be in nonblocking mode, where request handlers
    run inside the [sysRead] job of the poller. *)

From stdpp Require Import base gmap sets list numbers.
From S2P Require Import Prelude LinkedBuffer FixedBuffer AutoPostpone SafeJob Closer AsyncTimer Threads Track Timer Kernel IOVec Poller NetFD TcpService TcpConn.

(** ** Roles *)

(** What the closing goroutine has done: the jobs it has closed and the two channels. *)
Record closing : Type := Closing {
  cg_known : list lock_key;
  cg_trigger : bool;
  cg_finished : bool
}.

Record role : Type := Role {
  ro_sysRead : phase;
  ro_sysWrite : phase;
  ro_apiRead : phase;
  ro_apiWrite : phase;
  ro_apiCtrl : phase;
  ro_closing : option closing;
  ro_library : bool   (* a goroutine of the library, which may wait for events *)
}.

Definition getPhase (k : lock_key) (g : role) : phase :=
  match k with
  | sysRead => ro_sysRead g
  | sysWrite => ro_sysWrite g
  | apiRead => ro_apiRead g
  | apiWrite => ro_apiWrite g
  | apiCtrl => ro_apiCtrl g
  end.

Definition setPhase (k : lock_key) (p : phase) (g : role) : role :=
  match k with
  | sysRead => Role p (ro_sysWrite g) (ro_apiRead g) (ro_apiWrite g) (ro_apiCtrl g) (ro_closing g) (ro_library g)
  | sysWrite => Role (ro_sysRead g) p (ro_apiRead g) (ro_apiWrite g) (ro_apiCtrl g) (ro_closing g) (ro_library g)
  | apiRead => Role (ro_sysRead g) (ro_sysWrite g) p (ro_apiWrite g) (ro_apiCtrl g) (ro_closing g) (ro_library g)
  | apiWrite => Role (ro_sysRead g) (ro_sysWrite g) (ro_apiRead g) p (ro_apiCtrl g) (ro_closing g) (ro_library g)
  | apiCtrl => Role (ro_sysRead g) (ro_sysWrite g) (ro_apiRead g) (ro_apiWrite g) p (ro_closing g) (ro_library g)
  end.

Definition set_closing (cg : option closing) (g : role) : role :=
  Role (ro_sysRead g) (ro_sysWrite g) (ro_apiRead g) (ro_apiWrite g) (ro_apiCtrl g) cg (ro_library g).

Definition at_rest (library : bool) : role := Role PIdle PIdle PIdle PIdle PIdle None library.

Definition closing_n (g : role) : nat := if ro_closing g then 1 else 0.

(** One more job is closed. *)
Definition know (k : lock_key) (g : role) : role :=
  set_closing ((λ cg, Closing (k :: cg_known cg) (cg_trigger cg) (cg_finished cg)) <$> ro_closing g) g.

Lemma getPhase_set k p g : getPhase k (setPhase k p g) = p.
Proof. by destruct k. Qed.
Lemma getPhase_set_ne k k' p g : k ≠ k' → getPhase k' (setPhase k p g) = getPhase k' g.
Proof. by destruct k, k'. Qed.
Lemma setPhase_set k p p' g : setPhase k p' (setPhase k p g) = setPhase k p' g.
Proof. by destruct k. Qed.
Lemma setPhase_id k p g : getPhase k g = p → setPhase k p g = g.
Proof. destruct g, k; simpl; by intros <-. Qed.
Lemma ro_closing_setPhase k p g : ro_closing (setPhase k p g) = ro_closing g.
Proof. by destruct k. Qed.
Lemma closing_n_setPhase k p g : closing_n (setPhase k p g) = closing_n g.
Proof. by destruct k. Qed.
Lemma getPhase_set_closing k cg g : getPhase k (set_closing cg g) = getPhase k g.
Proof. by destruct k. Qed.
Lemma set_closing_set cg cg' g : set_closing cg' (set_closing cg g) = set_closing cg' g.
Proof. done. Qed.
Lemma set_closing_id g cg : ro_closing g = cg → set_closing cg g = g.
Proof. destruct g; simpl; by intros <-. Qed.
Lemma know_setPhase k k' p g : know k (setPhase k' p g) = setPhase k' p (know k g).
Proof. by destruct k'. Qed.

#[export] Hint Rewrite getPhase_set setPhase_set ro_closing_setPhase closing_n_setPhase getPhase_set_closing
  set_closing_set : role.

Section Guard.
Context {D CB W H : Type} `{Kernel W}.
Variable nb : bool.
(** Which goroutines are the library's. *)
Variable libs : list bool.
Abbreviation conn := (tcpconn D CB W H).
Abbreviation T := (thread conn).
Implicit Types (c : conn) (g : role) (gs : list role) (k : lock_key).

(** ** The parts of the state *)

Definition set_bufs (v : Buffer * Buffer) c : conn := set_outBuffer v.2 (set_inBuffer v.1 c).

(** Jobs, channels and mode. *)
Definition guards_of c : closer * chan * chan * bool :=
  (tc_closer c, tc_readTrigger c, tc_closedFinished c, tc_nonblocking c).
Definition set_guards (v : closer * chan * chan * bool) c : conn :=
  set_nonblocking v.2 (set_closedFinished v.1.2 (set_readTrigger v.1.1.2 (set_closer v.1.1.1 c))).

(** The same connection with both channels open. *)
Definition reopen c : conn :=
  set_guards (tc_closer c, Chan (ch_full (tc_readTrigger c)) false,
              Chan (ch_full (tc_closedFinished c)) false, tc_nonblocking c) c.

(** A step that closes nothing. *)
Definition frames c c' : Prop :=
  tc_closer c' = tc_closer c ∧
  ch_closed (tc_readTrigger c') = ch_closed (tc_readTrigger c) ∧
  ch_closed (tc_closedFinished c') = ch_closed (tc_closedFinished c) ∧
  (nb = false → tc_nonblocking c' = tc_nonblocking c).

(** ** The invariant *)

Definition all_known (cg : closing) : Prop := ∀ k, k ∈ cg_known cg.

Definition stage_ok c (cg : closing) : Prop :=
  (∀ k, k ∈ cg_known cg → Closed (getJob k (tc_closer c)) = true) ∧
  ch_closed (tc_readTrigger c) = cg_trigger cg ∧ ch_closed (tc_closedFinished c) = cg_finished cg.

Record guarded c gs : Prop := {
  gd_jobs k : job_inv (getJob k (tc_closer c)) (map (getPhase k) gs);
  gd_one : tot closing_n gs ≤ if closed (tc_closer c) then 1 else 0;
  gd_stage i g cg : gs !! i = Some g → ro_closing g = Some cg → stage_ok c cg;
  gd_trigger : ch_closed (tc_readTrigger c) = true → Closed (getJob sysRead (tc_closer c)) = true;
  gd_finished k : ch_closed (tc_closedFinished c) = true → Closed (getJob k (tc_closer c)) = true;
  gd_open : closed (tc_closer c) = false →
            ch_closed (tc_readTrigger c) = false ∧ ch_closed (tc_closedFinished c) = false;
  gd_over : closed (tc_closer c) = true → tot closing_n gs = 0 →
            ch_closed (tc_readTrigger c) = true ∧ ch_closed (tc_closedFinished c) = true;
  gd_mode : nb = false → tc_nonblocking c = false;
  gd_libs : map ro_library gs = libs
}.

(** ** What a role permits and explains *)

Definition may_touch g : Prop :=
  (∃ k, getPhase k g = PRun) ∨ (∃ cg, ro_closing g = Some cg ∧ all_known cg).

Definition permits g (A : Type) (a : act conn A) : Prop := ignores set_bufs a ∨ may_touch g.

Definition not_closed (A : Type) (a : act conn A) c : Prop := a (reopen c) = Some Panic.

Definition idle_phases g : Prop := ∀ k, getPhase k g = PIdle.

(** Not closing, or so far with it that user code may run. *)
Definition stage_done g : Prop :=
  match ro_closing g with
  | None => True
  | Some cg => all_known cg ∧ cg_trigger cg = true ∧ cg_finished cg = true
  end.

Inductive reason c g : Prop :=
| WaitsToBegin k : idle_phases g → stage_done g →
    @lj_acq (job_type k) _ _ (getJob k (tc_closer c)) = None → reason c g
| WaitsToClose k cg : idle_phases g → ro_closing g = Some cg → (k = sysRead ∨ cg_trigger cg = true) →
    @lj_cacq (job_type k) _ _ (getJob k (tc_closer c)) = None → reason c g
| WaitsForData : (∀ k, k ≠ apiRead → getPhase k g = PIdle) → stage_done g →
    ch_closed (tc_readTrigger c) = false → reason c g
| WaitsForClose : idle_phases g → stage_done g → ch_closed (tc_closedFinished c) = false → reason c g
| WaitsForEvent : g = at_rest true → reason c g.

Definition explained c g : Prop := nb = false → reason c g.

Definition trackc {R} : T R → role → (R → role → Prop) → Prop :=
  track guarded permits not_closed explained.
Definition steadyc {R} : T R → role → Prop := steady guarded permits not_closed explained.

(** Where methods of the connection are called: no job of theirs runs; in nonblocking
    mode, [sysRead] may. *)
Definition resting g : Prop :=
  ∀ k, getPhase k g = PIdle ∨ nb = true ∧ k = sysRead ∧ getPhase k g = PRun.
Definition outside g : Prop := resting g ∧ stage_done g.

(** ** Steps *)

Lemma stage_ok_mono c c' cg :
  stage_ok c cg → (∀ k, Closed (getJob k (tc_closer c)) = true → Closed (getJob k (tc_closer c')) = true) →
  ch_closed (tc_readTrigger c') = ch_closed (tc_readTrigger c) →
  ch_closed (tc_closedFinished c') = ch_closed (tc_closedFinished c) → stage_ok c' cg.
Proof. intros (H1 & H2 & H3) Hm E1 E2. split; [auto|]. by rewrite E1, E2. Qed.

Lemma libs_insert gs i g g' :
  gs !! i = Some g → ro_library g' = ro_library g → map ro_library (<[i := g']> gs) = map ro_library gs.
Proof.
  intros Hi El. rewrite list_fmap_insert, list_insert_id; [done|]. by rewrite list_lookup_fmap, Hi, El.
Qed.

(** A goroutine takes a step in its jobs; the channels stay. *)
Lemma guarded_move c gs i g c' g' :
  guarded c gs → gs !! i = Some g →
  (∀ k, views k (getJob k (tc_closer c)) (getPhase k g) (getJob k (tc_closer c')) (getPhase k g')) →
  closeAllJob (tc_closer c') = closeAllJob (tc_closer c) →
  ch_closed (tc_readTrigger c') = ch_closed (tc_readTrigger c) →
  ch_closed (tc_closedFinished c') = ch_closed (tc_closedFinished c) →
  (nb = false → tc_nonblocking c' = tc_nonblocking c) →
  closing_n g' = closing_n g → (∀ cg, ro_closing g' = Some cg → stage_ok c' cg) →
  ro_library g' = ro_library g →
  guarded c' (<[i := g']> gs).
Proof.
  intros [Hj H1 Hs Ht Hf Ho Hv Hm Hlib] Hi Hviews E E1 E2 E3 En Hst El.
  assert (∀ k, job_inv (getJob k (tc_closer c')) (<[i:=getPhase k g']> (map (getPhase k) gs)) ∧
               (Closed (getJob k (tc_closer c)) = true → Closed (getJob k (tc_closer c')) = true)) as Hk.
  { intros k. apply (job_inv_views k _ _ i (getPhase k g) _ _ (Hj k)); [|apply Hviews].
    by rewrite list_lookup_fmap, Hi. }
  pose proof (tot_insert closing_n gs i g g' Hi) as Htot.
  assert (closed (tc_closer c') = closed (tc_closer c)) as Ec by (unfold closed; by rewrite E).
  split; rewrite ?Ec, ?E1, ?E2; try done.
  - intros k. rewrite list_fmap_insert. apply Hk.
  - lia.
  - intros i' g0 cg Hi' Hcg. apply list_lookup_insert_Some in Hi' as [(_ & <- & _)|[_ Hi']]; [auto|].
    eapply stage_ok_mono; [by eapply Hs|apply Hk|done..].
  - intros ?. by apply Hk, Ht.
  - intros k ?. by apply Hk, Hf.
  - intros ??. apply Hv; [done|lia].
  - intros Hn. rewrite E3; auto.
  - by rewrite (libs_insert _ _ g).
Qed.

Lemma guarded_frames c gs i g c' :
  guarded c gs → gs !! i = Some g → frames c c' → guarded c' (<[i := g]> gs).
Proof.
  intros Hg Hi (E1 & E2 & E3 & E4). eapply guarded_move; try done; rewrite ?E1; try done.
  - intros k. constructor.
  - intros cg Hcg. eapply stage_ok_mono; [by eapply (gd_stage _ _ Hg)|by rewrite E1|done..].
Qed.

(** *** Actions that close nothing *)

Definition keeps {A} (m : M conn A) : Prop :=
  (∀ c x c', m c = Ret (x, c') → frames c c') ∧ (∀ c, m c = Panic → m (reopen c) = Panic).

Lemma overlooks_keeps {A} (m : M conn A) : overlooks set_guards m → keeps m.
Proof.
  intros Hm. split.
  - intros c x c' E. assert (guards_of c' = guards_of c) as Eg.
    { eapply (ignores_keeps set_guards _ guards_of); [..|apply (ignores_atomic _ _ Hm)|simpl; by rewrite E].
      - by intros [].
      - by intros [[[??]?]?] []. }
    unfold guards_of in Eg. injection Eg as E1 E2 E3 E4. split; [done|]. by rewrite E2, E3.
  - intros c E. unfold reopen. by rewrite Hm, E.
Qed.

Lemma steady_atomically {A} (m : M conn A) g :
  keeps m → overlooks set_bufs m ∨ may_touch g → steadyc (atomically m) g.
Proof.
  intros [Hk Hp] Ht. split; [destruct Ht as [Ht|Ht]; [left; by apply ignores_atomic|by right]|].
  intros c gs i Hi HI. destruct (m c) as [[x c']| |] eqn:E; try done.
  - exists g. split; [|done]. apply (guarded_frames _ _ _ _ _ HI Hi). by eapply Hk.
  - unfold not_closed. by rewrite Hp.
Qed.

(** Most actions ignore the guards, and the buffers too. *)
Lemma steady_blind {A} (m : M conn A) g :
  overlooks set_guards m → overlooks set_bufs m → steadyc (atomically m) g.
Proof. intros Hg Hb. apply steady_atomically; [by apply overlooks_keeps|by left]. Qed.

Lemma steady_touch {A} (m : M conn A) g :
  overlooks set_guards m → may_touch g → steadyc (atomically m) g.
Proof. intros Hg Hb. apply steady_atomically; [by apply overlooks_keeps|by right]. Qed.

(** Reading a field. *)
Lemma steady_read {A} (f : conn → A) g :
  (∀ v c, f (set_bufs v c) = f c) → steadyc (read f) g.
Proof.
  intros Hf. apply steady_atomically; [split; [by intros c x c' [= _ <-]|done]|].
  left. by apply overlooks_gets.
Qed.

Lemma steady_await {A} (f : conn → option (A * conn)) g :
  (∀ v c, f (set_bufs v c) = prod_map id (set_bufs v) <$> f c) →
  (∀ c x c', f c = Some (x, c') → frames c c') → (∀ c, f c = None → explained c g) →
  steadyc (await f) g.
Proof.
  intros Hb Hk Hw. split.
  - left. intros v c. simpl. rewrite Hb. by destruct (f c) as [[x c']|].
  - intros c gs i Hi HI. destruct (f c) as [[x c']|] eqn:E; [|by apply Hw].
    exists g. split; [|done]. apply (guarded_frames _ _ _ _ _ HI Hi). by eapply Hk.
Qed.

(** *** Jobs *)

Lemma job_ignores {P} (proj : closer → P) upd (a : action P) :
  ignores set_bufs (λ c : conn, match act_on proj upd a (tc_closer c) with
                                | Some (b, t) => Some (Ret (b, set_closer t c))
                                | None => None
                                end).
Proof. intros v c. simpl. by destruct (act_on proj upd a (tc_closer c)) as [[b t]|]. Qed.

(** A program of job [k]. *)
Definition job_prog {R} k (q : prog (job_type k) R) : T R :=
  of_job tc_closer set_closer (prog_on (getJob k) (setJob k) q).

(** One action of job [k], which may also tell that the job is closed. *)
Lemma track_act {R} k a (f : bool → prog (job_type k) R) g (g' : bool → role) Q :
  (∀ j r j', a j = Some (r, j') → views k j (getPhase k g) j' (getPhase k (g' r))) →
  (∀ r k', k' ≠ k → getPhase k' (g' r) = getPhase k' g) →
  (∀ r, ro_closing (g' r) = ro_closing g ∨
        g' r = setPhase k (getPhase k (g' r)) (know k g) ∧ getPhase k g = PC2) →
  (∀ r, ro_library (g' r) = ro_library g) →
  (∀ c gs i, guarded c gs → gs !! i = Some g → a (getJob k (tc_closer c)) = None → explained c g) →
  (∀ r, trackc (job_prog k (f r)) (g' r) Q) →
  trackc (job_prog k (Act a f)) g Q.
Proof.
  intros Ha Hne Hcl Hlib Hw Hf. split; [left; apply job_ignores|].
  intros c gs i Hi HI. destruct (act_on (getJob k) (setJob k) a (tc_closer c)) as [[r t]|] eqn:E.
  2: { apply (Hw c gs i HI Hi). unfold act_on in E. by destruct (a (getJob k (tc_closer c))) as [[]|]. }
  apply act_on_Some in E as (j' & Ej & ->). exists (g' r). split; [|apply Hf].
  pose proof (Ha _ _ _ Ej) as Hv.
  destruct (job_inv_views k _ (map (getPhase k) gs) i (getPhase k g) j' (getPhase k (g' r))
              (gd_jobs _ _ HI k) ltac:(by rewrite list_lookup_fmap, Hi) Hv) as [_ Hmono].
  assert (∀ k', Closed (getJob k' (tc_closer c)) = true → Closed (getJob k' (setJob k j' (tc_closer c))) = true) as Hm.
  { intros k'. destruct (decide (k = k')) as [<-|]; [rewrite getJob_setJob; auto|by rewrite getJob_setJob_ne]. }
  eapply guarded_move; try done; simpl.
  - intros k'. destruct (decide (k = k')) as [<-|]; [by rewrite getJob_setJob|].
    rewrite getJob_setJob_ne, Hne by done. constructor.
  - by destruct k.
  - destruct (Hcl r) as [Ec|[-> _]]; [unfold closing_n; by rewrite Ec|].
    rewrite closing_n_setPhase. unfold closing_n, know. simpl. by destruct (ro_closing g).
  - intros cg Hcg. destruct (Hcl r) as [Ec|[Eg Ep]].
    + rewrite Ec in Hcg. eapply stage_ok_mono; [by eapply (gd_stage _ _ HI)|done..].
    + rewrite Eg, ro_closing_setPhase in Hcg. unfold know in Hcg. simpl in Hcg.
      destruct (ro_closing g) as [cg0|] eqn:E0; [|done]. simpl in Hcg. injection Hcg as <-.
      destruct (gd_stage _ _ HI _ _ _ Hi E0) as (H1 & H2 & H3). split; [|done].
      intros k' [->|Hk']%elem_of_cons; [|by apply Hm, H1]. apply Hm.
      eapply (ji_stored _ _ (gd_jobs _ _ HI k) i PC2); [|done]. by rewrite list_lookup_fmap, Hi, <-Ep.
Qed.

Lemma track_act_phase {R} k a (f : bool → prog (job_type k) R) g (p' : bool → phase) Q :
  (∀ j r j', a j = Some (r, j') → views k j (getPhase k g) j' (p' r)) →
  (∀ c gs i, guarded c gs → gs !! i = Some g → a (getJob k (tc_closer c)) = None → explained c g) →
  (∀ r, trackc (job_prog k (f r)) (setPhase k (p' r) g) Q) →
  trackc (job_prog k (Act a f)) g Q.
Proof.
  intros Ha Hw Hf. apply (track_act k a f g (λ r, setPhase k (p' r) g)); try done.
  - intros j r j' Hj. rewrite getPhase_set. by apply Ha.
  - intros r k' Hk. by apply getPhase_set_ne.
  - intros r. left. apply ro_closing_setPhase.
  - intros r. by destruct k.
Qed.

(** Letting go of a lock never waits. *)
Lemma rel_ready k c gs i g :
  guarded c gs → gs !! i = Some g → holdsB (getPhase k g) = 1 →
  @lj_rel (job_type k) _ _ (getJob k (tc_closer c)) ≠ None.
Proof.
  intros HI Hi Hb. pose proof (ji_lock _ _ (gd_jobs _ _ HI k)) as Hl.
  pose proof (tot_lookup holdsB (map (getPhase k) gs) i (getPhase k g) ltac:(by rewrite list_lookup_fmap, Hi)) as Ht.
  rewrite Hb in Ht. destruct (tot holdsB (map (getPhase k) gs)) as [|n]; [lia|].
  destruct (lj_rel_ok _ _ _ Hl) as (r & j' & E & _). by rewrite E.
Qed.

Lemma crel_ready k c gs i g :
  guarded c gs → gs !! i = Some g → holdsC (getPhase k g) = 1 →
  @lj_crel (job_type k) _ _ (getJob k (tc_closer c)) ≠ None.
Proof.
  intros HI Hi Hb. pose proof (ji_lock _ _ (gd_jobs _ _ HI k)) as Hl.
  pose proof (tot_lookup holdsC (map (getPhase k) gs) i (getPhase k g) ltac:(by rewrite list_lookup_fmap, Hi)) as Ht.
  rewrite Hb in Ht. destruct (tot holdsC (map (getPhase k) gs)) as [|n]; [lia|].
  destruct (lj_crel_ok _ _ _ Hl) as (r & j' & E & _). by rewrite E.
Qed.

Lemma outside_idle g : nb = false → resting g → idle_phases g.
Proof. intros Hn Hr k. destruct (Hr k) as [?|(? & _)]; congruence. Qed.

Lemma tc_begin_key k : tc_begin (key_index k) = job_prog k Begin.
Proof. unfold tc_begin. by rewrite begin_key. Qed.
Lemma tc_end_key k : tc_end (key_index k) = job_prog k End_.
Proof. unfold tc_end. by rewrite end_key. Qed.

Ltac by_views := repeat first [by apply vs_refl | eapply vs_step; [by econstructor|]].

Lemma track_begin k g :
  outside g → getPhase k g = PIdle →
  trackc (tc_begin (key_index k)) g (λ b g', g' = if b then setPhase k PRun g else g).
Proof.
  intros [Hr Hs] Hk. rewrite tc_begin_key, lj_begin. unfold guarded_begin.
  apply (track_act_phase _ _ _ _ (λ r, if lj_blk || r then PB1 else PIdle)).
  { intros j r j' Ha. rewrite Hk. destruct lj_blk eqn:Eb, r; simpl; by_views. }
  { intros c gs i _ _ Ha Hn. apply (WaitsToBegin _ _ k); [by apply outside_idle|done|done]. }
  intros r. destruct (lj_blk || r); simpl negb; cbv iota.
  2: { change (setPhase k PIdle g = g). by apply setPhase_id. }
  apply (track_act_phase _ _ _ _ (λ closed, if closed then PB2 else PRun)).
  { intros j b j' Ha. rewrite getPhase_set. rewrite lj_load_ok in Ha. injection Ha as Hb <-.
    destruct b; by_views. }
  { intros c gs i _ _ Ha. by rewrite lj_load_ok in Ha. }
  intros b. rewrite setPhase_set. destruct b; [|done].
  apply (track_act_phase _ _ _ _ (λ _, PIdle)).
  { intros j b j' Ha. rewrite getPhase_set. by_views. }
  { intros c gs i HI Hi Ha. by apply (rel_ready k _ _ _ _ HI Hi) in Ha; [|by rewrite getPhase_set]. }
  intros _. rewrite setPhase_set. change (setPhase k PIdle g = g). by apply setPhase_id.
Qed.

Lemma track_end k g :
  getPhase k g = PIdle → trackc (tc_end (key_index k)) (setPhase k PRun g) (λ _ g', g' = g).
Proof.
  intros Hk. rewrite tc_end_key, lj_end. unfold guarded_end.
  apply (track_act_phase _ _ _ _ (λ _, PIdle)).
  { intros j b j' Ha. rewrite getPhase_set. by_views. }
  { intros c gs i HI Hi Ha. by apply (rel_ready k _ _ _ _ HI Hi) in Ha; [|by rewrite getPhase_set]. }
  intros _. rewrite setPhase_set. change (setPhase k PIdle g = g). by apply setPhase_id.
Qed.

(** The lock of a job that somebody runs cannot be taken for closing it. *)
Lemma run_blocks_close k c gs i g :
  guarded c gs → gs !! i = Some g → getPhase k g = PRun →
  @lj_cacq (job_type k) _ _ (getJob k (tc_closer c)) = None.
Proof.
  intros HI Hi Hk. destruct (lj_cacq _) as [[r j']|] eqn:E; [|done].
  destruct (lj_cacq_ok _ _ _ _ _ (ji_lock _ _ (gd_jobs _ _ HI k)) E) as (_ & Hz & _).
  pose proof (tot_lookup holdsB (map (getPhase k) gs) i PRun ltac:(by rewrite list_lookup_fmap, Hi, <-Hk)) as Ht.
  simpl in Ht. lia.
Qed.

(** A goroutine that closes a job it runs itself never gets on. *)
Lemma track_close_own k g :
  nb = true → getPhase k g = PRun → trackc (job_prog k SafeJob.Close) g (λ _ _, False).
Proof.
  intros Hn Hk. rewrite lj_close. unfold guarded_close. split; [left; apply job_ignores|].
  intros c gs i Hi HI. unfold act_on. rewrite (run_blocks_close k c gs i g HI Hi Hk). intros ?. congruence.
Qed.

(** Closing a job waits for its runs. *)
Lemma track_close k g cg :
  resting g → ro_closing g = Some cg → k = sysRead ∨ cg_trigger cg = true →
  trackc (job_prog k SafeJob.Close) g (λ _ g', g' = know k g).
Proof.
  intros Hr Hcg Hs. destruct (Hr k) as [Hk|(Hn & _ & Hk)].
  - rewrite lj_close. unfold guarded_close. apply (track_act_phase _ _ _ _ (λ _, PC1)).
    { intros j r j' Ha. rewrite Hk. eapply vs_step; [apply ps_close|]. by_views. }
    { intros c gs i _ _ Ha Hn. apply (WaitsToClose _ _ k cg); try done. by apply outside_idle. }
    intros _. apply (track_act_phase _ _ _ _ (λ _, PC2)).
    { intros j r j' Ha. rewrite getPhase_set. by_views. }
    { intros c gs i HI Hi Ha. destruct (lj_store_ok _ _ _ (ji_lock _ _ (gd_jobs _ _ HI k))) as (r & j' & E & _).
      by rewrite E in Ha. }
    intros _. rewrite setPhase_set. apply (track_act _ _ _ _ (λ _, know k g)).
    { intros j r j' Ha. unfold know. rewrite getPhase_set, getPhase_set_closing, Hk. by_views. }
    { intros _ k' Hne. unfold know. by rewrite getPhase_set_closing, getPhase_set_ne. }
    { intros _. right. rewrite getPhase_set. split; [|done].
      rewrite know_setPhase, setPhase_set. symmetry. by apply setPhase_id. }
    { intros _. by destruct k. }
    { intros c gs i HI Hi Ha. by apply (crel_ready k _ _ _ _ HI Hi) in Ha; [|by rewrite getPhase_set]. }
    intros _. done.
  - eapply track_mono; [by apply track_close_own|]. by intros _ g' [].
Qed.

Lemma track_prog_seq {R} (p : prog closer ()) (q : prog closer R) g Q :
  trackc (of_job tc_closer set_closer p) g (λ _ g', trackc (of_job tc_closer set_closer q) g' Q) →
  trackc (of_job tc_closer set_closer (prog_seq p q)) g Q.
Proof.
  revert g. induction p as [[]|a k IH]; intros g; [done|]. intros [Hm Hp]. split; [exact Hm|].
  intros c gs i Hi HI. specialize (Hp c gs i Hi HI). destruct (a (tc_closer c)) as [[b t]|]; [|done].
  destruct Hp as (g' & HI' & Ht). exists g'. split; [done|]. by apply IH.
Qed.

(** *** The closing goroutine *)

Definition in_stage (cg : closing) g : role := set_closing (Some cg) g.

Lemma resting_in_stage cg g : resting g → resting (in_stage cg g).
Proof. intros Hr k. unfold in_stage. rewrite getPhase_set_closing. apply Hr. Qed.

Lemma track_closeJob cg g :
  resting g →
  trackc (tc_closeJob kSysRead) (in_stage cg g)
    (λ _ g', g' = in_stage (Closing (sysRead :: cg_known cg) (cg_trigger cg) (cg_finished cg)) g).
Proof.
  intros Hr. change (tc_closeJob kSysRead) with (job_prog sysRead SafeJob.Close).
  eapply track_mono; [apply (track_close sysRead _ cg); [by apply resting_in_stage|done|by left]|].
  by intros _ g' ->.
Qed.

Lemma track_closeAllJobs ks g :
  resting g →
  trackc tc_closeAllJobs (in_stage (Closing ks true false) g)
    (λ _ g', ∃ ks', g' = in_stage (Closing ks' true false) g ∧ ∀ k, k ∈ ks').
Proof.
  intros Hr.
  assert (∀ k ks Q, (∀ ks', ks' = k :: ks → Q (in_stage (Closing ks' true false) g)) →
            trackc (job_prog k SafeJob.Close) (in_stage (Closing ks true false) g) (λ _ g', Q g')) as Hone.
  { intros k ks0 Q HQ. eapply track_mono; [eapply track_close; [by apply resting_in_stage|done|by right]|].
    intros _ g' ->. by apply HQ. }
  unfold tc_closeAllJobs, closeAllJobs.
  do 5 (apply track_prog_seq, Hone; intros ? ->). eexists. split; [done|]. intros []; set_solver.
Qed.

Lemma closing_counts gs i g cg : gs !! i = Some g → ro_closing g = Some cg → 1 ≤ tot closing_n gs.
Proof.
  intros Hi Eg. pose proof (tot_lookup closing_n gs i g Hi) as Hg.
  replace (closing_n g) with 1 in Hg by (unfold closing_n; by rewrite Eg). lia.
Qed.

(** Winning the right to close. *)
Lemma track_begin_close g :
  trackc (tc_begin Closer.closeAll) g
    (λ b g', if b then ro_closing g = None ∧ g' = in_stage (Closing [] false false) g else g' = g).
Proof.
  split; [left; apply job_ignores|]. intros c gs i Hi HI.
  unfold act_on, once_cas. simpl. destruct (closeAllJob (tc_closer c)) eqn:E.
  - exists g. split; [|done]. apply (guarded_frames c gs i g _ HI Hi).
    split; [|done]. simpl. rewrite <-E. by destruct (tc_closer c).
  - assert (closed (tc_closer c) = false) as Ec by done.
    pose proof (gd_one _ _ HI) as H1. rewrite Ec in H1. destruct (gd_open _ _ HI Ec) as [Eo1 Eo2].
    assert (∀ i g cg, gs !! i = Some g → ro_closing g ≠ Some cg) as Hnone.
    { intros i' g0 cg Hi' Eg. pose proof (closing_counts gs i' g0 cg Hi' Eg). lia. }
    destruct (ro_closing g) as [cg|] eqn:Eg; [by destruct (Hnone i g cg)|].
    exists (in_stage (Closing [] false false) g). split; [|done].
    pose proof (tot_insert closing_n gs i g (in_stage (Closing [] false false) g) Hi) as Ht.
    replace (closing_n g) with 0%nat in Ht by (unfold closing_n; by rewrite Eg).
    change (closing_n (in_stage _ _)) with 1%nat in Ht.
    assert (∀ k, getJob k (set_closeAllJob true (tc_closer c)) = getJob k (tc_closer c)) as Ej by (by intros []).
    split; simpl; rewrite ?Ej; try done.
    + intros k. rewrite Ej, list_fmap_insert. rewrite list_insert_id; [apply HI|].
      by rewrite list_lookup_fmap, Hi; simpl; rewrite <-(getPhase_set_closing k (Some (Closing [] false false)) g).
    + lia.
    + intros i' g0 cg Hi' Hcg. apply list_lookup_insert_Some in Hi' as [(_ & <- & _)|[_ Hi']].
      * injection Hcg as <-. split; [intros k Hk; by apply elem_of_nil in Hk|done].
      * by destruct (Hnone i' g0 cg).
    + congruence.
    + congruence.
    + lia.
    + apply (gd_mode _ _ HI).
    + rewrite (libs_insert _ _ g); [apply HI|done..].
Qed.

(** The closing goroutine is the only one. *)
Lemma closing_alone c gs i j g g0 cg cg0 :
  guarded c gs → gs !! i = Some g → ro_closing g = Some cg →
  gs !! j = Some g0 → ro_closing g0 = Some cg0 → i = j ∧ closed (tc_closer c) = true.
Proof.
  intros HI Hi Eg Hj E0. pose proof (gd_one _ _ HI) as H1.
  pose proof (closing_counts gs i g cg Hi Eg). destruct (closed (tc_closer c)) eqn:Ec; [|lia].
  split; [|done]. destruct (decide (i = j)) as [|Hne]; [done|].
  pose proof (tot_two closing_n gs i j g g0 Hi Hj Hne) as Htwo.
  replace (closing_n g) with 1%nat in Htwo by (unfold closing_n; by rewrite Eg).
  replace (closing_n g0) with 1%nat in Htwo by (unfold closing_n; by rewrite E0). lia.
Qed.

(** The closing goroutine goes on to its next stage, or ends. *)
Lemma guarded_stage c gs i g cg c' cg' :
  guarded c gs → gs !! i = Some (in_stage cg g) →
  tc_closer c' = tc_closer c → (nb = false → tc_nonblocking c' = tc_nonblocking c) →
  (ch_closed (tc_readTrigger c') = true → sysRead ∈ cg_known cg) →
  (ch_closed (tc_closedFinished c') = true → all_known cg) →
  match cg' with
  | Some cg' => stage_ok c' cg'
  | None => ch_closed (tc_readTrigger c') = true ∧ ch_closed (tc_closedFinished c') = true
  end →
  guarded c' (<[i := set_closing cg' g]> gs).
Proof.
  intros HI Hi E En Ht Hf Hs. destruct (closing_alone c gs i i _ _ cg cg HI Hi eq_refl Hi eq_refl) as [_ Ec].
  destruct (gd_stage _ _ HI _ _ _ Hi eq_refl) as (Hknown & _ & _).
  pose proof (tot_insert closing_n gs i _ (set_closing cg' g) Hi) as Htot.
  change (closing_n (in_stage cg g)) with 1%nat in Htot.
  change (closing_n (set_closing cg' g)) with (if cg' then 1 else 0)%nat in Htot.
  pose proof (gd_one _ _ HI) as H1. rewrite Ec in H1.
  pose proof (closing_counts gs i _ cg Hi eq_refl) as Hn.
  split; rewrite ?E, ?Ec; try done.
  - intros k. rewrite list_fmap_insert, list_insert_id; [apply HI|].
    rewrite list_lookup_fmap, Hi. simpl. unfold in_stage. by rewrite !getPhase_set_closing.
  - destruct cg'; lia.
  - intros i' g0 cg0 Hi' Hcg. apply list_lookup_insert_Some in Hi' as [(_ & <- & _)|[Hne Hi']].
    + simpl in Hcg. by subst cg'.
    + by destruct (closing_alone c gs i i' _ _ cg cg0 HI Hi eq_refl Hi' Hcg).
  - intros ?. by apply Hknown, Ht.
  - intros k ?. by apply Hknown, Hf.
  - intros _ Hz. destruct cg' as [cg'|]; [lia|done].
  - intros Hnb. rewrite (En Hnb). by apply (gd_mode _ _ HI).
  - rewrite (libs_insert _ _ (in_stage cg g)); [apply HI|done..].
Qed.

Lemma track_close_readTrigger ks g :
  sysRead ∈ ks →
  trackc (close_chan tc_readTrigger set_readTrigger) (in_stage (Closing ks false false) g)
    (λ _ g', g' = in_stage (Closing ks true false) g).
Proof.
  intros Hks. split; [left; intros v c; simpl; by destruct (ch_closed (tc_readTrigger c))|].
  intros c gs i Hi HI. destruct (gd_stage _ _ HI _ _ _ Hi eq_refl) as (Hk & E1 & E2). simpl in *.
  rewrite E1. eexists. split; [|done]. apply (guarded_stage c gs i g (Closing ks false false)); try done.
  simpl. congruence.
Qed.

Lemma track_close_closedFinished ks g :
  (∀ k, k ∈ ks) →
  trackc (close_chan tc_closedFinished set_closedFinished) (in_stage (Closing ks true false) g)
    (λ _ g', g' = in_stage (Closing ks true true) g).
Proof.
  intros Hks. split; [left; intros v c; simpl; by destruct (ch_closed (tc_closedFinished c))|].
  intros c gs i Hi HI. destruct (gd_stage _ _ HI _ _ _ Hi eq_refl) as (Hk & E1 & E2). simpl in *.
  rewrite E2. eexists. split; [|done]. apply (guarded_stage c gs i g (Closing ks true false)); try done.
Qed.

(** The last action of [Close]. *)
Lemma track_finish {A} (m : M conn A) ks g :
  overlooks set_guards m → overlooks set_bufs m → (∀ k, k ∈ ks) → ro_closing g = None →
  trackc (atomically m) (in_stage (Closing ks true true) g) (λ _ g', g' = g).
Proof.
  intros Hg Hb Hks Hn. pose proof (overlooks_keeps _ Hg) as [Hk Hp].
  split; [left; by apply ignores_atomic|]. intros c gs i Hi HI.
  destruct (m c) as [[x c']| |] eqn:E; [|unfold not_closed; by rewrite Hp|done].
  destruct (Hk _ _ _ E) as (E1 & E2 & E3 & E4). exists g. split; [|done].
  destruct (gd_stage _ _ HI _ _ _ Hi eq_refl) as (Hkn & Eo1 & Eo2). simpl in *.
  rewrite <-(set_closing_id g None Hn). apply (guarded_stage c gs i g (Closing ks true true)); try done.
  split; congruence.
Qed.

(** The poller wakes readers inside its job, before the channel is closed. *)
Lemma steady_send_readTrigger g : getPhase sysRead g = PRun → steadyc send_readTrigger g.
Proof.
  intros Hrun. split; [left; intros v c; simpl; by destruct (ch_closed (tc_readTrigger c))|].
  intros c gs i Hi HI. destruct (ch_closed (tc_readTrigger c)) eqn:E.
  - pose proof (ji_live _ _ (gd_jobs _ _ HI sysRead) (gd_trigger _ _ HI E)) as Hl.
    pose proof (Forall_lookup_1 _ _ i PRun Hl ltac:(by rewrite list_lookup_fmap, Hi, <-Hrun)). done.
  - exists g. split; [|done]. apply (guarded_frames _ _ _ _ _ HI Hi). split; [done|]. by rewrite E.
Qed.
End Guard.
