(* ===== verification/TcpInv.v ===== *)
(** * TCP connections: the invariant

    What a connection that nobody has closed satisfies while any number of goroutines
    read from it and write to it and a poller serves its events.  The ghost state of a
    goroutine says what it is in the middle of:

    - on the write side ([wphase]): it has added data and must look again ([WPend]), it
      holds the [writing] lock ([WOwn]), or it is the poller serving a writable event
      while the lock belongs to the registration for writing ([WRun]); with the number
      of bytes that are sent but not yet skipped, the bytes it has peeked at and the
      slices it has put into [writevData];
    - on the read side ([rphase]): it runs the [apiRead] job with a value of
      [waitReadLen] ([RIn]), knows that there is a read timer ([RTm]), has started it
      ([RSt]), or has seen fewer bytes than it needs and will wait ([RChk]). *)

From stdpp Require Import base gmap sets list numbers.
From S2P Require Import Prelude MCache Node LinkedBuffer BufferInv BufferRead BufferBlocks BufferMem BufferLink BufferCopy BufferSpec AutoPostpone SafeJob Closer AsyncTimer Threads Timer Kernel IOVec DescCache Poller NetFD TcpService TcpConn.

Local Open Scope Z_scope.

(** ** Ghost state *)

Inductive wphase : Type :=
| WNone
| WPend
| WOwn (k : nat) (snap : list byte) (st : list slice)
| WRun (k : nat) (snap : list byte) (st : list slice).

Inductive rphase : Type :=
| RNone
| RIn (m : Z)
| RTm (m : Z)
| RSt (m : Z)
| RChk (n : Z).

#[export] Instance rphase_eq_dec : EqDecision rphase.
Proof. solve_decision. Defined.

Record ghost : Type := Ghost {
  g_poll : bool;     (* the poller *)
  g_w : wphase;
  g_r : rphase;
  g_aw : bool;       (* runs the [apiWrite] job *)
  g_fill : bool      (* the poller, between [Fill] and the read trigger *)
}.

Definition gw (v : wphase) (g : ghost) : ghost := Ghost (g_poll g) v (g_r g) (g_aw g) (g_fill g).
Definition gr (v : rphase) (g : ghost) : ghost := Ghost (g_poll g) (g_w g) v (g_aw g) (g_fill g).
Definition gaw (v : bool) (g : ghost) : ghost := Ghost (g_poll g) (g_w g) (g_r g) v (g_fill g).
Definition gfill (v : bool) (g : ghost) : ghost := Ghost (g_poll g) (g_w g) (g_r g) (g_aw g) v.

Definition idle (poll : bool) : ghost := Ghost poll WNone RNone false false.

Definition b2n (b : bool) : nat := if b then 1 else 0.

Definition own (g : ghost) : nat := match g_w g with WOwn _ _ _ => 1 | _ => 0 end.
Definition running (g : ghost) : nat := match g_w g with WRun _ _ _ => 1 | _ => 0 end.
Definition pend (g : ghost) : nat := match g_w g with WPend => 1 | _ => 0 end.
Definition fly (g : ghost) : nat := match g_w g with WOwn k _ _ | WRun k _ _ => k | _ => 0 end.
Definition pol (g : ghost) : nat := b2n (g_poll g).
Definition inread (g : ghost) : nat := match g_r g with RNone => 0 | _ => 1 end.
Definition inwrite (g : ghost) : nat := b2n (g_aw g).
Definition filling (g : ghost) : nat := b2n (g_fill g).
Definition snap (g : ghost) : list byte := match g_w g with WOwn _ s _ | WRun _ s _ => s | _ => [] end.
Definition stored (g : ghost) : list slice := match g_w g with WOwn _ _ s | WRun _ _ s => s | _ => [] end.

(** The value of [waitReadLen] that a reader keeps. *)
Definition waitlen (r : rphase) : Z :=
  match r with RNone => 0 | RIn m | RTm m | RSt m => m | RChk n => n end.

Section Inv.
Context {D CB W H : Type} `{KernelLaws W}.
Abbreviation conn := (tcpconn D CB W H).
Implicit Types (c : conn) (g : ghost) (gs : list ghost) (q : list byte).

(** The length of [writevData.ByteVec], which never changes. *)
Variable vlen : option nat.

(** ** What the invariant looks at *)

Definition epfd c : Z := ep_fd (tc_poll c).
Definition fd c : Z := nfd_fd (tc_nfd c).
Definition world c : W := ep_world (tc_poll c).
Definition sent c : list byte := k_sent (world c) (fd c).
Definition received c : list byte := k_received (world c) (fd c).

(** Whether the socket is registered for writing. *)
Definition interest c : bool :=
  match k_interest (world c) (epfd c) (fd c) with
  | Some (events, _) => has_flag events EPOLLOUT
  | None => false
  end.

(** The states the theorems follow: nobody has closed the connection, the poller has
    not hung it up, and less than a gigabyte waits to be sent. *)
Definition live c : Prop :=
  closed (tc_closer c) = false ∧ tc_hups c = 0%nat ∧ zlen (tc_written c) - zlen (sent c) < 2 ^ 30.

(** When a goroutine is bound to go on: the poller of a socket that is registered for
    writing always has an event to wait for. *)
Definition busy c g : Prop :=
  g_w g ≠ WNone ∨ g_fill g = true ∨ (g_poll g = true ∧ interest c = true) ∨
  match g_r g with
  | RNone => False
  | RChk n => ch_full (tc_readTrigger c) = true
  | _ => True
  end.

(** ** The write side *)

Record inv_write c gs (q done : list byte) : Prop := {
  iw_out : holds true (tc_outBuffer c) q;
  iw_written : tc_written c = done ++ q;
  iw_sent : sent c = done ++ ztake (Z.of_nat (tot fly gs)) q;
  iw_fly : Z.of_nat (tot fly gs) ≤ zlen q;
  iw_most : Z.of_nat (tot fly gs) ≤ MAX_RW_COUNT;
  iw_snap i g : gs !! i = Some g → snap g `prefix_of` q;
  iw_stored i g : gs !! i = Some g → stored g ≠ [] →
    ∃ bv, ByteVec (tc_writevData c) = Some bv ∧ take (length (stored g)) (v_arr bv) = map Some (stored g) ∧
      (length (stored g) ≤ v_len bv)%nat ∧ Forall (λ s, s_bytes s ≠ []) (stored g) ∧
      snap g = concat (map s_bytes (stored g));
  iw_lock : tc_writing c = unlocked ∨ tc_writing c = locked;
  iw_token : (tot own gs + b2n (interest c))%nat = if decide (tc_writing c = locked) then 1%nat else 0%nat;
  iw_run : (0 < tot running gs)%nat → interest c = true;
  iw_poll : tot pol gs = 1%nat;
  iw_role i g : gs !! i = Some g → (running g ≤ pol g)%nat;
  iw_wake : q ≠ [] → tc_writing c = locked ∨ (0 < tot pend gs)%nat;
  iw_vec bv : ByteVec (tc_writevData c) = Some bv → vec_ok bv;
  iw_vlen : v_len <$> ByteVec (tc_writevData c) = vlen
}.

(** ** The read side *)

Record inv_read c gs (q : list byte) : Prop := {
  ir_in : holds false (tc_inBuffer c) q;
  ir_received : received c = tc_taken c ++ q;
  ir_max : MaxBufferSize (cfg (tc_inBuffer c)) ≤ 2 ^ 31;
  ir_lock : tot inread gs = b2n (eb_mu (apiReadJob (tc_closer c)));
  ir_nclosed : eb_closed (apiReadJob (tc_closer c)) = false;
  ir_open : ch_closed (tc_readTrigger c) = false;
  ir_len0 : tot inread gs = 0%nat → tc_waitReadLen c = 0;
  ir_len i g : gs !! i = Some g → g_r g ≠ RNone → tc_waitReadLen c = waitlen (g_r g);
  ir_chk i g n : gs !! i = Some g → g_r g = RChk n → n ≤ zlen q →
    ch_full (tc_readTrigger c) = true ∨ (0 < tot filling gs)%nat;
  ir_tm i g m : gs !! i = Some g → g_r g = RTm m ∨ g_r g = RSt m → is_Some (tc_rtimer c);
  ir_st i g m : gs !! i = Some g → g_r g = RSt m →
    ∃ t, tc_rtimer c = Some t ∧ is_Some (tm_timer t)
}.

(** ** The rest *)

(** The idle timers are among timers the wheel knows. *)
Definition timer_known (known : gset tid) (t : option tid) : Prop :=
  match t with Some t => t ∈ known | None => True end.

Record inv_rest (known : gset tid) c gs (desc : dloc) : Prop := {
  is_timers t : t ∈ known → is_Some (timers (tc_wheel c) !! t);
  is_postpone : postpone_ok (tc_postpone c);
  is_wheel : wheel_ok (tc_wheel c);
  is_idle : timer_known known (tc_idleTimer c);
  is_widle : timer_known known (tc_writeIdleTimer c);
  is_ridle : timer_known known (tc_readIdleTimer c);
  is_open : nfd_closed (tc_nfd c) = false;
  is_desc : nfd_desc (tc_nfd c) = Some desc;
  is_heap : ∃ d, dc_heap (ep_cache (tc_poll c)) !! desc = Some d ∧ d_poller d ≠ None ∧ d_FD d = fd c;
  is_aw : apiWriteJob (tc_closer c) = CJob (RW (tot inwrite gs) false) false;
  is_blocking : tc_nonblocking c = false;
  is_handler : tc_reqHandle c = None
}.

Definition Inv (known : gset tid) (desc : dloc) c gs : Prop :=
  (∃ q done, inv_write c gs q done) ∧ (∃ q, inv_read c gs q) ∧ inv_rest known c gs desc.

(** ** Framing *)

(** States that agree on what one part of the invariant looks at. *)
Definition same_write c c' : Prop :=
  tc_outBuffer c' = tc_outBuffer c ∧ tc_written c' = tc_written c ∧ tc_writevData c' = tc_writevData c ∧
  tc_writing c' = tc_writing c ∧ sent c' = sent c ∧ interest c' = interest c.

Definition same_read c c' : Prop :=
  tc_inBuffer c' = tc_inBuffer c ∧ received c' = received c ∧ tc_taken c' = tc_taken c ∧
  apiReadJob (tc_closer c') = apiReadJob (tc_closer c) ∧ tc_readTrigger c' = tc_readTrigger c ∧
  tc_waitReadLen c' = tc_waitReadLen c ∧ tc_rtimer c' = tc_rtimer c.

Definition same_rest c c' : Prop :=
  tc_postpone c' = tc_postpone c ∧ tc_wheel c' = tc_wheel c ∧ tc_idleTimer c' = tc_idleTimer c ∧
  tc_writeIdleTimer c' = tc_writeIdleTimer c ∧ tc_readIdleTimer c' = tc_readIdleTimer c ∧
  tc_nfd c' = tc_nfd c ∧ ep_cache (tc_poll c') = ep_cache (tc_poll c) ∧
  apiWriteJob (tc_closer c') = apiWriteJob (tc_closer c) ∧
  tc_nonblocking c' = tc_nonblocking c ∧ tc_reqHandle c' = tc_reqHandle c.

Lemma inv_write_same c c' gs q done : same_write c c' → inv_write c gs q done → inv_write c' gs q done.
Proof.
  intros (E1 & E2 & E3 & E4 & E5 & E6) [].
  split; rewrite ?E1, ?E2, ?E3, ?E4, ?E5, ?E6; assumption.
Qed.

Lemma inv_read_same c c' gs q : same_read c c' → inv_read c gs q → inv_read c' gs q.
Proof.
  intros (E1 & E2 & E3 & E4 & E5 & E6 & E7) [].
  split; rewrite ?E1, ?E2, ?E3, ?E4, ?E5, ?E6, ?E7; assumption.
Qed.

Lemma inv_rest_same known c c' gs desc : same_rest c c' → inv_rest known c gs desc → inv_rest known c' gs desc.
Proof.
  intros (E1 & E2 & E3 & E4 & E5 & E6 & E7 & E8 & E9 & E10) [].
  split; unfold fd in *; rewrite ?E1, ?E2, ?E3, ?E4, ?E5, ?E6, ?E7, ?E8, ?E9, ?E10; assumption.
Qed.

(** ** Counting *)

Lemma tot_upd f gs i g g' : gs !! i = Some g → f g' = f g → tot f (<[i := g']> gs) = tot f gs.
Proof. intros Hi Hf. pose proof (tot_insert f gs i g g' Hi). lia. Qed.

Lemma lookup_upd {A} (l : list A) (i j : nat) (g g' x : A) :
  l !! i = Some g → <[i := g']> l !! j = Some x → (i = j ∧ x = g') ∨ (i ≠ j ∧ l !! j = Some x).
Proof.
  intros Hi Hj. destruct (decide (i = j)) as [<-|Hne].
  - left. rewrite list_lookup_insert_eq in Hj by (by eapply lookup_lt_Some). by simplify_eq.
  - right. by rewrite list_lookup_insert_ne in Hj.
Qed.

(** A sum to which only one goroutine contributes. *)
Lemma tot_only f gs i g :
  gs !! i = Some g → (∀ j g', i ≠ j → gs !! j = Some g' → f g' = 0%nat) → tot f gs = f g.
Proof.
  assert (∀ gs, (∀ j g', gs !! j = Some g' → f g' = 0%nat) → tot f gs = 0%nat) as Hz.
  { clear. induction gs as [|a gs IH]; intros Hall; [done|].
    change (f a + tot f gs = 0)%nat. rewrite (Hall 0%nat a eq_refl), IH; [done|].
    intros j g' Hj. apply (Hall (S j) g' Hj). }
  revert i. induction gs as [|a gs IH]; intros i Hi Hall; [done|].
  change (f a + tot f gs = f g)%nat. destruct i as [|i].
  - injection Hi as ->. rewrite Hz; [lia|]. intros j g' Hj. by apply (Hall (S j)).
  - rewrite (Hall 0%nat a) by done. apply (IH i Hi). intros j g' Hne Hj. apply (Hall (S j)); [congruence|done].
Qed.

(** At most one goroutine is sending: it holds the lock, or it is the poller. *)
Lemma holder_unique c gs q done i j gi gj :
  inv_write c gs q done → gs !! i = Some gi → gs !! j = Some gj →
  (0 < own gi + running gi)%nat → (0 < own gj + running gj)%nat → i = j.
Proof.
  intros Hw Hi Hj Pi Pj. destruct (decide (i = j)) as [|Hne]; [done|exfalso].
  pose proof (iw_token _ _ _ _ Hw) as Ht. pose proof (iw_run _ _ _ _ Hw) as Hr.
  pose proof (iw_poll _ _ _ _ Hw) as Hp.
  pose proof (iw_role _ _ _ _ Hw i gi Hi). pose proof (iw_role _ _ _ _ Hw j gj Hj).
  pose proof (tot_two own gs i j gi gj Hi Hj Hne). pose proof (tot_two pol gs i j gi gj Hi Hj Hne).
  pose proof (tot_lookup running gs i gi Hi). pose proof (tot_lookup running gs j gj Hj).
  pose proof (tot_lookup own gs i gi Hi). pose proof (tot_lookup own gs j gj Hj).
  assert (tot own gs + b2n (interest c) ≤ 1)%nat by (case_decide; lia).
  destruct (decide (0 < tot running gs)%nat) as [Hrun|]; [|lia].
  rewrite (Hr Hrun) in *. simpl in *. lia.
Qed.

(** The others are not in the middle of sending. *)
Lemma others_idle c gs q done i j g g' :
  inv_write c gs q done → gs !! i = Some g → (0 < own g + running g)%nat →
  i ≠ j → gs !! j = Some g' → own g' = 0%nat ∧ running g' = 0%nat ∧ fly g' = 0%nat ∧ snap g' = [] ∧ stored g' = [].
Proof.
  intros Hw Hi Hh Hne Hj. destruct (decide (0 < own g' + running g')%nat) as [Hh'|Hn].
  - by destruct (Hne (holder_unique _ _ _ _ _ _ _ _ Hw Hi Hj Hh Hh')).
  - unfold own, running, fly, snap, stored in *. destruct (g_w g'); simpl in *; by try lia.
Qed.

(** Only a holder has bytes in flight, so its own are all there are. *)
Lemma fly_holder c gs q done i g :
  inv_write c gs q done → gs !! i = Some g → (0 < own g + running g)%nat → tot fly gs = fly g.
Proof.
  intros Hw Hi Hh. apply (tot_only fly gs i g Hi). intros j g' Hne Hj.
  by apply (others_idle c gs q done i j g g').
Qed.

(** Only the poller serves writable events. *)
Lemma running_poller c gs q done i g :
  inv_write c gs q done → gs !! i = Some g → g_poll g = true → tot running gs = running g.
Proof.
  intros Hw Hi Hp. apply (tot_only running gs i g Hi). intros j g' Hne Hj.
  pose proof (iw_role _ _ _ _ Hw j g' Hj). pose proof (iw_poll _ _ _ _ Hw).
  pose proof (tot_two pol gs i j g g' Hi Hj Hne).
  assert (pol g = 1%nat) by (unfold pol; by rewrite Hp). lia.
Qed.

(** The reader is alone. *)
Lemma reader_unique c gs q i j gi gj :
  inv_read c gs q → gs !! i = Some gi → gs !! j = Some gj → g_r gi ≠ RNone → g_r gj ≠ RNone → i = j.
Proof.
  intros Hr Hi Hj Pi Pj. destruct (decide (i = j)) as [|Hne]; [done|exfalso].
  pose proof (ir_lock _ _ _ Hr) as Hl. pose proof (tot_two inread gs i j gi gj Hi Hj Hne).
  assert (inread gi = 1 ∧ inread gj = 1)%nat as [? ?] by (unfold inread; destruct (g_r gi), (g_r gj); done).
  destruct (eb_mu _); simpl in *; lia.
Qed.

(** ** Changing one goroutine's ghost state *)

Lemma inv_write_ghost c gs i g g' q done :
  gs !! i = Some g → g_w g' = g_w g → g_poll g' = g_poll g →
  inv_write c gs q done → inv_write c (<[i := g']> gs) q done.
Proof.
  intros Hi Ew Ep Hw.
  assert (own g' = own g ∧ running g' = running g ∧ pend g' = pend g ∧ fly g' = fly g ∧
          snap g' = snap g ∧ stored g' = stored g ∧ pol g' = pol g) as (E1 & E2 & E3 & E4 & E5 & E6 & E7)
    by (unfold own, running, pend, fly, snap, stored, pol; by rewrite Ew, Ep).
  destruct Hw. split; rewrite ?(tot_upd _ gs i g g' Hi) by done; try done.
  - intros j x [[-> ->]|[_ Hx]]%(lookup_upd gs i j g g' x Hi); [rewrite E5|]; eauto.
  - intros j x [[-> ->]|[_ Hx]]%(lookup_upd gs i j g g' x Hi); [rewrite E5, E6|]; eauto.
  - intros j x [[-> ->]|[_ Hx]]%(lookup_upd gs i j g g' x Hi); [rewrite E2, E7|]; eauto.
Qed.

Lemma inv_read_ghost c gs i g g' q :
  gs !! i = Some g → g_r g' = g_r g → g_fill g' = g_fill g →
  inv_read c gs q → inv_read c (<[i := g']> gs) q.
Proof.
  intros Hi Er Ef Hr.
  assert (inread g' = inread g ∧ filling g' = filling g) as (E1 & E2)
    by (unfold inread, filling; by rewrite Er, Ef).
  destruct Hr. split; rewrite ?(tot_upd _ gs i g g' Hi) by done; try done.
  - intros j x [[-> ->]|[_ Hx]]%(lookup_upd gs i j g g' x Hi); [rewrite Er|]; eauto.
  - intros j x n [[-> ->]|[_ Hx]]%(lookup_upd gs i j g g' x Hi); [rewrite Er|]; eauto.
  - intros j x n [[-> ->]|[_ Hx]]%(lookup_upd gs i j g g' x Hi); [rewrite Er|]; eauto.
  - intros j x n [[-> ->]|[_ Hx]]%(lookup_upd gs i j g g' x Hi); [rewrite Er|]; eauto.
Qed.

Lemma inv_rest_ghost known c gs i g g' desc :
  gs !! i = Some g → g_aw g' = g_aw g → inv_rest known c gs desc → inv_rest known c (<[i := g']> gs) desc.
Proof.
  intros Hi Ea []. split; try done. rewrite (tot_upd inwrite gs i g g' Hi); [done|].
  unfold inwrite. by rewrite Ea.
Qed.

(** A step of the write side. *)
Lemma Inv_write_step known desc c c' gs i g v :
  gs !! i = Some g → Inv known desc c gs → same_read c c' → same_rest c c' →
  (∀ q done, inv_write c gs q done → ∃ q' done', inv_write c' (<[i := gw v g]> gs) q' done') →
  Inv known desc c' (<[i := gw v g]> gs).
Proof.
  intros Hi ((q & dn & Hw) & (qr & Hr) & Hs) Sr Ss Hstep.
  split; [by eapply Hstep|]. split.
  - exists qr. eapply inv_read_same; [exact Sr|]. by eapply inv_read_ghost.
  - eapply inv_rest_same; [exact Ss|]. by eapply inv_rest_ghost.
Qed.

(** A step of the read side. *)
Lemma Inv_read_step known desc c c' gs i g g' :
  gs !! i = Some g → g_w g' = g_w g → g_poll g' = g_poll g → g_aw g' = g_aw g →
  Inv known desc c gs → same_write c c' → same_rest c c' →
  (∀ q, inv_read c gs q → ∃ q', inv_read c' (<[i := g']> gs) q') →
  Inv known desc c' (<[i := g']> gs).
Proof.
  intros Hi Ew Ep Ea ((q & dn & Hw) & (qr & Hr) & Hs) Sw Ss Hstep.
  split; [|split].
  - exists q, dn. eapply inv_write_same; [exact Sw|]. by eapply inv_write_ghost.
  - by eapply Hstep.
  - eapply inv_rest_same; [exact Ss|]. by eapply inv_rest_ghost.
Qed.

(** A step that touches neither. *)
Lemma Inv_rest_step known desc c c' gs :
  Inv known desc c gs → same_write c c' → same_read c c' →
  (inv_rest known c gs desc → inv_rest known c' gs desc) → Inv known desc c' gs.
Proof.
  intros ((q & dn & Hw) & (qr & Hr) & Hs) Sw Sr Hstep. split; [|split].
  - exists q, dn. by eapply inv_write_same.
  - exists qr. by eapply inv_read_same.
  - by apply Hstep.
Qed.

End Inv.
