(* ===== verification/TcpWrite.v ===== *)
(** * TCP connections: sending

    Every action of the methods that write to a connection and of the poller that
    serves writable events re-establishes the invariant of [TcpInv].  One lemma per
    action, composed with the rule for programs ([wp]) into one lemma per method. *)

From stdpp Require Import base gmap sets list numbers.
From S2P Require Import Prelude MCache Node LinkedBuffer BufferInv BufferRead BufferBlocks BufferMem BufferLink BufferCopy BufferSpec AutoPostpone SafeJob Closer AsyncTimer Threads Timer Kernel IOVec DescCache Poller NetFD TcpService TcpConn TcpInv.

Local Open Scope Z_scope.

(** ** Flags *)

Lemma wflags_out : has_flag (Z.lor rflags wflags) EPOLLOUT = true.
Proof. done. Qed.

Lemma rflags_out : has_flag rflags EPOLLOUT = false.
Proof. done. Qed.

Section Write.
Context {D CB W H : Type} `{KernelLaws W}.
Variable vlen : option nat.
Variable known : gset tid.
Variable desc : dloc.
Abbreviation conn := (tcpconn D CB W H).
Abbreviation inv := (Inv vlen known desc).
Abbreviation wpc := (wp (S := conn) (G := ghost) live inv busy).
Implicit Types (c : conn) (g : ghost) (gs : list ghost) (q : list byte).

(** ** Rules for one action *)

Lemma wp_atomically {A} (m : M conn A) g (Q : A → ghost → Prop) :
  (∀ c gs i, gs !! i = Some g → live c → inv c gs →
     ∃ x c', m c = Ret (x, c') ∧ (live c' → ∃ g', inv c' (<[i := g']> gs) ∧ Q x g')) →
  wpc (atomically m) g Q.
Proof.
  intros Hm c gs i Hi Hl HI. destruct (Hm c gs i Hi Hl HI) as (x & c' & E & Hx). simpl. rewrite E. exact Hx.
Qed.

(** An action that leaves the ghost state alone. *)
Lemma wp_keep {A} (m : M conn A) g (Q : A → ghost → Prop) :
  (∀ c gs i, gs !! i = Some g → live c → inv c gs →
     ∃ x c', m c = Ret (x, c') ∧ (live c' → inv c' gs ∧ Q x g)) →
  wpc (atomically m) g Q.
Proof.
  intros Hm. apply wp_atomically. intros c gs i Hi Hl HI.
  destruct (Hm c gs i Hi Hl HI) as (x & c' & E & Hx). exists x, c'. split; [done|].
  intros Hl'. destruct (Hx Hl') as [HI' HQ]. exists g. by rewrite list_insert_id.
Qed.

Lemma wp_read {A} (f : conn → A) g (Q : A → ghost → Prop) :
  (∀ c gs i, gs !! i = Some g → live c → inv c gs → Q (f c) g) → wpc (read f) g Q.
Proof. intros HQ. apply wp_keep. intros c gs i Hi Hl HI. exists (f c), c. split; [done|]. eauto. Qed.

Lemma wp_write (f : conn → conn) g (Q : () → ghost → Prop) :
  (∀ c gs i, gs !! i = Some g → live c → inv c gs → live (f c) →
     ∃ g', inv (f c) (<[i := g']> gs) ∧ Q () g') → wpc (write f) g Q.
Proof. intros HQ. apply wp_atomically. intros c gs i Hi Hl HI. exists (), (f c). split; [done|]. eauto. Qed.

Lemma wp_ret {A} (x : A) g (Q : A → ghost → Prop) : Q x g → wpc (Fin x) g Q.
Proof. done. Qed.

Lemma wp_seq {A B} (p : thread conn A) (k : A → thread conn B) g P Q :
  wpc p g P → (∀ x g', P x g' → wpc (k x) g' Q) → wpc (p ≫= k) g Q.
Proof. intros Hp Hk. apply wp_bind. eapply wp_mono; [|exact Hp]. exact Hk. Qed.

Lemma wp_out_of_fuel {A} g (Q : A → ghost → Prop) : wpc out_of_fuel g Q.
Proof. done. Qed.

Lemma wp_and_then {A B} (p : thread conn (result nerr A)) (k : A → thread conn (result nerr B)) g P Q :
  wpc p g P → (∀ x g', P (Ok x) g' → wpc (k x) g' Q) → (∀ e g', P (Err e) g' → Q (Err e) g') →
  wpc (and_then p k) g Q.
Proof. intros Hp Hk He. unfold and_then. eapply wp_seq; [exact Hp|]. intros [x|e] g'; [apply Hk|apply He]. Qed.

(** The steps that touch no part of the invariant but the last. *)
Lemma wp_rest {A} (m : M conn A) g (Q : A → ghost → Prop) :
  (∀ c gs, inv_rest known c gs desc →
     ∃ x c', m c = Ret (x, c') ∧ same_write c c' ∧ same_read c c' ∧ inv_rest known c' gs desc ∧ Q x g) →
  wpc (atomically m) g Q.
Proof.
  intros Hm. apply wp_keep. intros c gs i Hi Hl HI.
  destruct (Hm c gs (proj2 (proj2 HI))) as (x & c' & E & Sw & Sr & Hs & HQ).
  exists x, c'. split; [done|]. intros _. split; [|done]. by eapply Inv_rest_step.
Qed.

(** ** Metrics, postponed writing, timers *)

Lemma metric_ok name delta (e : net_env D CB W) :
  Metrics.ok (ne_metrics e) → 0 ≤ name →
  ∃ t, metric name delta e = Ret ((), set_nmetrics t e) ∧ Metrics.ok t.
Proof.
  intros Hok Hn. destruct (Metrics.table_Add_ok name delta _ Hok Hn) as (t & Ht & Hok' & _).
  exists t. split; [|done]. unfold metric. by apply zoom_Ret.
Qed.

Lemma postpone_set_metrics t f : postpone_ok f → Metrics.ok t → postpone_ok (AutoPostpone.set_metrics t f).
Proof. intros [] ?. by split. Qed.

Lemma wp_metrics_Add name g (Q : () → ghost → Prop) : 0 ≤ name → Q () g → wpc (metrics_Add name) g Q.
Proof.
  intros Hn HQ. apply wp_rest. intros c gs Hs.
  destruct (metric_ok name 1 (net_of c) (po_metrics _ (is_postpone _ _ _ _ Hs)) Hn) as (t & Ht & Hok).
  eexists _, _. split; [by apply zoom_Ret|]. split; [done|]. split; [done|]. split; [|done].
  destruct Hs. split; try done. by apply postpone_set_metrics.
Qed.

Lemma wp_on_postpone {A} (m : MPW A) g (Q : A → ghost → Prop) :
  (∀ f, postpone_ok f → ∃ x f', m f = Ret (x, f') ∧ postpone_ok f' ∧ Q x g) → wpc (on_postpone m) g Q.
Proof.
  intros Hm. apply wp_rest. intros c gs Hs.
  destruct (Hm _ (is_postpone _ _ _ _ Hs)) as (x & f' & E & Hok & HQ).
  eexists _, _. split; [by apply zoom_Ret|]. split; [done|]. split; [done|]. split; [|done].
  destruct Hs. by split.
Qed.

Lemma wp_refresh (field : conn → option tid) g (Q : () → ghost → Prop) :
  (∀ c gs, inv_rest known c gs desc → timer_known known (field c)) → Q () g → wpc (refresh field) g Q.
Proof.
  intros Hf HQ. unfold refresh. eapply (wp_seq _ _ _ (λ t g', timer_known known t ∧ g' = g)).
  - apply wp_read. intros c gs i _ _ (_ & _ & Hs). by split; [eapply Hf|].
  - intros [t|] g' [Ht ->]; [|done]. eapply (wp_seq _ _ _ (λ _ g', g' = g)); [|by intros ? ? ->].
    apply wp_rest. intros c gs Hs. destruct (is_timers _ _ _ _ Hs t Ht) as [x Hx].
    destruct (AsyncTimer.Add_ok t x _ (is_wheel _ _ _ _ Hs) Hx) as (r & w' & E & Hw & Hd).
    eexists _, _. split; [by apply zoom_Ret|]. split; [done|]. split; [done|]. split; [|done].
    destruct Hs. split; try done. intros t' Ht'. simpl. apply elem_of_dom. rewrite Hd. apply elem_of_dom. eauto.
Qed.

(** ** Jobs *)

(** Programs none of whose actions waits. *)
Fixpoint unblocking {S R} (p : prog S R) : Prop :=
  match p with
  | Done _ => True
  | Act a k => (∀ s, a s ≠ None) ∧ ∀ b, unblocking (k b)
  end.

(** The jobs the invariant does not look at. *)
Lemma wp_job {R} (lk : lock_key) (p : prog (job_type lk) R) g (Q : R → ghost → Prop) :
  lk ≠ apiRead → lk ≠ apiWrite → (∀ r, Q r g) → (∀ c, ¬ busy c g) ∨ unblocking p →
  wpc (of_job tc_closer set_closer (prog_on (getJob lk) (setJob lk) p)) g Q.
Proof.
  intros N1 N2 HQ. induction p as [r|a k IH]; intros Hb; [apply HQ|].
  intros c gs i Hi Hl HI. unfold act_on.
  destruct (a (getJob lk (tc_closer c))) as [[b j]|] eqn:E.
  - intros _. exists g. rewrite list_insert_id by done. split.
    + eapply Inv_rest_step; [exact HI|done|by destruct lk|].
      apply inv_rest_same. by destruct lk.
    + apply IH. destruct Hb as [Hb|[_ Hb]]; [by left|right; apply Hb].
  - destruct Hb as [Hb|[Hb _]]; [apply Hb|by destruct (Hb _ E)].
Qed.

Lemma unblocking_begin : unblocking ExclusiveUnblockJob_Begin.
Proof.
  assert (∀ j, eu_load_closed j ≠ None) by done.
  assert (∀ j, on_eu_l Locker_Unlock j ≠ None) by done.
  assert (∀ j, on_eu_l Locker_TryLock j ≠ None).
  { intros j. unfold on_eu_l, act_on, Locker_TryLock, cas_u32. by case_decide. }
  split; [done|]. intros [|]; [|done]. split; [done|]. intros [|]; done.
Qed.

Lemma unblocking_end : unblocking ExclusiveUnblockJob_End.
Proof. done. Qed.

Lemma wp_begin_sysRead g (Q : bool → ghost → Prop) : (∀ r, Q r g) → wpc (tc_begin kSysRead) g Q.
Proof. intros HQ. apply (wp_job sysRead Begin); auto. right. apply unblocking_begin. Qed.
Lemma wp_begin_sysWrite g (Q : bool → ghost → Prop) : (∀ r, Q r g) → wpc (tc_begin kSysWrite) g Q.
Proof. intros HQ. apply (wp_job sysWrite Begin); auto. right. apply unblocking_begin. Qed.
Lemma wp_end_sysRead g (Q : () → ghost → Prop) : Q () g → wpc (tc_end kSysRead) g Q.
Proof. intros HQ. apply (wp_job sysRead End_); auto; [by intros []|]. right. apply unblocking_end. Qed.
Lemma wp_end_sysWrite g (Q : () → ghost → Prop) : Q () g → wpc (tc_end kSysWrite) g Q.
Proof. intros HQ. apply (wp_job sysWrite End_); auto; [by intros []|]. right. apply unblocking_end. Qed.

(** The [apiWrite] job, which many goroutines run at a time. *)
Lemma wp_begin_apiWrite g (Q : bool → ghost → Prop) :
  g_aw g = false → Q true (gaw true g) → wpc (tc_begin kApiWrite) g Q.
Proof.
  intros Ha HQ c gs i Hi Hl HI.
  assert (∀ c gs, inv c gs → apiWriteJob (tc_closer c) = CJob (RW (tot inwrite gs) false) false) as Haw
    by (intros ? ? (_ & _ & Hs); apply Hs).
  unfold act_on at 1. simpl. rewrite (Haw _ _ HI). simpl. intros _. exists (gaw true g). split.
  { destruct HI as ((q & dn & Hw) & (qr & Hr) & Hs). split; [|split].
    - exists q, dn. apply (inv_write_same vlen c); [done|]. by eapply inv_write_ghost.
    - exists qr. apply (inv_read_same c); [done|]. by eapply inv_read_ghost.
    - destruct Hs. split; try done. simpl. do 2 f_equal.
      pose proof (tot_insert inwrite gs i g (gaw true g) Hi) as Ht. unfold inwrite in *. rewrite Ha in Ht.
      simpl in *. lia. }
  intros c' gs' i' Hi' Hl' HI'. unfold act_on. simpl. rewrite (Haw _ _ HI'). simpl. intros _.
  exists (gaw true g). rewrite list_insert_id by done. split; [|done].
  eapply Inv_rest_step; [exact HI'|done|done|]. apply inv_rest_same.
  split_and!; try done. simpl. by rewrite (Haw _ _ HI').
Qed.

Lemma wp_end_apiWrite g (Q : () → ghost → Prop) :
  g_aw g = true → Q () (gaw false g) → wpc (tc_end kApiWrite) g Q.
Proof.
  intros Ha HQ c gs i Hi Hl HI.
  pose proof (tot_insert inwrite gs i g (gaw false g) Hi) as Ht.
  assert (inwrite g = 1%nat) as E1 by (unfold inwrite; by rewrite Ha).
  change (inwrite (gaw false g)) with 0%nat in Ht.
  pose proof (is_aw _ _ _ _ (proj2 (proj2 HI))) as Haw.
  destruct (tot inwrite gs) as [|n] eqn:En; [lia|].
  unfold act_on. simpl. rewrite Haw. simpl. intros _. exists (gaw false g). split; [|done].
  destruct HI as ((q & dn & Hw) & (qr & Hr) & Hs). split; [|split].
  - exists q, dn. apply (inv_write_same vlen c); [done|]. by eapply inv_write_ghost.
  - exists qr. apply (inv_read_same c); [done|]. by eapply inv_read_ghost.
  - destruct Hs. split; try done. simpl. do 2 f_equal. lia.
Qed.

(** ** Registering with the poller *)

Lemma Control_run c gs (e : Event) :
  inv_rest known c gs desc → e ∈ [ModReadWriteable; ModReadable; Detach] →
  ∃ r w, Control desc e (tc_poll c) = Ret (r, set_world w (tc_poll c)) ∧
    let c' := set_poll (set_world w (tc_poll c)) c in
    sent c' = sent c ∧ received c' = received c ∧
    interest c' = match r with Ok _ => bool_decide (e = ModReadWriteable) | Err _ => interest c end.
Proof.
  intros Hs He. destruct (is_heap _ _ _ _ Hs) as (d & Hd & Hp & Hfd).
  assert (∃ op ev, match e with
                   | ModReadWriteable => op = EPOLL_CTL_MOD ∧ ev = Some (Z.lor rflags wflags, desc)
                   | ModReadable => op = EPOLL_CTL_MOD ∧ ev = Some (rflags, desc)
                   | _ => op = EPOLL_CTL_DEL ∧ ev = None
                   end) as (op & ev & Hop) by (destruct e; by eexists _, _).
  destruct (k_epoll_ctl (epfd c) op (fd c) ev (world c)) as [er w] eqn:Ek.
  assert (e = ModReadWriteable ∨ e = ModReadable ∨ e = Detach) as He' by (set_solver).
  exists (errno_result er), w. split.
  - unfold Control. erewrite bind_Ret; cycle 1.
    { unfold on_cache. apply zoom_Ret. unfold load_desc. by rewrite Hd. }
    unfold syscall, ep_interest, ep_remove. rewrite Hfd.
    assert (set_cache (ep_cache (tc_poll c)) (tc_poll c) = tc_poll c) as -> by (by destruct (tc_poll c)).
    assert (∀ op' ev', op' = op → ev' = ev →
      k_epoll_ctl (ep_fd (tc_poll c)) op' (fd c) ev' (ep_world (tc_poll c)) = (er, w)) as Hk by (by intros ? ? -> ->).
    destruct He' as [->|[->| ->]]; destruct Hop as [-> ->];
      unfold syscall, mbind, M_bind, get; simpl; by rewrite Hk.
  - assert (∀ w', (∀ fd', k_sent w' fd' = k_sent (world c) fd') → (∀ fd', k_received w' fd' = k_received (world c) fd') →
      sent (set_poll (set_world w' (tc_poll c)) c) = sent c ∧
      received (set_poll (set_world w' (tc_poll c)) c) = received c) as Hfr.
    { intros w' E1 E2. unfold sent, received, world, fd. simpl. by rewrite E1, E2. }
    unfold errno_result. case_decide as Hz.
    + subst er. destruct (epoll_ctl_ok _ _ _ _ _ _ Ek) as (Hadd & Hdel & _ & E1 & E2).
      destruct (Hfr w E1 E2) as [Hs1 Hr1]. split; [done|]. split; [done|].
      unfold interest, world, epfd, fd in *. simpl.
      destruct He' as [->|[->| ->]]; destruct Hop as [-> ->].
      * rewrite Hadd by (by right). done.
      * rewrite Hadd by (by right). done.
      * by rewrite Hdel.
    + destruct (epoll_ctl_fail _ _ _ _ _ _ _ Ek Hz) as (E0 & E1 & E2).
      destruct (Hfr w E1 E2) as [Hs1 Hr1]. split; [done|]. split; [done|].
      unfold interest, world, epfd, fd in *. simpl. by rewrite E0.
Qed.

Lemma nfd_Control_ok c gs (e : Event) :
  inv_rest known c gs desc → e ∈ [ModReadWriteable; ModReadable; Detach] →
  ∃ r w, nfd_Control e (net_of c) = Ret (r, NetFD.set_poll (set_world w (tc_poll c)) (net_of c)) ∧
    let c' := set_poll (set_world w (tc_poll c)) c in
    sent c' = sent c ∧ received c' = received c ∧
    interest c' = match r with Ok _ => bool_decide (e = ModReadWriteable) | Err _ => interest c end.
Proof.
  intros Hs He. destruct (Control_run c gs e Hs He) as (r & w & E & Hse & Hre & Hin).
  exists (match r with Ok u => Ok u | Err x => Err (NPoll x) end), w. split; [|by destruct r].
  destruct (is_heap _ _ _ _ Hs) as (d & Hd & Hp & _).
  unfold nfd_Control. mpure. simpl. rewrite (is_open _ _ _ _ Hs), (is_desc _ _ _ _ Hs). unfold desc_Control.
  assert (NetFD.on_poll (on_cache (load_desc desc)) (net_of c) = Ret (d, net_of c)) as Hld.
  { unfold NetFD.on_poll, on_cache. erewrite zoom_Ret by (apply zoom_Ret; unfold load_desc; simpl; by rewrite Hd).
    f_equal. f_equal. by destruct c as [? ? ? ? ? ? ? ? ? ? ? ? ? ? ? ? ? ? ? ? ? ? ? [] ? ? ? ? ? ? ? ?]. }
  mrun Hld. destruct (d_poller d); [|done].
  by erewrite bind_Ret by (apply zoom_Ret; exact E).
Qed.

(** ** Transitions of the sender *)

(** A goroutine that may send, and what it is in the middle of. *)
Definition holder g : Prop := (0 < own g + running g)%nat.

Definition rehold (k : nat) (s : list byte) (st : list slice) (v : wphase) : wphase :=
  match v with WOwn _ _ _ => WOwn k s st | WRun _ _ _ => WRun k s st | _ => v end.
Definition hold (k : nat) (s : list byte) (st : list slice) g : ghost := gw (rehold k s st (g_w g)) g.

Lemma hold_hold k s st k' s' st' g : hold k s st (hold k' s' st' g) = hold k s st g.
Proof. unfold hold, gw. destruct g as [? [] ? ? ?]; done. Qed.

Lemma hold_holder k s st g : holder g → holder (hold k s st g).
Proof. destruct g as [? [] ? ? ?]; done. Qed.

Lemma hold_fields k s st g :
  holder g → fly (hold k s st g) = k ∧ snap (hold k s st g) = s ∧ stored (hold k s st g) = st.
Proof. unfold holder, own, running. destruct g as [? [] ? ? ?]; simpl; intros ?; done || lia. Qed.

Lemma hold_same k s st g :
  own (hold k s st g) = own g ∧ running (hold k s st g) = running g ∧
  pend (hold k s st g) = pend g ∧ pol (hold k s st g) = pol g.
Proof. destruct g as [? [] ? ? ?]; done. Qed.

Lemma holder_locked c gs q dn i g :
  inv_write vlen c gs q dn → gs !! i = Some g → holder g → tc_writing c = locked.
Proof.
  intros Hw Hi Hh. pose proof (iw_token _ _ _ _ _ Hw) as Ht. case_decide as Hl; [done|].
  pose proof (tot_lookup own gs i g Hi). pose proof (tot_lookup running gs i g Hi).
  unfold holder in Hh. destruct (decide (0 < tot running gs)%nat) as [Hr|]; [|lia].
  rewrite (iw_run _ _ _ _ _ Hw Hr) in Ht. simpl in Ht. lia.
Qed.

(** The sender's view of the connection: [k] bytes of the buffer are sent, [s] is what
    it has peeked at, and [st] what it has put into [writevData]. *)
Record sending c (k : nat) (s : list byte) (st : list slice) (q done : list byte) : Prop := {
  sg_out : holds true (tc_outBuffer c) q;
  sg_written : tc_written c = done ++ q;
  sg_sent : sent c = done ++ ztake (Z.of_nat k) q;
  sg_fly : Z.of_nat k ≤ zlen q;
  sg_most : Z.of_nat k ≤ MAX_RW_COUNT;
  sg_snap : s `prefix_of` q;
  sg_stored : st ≠ [] → ∃ bv, ByteVec (tc_writevData c) = Some bv ∧ take (length st) (v_arr bv) = map Some st ∧
    (length st ≤ v_len bv)%nat ∧ Forall (λ s, s_bytes s ≠ []) st ∧ s = concat (map s_bytes st);
  sg_vec bv : ByteVec (tc_writevData c) = Some bv → vec_ok bv;
  sg_vlen : v_len <$> ByteVec (tc_writevData c) = vlen
}.

Lemma sending_view c gs i g k s st q dn :
  inv_write vlen c gs q dn → gs !! i = Some (hold k s st g) → holder g → sending c k s st q dn.
Proof.
  intros Hw Hi Hh. destruct (hold_fields k s st g Hh) as (F1 & F2 & F3).
  assert (tot fly gs = k) as Ht by (by rewrite (fly_holder _ _ _ _ _ _ _ Hw Hi (hold_holder k s st g Hh))).
  pose proof (iw_snap _ _ _ _ _ Hw i _ Hi) as Hp1. pose proof (iw_stored _ _ _ _ _ Hw i _ Hi) as Hp2.
  rewrite F2 in Hp1. rewrite F2, F3 in Hp2. destruct Hw. rewrite Ht in *. by split.
Qed.

Lemma holder_step c c' gs i g k s st q dn q' dn' :
  inv_write vlen c gs q dn → gs !! i = Some g → holder g → sending c' k s st q' dn' →
  tc_writing c' = tc_writing c → interest c' = interest c →
  inv_write vlen c' (<[i := hold k s st g]> gs) q' dn'.
Proof.
  intros Hw Hi Hh [Hout Hwr Hse Hk Hm Hsn Hst Hvec Hvl] Hlk Hint.
  destruct (hold_fields k s st g Hh) as (F1 & F2 & F3). destruct (hold_same k s st g) as (E1 & E2 & E3 & E4).
  assert (∀ j x, <[i := hold k s st g]> gs !! j = Some x →
    (x = hold k s st g) ∨ (fly x = 0%nat ∧ snap x = [] ∧ stored x = [] ∧ (running x ≤ pol x)%nat)) as Hall.
  { intros j x [[_ ->]|[Hne Hx]]%(lookup_upd gs i j g _ x Hi); [by left|right].
    destruct (others_idle _ _ _ _ _ _ _ _ _ Hw Hi Hh Hne Hx) as (_ & _ & ? & ? & ?).
    split_and!; try done. by apply (iw_role _ _ _ _ _ Hw j). }
  assert (tot fly (<[i := hold k s st g]> gs) = k) as Hfly.
  { rewrite (tot_only fly _ i (hold k s st g)), F1; [done|by rewrite list_lookup_insert_eq by (by eapply lookup_lt_Some)|].
    intros j x Hne Hx. rewrite list_lookup_insert_ne in Hx by done.
    by apply (others_idle _ _ _ _ _ _ _ _ _ Hw Hi Hh Hne Hx). }
  pose proof (holder_locked _ _ _ _ _ _ Hw Hi Hh) as Hl.
  pose proof (iw_role _ _ _ _ _ Hw i g Hi) as Hrole. destruct Hw.
  split; rewrite ?Hfly, ?Hlk, ?Hint, ?(tot_upd _ gs i g (hold k s st g) Hi) by done; try done.
  - intros j x [->|(_ & -> & _)]%Hall; [by rewrite F2|apply prefix_nil].
  - intros j x [->|(_ & _ & -> & _)]%Hall; [by rewrite F2, F3|done].
  - intros j x [->|(_ & _ & _ & ?)]%Hall; [|done]. by rewrite E2, E4.
  - auto.
Qed.

(** A step of the sender. *)
Lemma wp_hold {A} (m : M conn A) k s st g (Q : A → ghost → Prop) :
  holder g →
  (∀ c q dn gs, live c → inv_rest known c gs desc → sending c k s st q dn →
     ∃ x c', m c = Ret (x, c') ∧ same_read c c' ∧ (∀ gs, inv_rest known c gs desc → inv_rest known c' gs desc) ∧
       tc_writing c' = tc_writing c ∧ interest c' = interest c ∧
       ∃ k' s' st' q' dn', sending c' k' s' st' q' dn' ∧ Q x (hold k' s' st' g)) →
  wpc (atomically m) (hold k s st g) Q.
Proof.
  intros Hh Hm. apply wp_atomically. intros c gs i Hi Hl ((q & dn & Hw) & (qr & Hr) & Hs).
  destruct (Hm c q dn gs Hl Hs (sending_view _ _ _ _ _ _ _ _ _ Hw Hi Hh))
    as (x & c' & E & Sr & Hs' & El & Ei & k' & s' & st' & q' & dn' & Hsg & HQ).
  exists x, c'. split; [done|]. intros _. exists (hold k' s' st' g). split; [|done].
  rewrite <-(hold_hold k' s' st' k s st g). split; [|split].
  - exists q', dn'. eapply holder_step; [exact Hw|done|by apply hold_holder|done..].
  - exists qr. eapply inv_read_same; [exact Sr|]. by eapply inv_read_ghost.
  - eapply inv_rest_ghost; [exact Hi|done|]. by apply Hs'.
Qed.

(** Blocks of a buffer. *)
Lemma holds_blocks_of wo b q :
  holds wo b q → ∃ bls, holds_blocks wo b bls ∧ concat bls = q ∧ Forall (λ x, x ≠ []) bls.
Proof.
  intros (ns & ri & wi & Hr & <- & Hwo). exists (blocks ns). split; [by exists ns, ri, wi|].
  split; [apply concat_blocks, Hr|apply blocks_nonempty, Hr].
Qed.

Lemma concat_ztake_prefix {A} n (ls : list (list A)) : concat (ztake n ls) `prefix_of` concat ls.
Proof.
  exists (concat (zdrop n ls)). unfold ztake, zdrop. by rewrite <-concat_app, take_drop.
Qed.

Lemma wp_PeekBlocks n s g (Q : list slice → ghost → Prop) :
  holder g → 0 ≤ n →
  (∀ bs, Forall (λ s, s_bytes s ≠ []) bs → zlen bs ≤ n → Q bs (hold 0 (concat (map s_bytes bs)) [] g)) →
  wpc (atomically (on_out (PeekBlocks n))) (hold 0 s [] g) Q.
Proof.
  intros Hh Hn HQ. apply wp_hold; [done|]. intros c q dn gs Hl Hs Hsg.
  destruct (holds_blocks_of _ _ _ (sg_out _ _ _ _ _ _ Hsg)) as (bls & Hb & Hq & Hne).
  destruct (PeekBlocks_ok _ _ _ n Hb Hn) as (ss & E & Hss).
  exists ss, (set_outBuffer (tc_outBuffer c) c). split; [by apply zoom_Ret|].
  split; [done|]. split; [intros ?; by apply inv_rest_same|]. split; [done|]. split; [done|].
  exists 0%nat, (concat (map s_bytes ss)), [], q, dn. split; [|apply HQ].
  - destruct Hsg. split; try done. rewrite Hss, <-Hq. apply concat_ztake_prefix.
  - apply (Forall_map s_bytes (λ x, x ≠ [])). rewrite Hss. by apply Forall_take.
  - apply (f_equal zlen) in Hss. unfold zlen in *. rewrite length_map in Hss. unfold ztake in Hss.
    rewrite length_take in Hss. lia.
Qed.

Lemma concat_nonempty_slices bs :
  Forall (λ s, s_bytes s ≠ []) bs → concat (map s_bytes (filter (λ s, s_len s ≠ 0) bs)) = concat (map s_bytes bs).
Proof.
  induction 1 as [|s bs Hs _ IH]; [done|]. rewrite filter_cons_True; [by simpl; rewrite IH|].
  intros Hz. apply Hs. unfold s_bytes. by rewrite Hz, ztake_0.
Qed.

(** What [Writev] does to the connection, whatever the kernel answers: it counts. *)
Lemma nfd_Writev_run c ivs r w :
  ivs ≠ [] → k_writev (fd c) ivs (world c) = (r, w) → Metrics.ok (ne_metrics (net_of c)) →
  ∃ t, Metrics.ok t ∧
    nfd_Writev ivs (net_of c) = Ret (match r with Ok n => Ok n | Err e => Err (NErrno e) end,
                                     set_nmetrics t (NetFD.set_poll (set_world w (tc_poll c)) (net_of c))).
Proof.
  intros Hne Ek Hok. set (e1 := NetFD.set_poll (set_world w (tc_poll c)) (net_of c)).
  destruct (metric_ok Metrics.TCPWritevCalls 1 e1 Hok ltac:(done)) as (t1 & Ht1 & Hok1).
  unfold nfd_Writev. rewrite decide_False by done. mpure.
  erewrite bind_Ret; [|unfold net_syscall, on_poll; apply zoom_Ret; unfold syscall; simpl;
    change (nfd_fd (tc_nfd c)) with (fd c); change (ep_world (tc_poll c)) with (world c); rewrite Ek; reflexivity].
  mrun Ht1. destruct r as [n|e].
  - destruct (metric_ok Metrics.TCPWritevBlocks (zlen ivs) (set_nmetrics t1 e1) Hok1 ltac:(done)) as (t2 & Ht2 & Hok2).
    exists t2. split; [done|]. by mrun Ht2.
  - destruct (metric_ok Metrics.TCPWritevFails 1 (set_nmetrics t1 e1) Hok1 ltac:(done)) as (t2 & Ht2 & Hok2).
    exists t2. split; [done|]. by mrun Ht2.
Qed.

Lemma writev_same c ivs r w t :
  k_writev (fd c) ivs (world c) = (r, w) → Metrics.ok t →
  let c' := set_net (set_nmetrics t (NetFD.set_poll (set_world w (tc_poll c)) (net_of c))) c in
  same_read c c' ∧ (∀ gs, inv_rest known c gs desc → inv_rest known c' gs desc) ∧
  tc_writing c' = tc_writing c ∧ interest c' = interest c.
Proof.
  intros Ek Hok. destruct (writev_frame _ _ _ _ _ Ek) as (Fi & Fr & _).
  simpl. split; [split_and!; try done; apply Fr|]. split.
  - intros gs' []. split; try done. by apply postpone_set_metrics.
  - split; [done|]. unfold interest, epfd, fd, world. simpl. by rewrite Fi.
Qed.

(** [writev]: nothing of the buffer is lost or sent twice. *)
Lemma wp_Writev ivs s st g (Q : result nerr Z → ghost → Prop) :
  holder g → concat ivs = s →
  (∀ k : nat, Q (Ok (Z.of_nat k)) (hold k [] [] g)) → (∀ e, Q (Err e) (hold 0 [] [] g)) →
  wpc (on_net (nfd_Writev ivs)) (hold 0 s st g) Q.
Proof.
  intros Hh Hivs HQ HE. apply wp_hold; [done|]. intros c q dn gs Hl Hs Hsg.
  assert (sending c 0 [] [] q dn) as Hsg0 by (destruct Hsg; split; try done; apply prefix_nil).
  destruct (decide (ivs = [])) as [->|Hne].
  { exists (Ok 0), (set_net (net_of c) c). split; [by apply zoom_Ret|]. split; [done|].
    split; [intros ?; apply inv_rest_same; split_and!; try done; simpl; by destruct (tc_postpone c)|].
    split; [done|]. split; [done|]. exists 0%nat, [], [], q, dn. split; [|apply (HQ 0%nat)].
    destruct Hsg0. by split. }
  destruct (k_writev (fd c) ivs (world c)) as [r w] eqn:Ek.
  destruct (nfd_Writev_run c ivs r w Hne Ek (po_metrics _ (is_postpone _ _ _ _ Hs))) as (t & Hok & Hrun).
  destruct (writev_same c ivs r w t Ek Hok) as (S1 & S2 & S3 & S4).
  eexists _, _. split; [by apply zoom_Ret|]. split; [exact S1|]. split; [exact S2|].
  split; [exact S3|]. split; [exact S4|].
  pose proof (sg_sent _ _ _ _ _ _ Hsg) as Hs0. destruct r as [n|e].
  - destruct (writev_ok _ _ _ _ _ Ek) as (Hn & Hmax & Hsent).
    exists (Z.to_nat n), [], [], q, dn. split; [|rewrite <-(Z2Nat.id n) at 1 by lia; apply HQ].
    pose proof (sg_snap _ _ _ _ _ _ Hsg) as [qt Hq]. rewrite <-Hivs in Hq. pose proof (zlen_nonneg qt).
    destruct Hsg0. split; try done.
    + change (k_sent w (fd c) = dn ++ ztake (Z.of_nat (Z.to_nat n)) q).
      rewrite Hsent. change (k_sent (world c) (fd c)) with (sent c). rewrite Hs0, ztake_0, app_nil_r.
      f_equal. rewrite Z2Nat.id by lia. rewrite Hq. unfold ztake. rewrite take_app_le; [done|].
      unfold zlen in Hn. lia.
    + rewrite Z2Nat.id by lia. rewrite Hq, zlen_app. lia.
    + lia.
  - exists 0%nat, [], [], q, dn. split; [|apply HE].
    pose proof (writev_fail _ _ _ _ _ Ek) as Hsent. destruct Hsg0. split; try done.
    change (k_sent w (fd c) = dn ++ ztake 0 q). by rewrite Hsent.
Qed.

Lemma wp_Skip k g (Q : result Node.err () → ghost → Prop) :
  holder g → Q (Ok ()) (hold 0 [] [] g) → wpc (atomically (on_out (Skip (Z.of_nat k)))) (hold k [] [] g) Q.
Proof.
  intros Hh HQ. apply wp_hold; [done|]. intros c q dn gs Hl Hs Hsg.
  destruct (Skip_ok _ _ _ (Z.of_nat k) (sg_out _ _ _ _ _ _ Hsg)) as (b' & E & Hb & _);
    [pose proof (sg_fly _ _ _ _ _ _ Hsg); lia|].
  eexists _, _. split; [by apply zoom_Ret|]. split; [done|]. split; [intros ?; by apply inv_rest_same|].
  split; [done|]. split; [done|].
  exists 0%nat, [], [], (zdrop (Z.of_nat k) q), (dn ++ ztake (Z.of_nat k) q). split; [|done].
  destruct Hsg. split; try done.
  - simpl. by rewrite <-app_assoc, ztake_zdrop.
  - change (sent c = (dn ++ ztake (Z.of_nat k) q) ++ ztake 0 (zdrop (Z.of_nat k) q)). by rewrite ztake_0, app_nil_r.
  - apply zlen_nonneg.
  - apply prefix_nil.
Qed.

(** Writing to the output buffer nothing but its own bookkeeping. *)
Lemma wp_Release k g (Q : () → ghost → Prop) :
  holder g → Q () (hold k [] [] g) → wpc (atomically (on_out Release)) (hold k [] [] g) Q.
Proof.
  intros Hh HQ. apply wp_hold; [done|]. intros c q dn gs Hl Hs Hsg.
  destruct (Release_holds _ _ _ (sg_out _ _ _ _ _ _ Hsg)) as (b' & E & Hb & _ & _).
  eexists _, _. split; [by apply zoom_Ret|]. split; [done|]. split; [intros ?; by apply inv_rest_same|].
  split; [done|]. split; [done|].
  exists k, [], [], q, dn. split; [|done]. destruct Hsg. by split.
Qed.

(** [writevData] takes the blocks. *)
Lemma wp_store_blocks n bs g (Q : () → ghost → Prop) :
  holder g → vlen = Some n → Forall (λ s, s_bytes s ≠ []) bs → zlen bs ≤ Z.of_nat n →
  Q () (hold 0 (concat (map s_bytes bs)) bs g) →
  wpc (write (λ c, set_writevData (store_blocks bs (tc_writevData c)) c)) (hold 0 (concat (map s_bytes bs)) [] g) Q.
Proof.
  intros Hh Hn Hbs Hlen HQ. apply wp_hold; [done|]. intros c q dn gs Hl Hs Hsg.
  eexists (), _. split; [done|]. split; [done|]. split; [intros ?; by apply inv_rest_same|].
  split; [done|]. split; [done|].
  exists 0%nat, (concat (map s_bytes bs)), bs, q, dn. split; [|done].
  pose proof (sg_vlen _ _ _ _ _ _ Hsg) as Hv. pose proof (sg_vec _ _ _ _ _ _ Hsg) as Hvo.
  destruct (ByteVec (tc_writevData c)) as [bv|] eqn:Ebv; [|simpl in Hv; congruence].
  assert (v_len bv = n) as Hvn by (simpl in Hv; congruence). specialize (Hvo bv eq_refl). unfold vec_ok in Hvo.
  unfold zlen in Hlen.
  destruct Hsg. split; try done.
  - intros _. simpl. rewrite Ebv. eexists. split; [done|]. simpl.
    split; [by rewrite take_app_length' by (by rewrite length_map)|]. split; [lia|done].
  - simpl. rewrite Ebv. intros ? [= <-]. unfold vec_ok. simpl.
    rewrite length_app, length_map, length_drop. lia.
  - simpl. by rewrite Ebv.
Qed.

Lemma vectors_ok bs d :
  (bs ≠ [] → ∃ bv, ByteVec d = Some bv ∧ take (length bs) (v_arr bv) = map Some bs ∧
     (length bs ≤ v_len bv)%nat ∧ Forall (λ s, s_bytes s ≠ []) bs) →
  ∃ iv, SetIOVec (zlen bs) d = Ret (MkIOData (ByteVec d) iv) ∧
        vectors (zlen bs) (MkIOData (ByteVec d) iv) = map s_bytes bs.
Proof.
  intros Hst. unfold SetIOVec, vectors. destruct (decide (bs = [])) as [->|Hne].
  - change (zlen []) with 0. destruct (ByteVec d) as [bv|].
    + rewrite bool_decide_false by lia. eexists. split; [done|]. done.
    + rewrite decide_True by done. eexists. split; [done|]. by destruct (IOVec d).
  - destruct (Hst Hne) as (bv & -> & Ht & Hle & Hbs).
    unfold zlen, v_elems. rewrite !Nat2Z.id, take_take, Nat.min_l, Ht by lia.
    rewrite bool_decide_false by lia. simpl.
    match goal with |- context [map ?f (map Some bs)] => assert (map f (map Some bs) =
      map (λ s, Some (Iovec (Some (s_bytes s)) (u64 (s_len s)))) bs) as -> end.
    { clear -Hbs. induction Hbs as [|s bs Hs _ IH]; [done|]. simpl. rewrite IH, decide_False; [done|].
      intros Hz. apply Hs. unfold s_bytes, ztake. by replace (Z.to_nat (s_len s)) with 0%nat by lia. }
    assert (existsb (λ e : option iovec, match e with None => true | Some _ => false end)
      (map (λ s, Some (Iovec (Some (s_bytes s)) (u64 (s_len s)))) bs) = false) as -> by (clear; by induction bs).
    eexists. split; [done|]. simpl. rewrite take_app_length' by (by rewrite length_map).
    rewrite map_map. apply map_ext. done.
Qed.

Lemma wp_SetIOVec bs g (Q : list (list byte) → ghost → Prop) :
  holder g → (∀ ivs, concat ivs = concat (map s_bytes bs) → Q ivs (hold 0 (concat (map s_bytes bs)) bs g)) →
  wpc (atomically (λ c,
         match SetIOVec (zlen bs) (tc_writevData c) with
         | Ret d => Ret (vectors (zlen bs) d, set_writevData d c)
         | Panic => Panic
         | NoFuel => NoFuel
         end)) (hold 0 (concat (map s_bytes bs)) bs g) Q.
Proof.
  intros Hh HQ. apply wp_hold; [done|]. intros c q dn gs Hl Hs Hsg.
  destruct (vectors_ok bs (tc_writevData c)) as (iv & E & Hv).
  { intros Hne. destruct (sg_stored _ _ _ _ _ _ Hsg Hne) as (bv & ? & ? & ? & ? & _). by exists bv. }
  rewrite E. eexists _, _. split; [done|]. split; [done|]. split; [intros ?; by apply inv_rest_same|].
  split; [done|]. split; [done|].
  exists 0%nat, (concat (map s_bytes bs)), bs, q, dn. split; [destruct Hsg; by split|]. apply HQ. by rewrite Hv.
Qed.

Lemma wp_iodata_Release l k g (Q : () → ghost → Prop) :
  holder g → Q () (hold k [] [] g) →
  wpc (write (λ c, set_writevData (iodata_Release l (tc_writevData c)) c)) (hold k [] [] g) Q.
Proof.
  intros Hh HQ. apply wp_hold; [done|]. intros c q dn gs Hl Hs Hsg.
  eexists (), _. split; [done|]. split; [done|]. split; [intros ?; by apply inv_rest_same|].
  split; [done|]. split; [done|]. exists k, [], [], q, dn. split; [|done].
  pose proof (sg_vec _ _ _ _ _ _ Hsg) as Hvo. pose proof (sg_vlen _ _ _ _ _ _ Hsg) as Hv.
  destruct Hsg. split; try done; simpl; destruct (ByteVec (tc_writevData c)) as [bv|]; try done.
  intros ? [= <-]. specialize (Hvo bv eq_refl). unfold vec_ok in *. simpl.
  rewrite length_app, length_replicate, length_drop. lia.
Qed.

(** ** [writeToNetFD] *)

Lemma wp_CheckAndDisable l g (Q : () → ghost → Prop) : Q () g → wpc (CheckAndDisable l) g Q.
Proof.
  intros HQ. apply wp_on_postpone. intros f Hf. destruct (Check_ok l f Hf) as (f' & E & Hok & _).
  by exists (), f'.
Qed.

Lemma wp_refreshConn g (Q : () → ghost → Prop) : Q () g → wpc refreshConn g Q.
Proof. apply wp_refresh. intros c gs Hs. apply Hs. Qed.
Lemma wp_refreshWrite g (Q : () → ghost → Prop) : Q () g → wpc refreshWriteIdleTimeout g Q.
Proof. apply wp_refresh. intros c gs Hs. apply Hs. Qed.
Lemma wp_refreshRead g (Q : () → ghost → Prop) : Q () g → wpc refreshReadIdleTimeout g Q.
Proof. apply wp_refresh. intros c gs Hs. apply Hs. Qed.

(** Sending through either kind of [IOData] puts [k] bytes in flight. *)
Definition sends g (r : result nerr Z) (g' : ghost) : Prop :=
  match r with Ok n => ∃ k : nat, n = Z.of_nat k ∧ g' = hold k [] [] g | Err _ => g' = hold 0 [] [] g end.

Lemma wp_writeWithCachedIOData s g : holder g → wpc writeWithCachedIOData (hold 0 s [] g) (sends g).
Proof.
  intros Hh. unfold writeWithCachedIOData. apply wp_bind, wp_PeekBlocks; [done|done|]. intros bs Hbs _.
  apply wp_bind, wp_CheckAndDisable. apply wp_Writev; [done|by apply concat_nonempty_slices| |done].
  intros k. by exists k.
Qed.

Lemma wp_writeWithAdhocIOData s g :
  holder g → is_Some vlen → wpc writeWithAdhocIOData (hold 0 s [] g) (sends g).
Proof.
  intros Hh [n Hn]. unfold writeWithAdhocIOData.
  eapply (wp_seq _ _ _ (λ d g', olen (ByteVec d) = Z.of_nat n ∧ g' = hold 0 s [] g)).
  { apply wp_read. intros c gs i Hi _ ((q & dn & Hw) & _). split; [|done].
    pose proof (iw_vlen _ _ _ _ _ Hw) as Hv. destruct (ByteVec (tc_writevData c)) as [bv|]; simpl in *; congruence. }
  intros d g' [Hd ->]. rewrite Hd. apply wp_bind, wp_PeekBlocks; [done|lia|]. intros bs Hbs Hlen.
  apply wp_bind, (wp_store_blocks n); [done|done|done|done|].
  apply wp_bind, wp_CheckAndDisable. apply wp_bind, wp_SetIOVec; [done|]. intros ivs Hivs.
  apply wp_bind, wp_Writev; [done|done| |done]. intros k.
  apply wp_bind, wp_iodata_Release; [done|]. by exists k.
Qed.

Lemma wp_writeToNetFD s g :
  holder g → wpc writeToNetFD (hold 0 s [] g) (λ _ g', g' = hold 0 [] [] g).
Proof.
  intros Hh. unfold writeToNetFD. apply wp_bind, wp_refreshConn. apply wp_bind, wp_refreshWrite.
  eapply (wp_seq _ _ _ (λ d g', (IsNil d = false → is_Some vlen) ∧ g' = hold 0 s [] g)).
  { apply wp_read. intros c gs i Hi _ ((q & dn & Hw) & _). split; [|done]. intros Hn.
    rewrite <-(iw_vlen _ _ _ _ _ Hw). unfold IsNil in Hn. destruct (ByteVec (tc_writevData c)); [by eexists|done]. }
  intros d g' [Hd ->]. apply (wp_and_then _ _ _ (sends g)).
  - destruct (IsNil d); [by apply wp_writeWithCachedIOData|by apply wp_writeWithAdhocIOData; auto].
  - intros n g' (k & -> & ->). apply wp_bind, wp_Skip; [done|].
    apply wp_bind, wp_Release; [done|]. done.
  - by intros e g' ->.
Qed.

(** ** The lock and the registration *)

(** A step of a goroutine that is not sending, or stops or starts to. *)
Lemma wp_write_side {A} (m : M conn A) g (Q : A → ghost → Prop) :
  (∀ c gs i q dn, gs !! i = Some g → live c → inv_rest known c gs desc → inv_write vlen c gs q dn →
     ∃ x c', m c = Ret (x, c') ∧ same_read c c' ∧ same_rest c c' ∧
       ∃ v q' dn', inv_write vlen c' (<[i := gw v g]> gs) q' dn' ∧ Q x (gw v g)) →
  wpc (atomically m) g Q.
Proof.
  intros Hm. apply wp_atomically. intros c gs i Hi Hl HI. pose proof HI as ((q & dn & Hw) & _ & Hs).
  destruct (Hm c gs i q dn Hi Hl Hs Hw) as (x & c' & E & Sr & Ss & v & q' & dn' & Hw' & HQ).
  exists x, c'. split; [done|]. intros _. exists (gw v g). split; [|done].
  destruct HI as (_ & (qr & Hr) & _). split; [by exists q', dn'|]. split.
  - exists qr. eapply inv_read_same; [exact Sr|]. by eapply inv_read_ghost.
  - eapply inv_rest_same; [exact Ss|]. by eapply inv_rest_ghost.
Qed.

(** What is left of the invariant when a goroutine with nothing in flight changes its
    place on the write side. *)
Lemma inv_write_place c c' gs i g v q dn :
  inv_write vlen c gs q dn → gs !! i = Some g → fly g = 0%nat →
  fly (gw v g) = 0%nat → snap (gw v g) = [] → stored (gw v g) = [] → (running (gw v g) ≤ pol g)%nat →
  tc_outBuffer c' = tc_outBuffer c → tc_written c' = tc_written c → tc_writevData c' = tc_writevData c →
  sent c' = sent c →
  (tc_writing c' = unlocked ∨ tc_writing c' = locked) →
  let gs' := <[i := gw v g]> gs in
  (tot own gs' + b2n (interest c'))%nat = (if decide (tc_writing c' = locked) then 1%nat else 0%nat) →
  ((0 < tot running gs')%nat → interest c' = true) →
  (q ≠ [] → tc_writing c' = locked ∨ (0 < tot pend gs')%nat) →
  inv_write vlen c' gs' q dn.
Proof.
  intros Hw Hi Hf Hf' Hsn Hst Hrun E1 E2 E3 E4 Hlk gs' Htok Hr Hwake.
  assert (tot fly gs' = tot fly gs) as Etf by (apply (tot_upd fly gs i g); [done|congruence]).
  assert (tot pol gs' = tot pol gs) as Etp by (by apply (tot_upd pol gs i g)).
  destruct Hw. split; rewrite ?E1, ?E2, ?E3, ?E4, ?Etf, ?Etp; try done.
  - intros j x [[_ ->]|[_ Hx]]%(lookup_upd gs i j g _ x Hi); [rewrite Hsn; apply prefix_nil|eauto].
  - intros j x [[_ ->]|[_ Hx]]%(lookup_upd gs i j g _ x Hi); [by rewrite Hst|eauto].
  - intros j x [[_ ->]|[_ Hx]]%(lookup_upd gs i j g _ x Hi); eauto.
Qed.

(** How the counts move with goroutine [i]. *)
Ltac counts Hi Hg v :=
  match type of Hi with ?gs !! ?i = Some ?g =>
    pose proof (tot_insert own gs i g (gw v g) Hi) as Cown;
    pose proof (tot_insert running gs i g (gw v g) Hi) as Crun;
    pose proof (tot_insert pend gs i g (gw v g) Hi) as Cpend;
    unfold own at 2 4 in Cown; unfold running at 2 4 in Crun; unfold pend at 2 4 in Cpend;
    cbn [g_w gw] in Cown, Crun, Cpend; rewrite Hg in Cown, Crun, Cpend;
    cbv beta iota in Cown, Crun, Cpend
  end.

(** An action of a job that never waits. *)
Lemma wp_act {T R} (proj : conn → T) upd (a : action T) (k : bool → prog T R) g (Q : R → ghost → Prop) :
  (∀ t, a t ≠ None) →
  wpc (atomically (λ c, match a (proj c) with Some (b, t) => Ret (b, upd t c) | None => Panic end)) g
    (λ b g', wpc (of_job proj upd (k b)) g' Q) →
  wpc (of_job proj upd (Act a k)) g Q.
Proof.
  intros Ha Hw c gs i Hi Hl HI. specialize (Hw c gs i Hi Hl HI). specialize (Ha (proj c)).
  simpl in Hw. destruct (a (proj c)) as [[b t]|]; [exact Hw|done].
Qed.

Lemma wp_TryLock g (Q : bool → ghost → Prop) :
  g_w g = WPend → Q true (gw (WOwn 0 [] []) g) → Q false (gw WNone g) → wpc writing_TryLock g Q.
Proof.
  intros Hg HT HF. apply wp_act.
  { intros l. unfold Locker_TryLock, cas_u32. by case_decide. }
  apply wp_write_side. intros c gs i q dn Hi Hl Hs Hw.
  pose proof (iw_token _ _ _ _ _ Hw) as Ht. pose proof (iw_lock _ _ _ _ _ Hw) as Hlk.
  assert (fly g = 0%nat) as Hf by (unfold fly; by rewrite Hg).
  unfold Locker_TryLock, cas_u32. destruct (decide (tc_writing c = unlocked)) as [Hu|Hu].
  - eexists true, _. split; [done|]. split; [done|]. split; [done|]. exists (WOwn 0 [] []), q, dn. split; [|done].
    counts Hi Hg (WOwn 0 [] []).
    apply (inv_write_place c _ gs i g _ q dn Hw Hi Hf); try done; [apply Nat.le_0_l|by right|..]; cbn [tc_writing set_writing].
    + rewrite Hu in Ht. change (interest (set_writing locked c)) with (interest c).
      rewrite decide_True by done. rewrite decide_False in Ht by done. lia.
    + change (interest (set_writing locked c)) with (interest c). intros Hr. apply (iw_run _ _ _ _ _ Hw). lia.
    + by left.
  - eexists false, _. split; [done|]. split; [done|]. split; [done|]. exists WNone, q, dn. split; [|done].
    counts Hi Hg WNone. assert (tc_writing c = locked) as Hl' by (by destruct Hlk).
    apply (inv_write_place c _ gs i g _ q dn Hw Hi Hf); try done; [apply Nat.le_0_l|..]; cbn [tc_writing set_writing].
    + change (interest (set_writing _ c)) with (interest c). lia.
    + change (interest (set_writing _ c)) with (interest c). intros Hr. apply (iw_run _ _ _ _ _ Hw). lia.
    + by left.
Qed.

Lemma wp_Unlock g (Q : () → ghost → Prop) :
  g_w g = WOwn 0 [] [] → Q () (gw WPend g) → wpc writing_Unlock g Q.
Proof.
  intros Hg HQ. apply wp_act; [done|]. apply wp_write_side. intros c gs i q dn Hi Hl Hs Hw.
  assert (holder g) as Hh by (unfold holder, own, running; rewrite Hg; lia).
  pose proof (iw_token _ _ _ _ _ Hw) as Ht. pose proof (holder_locked _ _ _ _ _ _ Hw Hi Hh) as Hlk.
  rewrite decide_True in Ht by done.
  pose proof (tot_lookup own gs i g Hi) as Ho. unfold own at 1 in Ho. rewrite Hg in Ho.
  assert (interest c = false) as Hin by (destruct (interest c); simpl in Ht; [lia|done]).
  assert (tot running gs = 0%nat) as Hrz.
  { destruct (decide (0 < tot running gs)%nat) as [Hr|]; [|lia].
    rewrite (iw_run _ _ _ _ _ Hw Hr) in Hin. done. }
  eexists true, _. split; [done|]. split; [done|]. split; [done|]. exists WPend, q, dn. split; [|done].
  counts Hi Hg WPend. rewrite Hin in Ht. simpl in Ht.
  assert (fly g = 0%nat) as Hf by (unfold fly; by rewrite Hg).
  apply (inv_write_place c _ gs i g _ q dn Hw Hi Hf); try done; [apply Nat.le_0_l|by left|..]; cbn [tc_writing set_writing].
  - change (interest (set_writing unlocked c)) with (interest c). rewrite Hin. simpl.
    lia.
  - lia.
  - right. lia.
Qed.

(** Telling the poller to wait until the socket is writable: the lock now belongs to
    the registration. *)
Definition settled g (r : result nerr ()) (g' : ghost) : Prop :=
  match r with Ok _ => g' = gw WNone g | Err _ => ∃ v, g' = gw v g end.

Lemma wp_control (e : Event) g (Q : result nerr () → ghost → Prop) :
  e ∈ [ModReadWriteable; ModReadable; Detach] →
  (∀ c gs i q dn r p, gs !! i = Some g → inv_write vlen c gs q dn →
     let c' := set_poll p c in
     sent c' = sent c → interest c' = match r with Ok _ => bool_decide (e = ModReadWriteable) | Err _ => interest c end →
     ∃ v, inv_write vlen c' (<[i := gw v g]> gs) q dn ∧ Q r (gw v g)) →
  wpc (nfd_control e) g Q.
Proof.
  intros He HQ. apply wp_write_side. intros c gs i q dn Hi Hl Hs Hw.
  destruct (nfd_Control_ok c gs e Hs He) as (r & w & E & Hse & Hre & Hin).
  exists r, (set_net (NetFD.set_poll (set_world w (tc_poll c)) (net_of c)) c). split; [by apply zoom_Ret|].
  split; [split_and!; done|]. split; [split_and!; try done; simpl; by destruct (tc_postpone c)|].
  destruct (HQ c gs i q dn r (set_world w (tc_poll c)) Hi Hw Hse Hin) as (v & Hw' & HQr).
  exists v, q, dn. split; [|done]. eapply inv_write_same; [|exact Hw']. by split_and!.
Qed.

Lemma wp_ModReadWriteable g :
  g_w g = WOwn 0 [] [] → wpc (nfd_control ModReadWriteable) g (settled g).
Proof.
  intros Hg. apply wp_control; [set_solver|]. intros c gs i q dn r p Hi Hw c' Hse Hin. subst c'.
  assert (holder g) as Hh by (unfold holder, own, running; rewrite Hg; lia).
  assert (fly g = 0%nat) as Hf by (unfold fly; by rewrite Hg).
  pose proof (iw_token _ _ _ _ _ Hw) as Ht. pose proof (holder_locked _ _ _ _ _ _ Hw Hi Hh) as Hlk.
  rewrite decide_True in Ht by done.
  pose proof (tot_lookup own gs i g Hi) as Ho. unfold own at 1 in Ho. rewrite Hg in Ho.
  destruct r as [[]|e].
  - exists WNone. split; [|done]. counts Hi Hg WNone.
    apply (inv_write_place c _ gs i g _ q dn Hw Hi Hf); try done; [apply Nat.le_0_l|by right|..]; cbn [tc_writing set_poll].
    + rewrite Hin, decide_True by done. rewrite bool_decide_true by done. simpl. simpl in Ht.
      destruct (interest c); simpl in Ht; lia.
    + by left.
  - exists (WOwn 0 [] []). split; [|by eexists]. counts Hi Hg (WOwn 0 [] []).
    apply (inv_write_place c _ gs i g _ q dn Hw Hi Hf); try done; [apply Nat.le_0_l|by right|..]; cbn [tc_writing set_poll].
    + rewrite Hin, decide_True by done. lia.
    + rewrite Hin. intros Hr. apply (iw_run _ _ _ _ _ Hw). lia.
    + by left.
Qed.

(** The poller takes the lock back from the registration. *)
Lemma wp_ModReadable g :
  g_w g = WRun 0 [] [] → g_poll g = true →
  wpc (nfd_control ModReadable) g
    (λ r g', match r with Ok _ => g' = gw (WOwn 0 [] []) g | Err _ => ∃ v, g' = gw v g end).
Proof.
  intros Hg Hp. apply wp_control; [set_solver|]. intros c gs i q dn r p Hi Hw c' Hse Hin. subst c'.
  assert (holder g) as Hh by (unfold holder, own, running; rewrite Hg; lia).
  assert (fly g = 0%nat) as Hf by (unfold fly; by rewrite Hg).
  pose proof (iw_token _ _ _ _ _ Hw) as Ht. pose proof (holder_locked _ _ _ _ _ _ Hw Hi Hh) as Hlk.
  rewrite decide_True in Ht by done.
  pose proof (running_poller _ _ _ _ _ _ _ Hw Hi Hp) as Hrun. unfold running at 2 in Hrun. rewrite Hg in Hrun.
  assert (interest c = true) as Hic by (apply (iw_run _ _ _ _ _ Hw); lia). rewrite Hic in Ht. simpl in Ht.
  assert (pol g = 1%nat) as Hpg by (unfold pol; by rewrite Hp).
  destruct r as [[]|e].
  - exists (WOwn 0 [] []). split; [|done]. counts Hi Hg (WOwn 0 [] []).
    apply (inv_write_place c _ gs i g _ q dn Hw Hi Hf); try done; [apply Nat.le_0_l|by right|..]; cbn [tc_writing set_poll].
    + rewrite Hin, decide_True by done. rewrite bool_decide_false by done. simpl. lia.
    + lia.
    + by left.
  - exists (WRun 0 [] []). split; [|by eexists]. counts Hi Hg (WRun 0 [] []).
    apply (inv_write_place c _ gs i g _ q dn Hw Hi Hf); try done; [unfold running; simpl; lia|by right|..]; cbn [tc_writing set_poll].
    + rewrite Hin, Hic, decide_True by done. simpl. lia.
    + by rewrite Hin.
    + by left.
Qed.

(** ** [LenRead] of the output buffer *)

Lemma out_LenRead_run c q : holds true (tc_outBuffer c) q → on_out LenRead c = Ret (zlen q, c).
Proof.
  intros Hb. destruct (holds_len _ _ _ Hb) as [Hr _]. unfold on_out. erewrite zoom_Ret by reflexivity.
  rewrite Hr. by destruct c.
Qed.

Lemma wp_out_LenRead g (Q : Z → ghost → Prop) : (∀ l, Q l g) → wpc out_LenRead g Q.
Proof.
  intros HQ. apply wp_keep. intros c gs i Hi Hl HI. pose proof HI as ((q & dn & Hw) & _).
  exists (zlen q), c. split; [by apply out_LenRead_run, Hw|]. auto.
Qed.

(** Who has looked at an empty buffer after adding to it has nothing left to do. *)
Lemma wp_out_LenRead_pend g (Q : Z → ghost → Prop) :
  g_w g = WPend → Q 0 (gw WNone g) → (∀ l, l ≠ 0 → Q l g) → wpc out_LenRead g Q.
Proof.
  intros Hg H0' HQ. apply wp_write_side. intros c gs i q dn Hi Hl Hs Hw.
  exists (zlen q), c. split; [by apply out_LenRead_run, Hw|]. split; [done|]. split; [done|].
  assert (gw WPend g = g) as Eg by (destruct g; simpl in *; by subst).
  destruct (decide (zlen q = 0)) as [Hz|Hz].
  - exists WNone, q, dn. rewrite Hz. split; [|done]. counts Hi Hg WNone.
    assert (fly g = 0%nat) as Hf by (unfold fly; by rewrite Hg).
    apply (inv_write_place c _ gs i g _ q dn Hw Hi Hf); try done; [apply Nat.le_0_l|apply Hw|..].
    + rewrite <-(iw_token _ _ _ _ _ Hw). lia.
    + intros Hr. apply (iw_run _ _ _ _ _ Hw). lia.
    + intros Hq. by apply zlen_0_inv in Hz.
  - exists WPend, q, dn. rewrite Eg, list_insert_id by done. auto.
Qed.

(** ** [recheck], [tc_notify], [flush] *)

Lemma wp_notify_poller g : g_w g = WOwn 0 [] [] → wpc notify_poller g (settled g).
Proof. intros Hg. unfold notify_poller. apply wp_bind, wp_metrics_Add; [done|]. by apply wp_ModReadWriteable. Qed.

Lemma settled_gw v g r g' : settled (gw v g) r g' → settled g r g'.
Proof. destruct r as [[]|e]; simpl; [by intros ->|]. intros [v' ->]. by exists v'. Qed.

Lemma wp_notify_gw g : wpc notify_poller (gw (WOwn 0 [] []) g) (settled g).
Proof. eapply wp_mono; [|by apply wp_notify_poller]. intros r g'. apply settled_gw. Qed.

Lemma wp_recheck g : g_w g = WPend → wpc recheck g (settled g).
Proof.
  intros Hg. unfold recheck. apply wp_bind, wp_out_LenRead_pend; [done|done|].
  intros l Hl. rewrite decide_True by done.
  apply wp_bind, wp_TryLock; [done|apply wp_notify_gw|done].
Qed.

Lemma wp_notify g : g_w g = WPend → wpc tc_notify g (settled g).
Proof.
  intros Hg. unfold tc_notify. apply wp_bind, wp_TryLock; [done| |done]. apply wp_notify_gw.
Qed.

Lemma wp_recheck_gw g : wpc recheck (gw WPend g) (settled g).
Proof. eapply wp_mono; [|by apply wp_recheck]. intros r g'. apply settled_gw. Qed.

Lemma wp_flush g : g_w g = WPend → wpc flush g (settled g).
Proof.
  intros Hg. unfold flush. apply wp_bind, wp_TryLock; [done| |done]. cbn [negb].
  set (h := gw (WOwn 0 [] []) g).
  eapply wp_seq; [apply (wp_writeToNetFD [] h); unfold holder, own, running; simpl; lia|].
  intros [[]|e] g' ->; change (hold 0 [] [] h) with (gw (WOwn 0 [] []) g).
  - apply wp_bind, wp_metrics_Add; [done|]. apply wp_bind, wp_out_LenRead. intros l.
    case_decide; [apply wp_notify_gw|]. apply wp_bind, wp_Unlock; [done|]. apply (wp_recheck_gw g).
  - case_decide; [by eexists|]. apply wp_notify_gw.
Qed.

(** ** Adding to the output buffer *)

Lemma WritevLimited_ok wo b q safe limit bs :
  holds wo b q → slices_ok bs → zlen q + byteSlicesLen bs < 2 ^ 32 →
  ∃ r b', WritevLimited safe limit bs b = Ret (r, b') ∧
    match r with
    | Ok k => holds wo b' (q ++ ztake k (data_of bs))
    | Err _ => b' = b
    end.
Proof.
  intros Hb Hbs Hbd. destruct (Writev_ok wo b q safe bs Hb Hbs Hbd) as (k & b' & Hr & _ & Hb' & _).
  destruct (decide (limit <= 0)) as [Hl|Hl].
  { exists (Ok k), b'. split; [|done]. unfold WritevLimited. rewrite decide_True by done. by mrun Hr. }
  destruct (decide (byteSlicesLen bs = 0)) as [Hz|Hz].
  { exists (Ok 0), b. split; [unfold WritevLimited; by rewrite decide_False, decide_True|].
    by rewrite ztake_0, app_nil_r. }
  destruct (decide (zlen q + byteSlicesLen bs <= limit)) as [Hfit|Hno].
  { exists (Ok k), b'. split; [|done]. rewrite (WritevLimited_fits wo _ q) by auto. by mrun Hr. }
  exists (Err ErrBufferFull), b. split; [|done].
  by apply (WritevLimited_full wo b q safe limit bs Hb Hbs ltac:(lia) Hz ltac:(lia)).
Qed.

Definition write_ok (p : list slice) : Prop := slices_ok p ∧ byteSlicesLen p < 2 ^ 30.

(** The backlog, and what the sender has in flight, leave room for a write. *)
Lemma write_room c gs q dn p :
  live c → inv_write vlen c gs q dn → write_ok p → zlen q + byteSlicesLen p < 2 ^ 32.
Proof.
  intros (_ & _ & Hb) Hw [_ Hp]. rewrite (iw_written _ _ _ _ _ Hw), (iw_sent _ _ _ _ _ Hw), !zlen_app in Hb.
  rewrite zlen_ztake in Hb by lia. pose proof (iw_fly _ _ _ _ _ Hw). pose proof (iw_most _ _ _ _ _ Hw) as Hm.
  unfold MAX_RW_COUNT in Hm. lia.
Qed.

(** The data is in the buffer: look after it. *)
Lemma inv_write_append c gs i g q dn b' x :
  inv_write vlen c gs q dn → gs !! i = Some g → g_w g = WNone → holds true b' (q ++ x) →
  inv_write vlen (set_written (tc_written c ++ x) (set_outBuffer b' c)) (<[i := gw WPend g]> gs) (q ++ x) dn.
Proof.
  intros Hw Hi Hg Hb. counts Hi Hg WPend.
  assert (tot fly (<[i := gw WPend g]> gs) = tot fly gs) as Ef
    by (apply (tot_upd fly gs i g); [done|unfold fly; by rewrite Hg]).
  assert (tot pol (<[i := gw WPend g]> gs) = tot pol gs) as Ep by (by apply (tot_upd pol gs i g)).
  pose proof (iw_written _ _ _ _ _ Hw) as Hwr. pose proof (iw_sent _ _ _ _ _ Hw) as Hse.
  pose proof (iw_fly _ _ _ _ _ Hw) as Hfl. pose proof (iw_run _ _ _ _ _ Hw) as Hrn.
  destruct Hw. split; rewrite ?Ef, ?Ep; try done.
  - simpl. by rewrite Hwr, app_assoc.
  - change (sent c = dn ++ ztake (Z.of_nat (tot fly gs)) (q ++ x)). rewrite Hse. f_equal.
    unfold ztake. rewrite take_app_le; [done|]. unfold zlen in Hfl. lia.
  - zlen_lia.
  - intros j y [[_ ->]|[_ Hy]]%(lookup_upd gs i j g _ y Hi); [apply prefix_nil|].
    apply prefix_app_r. eauto.
  - intros j y [[_ ->]|[_ Hy]]%(lookup_upd gs i j g _ y Hi); [done|eauto].
  - change (interest (set_written _ _)) with (interest c). cbn. lia.
  - change (interest (set_written _ _)) with (interest c). intros Hr. apply Hrn. lia.
  - intros j y [[_ ->]|[_ Hy]]%(lookup_upd gs i j g _ y Hi); [apply Nat.le_0_l|eauto].
  - intros _. right. lia.
Qed.

Lemma wp_writeToOutboundBuffer p g :
  g_w g = WNone → write_ok p →
  wpc (writeToOutboundBuffer p) g (λ r g', match r with Ok _ => g' = gw WPend g | Err _ => g' = g end).
Proof.
  intros Hg Hp. unfold writeToOutboundBuffer.
  apply (wp_seq _ _ _ (λ _ g', g' = g)); [by apply wp_read|]. intros limit ? ->.
  apply (wp_seq _ _ _ (λ _ g', g' = g)); [by apply wp_read|]. intros safe ? ->.
  case_decide as Hlim; apply wp_write_side; intros c gs i q dn Hi Hl Hs Hw;
    pose proof (write_room _ _ _ _ _ Hl Hw Hp) as Hroom; destruct Hp as [Hp _];
    pose proof (iw_out _ _ _ _ _ Hw) as Hb.
  - destruct (Writev_ok true _ q safe p Hb Hp Hroom) as (k & b' & E & _ & Hb' & _).
    eexists (Ok k), _. split.
    { erewrite bind_Ret by (by apply zoom_Ret). mpure. done. }
    split; [done|]. split; [done|]. exists WPend, (q ++ ztake k (data_of p)), dn. split; [|done].
    by apply (inv_write_append c gs i g q dn b' (ztake k (data_of p))).
  - destruct (WritevLimited_ok true _ q safe limit p Hb Hp Hroom) as (r & b' & E & Hb').
    destruct r as [k|e].
    + eexists (Ok k), _. split.
      { erewrite bind_Ret by (by apply zoom_Ret). cbv beta iota. mpure. done. }
      split; [done|]. split; [done|]. exists WPend, (q ++ ztake k (data_of p)), dn. split; [|done].
      by apply (inv_write_append c gs i g q dn b' (ztake k (data_of p))).
    + eexists (Err NLimitExceeded), _. split.
      { erewrite bind_Ret by (by apply zoom_Ret). done. }
      split; [done|]. split; [done|]. subst b'.
      assert (gw WNone g = g) as Eg by (destruct g; simpl in *; by subst).
      exists WNone, q, dn. rewrite Eg, list_insert_id by done. split; [|done].
      eapply inv_write_same; [|exact Hw]. done.
Qed.

(** ** [Close] leaves the executions that are followed *)

Variable sock_Close : Z → W → W.
Variable run_closed : H → thread conn ().

Lemma wp_Close g (Q : () → ghost → Prop) : wpc (Close sock_Close run_closed) g Q.
Proof.
  intros c gs i Hi (Hc & _) HI. unfold act_on, once_cas. simpl.
  change (closeAllJob (tc_closer c)) with (closed (tc_closer c)). rewrite Hc. simpl.
  intros (Hc' & _). done.
Qed.

(** ** [Writev] *)

Lemma wp_tc_Writev p g :
  g_w g = WNone → g_aw g = false → write_ok p →
  wpc (tc_Writev sock_Close run_closed p) g (λ _ g', g' = g).
Proof.
  intros Hg Ha Hp. unfold tc_Writev.
  apply (wp_seq _ _ _ (λ _ g', g' = g)); [by apply wp_read|]. intros [] ? ->; [done|].
  apply wp_bind, wp_begin_apiWrite; [done|]. cbn [negb].
  set (h := gaw true g). assert (gaw false h = g) as Eg by (unfold h; destruct g; simpl in *; by subst).
  eapply wp_seq; [by apply wp_writeToOutboundBuffer|]. intros [n|e] g' ->.
  - apply (wp_seq _ _ _ (λ _ g', g' = gw WPend h)).
    { apply wp_on_postpone. intros f Hf. by eexists _, f. }
    intros en ? ->. apply (wp_seq _ _ _ (settled h)).
    { eapply wp_mono; [|destruct en; [by apply wp_notify|by apply wp_flush]]. intros r g'. apply settled_gw. }
    intros [[]|e] g' Hr; cbn [settled] in Hr.
    + rewrite Hr. apply wp_bind, wp_end_apiWrite; [done|].
      unfold h. destruct g; simpl in *; by subst.
    + destruct Hr as [v ->]. apply wp_bind, wp_end_apiWrite; [done|]. apply wp_bind, wp_Close.
  - apply wp_bind, wp_end_apiWrite; [done|]. apply wp_bind, wp_metrics_Add; [done|]. apply wp_bind, wp_Close.
Qed.

(** ** [tcpOnWrite] *)

(** Between events, and in the rest of a round: the poller may still hold the lock of
    the registration. *)
Definition calm g : Prop := g_w g = WNone ∨ ∃ s, g_w g = WRun 0 s [].

Lemma wp_tcpOnWrite g :
  g_poll g = true → g_w g = WRun 0 [] [] →
  wpc tcpOnWrite g (λ r g', ∃ v, g' = gw v g ∧ match r with Ok _ => calm g' | Err _ => True end).
Proof.
  intros Hp Hg. assert (gw (WRun 0 [] []) g = g) as Eg by (destruct g; simpl in *; by subst).
  assert (holder g) as Hh by (unfold holder, own, running; rewrite Hg; lia).
  assert (hold 0 [] [] g = g) as Eh by (unfold hold; by rewrite Hg).
  assert (∀ g', g' = g → ∃ v, g' = gw v g ∧ calm g') as Hsame.
  { intros ? ->. exists (WRun 0 [] []). split; [done|]. right. by exists []. }
  unfold tcpOnWrite. apply wp_bind, wp_begin_sysWrite. intros []; cbn [negb]; [|by apply Hsame].
  eapply (wp_seq _ _ _ (λ r g', ∃ v, g' = gw v g ∧ match r with Ok _ => calm g' | Err _ => True end)).
  - apply wp_bind, wp_metrics_Add; [done|]. rewrite <-Eh at 1.
    eapply wp_seq; [by apply wp_writeToNetFD|]. intros [[]|e] g' ->; rewrite Eh.
    + apply wp_bind, wp_out_LenRead. intros l. case_decide; [by apply Hsame|].
      eapply wp_and_then; [by apply wp_ModReadable| |].
      * intros [] g' ->. apply wp_bind, wp_Unlock; [done|].
        eapply wp_mono; [|apply (wp_recheck_gw g)]. intros [[]|e] g'; simpl.
        -- intros ->. exists WNone. split; [done|by left].
        -- intros [v ->]. by exists v.
      * intros e g' [v ->]. by exists v.
    + case_decide; [by apply Hsame|]. exists (WRun 0 [] []). by rewrite Eg.
  - intros r g' Hr. by apply wp_bind, wp_end_sysWrite.
Qed.

End Write.
