(* ===== verification/TcpRead.v ===== *)
(** * TCP connections: receiving

    The counterpart of [TcpWrite] for the read side: the methods that read from a
    connection, wait for data and are woken, and the poller that fills the input
    buffer. *)

From stdpp Require Import base gmap sets list numbers.
From S2P Require Import Prelude MCache Node LinkedBuffer BufferInv BufferRead BufferBlocks BufferMem BufferLink BufferCopy BufferSpec AutoPostpone SafeJob Closer AsyncTimer Threads Timer Kernel IOVec DescCache Poller NetFD TcpService TcpConn TcpInv TcpWrite.

Local Open Scope Z_scope.

Section Read.
Context {D CB W H : Type} `{KernelLaws W}.
Variable vlen : option nat.
Variable known : gset tid.
Variable desc : dloc.
Abbreviation conn := (tcpconn D CB W H).
Abbreviation inv := (Inv vlen known desc).
Abbreviation wpc := (wp (S := conn) (G := ghost) live inv busy).
Implicit Types (c : conn) (g : ghost) (gs : list ghost) (q : list byte).

(** ** Rules *)

Lemma wp_read_side {A} (m : M conn A) g (Q : A → ghost → Prop) :
  (∀ c gs i q, gs !! i = Some g → live c → inv_rest known c gs desc → inv_read c gs q →
     ∃ x c', m c = Ret (x, c') ∧ same_write c c' ∧ same_rest c c' ∧
       ∃ v q', inv_read c' (<[i := gr v g]> gs) q' ∧ Q x (gr v g)) →
  wpc (atomically m) g Q.
Proof.
  intros Hm. apply wp_atomically. intros c gs i Hi Hl HI. pose proof HI as (_ & (q & Hr) & Hs).
  destruct (Hm c gs i q Hi Hl Hs Hr) as (x & c' & E & Sw & Ss & v & q' & Hr' & HQ).
  exists x, c'. split; [done|]. intros _. exists (gr v g). split; [|done].
  destruct HI as ((qw & dn & Hw) & _). split; [|split; [by exists q'|]].
  - exists qw, dn. eapply inv_write_same; [exact Sw|]. by eapply inv_write_ghost.
  - eapply inv_rest_same; [exact Ss|]. by eapply inv_rest_ghost.
Qed.

(** The goroutine that runs [apiRead] is the only reader. *)
Lemma reader_step c c' gs i g r q q' :
  inv_read c gs q → gs !! i = Some g → g_r g ≠ RNone → r ≠ RNone →
  holds false (tc_inBuffer c') q' → received c' = tc_taken c' ++ q' →
  cfg (tc_inBuffer c') = cfg (tc_inBuffer c) → apiReadJob (tc_closer c') = apiReadJob (tc_closer c) →
  ch_closed (tc_readTrigger c') = false → tc_waitReadLen c' = waitlen r →
  (∀ n, r = RChk n → n ≤ zlen q' → ch_full (tc_readTrigger c') = true ∨ (0 < tot filling gs)%nat) →
  (∀ m, r = RTm m ∨ r = RSt m → is_Some (tc_rtimer c')) →
  (∀ m, r = RSt m → ∃ t, tc_rtimer c' = Some t ∧ is_Some (tm_timer t)) →
  inv_read c' (<[i := gr r g]> gs) q'.
Proof.
  intros Hr Hi Hg Hn Hb Hre Hcf Hj Hop Hwl Hchk Htm Hst.
  assert (∀ j x, <[i := gr r g]> gs !! j = Some x → x = gr r g ∨ g_r x = RNone) as Hall.
  { intros j x [[_ ->]|[Hne Hx]]%(lookup_upd gs i j g _ x Hi); [by left|right].
    destruct (decide (g_r x = RNone)) as [|Hx']; [done|].
    by destruct (Hne (reader_unique _ _ _ _ _ _ _ Hr Hi Hx Hg Hx')). }
  assert (tot inread (<[i := gr r g]> gs) = tot inread gs) as Ein.
  { apply (tot_upd inread gs i g); [done|]. unfold inread. destruct r, (g_r g); done. }
  assert (tot filling (<[i := gr r g]> gs) = tot filling gs) as Efi by (by apply (tot_upd filling gs i g)).
  assert (tot inread gs ≠ 0)%nat as Hpos.
  { pose proof (tot_lookup inread gs i g Hi) as Hle. unfold inread at 1 in Hle. destruct (g_r g); [done|lia..]. }
  destruct Hr. split; rewrite ?Ein, ?Efi, ?Hcf, ?Hj; try done.
  - intros j x [->| ->]%Hall ?; simpl; congruence.
  - intros j x n [->| ->]%Hall; simpl; [eauto|done].
  - intros j x m [->| ->]%Hall; simpl; [eauto|]. by intros [?|?].
  - intros j x m [->| ->]%Hall; simpl; [eauto|done].
Qed.

(** A step of the reader that leaves the buffer alone. *)
Lemma wp_reader {A} (m : M conn A) g (Q : A → ghost → Prop) :
  g_r g ≠ RNone →
  (∀ c gs i q, gs !! i = Some g → live c → inv_rest known c gs desc → inv_read c gs q →
     ∃ x c', m c = Ret (x, c') ∧ same_write c c' ∧ same_rest c c' ∧
       tc_inBuffer c' = tc_inBuffer c ∧ received c' = received c ∧ tc_taken c' = tc_taken c ∧
       apiReadJob (tc_closer c') = apiReadJob (tc_closer c) ∧ ch_closed (tc_readTrigger c') = false ∧
       ∃ r, r ≠ RNone ∧ tc_waitReadLen c' = waitlen r ∧
         (∀ n, r = RChk n → n ≤ zlen q → ch_full (tc_readTrigger c') = true ∨ (0 < tot filling gs)%nat) ∧
         (∀ m, r = RTm m ∨ r = RSt m → is_Some (tc_rtimer c')) ∧
         (∀ m, r = RSt m → ∃ t, tc_rtimer c' = Some t ∧ is_Some (tm_timer t)) ∧ Q x (gr r g)) →
  wpc (atomically m) g Q.
Proof.
  intros Hg Hm. apply wp_read_side. intros c gs i q Hi Hl Hs Hr.
  destruct (Hm c gs i q Hi Hl Hs Hr)
    as (x & c' & E & Sw & Ss & E1 & E2 & E3 & E4 & E5 & r & Hn & Hwl & Hchk & Htm & Hst & HQ).
  exists x, c'. split; [done|]. split; [done|]. split; [done|]. exists r, q. split; [|done].
  apply (reader_step c c' gs i g r q q Hr Hi Hg Hn); try done; rewrite ?E1, ?E2, ?E3; [by apply Hr|by apply Hr|done].
Qed.

(** ** The steps of [waitRead] *)

Lemma in_LenRead_run c q : holds false (tc_inBuffer c) q → on_in LenRead c = Ret (zlen q, c).
Proof.
  intros Hb. destruct (holds_len _ _ _ Hb) as [Hr _]. unfold on_in. erewrite zoom_Ret by reflexivity.
  rewrite Hr. by destruct c.
Qed.

Lemma wp_in_LenRead g (Q : Z → ghost → Prop) : (∀ l, Q l g) → wpc in_LenRead g Q.
Proof.
  intros HQ. apply wp_keep. intros c gs i Hi Hl HI. pose proof HI as (_ & (q & Hr) & _).
  exists (zlen q), c. split; [by apply in_LenRead_run, Hr|]. auto.
Qed.

Lemma wp_IsActive g (Q : bool → ghost → Prop) : Q true g → wpc IsActive g Q.
Proof.
  intros HQ. apply wp_read. intros c gs i Hi (Hc & _) HI. by rewrite Hc.
Qed.

Lemma wp_nonblocking g (Q : bool → ghost → Prop) : Q false g → wpc (read tc_nonblocking) g Q.
Proof. intros HQ. apply wp_read. intros c gs i Hi Hl (_ & _ & Hs). by rewrite (is_blocking _ _ _ _ Hs). Qed.

(** Looking at the length before waiting. *)
Lemma wp_in_LenRead_check n g (Q : Z → ghost → Prop) :
  g_r g ≠ RNone → waitlen (g_r g) = n →
  (∀ l, l < n → Q l (gr (RChk n) g)) → (∀ l, n <= l → Q l (gr (RIn n) g)) → wpc in_LenRead g Q.
Proof.
  intros Hne Hg Hlt Hge. apply wp_reader; [done|]. intros c gs i q Hi Hl Hs Hr.
  exists (zlen q), c. split; [by apply in_LenRead_run, Hr|]. split; [done|]. split; [done|].
  do 4 (split; [done|]). split; [by apply Hr|].
  assert (tc_waitReadLen c = n) as Hw by (by rewrite (ir_len _ _ _ Hr i g Hi Hne)).
  destruct (decide (zlen q < n)).
  - exists (RChk n). split_and!; try done; [|by intros ? []|by auto]. intros ? [= <-]. lia.
  - exists (RIn n). split_and!; try done; [by intros ? []|]. apply Hge. lia.
Qed.

Lemma wp_set_waitReadLen m n g (Q : () → ghost → Prop) :
  g_r g = RIn m → Q () (gr (RIn n) g) → wpc (write (set_waitReadLen n)) g Q.
Proof.
  intros Hg HQ. apply wp_reader; [by rewrite Hg|]. intros c gs i q Hi Hl Hs Hr.
  exists (), (set_waitReadLen n c). do 7 (split; [done|]). split; [by apply Hr|].
  exists (RIn n). split_and!; try done. by intros ? [].
Qed.

Lemma wp_rtimer_set n g (Q : bool → ghost → Prop) :
  g_r g = RIn n → Q true (gr (RTm n) g) → Q false (gr (RIn n) g) → wpc rtimer_set g Q.
Proof.
  intros Hg HT HF. apply wp_reader; [by rewrite Hg|]. intros c gs i q Hi Hl Hs Hr.
  assert (tc_waitReadLen c = n) as Hw by (rewrite (ir_len _ _ _ Hr i g Hi); by rewrite Hg).
  eexists _, c. split; [done|]. do 6 (split; [done|]). split; [by apply Hr|].
  destruct (tc_rtimer c) as [t|] eqn:Et; [destruct (tm_deadline t)|].
  - exists (RTm n). split_and!; try done.
  - exists (RIn n). split_and!; try done.
  - exists (RIn n). split_and!; try done. by intros ? [].
Qed.

(** A method of the read timer: whether it is there afterwards, started. *)
Lemma wp_on_rtimer {A} (m : MT A) n r g (Q : A → ghost → Prop) :
  waitlen (g_r g) = n → waitlen r = n → r = RIn n ∨ r = RSt n →
  (g_r g = RTm n ∧ (∀ t, ∃ x t', m t = Ret (x, t') ∧ is_Some (tm_timer t') ∧ Q x (gr r g))) ∨
  (g_r g = RSt n ∧ (∀ t, is_Some (tm_timer t) → ∃ x t', m t = Ret (x, t') ∧ is_Some (tm_timer t') ∧ Q x (gr r g))) →
  wpc (on_rtimer m) g Q.
Proof.
  intros Hn Hrn Hrr Hm. assert (g_r g ≠ RNone) as Hne by (by destruct Hm as [[-> _]|[-> _]]).
  apply wp_reader; [done|]. intros c gs i q Hi Hl Hs Hr.
  assert (tc_waitReadLen c = n) as Hw by (by rewrite (ir_len _ _ _ Hr i g Hi)).
  assert (∃ t x t', tc_rtimer c = Some t ∧ m t = Ret (x, t') ∧ is_Some (tm_timer t') ∧ Q x (gr r g))
    as (t & x & t' & Et & Em & Ht' & HQ).
  { destruct Hm as [[Hg Hm]|[Hg Hm]].
    - destruct (ir_tm _ _ _ Hr i g n Hi (or_introl Hg)) as [t Et].
      destruct (Hm t) as (x & t' & ? & ? & ?). by exists t, x, t'.
    - destruct (ir_st _ _ _ Hr i g n Hi Hg) as (t & Et & Ht).
      destruct (Hm t Ht) as (x & t' & ? & ? & ?). by exists t, x, t'. }
  exists x, (set_rtimer (Some t') c). split; [by rewrite Et, Em|]. do 6 (split; [done|]). split; [by apply Hr|].
  exists r. split; [by destruct Hrr as [->| ->]|]. split; [simpl; by rewrite Hrn|].
  split; [by destruct Hrr as [->| ->]|]. split; [simpl; by eauto|]. split; [|done]. simpl. eauto.
Qed.

(** Waking up. *)
Lemma wp_recv_readTrigger n g (Q : () → ghost → Prop) :
  g_r g = RChk n → g_w g = WNone → g_fill g = false → g_poll g = false →
  Q () (gr (RIn n) g) → wpc recv_readTrigger g Q.
Proof.
  intros Hg Hgw Hgf Hgp HQ c gs i Hi Hl HI. unfold recv.
  pose proof HI as (_ & (q & Hr) & Hs). rewrite (ir_open _ _ _ Hr).
  destruct (ch_full (tc_readTrigger c)) eqn:Ef.
  - intros _. exists (gr (RIn n) g). split; [|done].
    eapply (Inv_read_step vlen known desc c); [exact Hi|done..|]. intros q' Hr'. exists q'.
    assert (tc_waitReadLen c = n) as Hw by (rewrite (ir_len _ _ _ Hr i g Hi); by rewrite Hg).
    apply (reader_step c _ gs i g _ q' q' Hr' Hi); try done; [by rewrite Hg|by apply Hr'|by apply Hr'|by intros ? []].
  - unfold busy. rewrite Hg, Hgw, Hgf, Hgp, Ef. by intros [?|[?|[[]|?]]].
Qed.

Lemma wp_select n g (Q : selected → ghost → Prop) :
  g_r g = RChk n → g_w g = WNone → g_fill g = false → g_poll g = false →
  (∀ x, Q x (gr (RIn n) g)) → wpc select_trigger_timer g Q.
Proof.
  intros Hg Hgw Hgf Hgp HQ c gs i Hi Hl HI. unfold recv.
  pose proof HI as (_ & (q & Hr) & Hs). rewrite (ir_open _ _ _ Hr).
  assert (tc_waitReadLen c = n) as Hw by (rewrite (ir_len _ _ _ Hr i g Hi); by rewrite Hg).
  assert (∀ c', same_write c c' → same_rest c c' → tc_inBuffer c' = tc_inBuffer c → received c' = received c →
    tc_taken c' = tc_taken c → apiReadJob (tc_closer c') = apiReadJob (tc_closer c) →
    tc_waitReadLen c' = tc_waitReadLen c → ch_closed (tc_readTrigger c') = false →
    inv c' (<[i := gr (RIn n) g]> gs)) as Hgo.
  { intros c' Sw Ss E1 E2 E3 E4 E5 E6.
    eapply (Inv_read_step vlen known desc c); [exact Hi|done..|]. intros q' Hr'. exists q'.
    apply (reader_step c _ gs i g _ q' q' Hr' Hi); try done; rewrite ?E1, ?E2, ?E3;
      [by rewrite Hg|by apply Hr'|by apply Hr'|done|simpl; congruence|by intros ? []]. }
  assert (ch_closed (tc_readTrigger c) = false) as Hop by apply Hr.
  set (ready := match tc_rtimer c with Some (Timer.MkTimer _ (Some g)) => gt_chan g | _ => false end).
  destruct (ch_full (tc_readTrigger c)) eqn:Ef, ready.
  - unfold flip. destruct (tc_coins c) as [|[] bs]; intros _; exists (gr (RIn n) g); (split; [|apply HQ]);
      by apply Hgo.
  - intros _. exists (gr (RIn n) g). split; [|apply HQ]. by apply Hgo.
  - intros _. exists (gr (RIn n) g). split; [|apply HQ]. by apply Hgo.
  - unfold busy. rewrite Hg, Hgw, Hgf, Hgp, Ef. by intros [?|[?|[[]|?]]].
Qed.

(** ** [waitRead] *)

(** A client that runs the [apiRead] job. *)
Definition reading (r : rphase) : ghost := gr r (idle false).

Definition back (n : Z) {A} (r : A) g : Prop := g = reading (RIn n).

Lemma wp_wait_loop fuel n : wpc (wait_loop fuel n) (reading (RIn n)) (back n).
Proof.
  induction fuel as [|fuel IH]; [done|]. cbn [wait_loop].
  apply wp_bind, (wp_in_LenRead_check n); [done|done|intros l Hl|intros l Hl].
  - rewrite decide_True by done. apply wp_bind, wp_IsActive. cbn [negb].
    by apply wp_bind, (wp_recv_readTrigger n).
  - by rewrite decide_False by lia.
Qed.

Lemma wp_timed_wait_loop fuel n r :
  r ≠ RNone → waitlen r = n → wpc (timed_wait_loop fuel n) (reading r) (back n).
Proof.
  revert r. induction fuel as [|fuel IH]; intros r Hr Hn; [done|]. cbn [timed_wait_loop].
  apply wp_bind, (wp_in_LenRead_check n); [done|done|intros l Hl|intros l Hl].
  - rewrite decide_True by done. apply wp_bind, wp_IsActive. cbn [negb].
    apply wp_bind, (wp_select n); [done..|]. intros []; [by apply (IH (RIn n))|].
    apply wp_bind, wp_in_LenRead. intros l'. by case_decide.
  - by rewrite decide_False by lia.
Qed.

Lemma wp_waitReadWithTimeout fuel n : wpc (waitReadWithTimeout fuel n) (reading (RTm n)) (back n).
Proof.
  unfold waitReadWithTimeout. apply wp_bind, wp_read. intros c _ _ _ _ _.
  apply wp_bind, (wp_on_rtimer _ n (RSt n)); [done|done|by right|left; split; [done|]].
  intros t. eexists (), _. split; [done|]. split; [simpl; by destruct (tm_timer t)|].
  apply wp_bind, (wp_on_rtimer _ n (RSt n)); [done|done|by right|right; split; [done|]].
  intros t' [g Hg]. exists (gt_chan g), t'. split; [unfold Wait; mpure; by rewrite Hg|]. split; [by exists g|].
  destruct (gt_chan g); [|by apply (wp_timed_wait_loop fuel n (RSt n))].
  apply wp_bind, (wp_on_rtimer _ n (RIn n)); [done|done|by left|right; split; [done|]].
  intros t2 [g2 Hg2]. eexists (), _. split; [done|]. split; [|done]. simpl. by rewrite Hg2.
Qed.

(** Lengths that an [int32] holds. *)
Definition len_ok (n : Z) : Prop := 0 ≤ n < 2 ^ 31.

Lemma wp_waitRead fuel n : len_ok n → wpc (waitRead fuel n) (reading (RIn 0)) (back 0).
Proof.
  intros Hn. unfold waitRead. apply wp_bind, wp_IsActive. cbn [negb].
  apply wp_bind, wp_in_LenRead. intros l. case_decide; [done|].
  apply wp_bind, (wp_set_waitReadLen 0); [done|]. rewrite (i32_small n Hn).
  apply wp_bind, wp_nonblocking. apply wp_bind, (wp_rtimer_set n); [done|..].
  - eapply wp_seq; [apply wp_waitReadWithTimeout|]. intros r g ->.
    by apply wp_bind, (wp_set_waitReadLen n).
  - eapply wp_seq; [apply wp_wait_loop|]. intros r g ->.
    by apply wp_bind, (wp_set_waitReadLen n).
Qed.

(** ** Taking data *)

Lemma Read_takes b q plen :
  holds false b q → 0 ≤ plen →
  ∃ n bs b' q', Read plen b = Ret (Ok (n, bs), b') ∧ q = bs ++ q' ∧ holds false b' q' ∧ cfg b' = cfg b.
Proof.
  intros Hb Hp. destruct (Read_ok _ _ _ plen Hb Hp) as (b' & E & Hb' & Hc).
  eexists _, _, b', _. split; [exact E|]. by rewrite ztake_zdrop.
Qed.

Lemma Next_takes b q n :
  holds false b q →
  ∃ r b' q', Next n b = Ret (r, b') ∧ q = (match r with Ok s => s_bytes s | Err _ => [] end) ++ q' ∧
    holds false b' q' ∧ cfg b' = cfg b.
Proof.
  intros Hb. destruct (decide (n < 0)); [|destruct (decide (n = 0)) as [->|]; [|destruct (decide (zlen q < n))]].
  - eexists _, b, q. split; [by apply Next_neg|]. done.
  - eexists (Ok _), b, q. split; [reflexivity|]. done.
  - eexists _, b, q. split; [apply (Next_short false b q n); [done|lia|lia]|]. done.
  - destruct (Next_ok _ _ _ n Hb ltac:(lia)) as (s & b' & E & Hs & Hb' & Hc).
    exists (Ok s), b', (zdrop n q). split; [done|]. by rewrite Hs, ztake_zdrop.
Qed.

Lemma Peek_keeps b q n :
  holds false b q → ∃ r b', Peek n b = Ret (r, b') ∧ holds false b' q ∧ cfg b' = cfg b ∧
    (∀ s, r = Ok s → 0 ≤ n → s_bytes s = ztake n q).
Proof.
  intros Hb. destruct (decide (n < 0)); [|destruct (decide (n = 0)) as [->|]; [|destruct (decide (zlen q < n))]].
  - eexists _, b. split; [by apply Peek_neg|]. done.
  - eexists (Ok _), b. split; [reflexivity|]. split; [done|]. split; [done|].
    intros s [= <-] _. by rewrite ztake_0.
  - eexists _, b. split; [apply (Peek_short false b q n); [done|lia|lia]|]. done.
  - destruct (Peek_ok _ _ _ n Hb ltac:(lia)) as (s & b' & E & Hs & Hb' & Hc).
    exists (Ok s), b'. split; [done|]. split; [done|]. split; [done|]. by intros ? [= <-].
Qed.

Lemma Skip_takes b q n :
  holds false b q →
  ∃ r b' q', Skip n b = Ret (r, b') ∧ q = (match r with Ok _ => ahead n b | Err _ => [] end) ++ q' ∧
    holds false b' q' ∧ cfg b' = cfg b.
Proof.
  intros Hb. destruct (decide (n < 0)); [|destruct (decide (zlen q < n))].
  - eexists _, b, q. split; [by apply Skip_neg|]. done.
  - eexists _, b, q. split; [apply (Skip_short false b q n); [done|lia|lia]|]. done.
  - destruct (Skip_ok _ _ _ n Hb ltac:(lia)) as (b' & E & Hb' & Hc).
    exists (Ok ()), b', (zdrop n q). split; [done|]. split; [|done].
    destruct (decide (n = 0)) as [->|].
    { unfold ahead. change (Peek 0 b) with (Ret (Ok (of_bytes []) : result Node.err slice, b)). by rewrite zdrop_0. }
    destruct (Peek_ok _ _ _ n Hb ltac:(lia)) as (s & b1 & E1 & Hs & _).
    unfold ahead. by rewrite E1, Hs, ztake_zdrop.
Qed.

(** The reader, not waiting, uses the input buffer. *)
Lemma wp_take {A} (m : M conn A) (Q : A → ghost → Prop) :
  (∀ c q, holds false (tc_inBuffer c) q → ∃ x b' bs q', m c = Ret (x, set_taken (tc_taken c ++ bs) (set_inBuffer b' c)) ∧
     q = bs ++ q' ∧ holds false b' q' ∧ cfg b' = cfg (tc_inBuffer c) ∧ Q x (reading (RIn 0))) →
  wpc (atomically m) (reading (RIn 0)) Q.
Proof.
  intros Hm. apply wp_read_side. intros c gs i q Hi Hl Hs Hr.
  destruct (Hm c q (ir_in _ _ _ Hr)) as (x & b' & bs & q' & E & Hq & Hb & Hc & HQ).
  eexists x, _. split; [exact E|]. split; [done|]. split; [done|]. exists (RIn 0), q'. split; [|done].
  apply (reader_step c _ gs i _ _ q q' Hr Hi); try done.
  - change (received c = (tc_taken c ++ bs) ++ q'). by rewrite (ir_received _ _ _ Hr), Hq, app_assoc.
  - apply Hr.
  - by apply (ir_len _ _ _ Hr i _ Hi).
  - by intros ? [].
Qed.

Definition stays {A} (r : A) g : Prop := g = reading (RIn 0).

Lemma wp_in_Read plen : 0 ≤ plen → wpc (in_Read plen) (reading (RIn 0)) stays.
Proof.
  intros Hp. apply wp_take. intros c q Hb.
  destruct (Read_takes _ _ plen Hb Hp) as (n & bs & b' & q' & E & Hq & Hb' & Hc).
  eexists _, b', bs, q'. split; [|done]. erewrite bind_Ret by (by apply zoom_Ret). by mpure.
Qed.

Lemma wp_in_Next n : wpc (in_Next n) (reading (RIn 0)) stays.
Proof.
  apply wp_take. intros c q Hb. destruct (Next_takes _ _ n Hb) as (r & b' & q' & E & Hq & Hb' & Hc).
  eexists _, b', _, q'. split; [|done]. erewrite bind_Ret by (by apply zoom_Ret). by mpure.
Qed.

Lemma set_taken_nil b c : set_taken (tc_taken c ++ []) (set_inBuffer b c) = set_inBuffer b c.
Proof. by rewrite app_nil_r. Qed.

Lemma wp_in_Peek n : wpc (in_Peek n) (reading (RIn 0)) stays.
Proof.
  apply wp_take. intros c q Hb. destruct (Peek_keeps _ _ n Hb) as (r & b' & E & Hb' & Hc & _).
  eexists _, b', [], q. split; [|done]. rewrite set_taken_nil. by erewrite bind_Ret by (by apply zoom_Ret).
Qed.

Lemma wp_in_Skip n : wpc (in_Skip n) (reading (RIn 0)) stays.
Proof.
  apply wp_take. intros c q Hb. destruct (Skip_takes _ _ n Hb) as (r & b' & q' & E & Hq & Hb' & Hc).
  eexists _, b', _, q'. split; [|done]. mpure. erewrite bind_Ret by (by apply zoom_Ret). by mpure.
Qed.

Lemma wp_in_Release : wpc in_Release (reading (RIn 0)) stays.
Proof.
  apply wp_take. intros c q Hb. destruct (Release_holds _ _ _ Hb) as (b' & E & Hb' & Hc & _).
  eexists _, b', [], q. split; [|done]. rewrite set_taken_nil. by apply zoom_Ret.
Qed.

(** ** The [apiRead] job *)

(** Being the reader begins and ends with the job's mutex. *)
Lemma inv_read_mutex c c' gs i g g' q (m : bool) :
  inv_read c gs q → gs !! i = Some g →
  (g_r g = RNone ∧ g_r g' = RIn 0 ∧ m = true ∧ eb_mu (apiReadJob (tc_closer c)) = false) ∨
  (g_r g = RIn 0 ∧ g_r g' = RNone ∧ m = false) → g_fill g' = g_fill g →
  tc_inBuffer c' = tc_inBuffer c → received c' = received c → tc_taken c' = tc_taken c →
  apiReadJob (tc_closer c') = EBJob m (eb_closed (apiReadJob (tc_closer c))) →
  tc_readTrigger c' = tc_readTrigger c → tc_waitReadLen c' = tc_waitReadLen c → tc_rtimer c' = tc_rtimer c →
  inv_read c' (<[i := g']> gs) q.
Proof.
  intros Hr Hi Hcase Hf E1 E2 E3 E4 E5 E6 E7.
  pose proof (tot_insert inread gs i g g' Hi) as Ht. pose proof (ir_lock _ _ _ Hr) as Hl.
  assert (tot filling (<[i := g']> gs) = tot filling gs) as Ef.
  { apply (tot_upd filling gs i g); [done|]. unfold filling. by rewrite Hf. }
  assert (tot inread (<[i := g']> gs) = b2n m) as En.
  { unfold inread at 2 4 in Ht. destruct Hcase as [(G1 & G2 & -> & Hmu)|(G1 & G2 & ->)]; rewrite G1, G2 in Ht.
    - rewrite Hmu in Hl. simpl in *. lia.
    - destruct (eb_mu _); simpl in *; lia. }
  assert (tc_waitReadLen c = 0) as Hw.
  { destruct Hcase as [(Hg & _ & _ & Hmu)|(Hg & _ & _)].
    - apply (ir_len0 _ _ _ Hr). by rewrite Hl, Hmu.
    - rewrite (ir_len _ _ _ Hr i g Hi); by rewrite Hg. }
  assert (∀ j x, <[i := g']> gs !! j = Some x → g_r x ≠ RNone → g_r x = RIn 0) as Hall.
  { intros j x [[_ ->]|[Hne Hx]]%(lookup_upd gs i j g _ x Hi) Hnx.
    - by destruct Hcase as [(_ & -> & _)|(_ & E & _)].
    - exfalso. destruct Hcase as [(Hg & _ & _ & Hmu)|(Hg & _ & _)].
      + pose proof (tot_lookup inread gs j x Hx) as Hle. rewrite Hl, Hmu in Hle. simpl in Hle.
        unfold inread in Hle. destruct (g_r x); [done|lia..].
      + apply Hne. eapply (reader_unique c gs q); [done..| |done]. by rewrite Hg. }
  destruct Hr. split; rewrite ?E1, ?E2, ?E3, ?E4, ?E5, ?E6, ?E7, ?Ef, ?En; try done.
  - intros j x Hx Hn. by rewrite (Hall j x Hx Hn).
  - intros j x n Hx Hn. pose proof (Hall j x Hx) as Ha. rewrite Hn in Ha. by specialize (Ha ltac:(done)).
  - intros j x n Hx Hn. pose proof (Hall j x Hx) as Ha.
    destruct Hn as [Hn|Hn]; rewrite Hn in Ha; by specialize (Ha ltac:(done)).
  - intros j x n Hx Hn. pose proof (Hall j x Hx) as Ha. rewrite Hn in Ha. by specialize (Ha ltac:(done)).
Qed.

Lemma not_busy_idle c : ¬ busy c (idle false).
Proof. by intros [?|[?|[[? _]|?]]]. Qed.

Lemma wp_begin_apiRead (Q : bool → ghost → Prop) :
  Q true (reading (RIn 0)) → wpc (tc_begin kApiRead) (idle false) Q.
Proof.
  intros HQ c gs i Hi Hl HI. unfold act_on at 1. simpl. unfold on_eb_mu, act_on, Mutex_Lock.
  pose proof HI as (_ & (q & Hr) & _).
  destruct (eb_mu (apiReadJob (tc_closer c))) eqn:Em; [apply not_busy_idle|]. intros _.
  exists (reading (RIn 0)). split.
  - eapply (Inv_read_step vlen known desc c); [exact Hi|done..|]. intros q' Hr'. exists q'.
    eapply (inv_read_mutex c _ gs i (idle false) _ q' true Hr' Hi); try done. by left.
  - intros c' gs' i' Hi' Hl' HI'. unfold act_on. simpl. intros _.
    pose proof HI' as (_ & (q' & Hr') & _). rewrite (ir_nclosed _ _ _ Hr').
    exists (reading (RIn 0)). rewrite list_insert_id by done. split; [|done].
    eapply Inv_rest_step; [exact HI'|done|done|]. by apply inv_rest_same.
Qed.

Lemma wp_end_apiRead (Q : () → ghost → Prop) :
  Q () (idle false) → wpc (tc_end kApiRead) (reading (RIn 0)) Q.
Proof.
  intros HQ c gs i Hi Hl HI. unfold act_on at 1. simpl. unfold on_eb_mu, act_on, Mutex_Unlock.
  pose proof HI as (_ & (q & Hr) & _).
  assert (eb_mu (apiReadJob (tc_closer c)) = true) as ->.
  { pose proof (tot_lookup inread gs i _ Hi) as Hle. rewrite (ir_lock _ _ _ Hr) in Hle.
    destruct (eb_mu _); [done|]. simpl in Hle. unfold inread in Hle. simpl in Hle. lia. }
  intros _. exists (idle false). split; [|done].
  eapply (Inv_read_step vlen known desc c); [exact Hi|done..|]. intros q' Hr'. exists q'.
  eapply (inv_read_mutex c _ gs i _ (idle false) q' false Hr' Hi); try done. by right.
Qed.

Definition returns {A} (r : A) g : Prop := g = idle false.

Lemma wp_api_read {A} (inner outer : thread conn (result nerr A)) :
  wpc inner (reading (RIn 0)) stays → wpc (api_read inner outer) (idle false) returns.
Proof.
  intros Hin. unfold api_read. apply wp_bind, wp_begin_apiRead. eapply wp_seq; [exact Hin|].
  intros r g ->. apply wp_bind, wp_end_apiRead. apply wp_bind. unfold needReadFromClosedReadBuf.
  apply wp_bind, wp_IsActive. done.
Qed.

Lemma wp_after_wait {A} fuel n (k : () → thread conn (result nerr A)) :
  len_ok n → (∀ u, wpc (k u) (reading (RIn 0)) stays) → wpc (and_then (waitRead fuel n) k) (reading (RIn 0)) stays.
Proof.
  intros Hn Hk. eapply wp_and_then; [by apply wp_waitRead|by intros ? ? ->|by intros ? ? ->].
Qed.

Lemma wp_tc_Read fuel plen : 0 ≤ plen → wpc (tc_Read fuel plen) (idle false) returns.
Proof.
  intros Hp. unfold tc_Read. case_decide; [done|]. apply wp_api_read, wp_after_wait; [done|].
  intros _. by apply wp_in_Read.
Qed.

Lemma wp_tc_ReadN fuel n : len_ok n → wpc (tc_ReadN fuel n) (idle false) returns.
Proof.
  intros Hn. apply wp_api_read, wp_after_wait; [done|]. intros _. destruct Hn. rewrite decide_False by lia.
  eapply wp_and_then; [by apply wp_in_Read|by intros ? ? ->|by intros ? ? ->].
Qed.

Lemma wp_tc_Next fuel n : len_ok n → wpc (tc_Next fuel n) (idle false) returns.
Proof. intros Hn. apply wp_api_read, wp_after_wait; [done|]. intros _. apply wp_in_Next. Qed.
Lemma wp_tc_Peek fuel n : len_ok n → wpc (tc_Peek fuel n) (idle false) returns.
Proof. intros Hn. apply wp_api_read, wp_after_wait; [done|]. intros _. apply wp_in_Peek. Qed.
Lemma wp_tc_Skip fuel n : len_ok n → wpc (tc_Skip fuel n) (idle false) returns.
Proof. intros Hn. apply wp_api_read, wp_after_wait; [done|]. intros _. apply wp_in_Skip. Qed.

Lemma wp_tc_Release : wpc tc_Release (idle false) returns.
Proof.
  unfold tc_Release. apply wp_bind, wp_begin_apiRead. cbn [negb].
  eapply wp_seq; [apply wp_in_Release|]. intros [] g ->. by apply wp_end_apiRead.
Qed.

Lemma wp_Len : wpc Len (idle false) returns.
Proof.
  assert (∀ c, ¬ busy (D := D) (CB := CB) (W := W) (H := H) c (idle false)) as Hnb by (intros; apply not_busy_idle).
  unfold Len. apply wp_bind. apply (wp_job vlen known desc apiCtrl Begin); [done|done| |by left].
  intros []; cbn [negb]; [|done]. apply wp_bind, wp_in_LenRead. intros l.
  apply wp_bind. apply (wp_job vlen known desc apiCtrl End_); [done|done|done|by left].
Qed.

(** ** Deadlines and the clock *)

(** Whoever resets the read timer keeps it, and keeps it started. *)
Lemma wp_retime (f : conn → conn) g (Q : () → ghost → Prop) :
  (∀ c, same_write c (f c) ∧ same_rest c (f c) ∧ tc_inBuffer (f c) = tc_inBuffer c ∧ received (f c) = received c ∧
     tc_taken (f c) = tc_taken c ∧ apiReadJob (tc_closer (f c)) = apiReadJob (tc_closer c) ∧
     tc_readTrigger (f c) = tc_readTrigger c ∧ tc_waitReadLen (f c) = tc_waitReadLen c ∧
     (∀ t, tc_rtimer c = Some t → ∃ t', tc_rtimer (f c) = Some t' ∧ (is_Some (tm_timer t) → is_Some (tm_timer t')))) →
  Q () g → wpc (write f) g Q.
Proof.
  intros Hf HQ. apply wp_write. intros c gs i Hi Hl HI _. exists g. rewrite list_insert_id by done. split; [|done].
  destruct (Hf c) as (Sw & Ss & E1 & E2 & E3 & E4 & E5 & E6 & Ht).
  destruct HI as ((q & dn & Hw) & (qr & Hr) & Hs). split; [|split].
  - exists q, dn. by eapply inv_write_same.
  - exists qr. pose proof (ir_tm _ _ _ Hr) as Htm. pose proof (ir_st _ _ _ Hr) as Hst.
    destruct Hr. split; rewrite ?E1, ?E2, ?E3, ?E4, ?E5, ?E6; try done.
    + intros j x m Hj Hm. destruct (Htm j x m Hj Hm) as [t Et]. destruct (Ht t Et) as (t' & -> & _). by eexists.
    + intros j x m Hj Hm. destruct (Hst j x m Hj Hm) as (t & Et & Hs'). destruct (Ht t Et) as (t' & -> & Ht').
      exists t'. auto.
  - by eapply inv_rest_same.
Qed.

Lemma wp_SetReadDeadline t g : wpc (SetReadDeadline t) g (λ _ g', g' = g).
Proof.
  unfold SetReadDeadline, set_deadline. apply wp_bind, wp_IsActive. cbn [negb]. apply wp_bind, wp_retime; [|done].
  intros c. do 8 (split; [done|]). intros tm Et. rewrite Et. by eexists.
Qed.

Lemma wp_SetWriteDeadline t g : wpc (SetWriteDeadline t) g (λ _ g', g' = g).
Proof.
  unfold SetWriteDeadline, set_deadline. apply wp_bind, wp_IsActive. cbn [negb]. apply wp_bind, wp_retime; [|done].
  intros c. do 8 (split; [done|]). intros tm Et. by exists tm.
Qed.

Lemma wp_clock_tick d g : wpc (clock_tick d) g (λ _ g', g' = g).
Proof.
  unfold clock_tick. apply wp_retime; [|done]. intros c. do 8 (split; [done|]).
  intros tm Et. simpl. rewrite Et. eexists. split; [done|]. intros [x Hx]. simpl. by rewrite Hx.
Qed.

(** ** The poller fills the buffer *)

Lemma Readv_run c gs lens :
  inv_rest known c gs desc → lens ≠ [] →
  ∃ r w t, nfd_Readv lens (net_of c) = Ret (r, set_nmetrics t (NetFD.set_poll (set_world w (tc_poll c)) (net_of c))) ∧
    Metrics.ok t ∧ (∀ ep fd', k_interest w ep fd' = k_interest (world c) ep fd') ∧
    (∀ fd', k_sent w fd' = k_sent (world c) fd') ∧
    match r with
    | Ok d => zlen d ≤ sumZ lens ∧ zlen d ≤ MAX_RW_COUNT ∧ k_received w (fd c) = received c ++ d
    | Err _ => k_received w (fd c) = received c
    end.
Proof.
  intros Hs Hne. destruct (k_readv (fd c) lens (world c)) as [r w] eqn:Ek.
  destruct (readv_frame _ _ _ _ _ Ek) as (Fi & Fs & _).
  set (e1 := NetFD.set_poll (set_world w (tc_poll c)) (net_of c)).
  destruct (metric_ok Metrics.TCPReadvCalls 1 e1 (po_metrics _ (is_postpone _ _ _ _ Hs)) ltac:(done)) as (t1 & Ht1 & Hok1).
  assert (nfd_Readv lens (net_of c) =
    (match r with
     | Err e => _ ← metric Metrics.TCPReadvFails 1; mret (Err (NErrno e))
     | Ok d => _ ← metric Metrics.TCPReadvBytes (zlen d); mret (Ok d)
     end) (set_nmetrics t1 e1)) as Hrun.
  { unfold nfd_Readv. rewrite decide_False by done. mpure.
    erewrite bind_Ret; [|unfold net_syscall, on_poll; apply zoom_Ret; unfold syscall; simpl;
      change (nfd_fd (tc_nfd c)) with (fd c); change (ep_world (tc_poll c)) with (world c); rewrite Ek; reflexivity].
    mrun Ht1. by destruct r. }
  destruct r as [d|e].
  - destruct (readv_ok _ _ _ _ _ Ek) as (Hd & Hmax & Hre).
    destruct (metric_ok Metrics.TCPReadvBytes (zlen d) (set_nmetrics t1 e1) Hok1 ltac:(done)) as (t2 & Ht2 & Hok2).
    erewrite bind_Ret in Hrun by exact Ht2. exists (Ok d), w, t2. by split_and!.
  - destruct (metric_ok Metrics.TCPReadvFails 1 (set_nmetrics t1 e1) Hok1 ltac:(done)) as (t2 & Ht2 & Hok2).
    erewrite bind_Ret in Hrun by exact Ht2. exists (Err (NErrno e)), w, t2. split_and!; try done.
    apply (readv_fail _ _ _ _ _ Ek).
Qed.

(** The input buffer after [Fill]: the new data is there, and whoever filled it is bound
    to tell the reader. *)
Lemma inv_read_fill c c' gs i g q d (fl : bool) :
  inv_read c gs q → gs !! i = Some g → g_fill g = false → (d = [] ∨ fl = true) →
  holds false (tc_inBuffer c') (q ++ d) → received c' = received c ++ d → tc_taken c' = tc_taken c →
  cfg (tc_inBuffer c') = cfg (tc_inBuffer c) → apiReadJob (tc_closer c') = apiReadJob (tc_closer c) →
  tc_readTrigger c' = tc_readTrigger c → tc_waitReadLen c' = tc_waitReadLen c → tc_rtimer c' = tc_rtimer c →
  inv_read c' (<[i := gfill fl g]> gs) (q ++ d).
Proof.
  intros Hr Hi Hgf Hd Hb E2 E3 Ec E4 E5 E6 E7.
  pose proof (ir_received _ _ _ Hr) as Hre. pose proof (ir_chk _ _ _ Hr) as Hchk.
  assert (tot inread (<[i := gfill fl g]> gs) = tot inread gs) as Ein by (by apply (tot_upd inread gs i g)).
  pose proof (tot_insert filling gs i g (gfill fl g) Hi) as Hf.
  unfold filling at 2 4 in Hf. rewrite Hgf in Hf. simpl in Hf.
  destruct Hr. split; rewrite ?E2, ?E3, ?Ec, ?E4, ?E5, ?E6, ?E7, ?Ein; try done.
  - by rewrite Hre, app_assoc.
  - intros j x [[_ ->]|[_ Hx]]%(lookup_upd gs i j g _ x Hi); simpl; eauto.
  - intros j x n Hj Hn Hle. destruct Hd as [->| ->]; [|right; simpl in Hf; lia].
    rewrite app_nil_r in Hle. destruct (lookup_upd gs i j g _ x Hi Hj) as [[_ ->]|[_ Hx]].
    + destruct (Hchk i g n Hi Hn Hle); [by left|right; lia].
    + destruct (Hchk j x n Hx Hn Hle); [by left|right; lia].
  - intros j x m [[_ ->]|[_ Hx]]%(lookup_upd gs i j g _ x Hi); simpl; eauto.
  - intros j x m [[_ ->]|[_ Hx]]%(lookup_upd gs i j g _ x Hi); simpl; eauto.
Qed.

Lemma wp_in_Fill g (Q : result (Node.err + nerr) () → ghost → Prop) :
  g_fill g = false → (∀ e, Q (Err e) g) → Q (Ok ()) (gfill true g) → wpc in_Fill g Q.
Proof.
  intros Hg HE HQ. apply wp_atomically. intros c gs i Hi Hl HI. pose proof HI as ((qw & dn & Hw) & (q & Hr) & Hs).
  assert (gfill false g = g) as Eg by (destruct g; simpl in *; by subst).
  pose proof (ir_in _ _ _ Hr) as Hb. pose proof (ir_max _ _ _ Hr) as Hmax.
  destruct (decide (zlen q <= MaxBufferSize (cfg (tc_inBuffer c)))) as [Hle|Hgt].
  2: { eexists (Err (inl ErrBufferFull)), _.
    split; [apply zoom_Ret, (FillFrom_full false _ q); [exact Hb|lia]|]. intros _. exists g.
    rewrite list_insert_id by done. split; [|apply HE].
    eapply Inv_rest_step; [exact HI|done|done|]. apply inv_rest_same.
    split_and!; try done. simpl. by destruct (tc_postpone c). }
  destruct (FillFrom_ok false (tc_inBuffer c) q nfd_Readv (tc_waitReadLen c) (net_of c) Hb Hle)
    as (lens & r & e' & Hpos & Hne & Erd & Hres).
  { intros lens _ Hne. destruct (Readv_run c gs lens Hs Hne) as (r & w & t & E & _ & _ & _ & Hd).
    eexists r, _. split; [exact E|]. destruct r; [by destruct Hd|done]. }
  destruct (Readv_run c gs lens Hs Hne) as (r' & w & t & E & Hok & Fi & Fs & Hd).
  rewrite E in Erd. injection Erd as <- <-.
  set (e1 := set_nmetrics t (NetFD.set_poll (set_world w (tc_poll c)) (net_of c))) in *.
  assert (∀ b' fl, let c' := set_net e1 (set_inBuffer b' c) in
    inv_write vlen c' (<[i := gfill fl g]> gs) qw dn ∧ inv_rest known c' (<[i := gfill fl g]> gs) desc) as Hframe.
  { intros b' fl. split.
    - eapply inv_write_same; [|eapply inv_write_ghost; [exact Hi|done|done|exact Hw]].
      split_and!; try done; [apply Fs|]. unfold interest, epfd, fd, world. simpl. by rewrite Fi.
    - eapply inv_rest_ghost; [exact Hi|done|]. destruct Hs. split; try done. by apply postpone_set_metrics. }
  destruct r' as [d|e].
  - destruct Hd as (Hd1 & Hd2 & Hd3). unfold MAX_RW_COUNT in Hd2.
    destruct (Hres ltac:(lia)) as (b' & Erun & Hb' & Hc').
    eexists (Ok ()), _. split; [by apply zoom_Ret|]. intros _. exists (gfill true g).
    destruct (Hframe b' true) as [Hw' Hs']. split; [|done]. split; [by exists qw, dn|]. split; [|exact Hs'].
    exists (q ++ d). eapply (inv_read_fill c _ gs i g q d true Hr Hi Hg); try done. by right.
  - destruct Hres as (b' & Erun & Hb' & Hc').
    eexists (Err (inr e)), _. split; [by apply zoom_Ret|]. intros _. exists (gfill false g).
    destruct (Hframe b' false) as [Hw' Hs']. split; [|rewrite Eg; apply HE]. split; [by exists qw, dn|]. split; [|exact Hs'].
    exists (q ++ []). eapply (inv_read_fill c _ gs i g q [] false Hr Hi Hg); try done; [by left|by rewrite app_nil_r|].
    rewrite app_nil_r. exact Hd.
Qed.

Lemma wp_send_readTrigger g (Q : () → ghost → Prop) :
  g_fill g = true → Q () (gfill false g) → wpc send_readTrigger g Q.
Proof.
  intros Hg HQ. apply wp_atomically. intros c gs i Hi Hl HI. pose proof HI as ((qw & dn & Hw) & (q & Hr) & Hs).
  rewrite (ir_open _ _ _ Hr). eexists (), _. split; [done|]. intros _. exists (gfill false g). split; [|done].
  eapply (Inv_read_step vlen known desc c); [exact Hi|done..|]. intros q' Hr'. exists q'.
  assert (tot inread (<[i := gfill false g]> gs) = tot inread gs) as Ein by (by apply (tot_upd inread gs i g)).
  destruct Hr'. split; rewrite ?Ein; try done.
  - intros j x [[_ ->]|[_ Hx]]%(lookup_upd gs i j g _ x Hi); simpl; eauto.
  - by left.
  - intros j x m [[_ ->]|[_ Hx]]%(lookup_upd gs i j g _ x Hi); simpl; eauto.
  - intros j x m [[_ ->]|[_ Hx]]%(lookup_upd gs i j g _ x Hi); simpl; eauto.
Qed.

Variable run_request : H → thread conn (option nerr).

Lemma wp_tcpOnRead fuel g :
  g_fill g = false → wpc (tcpOnRead run_request fuel) g (λ _ g', g' = g).
Proof.
  intros Hg. assert (gfill false (gfill true g) = g) as Eg by (destruct g; simpl in *; by subst).
  unfold tcpOnRead. apply wp_bind, wp_begin_sysRead. intros []; cbn [negb]; [|done].
  apply (wp_seq _ _ _ _ _ _ (λ _ g', g' = g)); [|intros r ? ->; by apply wp_bind, wp_end_sysRead].
  apply wp_bind, wp_refreshRead. apply wp_bind, wp_refreshConn.
  apply wp_bind, wp_in_Fill; [done| |].
  - intros [[]|e]; done.
  - apply wp_bind, wp_nonblocking. apply wp_bind, wp_send_readTrigger; [done|]. rewrite Eg.
    apply wp_bind, wp_read. intros c gs i Hi Hl (_ & _ & Hs). by rewrite (is_handler _ _ _ _ Hs).
Qed.

(** ** One event *)

(** The poller between two events. *)
Definition resting g : Prop :=
  g_poll g = true ∧ calm g ∧ g_r g = RNone ∧ g_aw g = false ∧ g_fill g = false.

(** Hanging up a registered socket gives its lock to the poller. *)
Lemma wp_detach g (Q : result perr () → ghost → Prop) :
  g_poll g = true → (∀ r v, Q r (gw v g)) → wpc (on_net (NetFD.on_poll (Control desc Detach))) g Q.
Proof.
  intros Hp HQ. apply wp_write_side. intros c gs i q dn Hi Hl Hs Hw.
  destruct (Control_run known desc c gs Detach Hs) as (r & w & E & Hse & Hre & Hin); [set_solver|].
  set (c' := set_net (NetFD.set_poll (set_world w (tc_poll c)) (net_of c)) c).
  exists r, c'. split; [apply zoom_Ret; by apply zoom_Ret|]. split; [split_and!; done|].
  split; [split_and!; try done; simpl; by destruct (tc_postpone c)|].
  change (sent c' = sent c) in Hse.
  change (interest c' = match r with Ok _ => false | Err _ => interest c end) in Hin.
  assert (gw (g_w g) g = g) as Eg by (by destruct g).
  destruct r as [[]|e]; [destruct (interest c) eqn:Hic|].
  2, 3: exists (g_w g), q, dn; rewrite Eg, list_insert_id by done; split; [|rewrite <-Eg; apply HQ];
    eapply inv_write_same; [|exact Hw]; split_and!; congruence || done.
  exists (WOwn (fly g) (snap g) (stored g)), q, dn. split; [|apply HQ].
  set (g' := gw (WOwn (fly g) (snap g) (stored g)) g).
  pose proof (running_poller _ _ _ _ _ _ _ Hw Hi Hp) as Hrun.
  pose proof (iw_token _ _ _ _ _ Hw) as Ht. pose proof (iw_lock _ _ _ _ _ Hw) as Hlk. rewrite Hic in Ht.
  assert (tc_writing c = locked) as Hl' by (case_decide; [done|simpl in Ht; lia]).
  rewrite decide_True in Ht by done. simpl in Ht.
  pose proof (tot_insert own gs i g g' Hi) as Cown. pose proof (tot_insert running gs i g g' Hi) as Crun.
  pose proof (tot_lookup own gs i g Hi) as Ho.
  change (own g') with 1%nat in Cown. change (running g') with 0%nat in Crun.
  assert (tot fly (<[i := g']> gs) = tot fly gs) as Ef by (by apply (tot_upd fly gs i g)).
  assert (tot pol (<[i := g']> gs) = tot pol gs) as Ep by (by apply (tot_upd pol gs i g)).
  destruct Hw. split; rewrite ?Ef, ?Ep, ?Hse, ?Hin; try done.
  - intros j x [[_ ->]|[_ Hx]]%(lookup_upd gs i j g _ x Hi); [exact (iw_snap i g Hi)|eauto].
  - intros j x [[_ ->]|[_ Hx]]%(lookup_upd gs i j g _ x Hi); [exact (iw_stored i g Hi)|eauto].
  - change (tc_writing c') with (tc_writing c). rewrite decide_True by done. simpl. lia.
  - intros Hr. lia.
  - intros j x [[_ ->]|[_ Hx]]%(lookup_upd gs i j g _ x Hi); [apply Nat.le_0_l|eauto].
  - by left.
Qed.

Variable sock_Close : Z → W → W.

Lemma wp_poll_once fuel ev g :
  resting g → (has_flag ev EPOLLOUT = true → g_w g = WRun 0 [] []) →
  wpc (poll_once run_request fuel desc ev) g (λ _ g', resting g').
Proof.
  intros (Hp & Hc & Hr & Ha & Hf) Hout. unfold poll_once.
  eapply (wp_seq _ _ _ _ _ _ (λ hup g', ∃ v, g' = gw v g ∧ (hup = false → calm g'))).
  { destruct (has_flag ev EPOLLOUT).
    - eapply wp_seq; [apply wp_tcpOnWrite; [done|by apply Hout]|]. intros r g' (v & -> & Hcalm).
      exists v. split; [done|]. destruct r; [done|]. by intros []%orb_false_iff.
    - exists (g_w g). destruct g; simpl in *. split; [done|]. by intros _. }
  intros hup g' (v & -> & Hcalm).
  eapply (wp_seq _ _ _ _ _ _ (λ hup g', g' = gw v g ∧ (hup = false → calm g'))).
  { destruct (has_flag ev (Z.lor EPOLLIN EPOLLPRI)); [|done].
    eapply wp_seq; [by apply wp_tcpOnRead|]. intros r g' ->. split; [done|].
    intros [Hh _]%orb_false_iff. by apply Hcalm. }
  intros hup' g' [-> Hcalm']. destruct hup'.
  - apply wp_bind, wp_detach; [done|]. intros r v'. apply wp_write. intros c gs i _ _ _ (_ & Hh & _). done.
  - split_and!; try done. by apply Hcalm'.
Qed.

End Read.
