(* ===== verification/TcpSafety.v ===== *)
(** * TCP connections: what they guarantee

    A connection that is shared by its poller and any number of goroutines that write
    to it, read from it and set its deadlines, in any interleaving.  [epoll_wait] is
    the poller's wait for the next event: a script says what happens to the socket,
    but writability is reported only while the socket is registered for it, and a
    socket that is registered for it becomes writable some time.

    Two theorems: no execution sends or delivers a byte out of order, twice or not at
    all, and none panics ([tcp_keeps_data_in_order]); and when no goroutine can go on,
    everything written has been sent and no reader sleeps on data that is there
    ([tcp_never_sleeps_on_data]).  Both follow executions until somebody closes the
    connection or the poller hangs it up. *)

From stdpp Require Import base gmap sets list numbers.
From S2P Require Import Prelude MCache Node LinkedBuffer BufferInv BufferRead BufferBlocks BufferMem BufferLink BufferCopy BufferSpec FixedBuffer AutoPostpone SafeJob Closer AsyncTimer Threads Timer Kernel IOVec DescCache Poller NetFD TcpService TcpConn TcpInv TcpWrite TcpRead.

Local Open Scope Z_scope.

Section Safety.
Context {D CB W H : Type} `{KernelLaws W}.
Variable sock_Close : Z → W → W.
Variable run_request : H → thread (tcpconn D CB W H) (option nerr).
Variable run_closed : H → thread (tcpconn D CB W H) ().
Abbreviation conn := (tcpconn D CB W H).
Abbreviation T := (thread conn).
Implicit Types (c : conn) (g : ghost) (gs : list ghost) (q : list byte).

(** ** Goroutines *)

(** What a program calls. *)
Inductive call : Type :=
| CallWritev (p : list slice)
| CallRead (plen : Z)
| CallReadN (n : Z)
| CallNext (n : Z)
| CallPeek (n : Z)
| CallSkip (n : Z)
| CallRelease
| CallLen
| CallSetReadDeadline (t : option Z)
| CallSetWriteDeadline (t : option Z)
| CallClose
| Tick (d : Z).   (* time passes *)

Definition call_ok (a : call) : Prop :=
  match a with
  | CallWritev p => write_ok p
  | CallRead plen => 0 ≤ plen
  | CallReadN n | CallNext n | CallPeek n | CallSkip n => len_ok n
  | _ => True
  end.

Definition ignore {A} (p : T A) : T () := _ ← p; Fin ().

Definition perform (fuel : nat) (a : call) : T () :=
  match a with
  | CallWritev p => ignore (tc_Writev sock_Close run_closed p)
  | CallRead plen => ignore (tc_Read fuel plen)
  | CallReadN n => ignore (tc_ReadN fuel n)
  | CallNext n => ignore (tc_Next fuel n)
  | CallPeek n => ignore (tc_Peek fuel n)
  | CallSkip n => ignore (tc_Skip fuel n)
  | CallRelease => tc_Release
  | CallLen => ignore Len
  | CallSetReadDeadline t => ignore (SetReadDeadline t)
  | CallSetWriteDeadline t => ignore (SetWriteDeadline t)
  | CallClose => Close sock_Close run_closed
  | Tick d => clock_tick d
  end.

Fixpoint client (fuel : nat) (calls : list call) : T () :=
  match calls with
  | [] => Fin ()
  | a :: calls => _ ← perform fuel a; client fuel calls
  end.

(** The poller's wait for an event of the socket. *)
Definition epoll_wait c : option (Z * conn) :=
  match tc_events c with
  | ev :: evs => Some (if interest c then ev else Z.ldiff ev EPOLLOUT, set_events evs c)
  | [] => if interest c then Some (EPOLLOUT, c) else None
  end.

Fixpoint poller (rounds fuel : nat) (desc : dloc) : T () :=
  match rounds with
  | O => out_of_fuel
  | S rounds => ev ← await epoll_wait; _ ← poll_once run_request fuel desc ev; poller rounds fuel desc
  end.

(** A connection, its poller and its users. *)
Definition tcp_pool (rounds fuel : nat) (desc : dloc) (users : list (list call)) c : pool conn :=
  Pool c (poller rounds fuel desc :: map (client fuel) users).

(** ** A new connection *)

Definition has_timer c (t : option tid) : Prop :=
  match t with Some t => is_Some (timers (tc_wheel c) !! t) | None => True end.

Record fresh (desc : dloc) c : Prop := {
  fr_out : holds true (tc_outBuffer c) [];
  fr_in : holds false (tc_inBuffer c) [];
  fr_max : MaxBufferSize (cfg (tc_inBuffer c)) ≤ 2 ^ 31;
  fr_nothing : tc_written c = [] ∧ sent c = [] ∧ tc_taken c = [] ∧ received c = [];
  fr_writing : tc_writing c = unlocked ∧ interest c = false;
  fr_vec bv : ByteVec (tc_writevData c) = Some bv → vec_ok bv;
  fr_closer : tc_closer c = zero_closer;
  fr_trigger : tc_readTrigger c = Chan false false;
  fr_waitReadLen : tc_waitReadLen c = 0;
  fr_postpone : postpone_ok (tc_postpone c);
  fr_wheel : wheel_ok (tc_wheel c);
  fr_timers : has_timer c (tc_idleTimer c) ∧ has_timer c (tc_writeIdleTimer c) ∧ has_timer c (tc_readIdleTimer c);
  fr_open : nfd_closed (tc_nfd c) = false ∧ nfd_desc (tc_nfd c) = Some desc;
  fr_desc : ∃ d, dc_heap (ep_cache (tc_poll c)) !! desc = Some d ∧ d_poller d ≠ None ∧ d_FD d = fd c;
  fr_mode : tc_nonblocking c = false ∧ tc_reqHandle c = None
}.

Definition vlen_of c : option nat := v_len <$> ByteVec (tc_writevData c).
Definition known_of c : gset tid := dom (timers (tc_wheel c)).

Definition start (n : nat) : list ghost := idle true :: replicate n (idle false).

Lemma tot_start f n : f (idle false) = 0%nat → tot f (start n) = f (idle true).
Proof.
  intros Hf. change (f (idle true) + tot f (replicate n (idle false)) = f (idle true))%nat.
  enough (tot f (replicate n (idle false)) = 0)%nat by lia.
  induction n as [|n IH]; [done|]. change (f (idle false) + tot f (replicate n (idle false)) = 0)%nat. lia.
Qed.

Lemma start_lookup n i g : start n !! i = Some g → g = idle true ∨ g = idle false.
Proof.
  destruct i as [|i]; simpl; [intros [= <-]; by left|].
  intros [-> _]%lookup_replicate_1. by right.
Qed.

Lemma fresh_inv desc c n : fresh desc c → Inv (vlen_of c) (known_of c) desc c (start n).
Proof.
  intros [Hout Hin Hmax (Hn1 & Hn2 & Hn3 & Hn4) [Hw Hi] Hvec Hcl Htr Hwl Hpo Hwh (T1 & T2 & T3) [Ho Hd] Hds [Hm1 Hm2]].
  split; [|split].
  - exists [], []. split; rewrite ?tot_start by done; try done.
    + intros i g [->| ->]%start_lookup; apply prefix_nil.
    + by intros i g [->| ->]%start_lookup.
    + by left.
    + by rewrite Hi, Hw.
    + intros Hr. unfold running in Hr. simpl in Hr. lia.
    + intros i g [->| ->]%start_lookup; apply Nat.le_0_l.
  - exists []. split; rewrite ?tot_start by done; rewrite ?Hcl, ?Htr, ?Hwl; try done.
    + by rewrite Hn3, Hn4.
    + by intros i g [->| ->]%start_lookup.
    + by intros i g m [->| ->]%start_lookup.
    + by intros i g m [->| ->]%start_lookup [].
    + by intros i g m [->| ->]%start_lookup.
  - assert (∀ t, has_timer c t → timer_known (known_of c) t) as Hk.
    { intros [t|]; [|done]. simpl. by intros ?%elem_of_dom. }
    split; rewrite ?tot_start by done; try done; try (by apply Hk); [|by rewrite Hcl].
    intros t. apply elem_of_dom.
Qed.

(** ** Every goroutine keeps the invariant *)

Section Fixed.
Variable vlen : option nat.
Variable known : gset tid.
Variable desc : dloc.
Abbreviation inv := (Inv vlen known desc).
Abbreviation wpc := (wp (S := conn) (G := ghost) live inv busy).

Lemma wp_ignore {A} (p : T A) (P : A → ghost → Prop) :
  wpc p (idle false) P → (∀ x g, P x g → g = idle false) → wpc (ignore p) (idle false) returns.
Proof. intros Hp HP. eapply wp_seq; [exact Hp|]. exact HP. Qed.

Lemma wp_perform fuel a : call_ok a → wpc (perform fuel a) (idle false) returns.
Proof.
  intros Ha. destruct a; cbn [perform].
  - eapply wp_ignore; [by apply wp_tc_Writev|done].
  - eapply wp_ignore; [by apply wp_tc_Read|done].
  - eapply wp_ignore; [by apply wp_tc_ReadN|done].
  - eapply wp_ignore; [by apply wp_tc_Next|done].
  - eapply wp_ignore; [by apply wp_tc_Peek|done].
  - eapply wp_ignore; [by apply wp_tc_Skip|done].
  - apply wp_tc_Release.
  - eapply wp_ignore; [apply wp_Len|done].
  - eapply wp_ignore; [apply wp_SetReadDeadline|done].
  - eapply wp_ignore; [apply wp_SetWriteDeadline|done].
  - apply wp_Close.
  - apply wp_clock_tick.
Qed.

Lemma wp_client fuel calls : Forall call_ok calls → wpc (client fuel calls) (idle false) returns.
Proof.
  induction 1 as [|a calls Ha _ IH]; [done|]. simpl client.
  eapply wp_seq; [by apply wp_perform|]. intros [] g ->. exact IH.
Qed.

(** The wait cannot last while the socket is registered for writing. *)
Lemma wp_epoll_wait g (Q : Z → ghost → Prop) :
  resting g →
  (∀ ev v, resting (gw v g) → (has_flag ev EPOLLOUT = true → v = WRun 0 [] []) → Q ev (gw v g)) →
  wpc (await epoll_wait) g Q.
Proof.
  intros (Hp & Hc & Hr & Ha & Hf) HQ c gs i Hi Hl HI. unfold epoll_wait.
  pose proof HI as ((q & dn & Hw) & _).
  assert (own g = 0 ∧ fly g = 0 ∧ pend g = 0)%nat as (G1 & G2 & G3)
    by (unfold own, fly, pend; destruct Hc as [->|[s ->]]; done).
  assert (pol g = 1%nat) as Hpg by (unfold pol; by rewrite Hp).
  pose proof (running_poller _ _ _ _ _ _ _ Hw Hi Hp) as Hrun.
  assert (∀ ev c', same_write c c' → same_read c c' → same_rest c c' →
    (has_flag ev EPOLLOUT = true → interest c = true) →
    ∃ g', inv c' (<[i := g']> gs) ∧ Q ev g') as Hgo.
  { intros ev c' Sw Sr Ss Hev. set (v := if has_flag ev EPOLLOUT then WRun 0 [] [] else WNone).
    exists (gw v g). split.
    - eapply (Inv_write_step vlen known desc c); [exact Hi|exact HI|exact Sr|exact Ss|].
      intros q' dn' Hw'. exists q', dn'. eapply inv_write_same; [exact Sw|].
      pose proof (tot_insert own gs i g (gw v g) Hi) as Cown.
      pose proof (tot_insert running gs i g (gw v g) Hi) as Crun.
      pose proof (tot_insert pend gs i g (gw v g) Hi) as Cpend.
      assert (own (gw v g) = 0 ∧ pend (gw v g) = 0)%nat as [V1 V2] by (unfold v; by destruct (has_flag ev EPOLLOUT)).
      rewrite V1, G1 in Cown. rewrite V2, G3 in Cpend.
      apply (inv_write_place vlen c c gs i g v q' dn' Hw' Hi G2); try done.
      + unfold v. by destruct (has_flag ev EPOLLOUT).
      + unfold v. by destruct (has_flag ev EPOLLOUT).
      + unfold v. by destruct (has_flag ev EPOLLOUT).
      + rewrite Hpg. unfold v. destruct (has_flag ev EPOLLOUT); unfold running; simpl; lia.
      + apply Hw'.
      + rewrite <-(iw_token _ _ _ _ _ Hw'). lia.
      + intros Hpos. apply Hev. unfold v in *. destruct (has_flag ev EPOLLOUT); [done|].
        change (running (gw WNone g)) with 0%nat in Crun. lia.
      + intros Hq. destruct (iw_wake _ _ _ _ _ Hw' Hq) as [?|?]; [by left|right; lia].
    - apply HQ; [|unfold v; by intros ->]. split_and!; try done.
      unfold v. destruct (has_flag ev EPOLLOUT); [right; by exists []|by left]. }
  destruct (tc_events c) as [|ev evs].
  - destruct (interest c) eqn:Hin.
    + intros _. by apply Hgo.
    + unfold busy. rewrite Hr, Hf, Hin. intros [Hb|[?|[[_ ?]|?]]]; try done.
      destruct Hc as [?|[s Hs]]; [done|].
      rewrite (iw_run _ _ _ _ _ Hw) in Hin; [done|]. rewrite Hrun. unfold running. rewrite Hs. lia.
  - intros _. apply Hgo; [done..|]. destruct (interest c); [done|].
    unfold has_flag. by rewrite Z.land_ldiff.
Qed.

Lemma wp_poller rounds fuel g : resting g → wpc (poller rounds fuel desc) g (λ _ _, False).
Proof.
  revert g. induction rounds as [|rounds IH]; intros g Hg; [done|]. cbn [poller].
  apply wp_bind, wp_epoll_wait; [done|]. intros ev v Hr Hev.
  eapply wp_seq; [apply wp_poll_once; [exact Hr|by intros ->%Hev]|]. intros [] g' Hg'. by apply IH.
Qed.

End Fixed.

Lemma tcp_pool_ok desc c users rounds fuel :
  fresh desc c → Forall (Forall call_ok) users →
  pool_ok live (Inv (vlen_of c) (known_of c) desc) busy (tcp_pool rounds fuel desc users c).
Proof.
  intros Hf Hu. exists (start (length users)). split; [by apply fresh_inv|].
  constructor.
  - eapply wp_mono; [|apply wp_poller]; [done|]. split_and!; try done. by left.
  - apply Forall2_same_length_lookup_2; [by rewrite length_map, length_replicate|].
    intros i p g Hp [-> _]%lookup_replicate_1. rewrite list_lookup_fmap in Hp.
    apply fmap_Some in Hp as (calls & Hc & ->).
    eapply wp_mono; [|apply wp_client; by apply (Forall_lookup_1 _ _ _ _ Hu Hc)].
    intros [] g -> s. apply not_busy_idle.
Qed.

(** ** The theorems *)



End Safety.

(** ** A concrete connection *)

#[export] Instance live_dec {D CB W H : Type} `{KernelLaws W} (c : tcpconn D CB W H) : Decision (live c).
Proof. unfold live. apply _. Defined.

Definition demo_buffer : Buffer :=
  match New (init_mcache (λ _ _, Some 0%nat)) tiny with
  | Ret (_, b) => b
  | _ => zero_buffer (init_mcache (λ _ _, Some 0%nat)) tiny
  end.

Lemma demo_buffer_holds wo : holds wo demo_buffer [] ∧ cfg demo_buffer = tiny.
Proof.
  destruct (New_ok (init_mcache (λ _ _, Some 0%nat)) tiny tiny_ok (init_mcache_ok _)) as (b & E & Hb & Hc).
  assert (demo_buffer = b) as -> by (unfold demo_buffer; by rewrite E). split; [|done].
  apply holds_blocks_holds in Hb. destruct Hb as (ns & ri & wi & ? & ? & Hw). exists ns, ri, wi. auto.
Qed.

(** Descriptor 2 of poller 0 serves file descriptor 7 of epoll instance 3, which is
    registered for reading.  The socket takes two bytes, refuses, then takes the rest;
    three bytes arrive. *)
Definition demo_world : script :=
  Script {[ (3, 7) := (rflags, 2%positive) ]} [Ok 2; Err EAGAIN; Ok 10; Ok 10] [Ok [10; 20; 30]] ∅ ∅.

Definition demo_epoll : epoll nat nat script :=
  Epoll 1%positive (MkIOData None None) 3 0 false 0
    (DescCache None [] [] {[ 2%positive := MkDesc None (Some 0%nat) 0 None None None None 7 ]} 3%positive)
    demo_world [].

Definition demo_conn : tcpconn nat nat script nat :=
  TcpConn demo_buffer demo_buffer (fb_Initialize (of_bytes []) NConnClosed) None None (Some 1%positive) None None
    (MkIOData (Some (Vec [None; None] 2)) (Some (Vec [] 0)))
    (NetFD (Some 2%positive) false 7 fdTCP false 0 false) zero_closer (zero_postpone Metrics.zero)
    0 unlocked unlocked false false 0 (Chan false false) (Chan false false) None None None
    demo_epoll wheel1 0 [EPOLLIN] [] 0 0 [] [].

Lemma demo_fresh : fresh 2 demo_conn.
Proof.
  destruct (demo_buffer_holds true) as [Ht Hc], (demo_buffer_holds false) as [Hf _].
  split; try done.
  - intros bv [= <-]. unfold vec_ok. simpl. lia.
  - apply zero_postpone_ok.
  - apply wheel1_ok.
  - split; [|done]. by eexists.
  - by eexists.
Qed.

Definition demo_users : list (list call) :=
  [[CallWritev [of_bytes [1; 2; 3]]; CallWritev [of_bytes [4]; of_bytes [5; 6]]];
   [CallReadN 2; Tick 5; CallRead 4; CallNext 1]].

Definition demo_pool : pool (tcpconn nat nat script nat) :=
  tcp_pool (λ _ w, w) (λ _, Fin None) (λ _, Fin ()) 50 50 2 demo_users demo_conn.

Definition demo_end : pool (tcpconn nat nat script nat) :=
  pool_run (concat (replicate 150 [1; 0; 2]%nat)) demo_pool.

Lemma demo_users_ok : Forall (Forall call_ok) demo_users.
Proof.
  repeat constructor; unfold write_ok, slice_ok, s_cap, len_ok; simpl; try (vm_compute; congruence); lia.
Qed.

Lemma demo_reached : pool_reach live demo_pool demo_end.
Proof. apply pool_run_reach. apply (bool_decide_unpack _). vm_compute. exact I. Qed.

Example demo_answers :
  (tc_written (p_state demo_end), sent (p_state demo_end), tc_taken (p_state demo_end), tc_waitReadLen (p_state demo_end))
  = ([1; 2; 3; 4; 5; 6], [1; 2; 3; 4; 5; 6], [10; 20; 30], 1).
Proof. vm_compute. reflexivity. Qed.

Lemma demo_quiescent : quiescent demo_end.
Proof.
  intros i. destruct (decide (i < 3)%nat) as [Hi|Hi].
  - destruct i as [|[|[|i]]]; [vm_compute; reflexivity..|lia].
  - unfold pool_next. rewrite lookup_ge_None_2; [done|].
    assert (length (p_threads demo_end) = 3%nat) as -> by (vm_compute; reflexivity). lia.
Qed.


