(* ===== verification/TcpClose.v ===== *)
(** * Closing a TCP connection (src/tcpconn.go)

    What [Close] does when nothing else runs on the connection: it gives back what
    the connection held (the socket, its poller registration, its timers, its buffers,
    its entry in the service's table) and keeps the bytes that were received and not
    read yet.  Afterwards the connection refines a byte queue that only shrinks: the
    read methods deliver these bytes and then [ErrConnClosed], writes are refused.

    How [Close] behaves while other goroutines use the connection is in [TcpClosing]. *)

From stdpp Require Import base gmap sets list numbers.
From S2P Require Import Prelude MCache Node LinkedBuffer BufferInv BufferRead BufferBlocks BufferMem BufferSpec FixedBuffer AutoPostpone SafeJob Closer AsyncTimer Threads Timer Kernel IOVec DescCache Poller NetFD TcpService TcpConn TcpSafety.

Local Open Scope Z_scope.

Section TcpClose.
Context {D CB W H : Type} `{Kernel W}.
Variable sock_Close : Z → W → W.
Abbreviation conn := (tcpconn D CB W H).
Abbreviation T := (thread conn).
Implicit Types c : conn.
Variable run_closed : H → T ().

(** ** Operations on a closed connection *)

Inductive cop : Type :=
| ORead (plen : Z) | OReadN (n : Z) | ONext (n : Z) | OPeek (n : Z) | OSkip (n : Z)
| OWritev (p : list slice) | OLen | OIsActive | ORelease | OClose.

(** What they answer, as bytes or an error: a count or a boolean is a list of one. *)
Definition nothing (p : T ()) : T (result nerr (list byte)) := _ ← p; Fin (Ok []).

Definition perform_closed (fuel : nat) (o : cop) : T (result nerr (list byte)) :=
  match o with
  | ORead n => r ← tc_Read fuel n; Fin (match r with Ok (_, bs) => Ok bs | Err e => Err e end)
  | OReadN n => tc_ReadN fuel n
  | ONext n => tc_Next fuel n
  | OPeek n => tc_Peek fuel n
  | OSkip n => r ← tc_Skip fuel n; Fin (match r with Ok _ => Ok [] | Err e => Err e end)
  | OWritev p => r ← tc_Writev sock_Close run_closed p; Fin (match r with (n, None) => Ok [n] | (_, Some e) => Err e end)
  | OLen => n ← Len; Fin (Ok [n])
  | OIsActive => b ← IsActive; Fin (Ok [if (b : bool) then 1 else 0])
  | ORelease => nothing tc_Release
  | OClose => nothing (Close sock_Close run_closed)
  end.

Fixpoint perform_all (fuel : nat) (os : list cop) : T (list (result nerr (list byte))) :=
  match os with
  | [] => Fin []
  | o :: os => a ← perform_closed fuel o; az ← perform_all fuel os; Fin (a :: az)
  end.

(** ** The specification: a queue *)

Definition take_answer (n : Z) (q : list byte) : result nerr (list byte) :=
  if decide (n < 0) then Err (NBuffer ErrInvalidParam)
  else if decide (zlen q < n) then Err NConnClosed else Ok (ztake n q).

(** [late]: the write deadline has passed, which [Writev] looks at first. *)
Definition closed_spec (late : bool) (o : cop) (q : list byte) : result nerr (list byte) * list byte :=
  match o with
  | ORead n =>
      if decide (n = 0) then (Ok [], q)
      else if decide (q = []) then (Err NConnClosed, q) else (Ok (ztake n q), zdrop n q)
  | OReadN n | ONext n => (take_answer n q, match take_answer n q with Ok _ => zdrop n q | Err _ => q end)
  | OPeek n => (take_answer n q, q)
  | OSkip n =>
      match take_answer n q with Ok _ => (Ok [], zdrop n q) | Err e => (Err e, q) end
  | OWritev _ => (Err (if late then NTimeout else NConnClosed), q)
  | OLen | OIsActive => (Ok [0], q)
  | ORelease | OClose => (Ok [], q)
  end.

Fixpoint closed_answers (late : bool) (os : list cop) (q : list byte) : list (result nerr (list byte)) :=
  match os with
  | [] => []
  | o :: os => (closed_spec late o q).1 :: closed_answers late os (closed_spec late o q).2
  end.

Definition cop_ok (o : cop) : Prop := match o with ORead n => 0 ≤ n | _ => True end.

(** ** States *)

(** All jobs closed, none running. *)
Definition closed_closer : closer :=
  Closer (EUJob unlocked true) (EUJob unlocked true) (EBJob false true)
    (CJob (RW 0 false) true) (EBJob false true) true.

Definition deadline_passed (t : option timer) (now : Z) : bool :=
  match t with
  | Some t => match tm_deadline t with Some d => bool_decide (d < now) | None => false end
  | None => false
  end.

Definition write_late c : bool := deadline_passed (tc_wtimer c) (tc_clock c).

(** A connection that [Close] has left, with the bytes not read yet. *)
Record closed_conn c (q : list byte) : Prop := {
  cd_closer : tc_closer c = closed_closer;
  cd_finished : ch_closed (tc_closedFinished c) = true;
  cd_buf : fixed_ok (tc_closedReadBuf c);
  cd_left : fixed_bytes (tc_closedReadBuf c) = q;
  cd_eof : fb_eofErr (tc_closedReadBuf c) = NConnClosed
}.

(** Nothing runs on the connection and nobody has closed it. *)
Definition timers_of c : list tid :=
  option_list (tc_idleTimer c) ++ option_list (tc_writeIdleTimer c) ++ option_list (tc_readIdleTimer c).

Record at_rest c : Prop := {
  ar_closer : tc_closer c = zero_closer;
  ar_trigger : ch_closed (tc_readTrigger c) = false;
  ar_finished : ch_closed (tc_closedFinished c) = false;
  ar_buf : fixed_ok (tc_closedReadBuf c) ∧ fixed_bytes (tc_closedReadBuf c) = [] ∧
           fb_eofErr (tc_closedReadBuf c) = NConnClosed;
  ar_timers : Forall (λ t, is_Some (timers (tc_wheel c) !! t)) (timers_of c);
  ar_open : nfd_closed (tc_nfd c) = false;
  ar_desc desc : nfd_desc (tc_nfd c) = Some desc → served (net_of c) desc
}.

(** ** Single steps *)

Lemma closer_alone {R} (p : prog closer R) c r cl :
  run_prog p (tc_closer c) = Some (r, cl) →
  run_alone (of_job tc_closer set_closer p) c = Some (Ret (r, set_closer cl c)).
Proof. apply run_of_job; by intros []. Qed.

Lemma set_closer_id c : set_closer (tc_closer c) c = c.
Proof. by destruct c. Qed.

Lemma set_inBuffer_id c : set_inBuffer (tc_inBuffer c) c = c.
Proof. by destruct c. Qed.

(** A job that was closed cannot be started. *)
Lemma refused_alone k c :
  tc_closer c = closed_closer → 0 ≤ k ≤ closeAll →
  run_alone (of_job tc_closer set_closer (beginJobSafely k)) c = Some (Ret (false, c)).
Proof.
  intros Hc Hk. erewrite closer_alone; [by rewrite set_closer_id|]. rewrite Hc.
  assert (k = 0 ∨ k = 1 ∨ k = 2 ∨ k = 3 ∨ k = 4 ∨ k = 5) as Hcases by (unfold closeAll in Hk; lia).
  by destruct Hcases as [->|[->|[->|[->|[->| ->]]]]].
Qed.

Lemma metric_alone name c :
  0 ≤ name → ∃ t, run_alone (metrics_Add name) c = Some (Ret ((), set_net (NetEnv (tc_nfd c) (tc_poll c) t) c)).
Proof.
  intros Hn. assert (∃ t, Metrics.Add name 1 (pw_metrics (tc_postpone c)) = Ret ((), t)) as [t Ht].
  { unfold Metrics.Add. case_decide; [by eexists|]. rewrite decide_False by lia. by eexists. }
  exists t. unfold metrics_Add, on_net.
  apply (run_method net_of set_net). unfold metric. by apply (zoom_Ret ne_metrics set_nmetrics).
Qed.

(** ** The read methods afterwards *)

Lemma fixed_alone {A} (m : M (FixedReadBuffer nerr) (result (ferr nerr) A)) c x b :
  m (tc_closedReadBuf c) = Ret (x, b) →
  run_alone (on_closedReadBuf m) c = Some (Ret (fixed_error x, set_closedReadBuf b c)).
Proof. intros Hm. unfold on_closedReadBuf. arun (run_method tc_closedReadBuf set_closedReadBuf _ _ _ _ Hm). done. Qed.

Lemma api_read_alone {A} (inner outer : T (result nerr A)) c q :
  closed_conn c q → run_alone (api_read inner outer) c = run_alone outer c.
Proof.
  intros Hc. unfold api_read, tc_begin.
  arun (refused_alone kApiRead c (cd_closer _ _ Hc) ltac:(by compute)). cbv iota. apure. apure.
  assert (Hn : run_alone (needReadFromClosedReadBuf (Some NConnClosed)) c = Some (Ret (true, c))).
  { unfold needReadFromClosedReadBuf, IsActive. apure. rewrite (cd_closer _ _ Hc). done. }
  arun Hn. cbv iota.
  assert (Hw : run_alone waitReadFromClosedReadBuf c = Some (Ret ((), c))).
  { unfold waitReadFromClosedReadBuf. apure. unfold await, atomic. cbn. by rewrite (cd_finished _ _ Hc). }
  by arun Hw.
Qed.

Lemma closed_conn_buf c q b q' :
  closed_conn c q → fixed_ok b → fixed_bytes b = q' → fb_eofErr b = fb_eofErr (tc_closedReadBuf c) →
  closed_conn (set_closedReadBuf b c) q'.
Proof. intros [H1 H2 H3 H4 H5] Hb Hq He. split; simpl; try done. congruence. Qed.

(** One operation. *)
Definition answers (late : bool) (fuel : nat) (o : cop) c (q : list byte) : Prop :=
  ∃ b, let c' := set_closedReadBuf b c in
       run_alone (perform_closed fuel o) c = Some (Ret ((closed_spec late o q).1, c')) ∧
       closed_conn c' (closed_spec late o q).2.

Lemma set_closedReadBuf_id c : set_closedReadBuf (tc_closedReadBuf c) c = c.
Proof. by destruct c. Qed.

Lemma answers_same late fuel o c q :
  closed_conn c q → (closed_spec late o q).2 = q →
  run_alone (perform_closed fuel o) c = Some (Ret ((closed_spec late o q).1, c)) → answers late fuel o c q.
Proof.
  intros Hc Hq Hr. exists (tc_closedReadBuf c). rewrite set_closedReadBuf_id. by rewrite Hq.
Qed.

(** The two specifications of taking bytes agree. *)
Lemma take_answer_fixed (n : Z) (consume : bool) (b : FixedReadBuffer nerr) :
  fb_eofErr b = NConnClosed →
  take_answer n (fixed_bytes b) = fixed_error (fixed_take_spec n consume b).1 ∧
  (fixed_take_spec n consume b).2
  = match take_answer n (fixed_bytes b) with Ok _ => if consume then zdrop n (fixed_bytes b) else fixed_bytes b | Err _ => fixed_bytes b end.
Proof.
  intros He. unfold take_answer, fixed_take_spec. rewrite He. repeat case_decide; done.
Qed.

Lemma answers_take late fuel o c q x b :
  closed_conn c q → run_alone (perform_closed fuel o) c = Some (Ret (x, set_closedReadBuf b c)) →
  fixed_ok b → fb_eofErr b = fb_eofErr (tc_closedReadBuf c) →
  closed_spec late o q = (x, fixed_bytes b) → answers late fuel o c q.
Proof.
  intros Hc Hr Hb He Hs. exists b. rewrite Hs. cbn zeta. split; [exact Hr|]. by eapply closed_conn_buf.
Qed.

Lemma take_spec_queue n consume (b : FixedReadBuffer nerr) q :
  fixed_bytes b = q → fb_eofErr b = NConnClosed →
  let x := take_answer n q in
  fixed_error (fixed_take_spec n consume b).1 = x ∧
  (fixed_take_spec n consume b).2 = match x with Ok _ => if consume then zdrop n q else q | Err _ => q end.
Proof.
  intros <- He. cbn. destruct (take_answer_fixed n consume b He) as [-> ->]. by split.
Qed.

(** The operations that a closed connection refuses. *)
Definition refused_op (o : cop) : Prop :=
  match o with ORead _ | OReadN _ | ONext _ | OPeek _ | OSkip _ => False | _ => True end.

Lemma refused_op_ok late fuel o c q :
  refused_op o → write_late c = late → closed_conn c q → answers late fuel o c q.
Proof.
  intros Ho Hl Hc. pose proof (cd_closer _ _ Hc) as Hcl.
  destruct o as [n|n|n|n|n|p| | | |]; [done..| | | | |].
  - apply answers_same; [done..|]. cbn [perform_closed closed_spec fst].
    assert (HW : run_alone (tc_Writev sock_Close run_closed p) c
                 = Some (Ret ((0, Some (if late then NTimeout else NConnClosed)), c))); [|by arun HW].
    unfold tc_Writev, write_expired. apure. fold (deadline_passed (tc_wtimer c) (tc_clock c)). fold (write_late c). rewrite Hl. destruct late; [done|].
    by arun (refused_alone kApiWrite c Hcl ltac:(by compute)).
  - apply answers_same; [done..|]. cbn [perform_closed closed_spec fst].
    assert (HW : run_alone Len c = Some (Ret (0, c))); [|by arun HW].
    unfold Len. by arun (refused_alone kApiCtrl c Hcl ltac:(by compute)).
  - apply answers_same; [done..|]. cbn [perform_closed closed_spec fst].
    unfold IsActive. apure. by rewrite Hcl.
  - apply answers_same; [done..|]. cbn [perform_closed closed_spec fst]. unfold nothing.
    assert (HW : run_alone tc_Release c = Some (Ret ((), c))); [|by arun HW].
    unfold tc_Release. by arun (refused_alone kApiRead c Hcl ltac:(by compute)).
  - apply answers_same; [done..|]. cbn [perform_closed closed_spec fst]. unfold nothing.
    assert (HW : run_alone (Close sock_Close run_closed) c = Some (Ret ((), c))); [|by arun HW].
    unfold Close. by arun (refused_alone Closer.closeAll c Hcl ltac:(by compute)).
Qed.

Lemma closed_op_ok late fuel o c q :
  cop_ok o → write_late c = late → closed_conn c q → answers late fuel o c q.
Proof.
  intros Ho Hl Hc. pose proof (cd_buf _ _ Hc) as Hb. pose proof (cd_left _ _ Hc) as Hq.
  pose proof (cd_eof _ _ Hc) as He.
  destruct o as [n|n|n|n|n|p| | | |]; try by apply refused_op_ok.
  - destruct (decide (n = 0)) as [->|Hn].
    { by apply answers_same. }
    destruct (fb_Read_ok _ n Hb Ho) as (b & Hr & Hbok & Hbq & Hbe).
    unfold fixed_read_spec in *. rewrite decide_False, Hq, He in Hr, Hbq by done.
    eapply answers_take; [done| |exact Hbok|exact Hbe|].
    + cbn [perform_closed]. unfold tc_Read. rewrite decide_False by done.
      erewrite run_alone_bind by (erewrite api_read_alone by done; apply fixed_alone; exact Hr). reflexivity.
    + cbn [closed_spec]. rewrite (decide_False (P := n = 0)), Hbq by done. by repeat case_decide.
  - destruct (fb_ReadN_ok _ n Hb) as (b & Hr & Hbok & Hbq & Hbe).
    destruct (take_spec_queue n true _ q Hq He) as [E1 E2].
    eapply answers_take; [done| |exact Hbok|exact Hbe|].
    + cbn [perform_closed]. unfold tc_ReadN. erewrite api_read_alone by done. by apply fixed_alone.
    + cbn [closed_spec]. by rewrite Hbq, E1, E2.
  - destruct (fb_Next_ok _ n Hb) as (b & Hr & Hbok & Hbq & Hbe).
    destruct (take_spec_queue n true _ q Hq He) as [E1 E2].
    eapply answers_take; [done| |exact Hbok|exact Hbe|].
    + cbn [perform_closed]. unfold tc_Next. erewrite api_read_alone by done. by apply fixed_alone.
    + cbn [closed_spec]. by rewrite Hbq, E1, E2.
  - destruct (take_spec_queue n false _ q Hq He) as [E1 E2].
    eapply answers_take; [done| |exact Hb|done|].
    + cbn [perform_closed]. unfold tc_Peek. erewrite api_read_alone by done. apply fixed_alone. by apply fb_Peek_ok.
    + cbn [closed_spec]. by rewrite Hq, E1.
  - destruct (fb_Skip_ok _ n Hb) as (b & Hr & Hbok & Hbq & Hbe).
    destruct (take_spec_queue n true _ q Hq He) as [E1 E2].
    eapply answers_take; [done| |exact Hbok|exact Hbe|].
    + cbn [perform_closed]. unfold tc_Skip.
      erewrite run_alone_bind by (erewrite api_read_alone by done; apply fixed_alone; exact Hr). reflexivity.
    + cbn [closed_spec]. rewrite Hbq, E2, <-E1. by destruct (fixed_take_spec n true (tc_closedReadBuf c)) as [[?|[]] ?].
Qed.

(** Any number of operations. *)
Lemma closed_ops_ok late fuel os c q :
  Forall cop_ok os → write_late c = late → closed_conn c q →
  ∃ b, run_alone (perform_all fuel os) c = Some (Ret (closed_answers late os q, set_closedReadBuf b c)).
Proof.
  revert c q. induction os as [|o os IH]; intros c q Hos Hl Hc.
  { exists (tc_closedReadBuf c). by rewrite set_closedReadBuf_id. }
  apply Forall_cons_1 in Hos as [Ho Hos]. cbn [perform_all closed_answers].
  destruct (closed_op_ok late fuel o c q Ho Hl Hc) as (b & Hr & Hc'). cbn zeta in *. arun Hr.
  destruct (IH (set_closedReadBuf b c) _ Hos Hl Hc') as (b' & Hr'). exists b'. by arun Hr'.
Qed.

(** ** Close *)

Lemma store_alone wi c q :
  holds wi (tc_inBuffer c) q → fixed_ok (tc_closedReadBuf c) → fixed_bytes (tc_closedReadBuf c) = [] →
  fb_eofErr (tc_closedReadBuf c) = NConnClosed →
  ∃ ib bf tk, run_alone storeReadBuffer c
              = Some (Ret ((), set_closedReadBuf bf (set_taken tk (set_inBuffer ib c)))) ∧
    holds wi ib [] ∧ fixed_ok bf ∧ fixed_bytes bf = q ∧ fb_eofErr bf = NConnClosed.
Proof.
  intros Hh Hok Hb He. destruct (holds_len _ _ _ Hh) as [Hl Hlt]. unfold storeReadBuffer.
  assert (HL : run_alone in_LenRead c = Some (Ret (zlen q, c))).
  { unfold in_LenRead. cbn. unfold on_in, zoom, LenRead, gets. by rewrite Hl, set_inBuffer_id. }
  arun HL. case_decide as Hz.
  - apply zlen_0_inv in Hz as ->. exists (tc_inBuffer c), (tc_closedReadBuf c), (tc_taken c).
    split; [by destruct c|done].
  - destruct (Read_ok wi _ q (zlen q) Hh (zlen_nonneg q)) as (ib & Hr & Hib & _).
    rewrite Z.min_id, ztake_ge in Hr by lia. rewrite zdrop_ge in Hib by lia.
    assert (HR : run_alone (in_Read (zlen q)) c
                 = Some (Ret (Ok (zlen q, q), set_taken (tc_taken c ++ q) (set_inBuffer ib c)))).
    { apply run_atomically. erewrite bind_Ret by (apply zoom_Ret; exact Hr). done. }
    arun HR. cbv beta iota. eexists ib, _, _. split; [reflexivity|].
    destruct (fb_Initialize_ok (of_bytes q) NConnClosed) as [H1 H2]; [apply of_bytes_ok|by cbn|].
    rewrite s_bytes_of_bytes in H2. done.
Qed.

Definition stopped_timer (o : option timer) : option timer :=
  (λ t, match tm_timer t with None => t | Some g => MkTimer None (Some (stopped_and_drained g)) end) <$> o.

Lemma stop_timer_alone (field : conn → option timer) upd c :
  upd (field c) c = c → run_alone (stop_timer field upd) c = Some (Ret ((), upd (stopped_timer (field c)) c)).
Proof.
  intros Hid. unfold stop_timer, write, atomically, atomic. cbn. unfold modify.
  destruct (field c) as [t|] eqn:E; [done|]. simpl. by rewrite Hid.
Qed.

(** Timers are only marked as deleted. *)
Definition deactivated (w w' : TimeWheel) (ts : list tid) : Prop :=
  dom (timers w') = dom (timers w) ∧
  (∀ t x, timers w' !! t = Some x → t ∈ ts → t_isActive x = false) ∧
  (∀ t x, timers w !! t = Some x → t_isActive x = false → ∃ x', timers w' !! t = Some x' ∧ t_isActive x' = false).

Lemma delete_timer_alone (field : conn → option tid) c :
  Forall (λ t, is_Some (timers (tc_wheel c) !! t)) (option_list (field c)) →
  ∃ w, run_alone (delete_timer field) c = Some (Ret ((), set_wheel w c)) ∧
       deactivated (tc_wheel c) w (option_list (field c)).
Proof.
  intros Ht. unfold delete_timer. apure. destruct (field c) as [t|] eqn:E; cycle 1.
  { exists (tc_wheel c). split; [by destruct c|]. split; [done|]. split; [by intros ??? ?%elem_of_nil|]. intros. by eexists. }
  apply Forall_singleton in Ht as [x Hx].
  assert (HD : ∃ w, AsyncTimer.Del t (tc_wheel c) = Ret ((), w) ∧
                    timers w = alter (AsyncTimer.set_active false) t (timers (tc_wheel c))).
  { unfold AsyncTimer.Del. erewrite bind_Ret by (by apply load_timer_ok). by eexists. }
  destruct HD as (w & HD & Hw). exists w. split; [by apply (run_method tc_wheel set_wheel)|].
  unfold deactivated. rewrite Hw. split; [by rewrite dom_alter_L|]. split.
  - intros t' x' Hl ->%list_elem_of_singleton. rewrite lookup_alter_eq, Hx in Hl. by injection Hl as <-.
  - intros t' x' Hl Ha. destruct (decide (t' = t)) as [->|Hn].
    + rewrite lookup_alter_eq, Hl. by eexists.
    + rewrite lookup_alter_ne by done. by exists x'.
Qed.

(** What [Close] leaves behind. *)
Record released c c' : Prop := {
  re_trigger : ch_closed (tc_readTrigger c') = true;
  re_socket : nfd_closed (tc_nfd c') = true ∧ nfd_desc (tc_nfd c') = None;
  re_world : ep_world (tc_poll c') = after_close sock_Close (net_of c);
  re_buffers : heap (tc_inBuffer c') = ∅ ∧ heap (tc_outBuffer c') = ∅ ∧
               mcache_ok (mc (tc_inBuffer c')) ∧ mcache_ok (mc (tc_outBuffer c'));
  re_service s : tc_service c = Some s → ∃ s', tc_service c' = Some s' ∧ sv_conns s' = delete (nfd_fd (tc_nfd c)) (sv_conns s);
  re_noservice : tc_service c = None → tc_service c' = None;
  re_timers t x : t ∈ timers_of c → timers (tc_wheel c') !! t = Some x → t_isActive x = false
}.

Lemma deactivated_known w w' ts ts' :
  deactivated w w' ts → Forall (λ t, is_Some (timers w !! t)) ts' → Forall (λ t, is_Some (timers w' !! t)) ts'.
Proof.
  intros (Hd & _). apply Forall_impl. intros t Ht. apply elem_of_dom. rewrite Hd. by apply elem_of_dom.
Qed.

Lemma deactivated_trans w1 w2 w3 ts ts' :
  deactivated w1 w2 ts → deactivated w2 w3 ts' → deactivated w1 w3 (ts ++ ts').
Proof.
  intros (D1 & A1 & K1) (D2 & A2 & K2). split; [congruence|]. split.
  - intros t x Hx [Hin|Hin]%elem_of_app; [|by eapply A2].
    assert (is_Some (timers w2 !! t)) as [x2 Hx2] by (apply elem_of_dom; rewrite <-D2; apply elem_of_dom; by eexists).
    destruct (K2 t x2 Hx2 (A1 _ _ Hx2 Hin)) as (x' & Hx' & ?). congruence.
  - intros t x Hx Ha. destruct (K1 t x Hx Ha) as (x' & Hx' & Ha'). eauto.
Qed.

(** Deleting the three idle timers. *)
Lemma delete_timers_alone c :
  Forall (λ t, is_Some (timers (tc_wheel c) !! t)) (timers_of c) →
  ∃ w,
    (∀ k : T (), run_alone (_ ← delete_timer tc_idleTimer; _ ← delete_timer tc_writeIdleTimer;
                            _ ← delete_timer tc_readIdleTimer; k) c = run_alone k (set_wheel w c)) ∧
       deactivated (tc_wheel c) w (timers_of c).
Proof.
  intros [Hf1 [Hf2 Hf3]%Forall_app]%Forall_app.
  destruct (delete_timer_alone tc_idleTimer c Hf1) as (w1 & H1 & D1). set (c1 := set_wheel w1 c) in H1.
  destruct (delete_timer_alone tc_writeIdleTimer c1 (deactivated_known _ _ _ _ D1 Hf2)) as (w2 & H2 & D2).
  set (c2 := set_wheel w2 c1) in H2. pose proof (deactivated_trans _ _ _ _ _ D1 D2) as D12.
  destruct (delete_timer_alone tc_readIdleTimer c2 (deactivated_known _ _ _ _ D12 Hf3)) as (w3 & H3 & D3).
  exists w3. split; [intros k; arun H1; arun H2; by arun H3|].
  pose proof (deactivated_trans _ _ _ _ _ D12 D3) as D123. by rewrite <-app_assoc in D123.
Qed.

(** A user's close handler that returns without touching the connection. *)
Definition harmless (h : option H) : Prop :=
  ∀ h', h = Some h' → ∀ c, run_alone (run_closed h') c = Some (Ret ((), c)).

Lemma close_chan_alone (proj : conn → chan) upd c :
  ch_closed (proj c) = false →
  run_alone (close_chan proj upd) c = Some (Ret ((), upd (Chan (ch_full (proj c)) true) c)).
Proof. intros Hc. apply run_atomically. by rewrite Hc. Qed.

Lemma on_net_alone {A} (m : M (net_env D CB W) A) c x e :
  m (net_of c) = Ret (x, e) → run_alone (on_net m) c = Some (Ret (x, set_net e c)).
Proof. apply (run_method net_of set_net). Qed.

Lemma deleteConn_alone c :
  ∃ sv, run_alone (write (λ c, match tc_service c with
                               | None => c
                               | Some s => match deleteConn (nfd_fd (tc_nfd c)) s with
                                           | Ret (_, s) => set_service (Some s) c
                                           | _ => c
                                           end
                               end)) c = Some (Ret ((), set_service sv c)) ∧
    (tc_service c = None → sv = None) ∧
    ∀ s, tc_service c = Some s → ∃ s', sv = Some s' ∧ sv_conns s' = delete (nfd_fd (tc_nfd c)) (sv_conns s).
Proof.
  unfold write, atomically, atomic, modify. cbn.
  destruct (tc_service c) as [s|] eqn:E; [|exists None; split; [by destruct c; simpl in *; subst|done]].
  unfold deleteConn, get. unfold mbind, M_bind. destruct (sv_conns s !! nfd_fd (tc_nfd c)) as [x|] eqn:Ex; cbn.
  - eexists. split; [reflexivity|]. split; [done|]. intros ? [= <-]. by eexists.
  - exists (Some s). split; [done|]. split; [done|]. intros ? [= <-]. exists s. by rewrite delete_id.
Qed.

(** What the steps of [Close] up to the user's handler leave alone. *)
Record close_frame c c' : Prop := {
  cf_handle : tc_closeHandle c' = tc_closeHandle c;
  cf_out : tc_outBuffer c' = tc_outBuffer c;
  cf_timers : timers_of c' = timers_of c;
  cf_wheel : tc_wheel c' = tc_wheel c;
  cf_service : tc_service c' = tc_service c;
  cf_net : tc_nfd c' = tc_nfd c ∧ tc_poll c' = tc_poll c;
  cf_late : tc_wtimer c' = tc_wtimer c ∧ tc_clock c' = tc_clock c
}.

Lemma close_stores wi c q :
  at_rest c → holds wi (tc_inBuffer c) q →
  ∃ c',
    (∀ k : T (), run_alone
      (first ← tc_begin Closer.closeAll;
       if negb first then Fin ()
       else
         _ ← tc_closeJob kSysRead; _ ← close_chan tc_readTrigger set_readTrigger; _ ← tc_closeAllJobs;
         _ ← storeReadBuffer; _ ← close_chan tc_closedFinished set_closedFinished; k) c = run_alone k c') ∧
    closed_conn c' q ∧ holds wi (tc_inBuffer c') [] ∧ ch_closed (tc_readTrigger c') = true ∧ close_frame c c'.
Proof.
  intros [Hcl Htr Hfi (Hb1 & Hb2 & Hb3) _ _ _] Hin.
  set (cl1 := Closer job_zero job_zero job_zero job_zero job_zero true). set (c1 := set_closer cl1 c).
  assert (Hs1 : run_alone (tc_begin Closer.closeAll) c = Some (Ret (true, c1)))
    by (apply closer_alone; by rewrite Hcl).
  set (cl2 := Closer (EUJob unlocked true) job_zero job_zero job_zero job_zero true). set (c2 := set_closer cl2 c1).
  assert (Hs2 : run_alone (tc_closeJob kSysRead) c1 = Some (Ret ((), c2))) by (by apply closer_alone).
  pose proof (close_chan_alone tc_readTrigger set_readTrigger c2 Htr) as Hs3. set (c3 := set_readTrigger _ c2) in Hs3.
  set (c4 := set_closer closed_closer c3).
  assert (Hs4 : run_alone tc_closeAllJobs c3 = Some (Ret ((), c4))) by (by apply closer_alone).
  destruct (store_alone wi c4 q Hin Hb1 Hb2 Hb3) as (ib & bf & tk & Hs5 & Hib & Hbf & Hbq & Hbe).
  set (c5 := set_closedReadBuf bf _) in Hs5.
  pose proof (close_chan_alone tc_closedFinished set_closedFinished c5 Hfi) as Hs6.
  eexists. split.
  { intros k. arun Hs1. cbn [negb]. cbv iota. arun Hs2. arun Hs3. arun Hs4. arun Hs5. arun Hs6. reflexivity. }
  split; [split; [reflexivity|reflexivity|exact Hbf|exact Hbq|exact Hbe]|].
  split; [exact Hib|]. split; [reflexivity|]. split; [reflexivity..|split; reflexivity|split; reflexivity].
Qed.

(** The rest, from a state of which only what matters is known. *)
Lemma close_gives_back wi wo c qo :
  holds wi (tc_inBuffer c) [] → holds wo (tc_outBuffer c) qo → nfd_closed (tc_nfd c) = false →
  (∀ desc, nfd_desc (tc_nfd c) = Some desc → served (net_of c) desc) → tc_closer c = closed_closer →
  ∃ c', run_alone
      (_ ← on_net (nfd_close sock_Close); _ ← atomically (on_in BufferFree); _ ← atomically (on_out BufferFree);
       _ ← metrics_Add Metrics.TCPConnsClose; tc_end Closer.closeAll) c = Some (Ret ((), c')) ∧
    (nfd_closed (tc_nfd c') = true ∧ nfd_desc (tc_nfd c') = None) ∧
    ep_world (tc_poll c') = after_close sock_Close (net_of c) ∧
    (heap (tc_inBuffer c') = ∅ ∧ heap (tc_outBuffer c') = ∅ ∧
     mcache_ok (mc (tc_inBuffer c')) ∧ mcache_ok (mc (tc_outBuffer c'))) ∧
    (∀ q, closed_conn c q → closed_conn c' q) ∧
    (tc_readTrigger c' = tc_readTrigger c ∧ tc_service c' = tc_service c ∧ tc_wheel c' = tc_wheel c) ∧
    write_late c' = write_late c.
Proof.
  intros Hin Hout Hop Hde Hcl.
  destruct (nfd_close_ok sock_Close (net_of c) Hop Hde) as (e & He & Hec & Hed & Hew).
  pose proof (on_net_alone _ _ _ _ He) as Hs1. set (c1 := set_net e c) in Hs1.
  destruct (BufferFree_ok _ _ _ Hin) as (ib & HF1 & Hh1 & _ & _ & _ & _ & _ & Hm1).
  set (c2 := set_inBuffer ib c1).
  assert (Hs2 : run_alone (atomically (on_in BufferFree)) c1 = Some (Ret ((), c2)))
    by (apply run_atomically, zoom_Ret; exact HF1).
  destruct (BufferFree_ok _ _ _ Hout) as (ob & HF2 & Hh2 & _ & _ & _ & _ & _ & Hm2).
  set (c3 := set_outBuffer ob c2).
  assert (Hs3 : run_alone (atomically (on_out BufferFree)) c2 = Some (Ret ((), c3)))
    by (apply run_atomically, zoom_Ret; exact HF2).
  destruct (metric_alone Metrics.TCPConnsClose c3) as (tb & Hs4); [by compute|]. set (c4 := set_net _ c3) in Hs4.
  assert (Hs5 : run_alone (tc_end Closer.closeAll) c4 = Some (Ret ((), set_closer (tc_closer c) c4))).
  { apply closer_alone. change (tc_closer c4) with (tc_closer c). by rewrite Hcl. }
  exists (set_closer (tc_closer c) c4). split; [arun Hs1; arun Hs2; arun Hs3; arun Hs4; exact Hs5|].
  split; [done|]. split; [exact Hew|]. split; [done|].
  split; [|by split; [split|reflexivity]]. intros q [K1 K2 K3 K4 K5]. split; [exact Hcl|exact K2|exact K3|exact K4|exact K5].
Qed.

(** Whether writes on the closed connection answer with the timeout. *)
Definition late_after_close c : bool := deadline_passed (stopped_timer (tc_wtimer c)) (tc_clock c).

Lemma close_alone wi wo c q qo :
  at_rest c → holds wi (tc_inBuffer c) q → holds wo (tc_outBuffer c) qo → harmless (tc_closeHandle c) →
  ∃ c', run_alone (Close sock_Close run_closed) c = Some (Ret ((), c')) ∧ closed_conn c' q ∧ released c c' ∧
    write_late c' = late_after_close c.
Proof.
  intros Hrest Hin Hout Hh. destruct (close_stores wi c q Hrest Hin) as (c1 & Hrun & Hc1 & Hin1 & Htr1 & Hf).
  unfold Close. rewrite Hrun. clear Hrun. destruct Hf as [Eh Eo Et Ew Es [En Ep] [El Ek]]. destruct Hrest as [_ _ _ _ Hti Hop Hde].
  apure. rewrite Eh.
  assert (Hs2 : run_alone (match tc_closeHandle c with Some h => run_closed h | None => Fin () end) c1
                = Some (Ret ((), c1))) by (destruct (tc_closeHandle c) as [h|]; [by apply Hh|done]).
  arun Hs2. clear Hs2.
  assert (Hs3 := stop_timer_alone tc_rtimer set_rtimer c1 ltac:(by destruct c1)).
  arun Hs3. clear Hs3. set (c2 := set_rtimer _ c1).
  assert (Hs4 := stop_timer_alone tc_wtimer set_wtimer c2 ltac:(by destruct c1)).
  arun Hs4. clear Hs4. set (c3 := set_wtimer _ c2).
  destruct (deleteConn_alone c3) as (sv & Hs5 & Hsn & Hsv). arun Hs5. clear Hs5. set (c4 := set_service sv c3).
  rewrite <-Ew in Hti. rewrite <-Et in Hti.
  destruct (delete_timers_alone c4 Hti) as (w & Hs6 & Hdw). rewrite Hs6. set (c5 := set_wheel w c4).
  destruct (close_gives_back wi wo c5 qo) as (c6 & Hs7 & Hn & Hw & Hb & Hk & (Etr & Esv & Ewh) & Hla).
  - exact Hin1.
  - change (holds wo (tc_outBuffer c1) qo). by rewrite Eo.
  - change (nfd_closed (tc_nfd c1) = false). by rewrite En.
  - intros desc Hd. change (served (net_of c1) desc). change (nfd_desc (tc_nfd c1) = Some desc) in Hd.
    rewrite En in Hd. specialize (Hde desc Hd). unfold served, net_of in *. simpl in *. by rewrite Ep, En.
  - exact (cd_closer _ _ Hc1).
  - exists c6. split; [exact Hs7|]. split; [apply Hk|split; [split|]].
    + destruct Hc1 as [K1 K2 K3 K4 K5]. split; [exact K1|exact K2|exact K3|exact K4|exact K5].
    + by rewrite Etr.
    + exact Hn.
    + rewrite Hw. unfold after_close, net_of. simpl. by rewrite Ep, En.
    + exact Hb.
    + intros s Hs. rewrite Esv. rewrite <-Es in Hs. destruct (Hsv s Hs) as (s' & Hs' & Hd). exists s'.
      split; [exact Hs'|]. rewrite Hd. change (tc_nfd c3) with (tc_nfd c1). by rewrite En.
    + intros Hs. rewrite Esv. apply Hsn. change (tc_service c1 = None). by rewrite Es.
    + intros t x Ht Hx. rewrite Ewh in Hx. rewrite <-Et in Ht.
      eapply (proj1 (proj2 Hdw)); [exact Hx|exact Ht].
    + rewrite Hla. unfold late_after_close. by rewrite <-El, <-Ek.
Qed.


(** C9: after [Close] a connection refines the queue of the bytes that were received
    and not read: any sequence of calls answers as [closed_spec] says.  The read methods
    deliver these bytes in order and then [ErrConnClosed], [Peek] consumes nothing,
    writes are refused, [Len] is zero and closing again does nothing. *)
Theorem closed_connection_refines_queue (wi wo : bool) (fuel : nat) (os : list cop) c (q qo : list byte) :
  at_rest c → holds wi (tc_inBuffer c) q → holds wo (tc_outBuffer c) qo → harmless (tc_closeHandle c) →
  Forall cop_ok os →
  ∃ c1 c2, run_alone (Close sock_Close run_closed) c = Some (Ret ((), c1)) ∧
           run_alone (perform_all fuel os) c1 = Some (Ret (closed_answers (late_after_close c) os q, c2)).
Proof.
  intros Hr Hi Ho Hh Hos. destruct (close_alone wi wo c q qo Hr Hi Ho Hh) as (c' & Hc' & Hcl & _ & Hl).
  destruct (closed_ops_ok (late_after_close c) fuel os c' q Hos Hl Hcl) as (b & Hb). by exists c', (set_closedReadBuf b c').
Qed.

End TcpClose.

(** *** An example: five bytes are unread *)

Definition unread_buffer : Buffer :=
  match LinkedBuffer.Writev false [of_bytes [1; 2; 3; 4; 5]] demo_buffer with Ret (_, b) => b | _ => demo_buffer end.

Lemma unread_buffer_holds : holds false unread_buffer [1; 2; 3; 4; 5].
Proof.
  destruct (Writev_ok false demo_buffer [] false [of_bytes [1; 2; 3; 4; 5]] (proj1 (demo_buffer_holds false)))
    as (k & b & Hr & (_ & Hk & _) & Hb & _); [by repeat constructor; vm_compute|by vm_compute|].
  unfold unread_buffer. rewrite Hr. rewrite Hk in Hb by done. exact Hb.
Qed.

Definition unread_conn : tcpconn nat nat script nat := set_inBuffer unread_buffer demo_conn.

Lemma unread_at_rest : at_rest unread_conn.
Proof.
  destruct (fb_Initialize_ok (of_bytes []) NConnClosed) as [H1 H2]; [by vm_compute|by vm_compute|].
  split; try done.
  - constructor; [by eexists|constructor].
  - intros desc [= <-]. by eexists.
Qed.


Lemma closed_connection_refines_queue_witness :
  ∃ c1 c2,
    run_alone (Close (λ _ w, w) (λ _, Fin ())) unread_conn = Some (Ret ((), c1)) ∧
    run_alone (perform_all (λ _ w, w) (λ _, Fin ()) 1 [ORead 2; OPeek 1; OWritev []; OClose; ONext 3; ORead 4]) c1
    = Some (Ret ([Ok [1; 2]; Ok [3]; Err NConnClosed; Ok []; Ok [3; 4; 5]; Err NConnClosed], c2)).
Proof.
  apply (closed_connection_refines_queue (λ _ w, w) (λ _, Fin ()) false true 1
           [ORead 2; OPeek 1; OWritev []; OClose; ONext 3; ORead 4] unread_conn [1; 2; 3; 4; 5] []).
  - exact unread_at_rest.
  - exact unread_buffer_holds.
  - exact (proj1 (demo_buffer_holds true)).
  - by intros h [=].
  - repeat (apply Forall_cons_2; [by vm_compute|]). apply Forall_nil_2.
Defined.
