(* ===== verification/TcpClosing.v ===== *)
(** * Closing a TCP connection while it is used (src/tcpconn.go)

    Any number of goroutines read from a connection, write to it, change its settings
    and close it, in any interleaving, while the poller, the goroutine pool and the
    timers call its handlers; user handlers are programs that use its methods.  The
    file follows them through [Close] and beyond:

    - once [Close] has announced that it is finished with the jobs, the buffers belong
      to the goroutine that closes: nobody else touches them ([tcp_no_use_after_free]);
    - nobody sends on or closes a channel that is closed ([tcp_channels_closed_once]);
    - on a blocking connection, [Close] is not blocked by readers that wait for data,
      and it wakes them all: when nobody can go on, every user's goroutine has
      returned ([tcp_close_leaves_no_sleeper]). *)

From stdpp Require Import base gmap sets list numbers.
From S2P Require Import Prelude MCache Node LinkedBuffer FixedBuffer AutoPostpone SafeJob Closer AsyncTimer Threads Track Timer Kernel IOVec DescCache Poller NetFD TcpService TcpConn TcpInv TcpSafety TcpGuard.

Local Open Scope Z_scope.

Create HintDb steady.

(** [overlooks] for the actions of a connection, by cases where they make cases. *)
Ltac overlook :=
  repeat first
    [ apply overlooks_bind; [|intros ?]
    | apply overlooks_zoom; [reflexivity|reflexivity]
    | apply overlooks_gets; reflexivity
    | apply overlooks_modify; reflexivity
    | apply overlooks_ret | apply overlooks_panic | apply overlooks_nofuel
    | progress case_match ].

Section Methods.
Context {D CB W H : Type} `{Kernel W}.
Variable sock_Close : Z → W → W.
Variable nb : bool.
Variable libs : list bool.
Abbreviation conn := (tcpconn D CB W H).
Abbreviation T := (thread conn).
Implicit Types (c : conn) (g : role).
Abbreviation trackg := (trackc (D := D) (CB := CB) (W := W) (H := H) nb libs).
Abbreviation steadyg := (steadyc (D := D) (CB := CB) (W := W) (H := H) nb libs).

Lemma steadyg_fin {R} (r : R) g : steadyg (Fin r) g.
Proof. apply steady_fin. Qed.

Lemma steadyg_bind {R R'} (p : T R) (f : R → T R') g :
  steadyg p g → (∀ r, steadyg (f r) g) → steadyg (p ≫= f) g.
Proof. apply steady_bind. Qed.

Lemma trackg_seq {R R'} (p : T R) (f : R → T R') g Q :
  steadyg p g → (∀ r, trackg (f r) g Q) → trackg (p ≫= f) g Q.
Proof. apply track_seq. Qed.

(** ** Actions *)

Lemma steady_on_net {A} (m : M (net_env D CB W) A) g : steadyg (on_net m) g.
Proof. apply steady_blind; overlook. Qed.
Lemma steady_on_postpone {A} (m : MPW A) g : steadyg (on_postpone m) g.
Proof. apply steady_blind; overlook. Qed.
Lemma steady_on_wheel {A} (m : MW A) g : steadyg (on_wheel m) g.
Proof. apply steady_blind; overlook. Qed.
Lemma steady_on_closedReadBuf {A} (m : M (FixedReadBuffer nerr) (result (ferr nerr) A)) g :
  steadyg (on_closedReadBuf m) g.
Proof. apply steadyg_bind; [apply steady_blind; overlook|]. intros r. apply steadyg_fin. Qed.

Lemma steady_write (f : conn → conn) g :
  (∀ v c, f (set_guards v c) = set_guards v (f c)) → (∀ v c, f (set_bufs v c) = set_bufs v (f c)) →
  steadyg (write f) g.
Proof. intros H1 H2. by apply steady_blind; apply overlooks_modify. Qed.

Lemma steady_out_of_fuel {A} g : steadyg (out_of_fuel : T A) g.
Proof. by apply steady_blind. Qed.
Lemma steady_panic {A} g : steadyg (atomically panic : T A) g.
Proof. by apply steady_blind. Qed.

Lemma steady_locker (proj : conn → Locker) upd (a : action Locker) {R} (r : bool → R) g :
  (∀ v c, proj (set_bufs v c) = proj c) → (∀ v l c, upd l (set_bufs v c) = set_bufs v (upd l c)) →
  (∀ l c, frames nb c (upd l c)) → (∀ l, a l ≠ None) →
  steadyg (of_job proj upd (Act a (λ b, Done (r b)))) g.
Proof.
  intros Hp Hu Hf Ha. split.
  - left. intros v c. rewrite Hp. destruct (a (proj c)) as [[b l]|]; simpl; [by rewrite Hu|done].
  - intros c gs i Hi HI. destruct (a (proj c)) as [[b l]|] eqn:E; [|by apply Ha in E].
    exists g. split; [|done]. apply (guarded_frames _ _ _ _ _ _ _ HI Hi), Hf.
Qed.

Lemma try_lock_ready l : Locker_TryLock l ≠ None.
Proof. unfold Locker_TryLock, cas_u32. by case_decide. Qed.

Lemma steady_writing_TryLock g : steadyg writing_TryLock g.
Proof. by apply (steady_locker _ _ _ id); try apply try_lock_ready. Qed.
Lemma steady_reading_TryLock g : steadyg reading_TryLock g.
Proof. by apply (steady_locker _ _ _ id); try apply try_lock_ready. Qed.
Lemma steady_writing_Unlock g : steadyg writing_Unlock g.
Proof. by apply (steady_locker _ _ _ (λ _, ())). Qed.
Lemma steady_reading_Unlock g : steadyg reading_Unlock g.
Proof. by apply (steady_locker _ _ _ (λ _, ())). Qed.

(** The buffers, for whom may touch them. *)
Lemma steady_in_LenRead g : may_touch g → steadyg in_LenRead g.
Proof. intros Ht. apply steady_touch; [overlook|done]. Qed.
Lemma steady_out_LenRead g : may_touch g → steadyg out_LenRead g.
Proof. intros Ht. apply steady_touch; [overlook|done]. Qed.
Lemma steady_on_in {A} (m : MB A) g : may_touch g → steadyg (atomically (on_in m)) g.
Proof. intros Ht. apply steady_touch; [overlook|done]. Qed.
Lemma steady_on_out {A} (m : MB A) g : may_touch g → steadyg (atomically (on_out m)) g.
Proof. intros Ht. apply steady_touch; [overlook|done]. Qed.
Lemma steady_in_Read n g : may_touch g → steadyg (in_Read n) g.
Proof. intros Ht. apply steady_touch; [overlook|done]. Qed.
Lemma steady_in_Next n g : may_touch g → steadyg (in_Next n) g.
Proof. intros Ht. apply steady_touch; [overlook|done]. Qed.
Lemma steady_in_Peek n g : may_touch g → steadyg (in_Peek n) g.
Proof. intros Ht. apply steady_touch; [overlook|done]. Qed.
Lemma steady_in_Skip n g : may_touch g → steadyg (in_Skip n) g.
Proof. intros Ht. apply steady_touch; [overlook|done]. Qed.
Lemma steady_in_Release g : may_touch g → steadyg in_Release g.
Proof. intros Ht. apply steady_touch; [overlook|done]. Qed.
Lemma steady_in_Fill g : may_touch g → steadyg in_Fill g.
Proof.
  intros Ht. apply steady_touch; [|done]. intros v c. unfold zoom. simpl.
  by destruct (FillFrom _ _ _ _) as [[r [bf n]]| |].
Qed.

(** ** Waiting *)

Lemma steady_IsActive g : steadyg IsActive g.
Proof. by apply steady_read. Qed.

Lemma recv_frames ch ch' : recv ch = Some ch' → ch_closed ch' = ch_closed ch.
Proof. unfold recv. destruct (ch_full ch), (ch_closed ch) eqn:E; intros [= <-]; done. Qed.

Lemma recv_waits ch : recv ch = None → ch_closed ch = false.
Proof. unfold recv. by destruct (ch_full ch), (ch_closed ch). Qed.

(** The role of a goroutine inside a job. *)
Lemma job_touch k g : may_touch (setPhase k PRun g).
Proof. left. exists k. apply getPhase_set. Qed.

Lemma waits_for_data c g :
  outside nb g → ch_closed (tc_readTrigger c) = false → explained nb c (setPhase apiRead PRun g).
Proof.
  intros [Hr Hs] Ht Hn. apply WaitsForData; [|done|done].
  intros k Hk. rewrite getPhase_set_ne by done. by apply (outside_idle nb).
Qed.

Lemma steady_recv_readTrigger g : outside nb g → steadyg recv_readTrigger (setPhase apiRead PRun g).
Proof.
  intros Ho. apply steady_await.
  - intros v c. simpl. by destruct (recv (tc_readTrigger c)).
  - intros c x c'. destruct (recv (tc_readTrigger c)) as [ch|] eqn:E; intros [= _ <-].
    split; [done|]. simpl. by rewrite (recv_frames _ _ E).
  - intros c. destruct (recv (tc_readTrigger c)) as [ch|] eqn:E; [done|]. intros _.
    apply waits_for_data; [done|by apply recv_waits].
Qed.

Lemma steady_select g : outside nb g → steadyg select_trigger_timer (setPhase apiRead PRun g).
Proof.
  intros Ho. apply steady_await.
  - intros v c. simpl. unfold flip. simpl.
    destruct (recv (tc_readTrigger c)), (tc_rtimer c) as [[? [[]|]]|]; simpl; try done;
      repeat case_match; by simplify_eq/=.
  - intros c x c' Hs. unfold flip in Hs.
    destruct (recv (tc_readTrigger c)) as [ch|] eqn:E, (tc_rtimer c) as [[? [[? []]|]]|], (tc_coins c) as [|[] ?];
      simplify_eq/=; (split; [done|]); simpl; rewrite ?(recv_frames _ _ E); done.
  - intros c Hs. apply waits_for_data; [done|]. apply recv_waits. unfold flip in Hs.
    by destruct (recv (tc_readTrigger c)), (tc_rtimer c) as [[? [[? []]|]]|], (tc_coins c) as [|[] ?].
Qed.

Lemma steady_on_rtimer {A} (m : MT A) g : steadyg (on_rtimer m) g.
Proof.
  apply steady_blind; intros v c; simpl; destruct (tc_rtimer c) as [t|]; simpl; try done;
    by destruct (m t) as [[? ?]| |].
Qed.

Lemma steady_waitReadFromClosedReadBuf g : outside nb g → steadyg waitReadFromClosedReadBuf g.
Proof.
  intros [Hr Hs]. apply steadyg_bind; [by apply steady_read|]. intros start. apply steady_await.
  - intros v c. simpl. by case_match.
  - intros c x c'. case_match; intros [= _ <-]. done.
  - intros c. case_match; [done|]. intros _ Hn. apply WaitsForClose; [by apply (outside_idle nb)|done|].
    by apply orb_false_iff in H1 as [? _].
Qed.

(** ** Entering and leaving jobs *)

Lemma enter {R} k (f : bool → T R) g Q :
  outside nb g → getPhase k g = PIdle →
  trackg (f true) (setPhase k PRun g) Q → trackg (f false) g Q →
  trackg (tc_begin (key_index k) ≫= f) g Q.
Proof.
  intros Ho Hk Ht Hf. apply track_bind. eapply track_mono; [by apply track_begin|].
  by intros [] g' ->.
Qed.

Lemma leave {R} k (f : () → T R) g Q :
  getPhase k g = PIdle → trackg (f ()) g Q → trackg (tc_end (key_index k) ≫= f) (setPhase k PRun g) Q.
Proof.
  intros Hk Hf. apply track_bind. eapply track_mono; [by apply track_end|]. by intros [] g' ->.
Qed.

Lemma outside_api g k : outside nb g → k ≠ sysRead → getPhase k g = PIdle.
Proof. intros [Hr _] Hk. destruct (Hr k) as [?|(_ & ? & _)]; done. Qed.

Lemma steady_and_then {A B} (p : T (result nerr A)) (f : A → T (result nerr B)) g :
  steadyg p g → (∀ x, steadyg (f x) g) → steadyg (and_then p f) g.
Proof. intros Hp Hf. apply steadyg_bind; [done|]. intros [x|e]; [done|apply steadyg_fin]. Qed.

Ltac touching := first [assumption | apply job_touch].

Ltac action :=
  lazymatch goal with
  | |- steadyc _ _ (on_net _) _ => apply steady_on_net
  | |- steadyc _ _ (metrics_Add _) _ => apply steady_on_net
  | |- steadyc _ _ (on_postpone _) _ => apply steady_on_postpone
  | |- steadyc _ _ (on_wheel _) _ => apply steady_on_wheel
  | |- steadyc _ _ (on_closedReadBuf _) _ => apply steady_on_closedReadBuf
  | |- steadyc _ _ (on_rtimer _) _ => apply steady_on_rtimer
  | |- steadyc _ _ out_of_fuel _ => apply steady_out_of_fuel
  | |- steadyc _ _ (atomically panic) _ => apply steady_panic
  | |- steadyc _ _ IsActive _ => apply steady_IsActive
  | |- steadyc _ _ writing_TryLock _ => apply steady_writing_TryLock
  | |- steadyc _ _ writing_Unlock _ => apply steady_writing_Unlock
  | |- steadyc _ _ reading_TryLock _ => apply steady_reading_TryLock
  | |- steadyc _ _ reading_Unlock _ => apply steady_reading_Unlock
  | |- steadyc _ _ in_LenRead _ => apply steady_in_LenRead; touching
  | |- steadyc _ _ out_LenRead _ => apply steady_out_LenRead; touching
  | |- steadyc _ _ (in_Read _) _ => apply steady_in_Read; touching
  | |- steadyc _ _ (in_Next _) _ => apply steady_in_Next; touching
  | |- steadyc _ _ (in_Peek _) _ => apply steady_in_Peek; touching
  | |- steadyc _ _ (in_Skip _) _ => apply steady_in_Skip; touching
  | |- steadyc _ _ in_Release _ => apply steady_in_Release; touching
  | |- steadyc _ _ in_Fill _ => apply steady_in_Fill; touching
  | |- steadyc _ _ (atomically (on_in _)) _ => apply steady_on_in; touching
  | |- steadyc _ _ (atomically (on_out _)) _ => apply steady_on_out; touching
  | |- steadyc _ _ (read _) _ => apply steady_read; reflexivity
  | |- steadyc _ _ (write _) _ => apply steady_write; reflexivity
  end.

(** A program action by action; what is left are the calls no hypothesis speaks of. *)
Ltac steadily :=
  repeat first
    [ match goal with Hs : steadyc _ _ ?p ?g |- steadyc _ _ ?p ?g => exact Hs end
    | action
    | lazymatch goal with
      | |- steadyc _ _ (Fin _) _ => apply steadyg_fin
      | |- steadyc _ _ (and_then _ _) _ => apply steady_and_then; [|intros ?]
      | |- steadyc _ _ (_ ≫= _) _ => apply steadyg_bind; [|intros ?]
      | |- steadyc _ _ (match ?x with _ => _ end) _ => destruct x
      | |- trackc _ _ ?p ?g _ => change (steadyg p g)
      | |- track _ _ _ _ ?p ?g _ => change (steadyg p g)
      end
    | progress cbn beta zeta ].

(** ** Reading *)

Lemma steady_wait_loop fuel n g : outside nb g → steadyg (wait_loop fuel n) (setPhase apiRead PRun g).
Proof.
  intros Ho. induction fuel as [|fuel IH]; cbn [wait_loop]; [action|]. pose proof (steady_recv_readTrigger g Ho). steadily.
Qed.

Lemma steady_timed_wait_loop fuel n g : outside nb g → steadyg (timed_wait_loop fuel n) (setPhase apiRead PRun g).
Proof.
  intros Ho. induction fuel as [|fuel IH]; cbn [timed_wait_loop]; [action|]. pose proof (steady_select g Ho). steadily.
Qed.

Lemma steady_waitRead fuel n g : outside nb g → steadyg (waitRead fuel n) (setPhase apiRead PRun g).
Proof.
  intros Ho. pose proof (steady_wait_loop fuel n g Ho). pose proof (steady_timed_wait_loop fuel n g Ho).
  unfold waitRead, waitReadWithTimeout, rtimer_set. steadily.
Qed.

Lemma steady_api_read {A} (inner outer : T (result nerr A)) g :
  outside nb g → steadyg inner (setPhase apiRead PRun g) → steadyg outer g →
  steadyg (api_read inner outer) g.
Proof.
  intros Ho Hi Hou. pose proof (steady_waitReadFromClosedReadBuf g Ho).
  apply (enter apiRead); [done|by apply outside_api| |].
  - apply (trackg_seq inner); [done|]. intros r. apply (leave apiRead); [by apply outside_api|].
    cbn beta. unfold needReadFromClosedReadBuf. steadily.
  - unfold needReadFromClosedReadBuf. steadily.
Qed.

Lemma steady_Read fuel n g : outside nb g → steadyg (tc_Read fuel n) g.
Proof.
  intros Ho. unfold tc_Read. case_decide; [apply steadyg_fin|]. pose proof (steady_waitRead fuel 1 g Ho).
  apply steady_api_read; [done|steadily..].
Qed.

Lemma steady_ReadN fuel n g : outside nb g → steadyg (tc_ReadN fuel n) g.
Proof.
  intros Ho. pose proof (steady_waitRead fuel n g Ho). apply steady_api_read; [done|steadily..].
Qed.

Lemma steady_Next fuel n g : outside nb g → steadyg (tc_Next fuel n) g.
Proof. intros Ho. pose proof (steady_waitRead fuel n g Ho). apply steady_api_read; [done|steadily..]. Qed.

Lemma steady_Peek fuel n g : outside nb g → steadyg (tc_Peek fuel n) g.
Proof. intros Ho. pose proof (steady_waitRead fuel n g Ho). apply steady_api_read; [done|steadily..]. Qed.

Lemma steady_Skip fuel n g : outside nb g → steadyg (tc_Skip fuel n) g.
Proof. intros Ho. pose proof (steady_waitRead fuel n g Ho). apply steady_api_read; [done|steadily..]. Qed.

Lemma steady_Release g : outside nb g → steadyg tc_Release g.
Proof.
  intros Ho. apply (enter apiRead); [done|by apply outside_api| |apply steadyg_fin].
  apply trackg_seq; [action|]. intros _. apply (track_end nb libs apiRead). by apply outside_api.
Qed.

Lemma steady_Len g : outside nb g → steadyg Len g.
Proof.
  intros Ho. apply (enter apiCtrl); [done|by apply outside_api| |apply steadyg_fin].
  apply trackg_seq; [action|]. intros l. apply (leave apiCtrl); [by apply outside_api|done].
Qed.

(** ** Settings *)

Lemma steady_refresh field g : (∀ v c, field (set_bufs v c) = field c) → steadyg (refresh field) g.
Proof. intros Hf. unfold refresh. apply steadyg_bind; [by apply steady_read|]. intros t. steadily. Qed.

Lemma steady_delete_timer field g : (∀ v c, field (set_bufs v c) = field c) → steadyg (delete_timer field) g.
Proof. intros Hf. unfold delete_timer. apply steadyg_bind; [by apply steady_read|]. intros t. steadily. Qed.

Lemma steady_set_idle_timeout field upd d g :
  (∀ v c, field (set_bufs v c) = field c) → (∀ t v c, upd t (set_bufs v c) = set_bufs v (upd t c)) →
  (∀ t v c, upd t (set_guards v c) = set_guards v (upd t c)) → steadyg (set_idle_timeout field upd d) g.
Proof.
  intros Hf Hu Hg. pose proof (steady_delete_timer field g Hf). unfold set_idle_timeout. steadily.
  apply steady_write; auto.
Qed.

Lemma steady_set_deadline field upd t g :
  (∀ v c, field (set_bufs v c) = field c) → (∀ v c, field (set_guards v c) = field c) →
  (∀ t v c, upd t (set_bufs v c) = set_bufs v (upd t c)) →
  (∀ t v c, upd t (set_guards v c) = set_guards v (upd t c)) → steadyg (set_deadline field upd t) g.
Proof.
  intros Hf Hf' Hu Hg. unfold set_deadline. steadily.
  apply steady_write; intros v c; rewrite ?Hf, ?Hf'; auto.
Qed.

Lemma steady_SetReadDeadline t g : steadyg (SetReadDeadline t) g.
Proof. by apply steady_set_deadline. Qed.
Lemma steady_SetWriteDeadline t g : steadyg (SetWriteDeadline t) g.
Proof. by apply steady_set_deadline. Qed.
Lemma steady_SetDeadline t g : steadyg (SetDeadline t) g.
Proof. apply steady_and_then; [apply steady_SetReadDeadline|]. intros _. apply steady_SetWriteDeadline. Qed.
Lemma steady_SetIdleTimeout d g : steadyg (SetIdleTimeout d) g.
Proof. by apply steady_set_idle_timeout. Qed.
Lemma steady_SetWriteIdleTimeout d g : steadyg (SetWriteIdleTimeout d) g.
Proof. by apply steady_set_idle_timeout. Qed.
Lemma steady_SetReadIdleTimeout d g : steadyg (SetReadIdleTimeout d) g.
Proof. by apply steady_set_idle_timeout. Qed.
Lemma steady_SetOnClosed h g : steadyg (SetOnClosed h) g.
Proof. unfold SetOnClosed. steadily. Qed.
Lemma steady_SetOnRequest h g : steadyg (SetOnRequest h) g.
Proof. unfold SetOnRequest. steadily. Qed.
Lemma steady_SetSafeWrite b g : steadyg (SetSafeWrite b) g.
Proof. unfold SetSafeWrite. steadily. Qed.
Lemma steady_clock_tick d g : steadyg (clock_tick d) g.
Proof. unfold clock_tick. steadily. Qed.

Lemma steady_SetNonBlocking b g : nb = true → steadyg (SetNonBlocking b) g.
Proof.
  intros Hn. apply steady_atomically; [|left; by apply overlooks_modify].
  split; [|done]. intros c x c' [= _ <-]. split_and!; try done. by intros; congruence.
Qed.

(** ** Writing to the socket *)

Lemma steady_refreshConn g : steadyg refreshConn g.
Proof. by apply steady_refresh. Qed.
Lemma steady_refreshWrite g : steadyg refreshWriteIdleTimeout g.
Proof. by apply steady_refresh. Qed.
Lemma steady_refreshRead g : steadyg refreshReadIdleTimeout g.
Proof. by apply steady_refresh. Qed.

Lemma steady_writeWithCachedIOData g : may_touch g → steadyg writeWithCachedIOData g.
Proof. intros Ht. unfold writeWithCachedIOData, CheckAndDisable. steadily. Qed.

Lemma steady_writeWithAdhocIOData g : may_touch g → steadyg writeWithAdhocIOData g.
Proof.
  intros Ht. unfold writeWithAdhocIOData, CheckAndDisable. steadily.
  apply steady_blind; intros v c; simpl; by destruct (SetIOVec _ (tc_writevData c)).
Qed.

Lemma steady_writeToNetFD g : may_touch g → steadyg writeToNetFD g.
Proof.
  intros Ht. pose proof (steady_refreshConn g). pose proof (steady_refreshWrite g).
  pose proof (steady_writeWithCachedIOData g Ht). pose proof (steady_writeWithAdhocIOData g Ht).
  unfold writeToNetFD. steadily.
Qed.

Lemma steady_notify_poller g : steadyg notify_poller g.
Proof. unfold notify_poller, nfd_control. steadily. Qed.
Lemma steady_tc_notify g : steadyg tc_notify g.
Proof. pose proof (steady_notify_poller g). unfold tc_notify. steadily. Qed.
Lemma steady_recheck g : may_touch g → steadyg recheck g.
Proof. intros Ht. pose proof (steady_notify_poller g). unfold recheck. steadily. Qed.

Lemma steady_flush g : may_touch g → steadyg flush g.
Proof.
  intros Ht. pose proof (steady_notify_poller g). pose proof (steady_writeToNetFD g Ht).
  pose proof (steady_recheck g Ht). unfold flush. steadily.
Qed.

Lemma steady_writeToOutboundBuffer p g : may_touch g → steadyg (writeToOutboundBuffer p) g.
Proof. intros Ht. unfold writeToOutboundBuffer. steadily; apply steady_touch; try done; overlook. Qed.

(** ** Close *)

Lemma stage_touch ks a b g : (∀ k, k ∈ ks) → may_touch (in_stage (Closing ks a b) g).
Proof. intros Hks. right. by eexists. Qed.

Lemma steady_storeReadBuffer g : may_touch g → steadyg storeReadBuffer g.
Proof. intros Ht. unfold storeReadBuffer. steadily. Qed.

Lemma steady_stop_timer field upd g :
  (∀ v c, field (set_bufs v c) = field c) → (∀ v c, field (set_guards v c) = field c) →
  (∀ t v c, upd t (set_bufs v c) = set_bufs v (upd t c)) →
  (∀ t v c, upd t (set_guards v c) = set_guards v (upd t c)) → steadyg (stop_timer field upd) g.
Proof.
  intros Hf Hf' Hu Hg. apply steady_write; intros v c; rewrite ?Hf, ?Hf'; repeat case_match; auto.
Qed.

Section Close.
Variable run_closed : H → T ().
Hypothesis closed_ok : ∀ h g, outside nb g → steadyg (run_closed h) g.

Lemma steady_Close g : outside nb g → steadyg (Close sock_Close run_closed) g.
Proof.
  intros [Hr Hs]. apply track_bind. eapply track_mono; [apply track_begin_close|].
  intros [] g'; [intros [Hn ->]|by intros ->]. simpl negb. cbv iota.
  apply track_bind. eapply track_mono; [by apply track_closeJob|]. intros _ ? ->. cbn beta.
  apply track_bind. eapply track_mono; [apply track_close_readTrigger; set_solver|]. intros _ ? ->.
  apply track_bind. eapply track_mono; [by apply track_closeAllJobs|]. intros _ ? (ks & -> & Hks).
  apply trackg_seq; [by apply steady_storeReadBuffer, stage_touch|]. intros _.
  apply track_bind. eapply track_mono; [by apply track_close_closedFinished|]. intros _ ? ->.
  set (g1 := in_stage (Closing ks true true) g).
  assert (may_touch g1) as Ht by (by apply stage_touch).
  assert (outside nb g1) as Ho by (split; [by apply resting_in_stage|done]).
  apply trackg_seq; [action|]. intros h.
  apply trackg_seq; [destruct h; [by apply closed_ok|apply steadyg_fin]|]. intros _.
  apply trackg_seq; [by apply steady_stop_timer|]. intros _.
  apply trackg_seq; [by apply steady_stop_timer|]. intros _.
  apply trackg_seq. { apply steady_write; intros v c; simpl; repeat case_match; done. } intros _.
  do 3 (apply trackg_seq; [by apply steady_delete_timer|]; intros _).
  do 3 (apply trackg_seq; [action|]; intros _).
  apply track_bind. eapply track_mono; [apply track_finish; try done; overlook|]. by intros _ ? ->.
Qed.

Lemma steady_Writev p g : outside nb g → steadyg (tc_Writev sock_Close run_closed p) g.
Proof.
  intros Ho. pose proof (steady_Close g Ho). pose proof (outside_api g apiWrite Ho ltac:(done)) as Hk.
  pose proof (job_touch apiWrite g) as Ht.
  apply trackg_seq; [by apply steady_read|]. intros [|]; [done|].
  apply (enter apiWrite); [done|done| |done]. simpl negb. cbv iota.
  apply trackg_seq; [by apply steady_writeToOutboundBuffer|]. intros [n|e].
  - apply trackg_seq; [action|]. intros en.
    apply trackg_seq; [destruct en; [apply steady_tc_notify|by apply steady_flush]|].
    intros [u|e]; (apply (leave apiWrite); [done|]); [done|]. steadily.
  - apply (leave apiWrite); [done|]. steadily.
Qed.


(** ** The handlers of events *)

Variable run_request : H → T (option nerr).
Hypothesis request_ok : ∀ h g, outside nb g → steadyg (run_request h) g.

Lemma steady_request_loop fuel h g : outside nb g → steadyg (request_loop run_request fuel h) g.
Proof.
  intros Ho. pose proof (steady_Len g Ho). pose proof (request_ok h g Ho).
  induction fuel as [|fuel IH]; cbn [request_loop]; [action|]. steadily.
Qed.

Lemma steady_sync_loop fuel h g : outside nb g → steadyg (sync_loop run_request fuel h) g.
Proof.
  intros Ho. pose proof (steady_Len g Ho). pose proof (request_ok h g Ho).
  induction fuel as [|fuel IH]; cbn [sync_loop]; [action|]. steadily.
Qed.

Lemma steady_tcpAsyncHandler fuel g :
  outside nb g → steadyg (tcpAsyncHandler sock_Close run_request run_closed fuel) g.
Proof.
  intros Ho. unfold tcpAsyncHandler. apply steadyg_bind; [action|]. intros [h|]; [|apply steadyg_fin].
  pose proof (steady_Len g Ho). pose proof (steady_Close g Ho).
  induction fuel as [|fuel IH]; cbn [tcpAsyncHandler_loop]; [action|].
  pose proof (steady_request_loop fuel h g Ho). steadily.
Qed.

Lemma steady_tcpSyncHandle fuel g : outside nb g → steadyg (tcpSyncHandle run_request fuel) g.
Proof.
  intros Ho. unfold tcpSyncHandle. apply steadyg_bind; [action|]. intros [h|]; [|apply steadyg_fin].
  pose proof (steady_sync_loop fuel h g Ho). steadily.
Qed.

Lemma steady_doTask g : steadyg doTask g.
Proof.
  unfold doTask. apply steadyg_bind; [action|]. intros _. apply steady_blind; intros v c; unfold flip; simpl;
    by destruct (tc_coins c) as [|[] ?].
Qed.

(** The mode is nonblocking only where it may be. *)
Lemma track_mode g : trackg (read tc_nonblocking) g (λ b g', g' = g ∧ (b = true → nb = true)).
Proof.
  split; [left; by apply ignores_atomic, overlooks_gets|]. intros c gs i Hi HI.
  exists g. split; [by rewrite list_insert_id|]. split; [done|]. intros Hb.
  apply not_false_is_true. intros E. by rewrite (gd_mode _ _ _ _ HI E) in Hb.
Qed.

Lemma outside_at_rest lib : outside nb (at_rest lib).
Proof. split; [|done]. intros []; by left. Qed.

Lemma sysRead_outside lib : nb = true → outside nb (setPhase sysRead PRun (at_rest lib)).
Proof. intros Hn. split; [|done]. intros []; try (by left). by right. Qed.

Lemma steady_tcpOnRead fuel lib : steadyg (tcpOnRead run_request fuel) (at_rest lib).
Proof.
  apply (enter sysRead); [apply outside_at_rest|done| |apply steadyg_fin]. simpl negb. cbv iota.
  set (g := setPhase sysRead PRun (at_rest lib)).
  pose proof (job_touch sysRead (at_rest lib)) as Ht. fold g in Ht.
  pose proof (steady_refreshConn g). pose proof (steady_refreshRead g).
  assert (steadyg send_readTrigger g) by (by apply steady_send_readTrigger). pose proof (steady_doTask g).
  apply trackg_seq; [|intros r; by apply (leave sysRead)].
  do 2 (apply steadyg_bind; [done|intros _]). apply steadyg_bind; [action|].
  intros [u|[e|e]]; [|destruct e; apply steadyg_fin|apply steadyg_fin].
  apply track_bind. eapply track_mono; [apply track_mode|]. intros b ? [-> Hb].
  destruct b; [by apply steady_tcpSyncHandle, sysRead_outside, Hb|]. steadily.
Qed.

Lemma steady_tcpOnWrite lib : steadyg tcpOnWrite (at_rest lib).
Proof.
  apply (enter sysWrite); [apply outside_at_rest|done| |apply steadyg_fin]. simpl negb. cbv iota.
  set (g := setPhase sysWrite PRun (at_rest lib)).
  pose proof (job_touch sysWrite (at_rest lib)) as Ht. fold g in Ht.
  pose proof (steady_writeToNetFD g Ht). pose proof (steady_recheck g Ht).
  apply trackg_seq; [|intros r; by apply (leave sysWrite)]. unfold nfd_control. steadily.
Qed.

Lemma steady_poll_once fuel desc ev lib : steadyg (poll_once run_request fuel desc ev) (at_rest lib).
Proof.
  pose proof (steady_tcpOnRead fuel lib). pose proof (steady_tcpOnWrite lib). unfold poll_once. steadily.
Qed.

(** ** The goroutines of the library *)

(** Waiting for an event. *)
Lemma steady_event {A} (f : conn → option (A * conn)) :
  (∀ v c, f (set_bufs v c) = prod_map id (set_bufs v) <$> f c) →
  (∀ c x c', f c = Some (x, c') → frames nb c c') → steadyg (await f) (at_rest true).
Proof. intros Hb Hf. apply steady_await; [done|done|]. intros c _ _. by apply WaitsForEvent. Qed.

(** The rounds of the poller, with what it found in each. *)
Fixpoint poll_rounds (fuel : nat) (desc : dloc) (evs : list Z) : T () :=
  match evs with
  | [] => Fin ()
  | ev :: evs => _ ← poll_once run_request fuel desc ev; poll_rounds fuel desc evs
  end.

Lemma steady_poll_rounds fuel desc evs lib : steadyg (poll_rounds fuel desc evs) (at_rest lib).
Proof.
  induction evs as [|ev evs IH]; cbn [poll_rounds]; [apply steadyg_fin|].
  apply steadyg_bind; [apply steady_poll_once|done].
Qed.

Lemma steady_task_worker fuel :
  steadyg (task_worker sock_Close run_request run_closed fuel) (at_rest true).
Proof.
  apply steadyg_bind; [|intros _; apply steady_tcpAsyncHandler, outside_at_rest].
  apply steady_event; [intros v c; simpl; by destruct (tc_tasks c)|].
  intros c x c'. destruct (tc_tasks c); intros [= _ <-]. done.
Qed.

Lemma steady_hup_worker : steadyg (hup_worker sock_Close run_closed) (at_rest true).
Proof.
  apply steadyg_bind; [|intros _; apply steady_Close, outside_at_rest].
  apply steady_event; [intros v c; simpl; by destruct (tc_hups c)|].
  intros c x c'. destruct (tc_hups c); intros [= _ <-]. done.
Qed.

End Close.
End Methods.

(** ** Programs that use a connection *)

Section Users.
Context {D CB W H : Type} `{Kernel W}.
Variable sock_Close : Z → W → W.
Abbreviation conn := (tcpconn D CB W H).
Abbreviation T := (thread conn).
Implicit Types (c : conn) (g : role) (gs : list role) (w : pool conn).

(** A program that uses the connection through its methods, and decides what to do next
    by what they return.  The handler that [Close] runs is such a program again. *)
Inductive user (nb : bool) : ∀ R : Type, T R → Prop :=
| user_ret R r : user nb R (Fin r)
| user_bind R R' p f : user nb R p → (∀ x, user nb R' (f x)) → user nb R' (p ≫= f)
| user_Read fuel n : user nb _ (tc_Read fuel n)
| user_ReadN fuel n : user nb _ (tc_ReadN fuel n)
| user_Next fuel n : user nb _ (tc_Next fuel n)
| user_Peek fuel n : user nb _ (tc_Peek fuel n)
| user_Skip fuel n : user nb _ (tc_Skip fuel n)
| user_Release : user nb _ tc_Release
| user_Len : user nb _ Len
| user_IsActive : user nb _ IsActive
| user_Writev rc p : (∀ h, user nb () (rc h)) → user nb _ (tc_Writev sock_Close rc p)
| user_Close rc : (∀ h, user nb () (rc h)) → user nb _ (Close sock_Close rc)
| user_SetDeadline t : user nb _ (SetDeadline t)
| user_SetReadDeadline t : user nb _ (SetReadDeadline t)
| user_SetWriteDeadline t : user nb _ (SetWriteDeadline t)
| user_SetIdleTimeout d : user nb _ (SetIdleTimeout d)
| user_SetWriteIdleTimeout d : user nb _ (SetWriteIdleTimeout d)
| user_SetReadIdleTimeout d : user nb _ (SetReadIdleTimeout d)
| user_SetOnClosed h : user nb _ (SetOnClosed h)
| user_SetOnRequest h : user nb _ (SetOnRequest h)
| user_SetSafeWrite b : user nb _ (SetSafeWrite b)
| user_SetNonBlocking b : nb = true → user nb _ (SetNonBlocking b).

(** What runs on a connection; [true] marks goroutines of the library that wait for work. *)
Inductive goroutine (nb : bool) : bool → T () → Prop :=
| gor_user p : user nb () p → goroutine nb false p
| gor_poller rr fuel desc evs :
    (∀ h, user nb _ (rr h)) → goroutine nb false (poll_rounds rr fuel desc evs)
| gor_task rr rc fuel :
    (∀ h, user nb _ (rr h)) → (∀ h, user nb _ (rc h)) → goroutine nb true (task_worker sock_Close rr rc fuel)
| gor_hup rc : (∀ h, user nb _ (rc h)) → goroutine nb true (hup_worker sock_Close rc)
| gor_idle rc : (∀ h, user nb _ (rc h)) → goroutine nb false (tcpOnIdle sock_Close rc)
| gor_clock d : goroutine nb false (clock_tick d).

Lemma user_steady nb libs R (p : T R) : user nb R p → ∀ g, outside nb g → steadyc nb libs p g.
Proof.
  induction 1; intros g Ho.
  - apply steadyg_fin.
  - apply steadyg_bind; auto.
  - by apply steady_Read.
  - by apply steady_ReadN.
  - by apply steady_Next.
  - by apply steady_Peek.
  - by apply steady_Skip.
  - by apply steady_Release.
  - by apply steady_Len.
  - apply steady_IsActive.
  - by apply steady_Writev.
  - by apply steady_Close.
  - apply steady_SetDeadline.
  - apply steady_SetReadDeadline.
  - apply steady_SetWriteDeadline.
  - apply steady_SetIdleTimeout.
  - apply steady_SetWriteIdleTimeout.
  - apply steady_SetReadIdleTimeout.
  - apply steady_SetOnClosed.
  - apply steady_SetOnRequest.
  - apply steady_SetSafeWrite.
  - by apply steady_SetNonBlocking.
Qed.

Lemma goroutine_steady nb libs lib p : goroutine nb lib p → steadyc nb libs p (at_rest lib).
Proof.
  pose proof (λ R p, user_steady nb libs R p) as Hu.
  destruct 1; try (by apply Hu; [|apply outside_at_rest]).
  - apply steady_poll_rounds. auto.
  - apply steady_task_worker; auto.
  - apply steady_hup_worker. auto.
  - apply steady_Close; [auto|apply outside_at_rest].
  - apply steady_clock_tick.
Qed.

(** ** A new connection and its goroutines *)

Definition unclosed c : Prop :=
  tc_closer c = zero_closer ∧ ch_closed (tc_readTrigger c) = false ∧ ch_closed (tc_closedFinished c) = false.

Definition conn_pool c (gos : list (bool * T ())) : pool conn := Pool c (map snd gos).

Abbreviation followedc nb libs :=
  (followed (guarded nb libs) permits not_closed (explained nb) (λ g, g = at_rest true ∨ g = at_rest false)).

Definition rest_roles (gos : list (bool * T ())) : list role := map (λ go, at_rest go.1) gos.

Lemma tot_rest gos : tot closing_n (rest_roles gos) = 0%nat.
Proof. induction gos as [|go gos IH]; [done|]. unfold tot in *. simpl. by rewrite IH. Qed.

Lemma phases_rest k gos : map (getPhase k) (rest_roles gos) = replicate (length gos) PIdle.
Proof. induction gos as [|go gos IH]; [done|]. simpl. rewrite IH. by destruct k. Qed.

Lemma zero_job_rest k n : job_inv (J := job_type k) job_zero (replicate n PIdle).
Proof.
  assert (∀ f : phase → nat, f PIdle = 0%nat → tot f (replicate n PIdle) = 0%nat) as Ht.
  { intros f Hf. induction n as [|n IH]; [done|]. unfold tot in *. simpl. lia. }
  destruct (lj_zero (J := job_type k)) as [Hl Hc]. split; rewrite ?Ht by done; try done.
  - by rewrite Hc.
  - intros i p [-> _]%lookup_replicate. done.
  - lia.
Qed.

Lemma conn_pool_followed nb c gos :
  unclosed c → (nb = false → tc_nonblocking c = false) → Forall (λ go, goroutine nb go.1 go.2) gos →
  followedc nb (map fst gos) (conn_pool c gos) (rest_roles gos).
Proof.
  intros (Ec & Et & Ef) Hm Hg. split; simpl.
  - split; rewrite ?Ec, ?Et, ?Ef, ?tot_rest; try done.
    + intros k. rewrite phases_rest. replace (getJob k zero_closer) with (@job_zero (job_type k) _) by (by destruct k).
      apply zero_job_rest.
    + intros i g cg Hi Hcg. apply list_lookup_fmap_Some in Hi as (go & -> & _). done.
    + by unfold rest_roles; rewrite map_map.
  - apply Forall2_fmap_2, Forall_Forall2_diag. eapply Forall_impl; [|exact Hg].
    intros [lib p] Hp. eapply track_mono; [by apply goroutine_steady|]. intros _ g ->. destruct lib; auto.
Qed.

(** ** The end of the closing *)

(** Nobody is inside job [k]: its lock is free. *)
Lemma free_lock nb libs c gs k :
  guarded nb libs c gs → (∀ i g, gs !! i = Some g → getPhase k g = PIdle) →
  @lj_acq (job_type k) _ _ (getJob k (tc_closer c)) ≠ None ∧
  @lj_cacq (job_type k) _ _ (getJob k (tc_closer c)) ≠ None.
Proof.
  intros HI Hidle. pose proof (ji_lock _ _ (gd_jobs _ _ _ _ HI k)) as Hl.
  assert (∀ f : phase → nat, f PIdle = 0%nat → tot f (map (getPhase k) gs) = 0%nat) as Ht.
  { intros f Hf. destruct (decide (0 < tot f (map (getPhase k) gs))%nat) as [Hp|]; [|lia].
    apply tot_pos in Hp as (i & p & Hi & Hp). apply list_lookup_fmap_Some in Hi as (g & -> & Hi).
    rewrite (Hidle i g Hi) in Hp. lia. }
  rewrite !Ht in Hl by done. destruct (lj_free _ Hl) as [[? Ea] [? Ec]]. by rewrite Ea, Ec.
Qed.

Section Quiescent.
Variables (libs : list bool) (w : pool conn) (gs : list role).
Hypothesis Hw : followedc false libs w gs.
Hypothesis Hq : quiescent w.
Abbreviation c := (p_state w).

Lemma quiet i g : gs !! i = Some g →
  (∃ r, p_threads w !! i = Some (Fin r)) ∧ (g = at_rest true ∨ g = at_rest false) ∨ reason c g.
Proof.
  intros Hi. destruct (followed_quiescent _ _ _ _ _ _ _ _ _ Hw Hq Hi) as [?|He]; [by left|right]. by apply He.
Qed.

(** Only readers that wait for data are inside a job. *)
Lemma quiet_idle i g k : gs !! i = Some g → k ≠ apiRead → getPhase k g = PIdle.
Proof.
  intros Hi Hk. destruct (quiet i g Hi) as [[_ [-> | ->]]|[]]; try (by destruct k); auto. subst g. by destruct k.
Qed.

Lemma quiet_all_idle i g k :
  ch_closed (tc_readTrigger c) = true → gs !! i = Some g → getPhase k g = PIdle.
Proof.
  intros Ht Hi. destruct (quiet i g Hi) as [[_ [-> | ->]]|[]]; try (by destruct k); auto; [congruence|].
  subst g. by destruct k.
Qed.

Lemma quiet_free k :
  k ≠ apiRead ∨ ch_closed (tc_readTrigger c) = true →
  @lj_acq (job_type k) _ _ (getJob k (tc_closer c)) ≠ None ∧
  @lj_cacq (job_type k) _ _ (getJob k (tc_closer c)) ≠ None.
Proof.
  intros Hk. apply (free_lock false libs _ gs); [apply Hw|]. intros i g Hi.
  destruct Hk; [by apply (quiet_idle i)|by apply (quiet_all_idle i)].
Qed.

(** Nobody is in the middle of closing. *)
Lemma quiet_not_closing i g cg : gs !! i = Some g → ro_closing g ≠ Some cg.
Proof.
  intros Hi Hcg. destruct (gd_stage _ _ _ _ (proj1 Hw) i g cg Hi Hcg) as (_ & Et & Ef).
  assert (stage_done g → cg_trigger cg = true ∧ cg_finished cg = true) as Hd.
  { unfold stage_done. rewrite Hcg. tauto. }
  destruct (quiet i g Hi) as [[_ [-> | ->]]|[k _ Hs Ha|k cg' _ Hcg' Hs Ha|_ Hs Ha|_ Hs Ha|Ha]]; try done.
  - destruct (Hd Hs) as [E _]. destruct (quiet_free k) as [? _]; [right; congruence|done].
  - rewrite Hcg in Hcg'. injection Hcg' as <-. destruct (quiet_free k) as [_ ?]; [|done].
    destruct Hs as [->|E]; [by left|right; congruence].
  - destruct (Hd Hs). congruence.
  - destruct (Hd Hs). congruence.
  - by subst g.
Qed.

Lemma quiet_closed :
  closed (tc_closer c) = true → ch_closed (tc_readTrigger c) = true ∧ ch_closed (tc_closedFinished c) = true.
Proof.
  intros Hc. apply (gd_over _ _ _ _ (proj1 Hw) Hc).
  destruct (decide (0 < tot closing_n gs)%nat) as [Hp|]; [|lia].
  apply tot_pos in Hp as (i & g & Hi & Hp). unfold closing_n in Hp.
  destruct (ro_closing g) as [cg|] eqn:E; [|lia]. by destruct (quiet_not_closing i g cg Hi).
Qed.

Lemma quiet_over i g :
  closed (tc_closer c) = true → gs !! i = Some g → ro_library g = false → p_threads w !! i = Some (Fin ()).
Proof.
  intros Hc Hi Hl. destruct (quiet_closed Hc) as [Et Ef].
  destruct (quiet i g Hi) as [[[[] Hf] _]|[k _ _ Ha|k cg _ _ _ Ha|_ _ Ha|_ _ Ha|Ha]]; [done|..].
  - by destruct (quiet_free k) as [? _]; [right|].
  - by destruct (quiet_free k) as [_ ?]; [right|].
  - congruence.
  - congruence.
  - by subst g.
Qed.

End Quiescent.

(** ** Closing from inside the poller's job *)

(** A poller that runs the [sysRead] job has begun to close the connection. *)
Record own_close c : Prop := {
  oc_sysRead : sysReadJob (tc_closer c) = EUJob locked false;
  oc_others k : k ≠ sysRead → getJob k (tc_closer c) = job_zero;
  oc_begun : closed (tc_closer c) = true;
  oc_open : ch_closed (tc_readTrigger c) = false ∧ ch_closed (tc_closedFinished c) = false
}.

Definition own_role : role := in_stage (Closing [] false false) (setPhase sysRead PRun (at_rest false)).

Lemma running_job_rest n :
  job_inv (J := ExclusiveUnblockJob) (EUJob locked false) (PRun :: replicate n PIdle).
Proof.
  assert (∀ f : phase → nat, f PIdle = 0%nat → tot f (PRun :: replicate n PIdle) = f PRun) as Ht.
  { intros f Hf. induction n as [|n IH]; unfold tot in *; simpl in *; lia. }
  split; rewrite ?Ht by done; try done.
  intros [|i] p; [by intros [= <-]|]. simpl. intros [-> _]%lookup_replicate. done.
Qed.

Lemma own_close_followed c (f : () → T ()) gos :
  own_close c → Forall (λ go, goroutine true go.1 go.2) gos →
  followedc true (false :: map fst gos) (Pool c ((tc_closeJob kSysRead ≫= f) :: map snd gos))
    (own_role :: rest_roles gos).
Proof.
  intros [Hs Ho Hb [Et Ef]] Hg. split; cbn [p_state p_threads].
  - split; rewrite ?Hb, ?Et, ?Ef; try done.
    + intros k. rewrite fmap_cons, phases_rest. destruct (decide (k = sysRead)) as [->|Hk].
      * simpl. rewrite Hs. apply running_job_rest.
      * rewrite (Ho k Hk). replace (getPhase k own_role) with PIdle by (by destruct k).
        apply (zero_job_rest k (Datatypes.S (length gos))).
    + pose proof (tot_rest gos) as Ht. unfold tot in *. simpl. lia.
    + intros [|i] g cg Hi Hcg; simpl in Hi.
      * injection Hi as <-. injection Hcg as <-. split; [|done]. intros k Hk. by apply elem_of_nil in Hk.
      * apply list_lookup_fmap_Some in Hi as (go & -> & _). done.
    + unfold rest_roles. by rewrite fmap_cons, map_map.
  - constructor.
    + apply track_bind. eapply track_mono; [by apply (track_close_own true _ sysRead)|]. by intros _ g [].
    + apply Forall2_fmap_2, Forall_Forall2_diag. eapply Forall_impl; [|exact Hg].
      intros [lib p] Hp. eapply track_mono; [by apply goroutine_steady|]. intros _ g ->. destruct lib; auto.
Qed.

Lemma own_close_stuck libs w gs (f : () → T ()) :
  guarded true libs (p_state w) gs → gs !! 0%nat = Some own_role →
  p_threads w !! 0%nat = Some (tc_closeJob kSysRead ≫= f) → pool_next 0 w = None.
Proof.
  intros HI Hi Hp. unfold pool_next. rewrite Hp.
  pose proof (run_blocks_close true libs sysRead _ gs 0 _ HI Hi eq_refl) as Hn.
  change (@lj_cacq (job_type sysRead) _ _) with (on_eu_l Locker_Lock) in Hn.
  simpl. unfold act_on at 1. by rewrite Hn.
Qed.

(** A step of one goroutine is no step of another. *)
Lemma pool_next_other i j w w' :
  pool_next i w = Some (Ret w') → i ≠ j → p_threads w' !! j = p_threads w !! j.
Proof.
  unfold pool_next. destruct (p_threads w !! i) as [[r|A a k]|]; try done.
  destruct (a (p_state w)) as [[[x s]| |]|]; try done. intros [= <-] Hne. simpl.
  by rewrite list_lookup_insert_ne.
Qed.

(** ** Properties *)

(** The next action of goroutine [i] reads or writes a buffer of the connection. *)
Definition touches w (i : nat) : Prop :=
  ∃ A a k, p_threads w !! i = Some (Do A a k) ∧ ¬ ignores set_bufs a.

(** It does when it changes one. *)
Lemma changes_touch w i w' :
  pool_next i w = Some (Ret w') →
  (tc_inBuffer (p_state w'), tc_outBuffer (p_state w')) ≠ (tc_inBuffer (p_state w), tc_outBuffer (p_state w)) →
  touches w i.
Proof.
  unfold pool_next, touches. destruct (p_threads w !! i) as [[r|A a k]|]; try done.
  destruct (a (p_state w)) as [[[x s]| |]|] eqn:E; try done. intros [= <-] Hne.
  exists A, a, k. split; [done|]. intros Ha. apply Hne. simpl.
  by apply (ignores_keeps set_bufs a (λ c, (tc_inBuffer c, tc_outBuffer c)) _ x _ (λ s, ltac:(by destruct s))
              (λ v s, ltac:(by destruct v)) Ha E).
Qed.

(** The goroutine that touches a buffer then is the one that closes. *)
Lemma touch_closing nb libs w gs i :
  followedc nb libs w gs → ch_closed (tc_closedFinished (p_state w)) = true → touches w i →
  ∃ g cg, gs !! i = Some g ∧ ro_closing g = Some cg.
Proof.
  intros Hw Hf (A & a & k & Hi & Hn).
  destruct (followed_may _ _ _ _ _ _ _ _ _ _ _ Hw Hi) as (g & Hg & [Hm|[[k0 Hp]|(cg & Hcg & _)]]); [done| |eauto].
  pose proof (gd_jobs _ _ _ _ (proj1 Hw) k0) as Hj.
  pose proof (ji_live _ _ Hj (gd_finished _ _ _ _ (proj1 Hw) k0 Hf)) as Hl.
  pose proof (Forall_lookup_1 _ _ i PRun Hl ltac:(by rewrite list_lookup_fmap, Hg, <-Hp)). done.
Qed.


(** C5: whatever goroutines use a new connection and however they interleave, none
    sends on [readTrigger] after it was closed, and neither channel is closed twice:
    a goroutine that is about to panic would also panic were both channels open. *)
Theorem tcp_channels_closed_once c (gos : list (bool * T ())) w (i : nat)
    (Hc : unclosed c) (Hg : Forall (λ go, goroutine true go.1 go.2) gos)
    (Hr : pool_reach (λ _, True) (conn_pool c gos) w) (Hp : pool_next i w = Some Panic) :
  pool_next i (Pool (reopen (p_state w)) (p_threads w)) = Some Panic.
Proof.
  destruct (followed_reach _ _ _ _ _ _ _ _ _ (conn_pool_followed true c gos Hc ltac:(done) Hg) Hr) as [gs Hw].
  unfold pool_next in *. simpl. destruct (p_threads w !! i) as [[r|A a k]|] eqn:Hi; try done.
  destruct (a (p_state w)) as [[[x s]| |]|] eqn:E; try done.
  pose proof (followed_panic _ _ _ _ _ _ _ _ _ _ _ Hw Hi E) as Hn. unfold not_closed in Hn. by rewrite Hn.
Qed.

(** C4: closing a connection wakes everybody.  Whatever goroutines use a new
    connection that stays in blocking mode, when [Close] has been called and nobody can
    go on, then every goroutine of a user has returned (no call of [Close], [Read] or
    [Write] sleeps for ever), both channels are closed and so are all jobs. *)
Theorem tcp_close_leaves_no_sleeper c (gos : list (bool * T ())) w
    (Hc : unclosed c) (Hb : tc_nonblocking c = false) (Hg : Forall (λ go, goroutine false go.1 go.2) gos)
    (Hr : pool_reach (λ _, True) (conn_pool c gos) w) (Hq : quiescent w)
    (Hcl : closed (tc_closer (p_state w)) = true) :
  (∀ i p, gos !! i = Some (false, p) → p_threads w !! i = Some (Fin ())) ∧
  ch_closed (tc_readTrigger (p_state w)) = true ∧ ch_closed (tc_closedFinished (p_state w)) = true ∧
  ∀ k, Closed (getJob k (tc_closer (p_state w))) = true.
Proof.
  destruct (followed_reach _ _ _ _ _ _ _ _ _ (conn_pool_followed false c gos Hc (λ _, Hb) Hg) Hr) as [gs Hw].
  destruct (quiet_closed _ w gs Hw Hq Hcl) as [Et Ef]. split; [|split; [done|split; [done|]]].
  - intros i p Hi. pose proof (gd_libs _ _ _ _ (proj1 Hw)) as Hl.
    assert ((ro_library <$> gs) !! i = Some false) as Hil.
    { change (map ro_library gs !! i = Some false). rewrite Hl. change ((fst <$> gos) !! i = Some false).
      by rewrite list_lookup_fmap, Hi. }
    apply list_lookup_fmap_Some in Hil as (g & Eg & Hgi).
    by apply (quiet_over _ w gs Hw Hq i g).
  - intros k. by apply (gd_finished _ _ _ _ (proj1 Hw)).
Qed.

(** C6: a nonblocking connection closed from inside its own event handling is lost.  When
    the goroutine of a poller that runs the [sysRead] job has begun [Close] (a request
    handler called it, or a [Write] of the handler failed), it never returns,
    whatever the other goroutines do: the poller is blocked for ever. *)
Theorem own_close_never_returns c (f : () → T ()) (gos : list (bool * T ())) w
    (Hc : own_close c) (Hg : Forall (λ go, goroutine true go.1 go.2) gos)
    (Hr : pool_reach (λ _, True) (Pool c ((tc_closeJob kSysRead ≫= f) :: map snd gos)) w) :
  p_threads w !! 0%nat = Some (tc_closeJob kSysRead ≫= f) ∧ pool_next 0 w = None.
Proof.
  assert (∃ gs, followedc true (false :: map fst gos) w gs ∧ gs !! 0%nat = Some own_role ∧
                p_threads w !! 0%nat = Some (tc_closeJob kSysRead ≫= f)) as (gs & Hw & Hi & Hp).
  { induction Hr as [|w w' i _ (gs & Hw & Hi & Hp) Hn _]; [eexists; split; [by apply own_close_followed|done]|].
    assert (i ≠ 0%nat) as Hne by (intros ->; by rewrite (own_close_stuck _ _ _ _ (proj1 Hw) Hi Hp) in Hn).
    destruct (followed_step _ _ _ _ _ _ _ _ _ Hw Hn) as [g' Hw']. exists (<[i:=g']> gs).
    split; [done|]. rewrite list_lookup_insert_ne by done. split; [done|].
    rewrite (pool_next_other i 0 _ _ Hn) by done. done. }
  split; [done|]. by apply (own_close_stuck _ _ _ _ (proj1 Hw) Hi Hp).
Qed.
End Users.

(** ** A concrete connection *)

(** The poller delivers three bytes; one goroutine reads two bytes and waits for ten more,
    one writes and closes; a worker of the library waits for a hang-up. *)
Definition closing_gos : list (bool * thread (tcpconn nat nat script nat) ()) :=
  [(false, poll_rounds (λ _, Fin None) 20 2 [EPOLLIN]);
   (false, _ ← tc_ReadN 20 2; _ ← tc_ReadN 20 10; Fin ());
   (false, _ ← tc_Writev (λ _ w, w) (λ _, Fin ()) [of_bytes [1; 2]];
           Close (λ _ w, w) (λ _, Fin ()));
   (true, hup_worker (λ _ w, w) (λ _, Fin ()))].

(** Poller and reader run until the reader waits, the writer until it waits for the
    reader it has woken, the reader until it waits for [Close] to finish; then
    the writer takes [n] steps. *)
Definition closing_after (n : nat) : pool (tcpconn nat nat script nat) :=
  pool_run (replicate 30 0%nat ++ replicate 30 1%nat ++ replicate 40 2%nat ++ replicate 30 1%nat ++ replicate n 2%nat)
    (conn_pool demo_conn closing_gos).

(** It is about to free the input buffer. *)
Definition freeing : pool (tcpconn nat nat script nat) := closing_after 22.

(** Nobody can go on. *)
Definition closing_end : pool (tcpconn nat nat script nat) := pool_run (replicate 40 1%nat) (closing_after 30).

Example closing_answers :
  (head (tc_inBuffer (p_state freeing)), head (tc_inBuffer (p_state (closing_after 23))),
   tc_taken (p_state closing_end), sent (p_state closing_end))
  = (Some 2%positive, None, [10; 20; 30], [1; 2]).
Proof. vm_compute. reflexivity. Qed.

Lemma demo_unclosed : unclosed demo_conn.
Proof. done. Qed.

Lemma closing_gos_ok nb : Forall (λ go, goroutine (λ _ w, w) nb go.1 go.2) closing_gos.
Proof.
  unfold closing_gos. constructor; [|constructor; [|constructor; [|constructor; [|constructor]]]]; cbn [fst snd].
  - apply gor_poller. intros h. apply user_ret.
  - apply gor_user. do 2 (apply user_bind; [apply user_ReadN|intros _]). apply user_ret.
  - apply gor_user, user_bind; [apply user_Writev|intros _; apply user_Close]; intros h; apply user_ret.
  - apply gor_hup. intros h. apply user_ret.
Qed.

Lemma always_reach {S} sched (w : pool S) : pool_reach (λ _, True) w (pool_run sched w).
Proof. apply pool_run_reach. by apply Forall_true. Qed.

Lemma pool_run_app {S} s1 s2 (w : pool S) : pool_run (s1 ++ s2) w = pool_run s2 (pool_run s1 w).
Proof. revert w. induction s1 as [|i s1 IH]; intros w; [done|]. simpl. by destruct (pool_next i w) as [[]|]. Qed.

Lemma head_changes (w : pool (tcpconn nat nat script nat)) i :
  match pool_next i w with Some (Ret w') => head (tc_inBuffer (p_state w')) | _ => head (tc_inBuffer (p_state w)) end
    ≠ head (tc_inBuffer (p_state w)) →
  touches w i.
Proof.
  destruct (pool_next i w) as [[w'| |]|] eqn:E; try done. intros Hne.
  apply (changes_touch _ _ w' E). congruence.
Qed.

Lemma freeing_touches : touches freeing 2.
Proof. apply head_changes. vm_compute. discriminate. Qed.


(** A program that asks for a negative number of bytes. *)
Definition negative_gos : list (bool * thread (tcpconn nat nat script nat) ()) :=
  [(false, _ ← tc_ReadN 20 (-1); Fin ())].
Definition negative_end : pool (tcpconn nat nat script nat) :=
  pool_run (replicate 10 0%nat) (conn_pool demo_conn negative_gos).

Lemma tcp_channels_closed_once_witness :
  pool_next 0 negative_end = Some Panic ∧
  pool_next 0 (Pool (reopen (p_state negative_end)) (p_threads negative_end)) = Some Panic.
Proof.
  assert (pool_next 0 negative_end = Some Panic) as Hp by (vm_compute; reflexivity).
  split; [exact Hp|].
  apply (tcp_channels_closed_once (λ _ w, w) demo_conn negative_gos negative_end 0).
  - exact demo_unclosed.
  - constructor; [|constructor]. apply gor_user, user_bind; [apply user_ReadN|intros _; apply user_ret].
  - unfold negative_end. apply always_reach.
  - exact Hp.
Defined.

Lemma closing_quiescent : quiescent closing_end.
Proof.
  intros i. destruct (decide (i < 4)%nat) as [Hi|Hi].
  - destruct i as [|[|[|[|i]]]]; [vm_compute; reflexivity..|lia].
  - unfold pool_next. rewrite lookup_ge_None_2; [done|].
    assert (length (p_threads closing_end) = 4%nat) as -> by (vm_compute; reflexivity). lia.
Qed.

Lemma tcp_close_leaves_no_sleeper_witness :
  p_threads closing_end !! 1%nat = Some (Fin ()) ∧ p_threads closing_end !! 2%nat = Some (Fin ()) ∧
  tc_taken (p_state closing_end) = [10; 20; 30].
Proof.
  destruct (tcp_close_leaves_no_sleeper (λ _ w, w) demo_conn closing_gos closing_end) as [Hf _].
  - exact demo_unclosed.
  - reflexivity.
  - apply closing_gos_ok.
  - unfold closing_end, closing_after. rewrite <-pool_run_app. apply always_reach.
  - exact closing_quiescent.
  - vm_compute. reflexivity.
  - split; [by eapply Hf|]. split; [by eapply Hf|]. vm_compute. reflexivity.
Defined.

(** A nonblocking connection whose peer is gone: data has arrived, the request handler
    answers it, the write fails with an error other than [EAGAIN]. *)
Definition broken_world : script :=
  Script {[ (3, 7) := (rflags, 2%positive) ]} [Err 32] [Ok [10; 20; 30]] ∅ ∅.

Definition broken_conn : tcpconn nat nat script nat :=
  set_nonblocking true (set_reqHandle (Some 0%nat)
    (set_poll (Epoll 1%positive (MkIOData None None) 3 0 false 0
                 (DescCache None [] [] {[ 2%positive := MkDesc None (Some 0%nat) 0 None None None None 7 ]} 3%positive)
                 broken_world []) demo_conn)).

Definition answering (h : nat) : thread (tcpconn nat nat script nat) (option nerr) :=
  r ← tc_Writev (λ _ w, w) (λ _, Fin ()) [of_bytes [1; 2]]; Fin r.2.

(** The poller handles the event on its own. *)
Definition broken_end : pool (tcpconn nat nat script nat) :=
  pool_run (replicate 80 0%nat) (conn_pool broken_conn [(false, poll_rounds answering 20 2 [EPOLLIN])]).

(** It gets as far as closing its own job, and no further. *)
Lemma broken_own_close : own_close (p_state broken_end) ∧ pool_next 0 broken_end = None.
Proof.
  split; [|vm_compute; reflexivity]. split; [vm_compute; reflexivity| |vm_compute; reflexivity|split; vm_compute; reflexivity].
  intros [] Hk; [done|vm_compute; reflexivity..].
Qed.

Lemma own_close_never_returns_witness :
  own_close (p_state broken_end) ∧
  ∀ w, pool_reach (λ _, True) (Pool (p_state broken_end)
         ((tc_closeJob kSysRead ≫= λ _, Fin ()) :: map snd closing_gos)) w → pool_next 0 w = None.
Proof.
  split; [exact (proj1 broken_own_close)|]. intros w Hr.
  apply (own_close_never_returns (λ _ w, w) (p_state broken_end) (λ _, Fin ()) closing_gos w).
  - exact (proj1 broken_own_close).
  - exact (closing_gos_ok true).
  - exact Hr.
Defined.
