(* ===== verification/NetAddr.v ===== *)
(** * Socket addresses (src/internal/netutil/addr.go)

    The conversions between the addresses of Go's [net] package, the socket
    addresses of [unix] and the raw byte layout the batched UDP system calls
    use.  IP addresses, zones and raw addresses are byte lists; a nil IP is the
    empty list, as every function here treats it.  The raw layout is read with
    the byte order of the host, which is little-endian on every platform the
    library supports.  The table of network interfaces is a parameter: it is
    asked by index and by name, as [net.InterfaceByIndex] and
    [net.InterfaceByName] do, with [None] for their errors.

    The theorems: the decimal form of a zone is read back; a UDP address goes
    through the raw form unchanged when it has no zone, and with its zone's
    four bytes reversed when it has one; a socket address is converted to a Go
    address and back. *)

From stdpp Require Import base gmap list numbers strings.
From S2P Require Import Prelude.
Local Open Scope Z_scope.

Definition ip := list byte.
Definition zone := list byte.

(** The operating system's interface table. *)
Class Interfaces : Type := {
  InterfaceByIndex : Z → option zone;
  InterfaceByName : zone → option Z;
}.

(** What the table promises: names are not empty, an interface found by its
    index is found by its name, and no name is a decimal numeral. *)
Class InterfacesOk (I : Interfaces) : Prop := {
  ifaces_nonempty : ∀ i n, InterfaceByIndex i = Some n → n ≠ [];
  ifaces_named : ∀ i n, InterfaceByIndex i = Some n → InterfaceByName n = Some i;
  ifaces_not_decimal : ∀ n, Forall (λ b, 48 ≤ b ≤ 57) n → InterfaceByName n = None;
}.

(** ** The standard library's part *)

Definition IPv4len : Z := 4.
Definition v4InV6Prefix : list byte := [0;0;0;0;0;0;0;0;0;0;255;255].
Definition IPv4zero : ip := v4InV6Prefix ++ [0;0;0;0].
Definition IPv6zero : ip := replicate 16 0.

(** [net.IP.To4] and [net.IP.To16]: nil is [None]. *)
Definition To4 (a : ip) : option ip :=
  if decide (length a = 4%nat) then Some a
  else if decide (length a = 16%nat ∧ take 12 a = v4InV6Prefix) then Some (drop 12 a)
  else None.

Definition To16 (a : ip) : option ip :=
  if decide (length a = 4%nat) then Some (v4InV6Prefix ++ a)
  else if decide (length a = 16%nat) then Some a
  else None.

(** [net.IP.Equal]: an IPv4 address equals its 16 byte form. *)
Definition ip_Equal (a b : ip) : bool :=
  if decide (length a = length b) then bool_decide (a = b)
  else if decide (length a = 4%nat ∧ length b = 16%nat)
  then bool_decide (v4InV6Prefix ++ a = b)
  else if decide (length a = 16%nat ∧ length b = 4%nat)
  then bool_decide (a = v4InV6Prefix ++ b)
  else false.

(** [strconv.Atoi] on 64 bits: an optional sign, then at least one decimal
    digit, in the range of [int]. *)
Fixpoint digits_val (acc : Z) (s : list byte) : option Z :=
  match s with
  | [] => Some acc
  | c :: s => if decide (48 ≤ c ≤ 57) then digits_val (acc * 10 + (c - 48)) s else None
  end.

Definition Atoi (s : list byte) : option Z :=
  let signed sg ds :=
    match ds with
    | [] => None
    | _ => n ← digits_val 0 ds;
           if decide (- 2 ^ 63 ≤ sg * n < 2 ^ 63) then Some (sg * n) else None
    end in
  match s with
  | 45 :: ds => signed (-1) ds
  | 43 :: ds => signed 1 ds
  | ds => signed 1 ds
  end.

(** [encoding/binary]: storing at an offset of a slice, and reading. *)
Definition store (off : Z) (bs l : list byte) : list byte :=
  ztake off l ++ bs ++ zdrop (off + zlen bs) l.
Definition byteAt (l : list byte) (i : Z) : Z := nth (Z.to_nat i) l 0.
Definition le16 (v : Z) : list byte := [u8 v; u8 (Z.shiftr v 8)].
Definition be16 (v : Z) : list byte := [u8 (Z.shiftr v 8); u8 v].
Definition be32 (v : Z) : list byte :=
  [u8 (Z.shiftr v 24); u8 (Z.shiftr v 16); u8 (Z.shiftr v 8); u8 v].
Definition rd_le16 (l : list byte) (i : Z) : Z :=
  Z.lor (byteAt l i) (Z.shiftl (byteAt l (i + 1)) 8).
Definition rd_be16 (l : list byte) (i : Z) : Z :=
  Z.lor (byteAt l (i + 1)) (Z.shiftl (byteAt l i) 8).
Definition rd_le32 (l : list byte) (i : Z) : Z :=
  byteAt l i + 2 ^ 8 * byteAt l (i + 1) + 2 ^ 16 * byteAt l (i + 2)
  + 2 ^ 24 * byteAt l (i + 3).

(** ** Addresses *)

(** [unix.Sockaddr] *)
Inductive Sockaddr : Type :=
| SockaddrInet4 (port : Z) (addr : list byte)
| SockaddrInet6 (port : Z) (zoneId : Z) (addr : list byte)
| SockaddrUnix (name : string)
| SockaddrOther.

(** [net.Addr] *)
Inductive Addr : Type :=
| TCPAddr (IP : ip) (port : Z) (z : zone)
| UDPAddr (IP : ip) (port : Z) (z : zone)
| UnixAddr (name net : string)
| OtherAddr (network : string).

#[export] Instance Sockaddr_eq_dec : EqDecision Sockaddr.
Proof. solve_decision. Defined.
#[export] Instance Addr_eq_dec : EqDecision Addr.
Proof. solve_decision. Defined.

Inductive addr_err : Type :=
| ErrInvalidSockaddr        (* "invalid sockaddr" *)
| ErrUnknownFamily          (* "unknown net family" *)
| ErrShortSockaddr          (* "sockaddr length not enough" *)
| ErrAddrType               (* "addr type is not support" *)
| ErrNotBoth                (* "laddr and raddr are not both ..." *)
| ErrFamilyMismatch (l r : Z)
| ErrNonIPv4
| ErrNonIPv6
| ErrZone                   (* the error of strconv.Atoi *)
| ErrInvalidFamily
| ErrNetwork.               (* "expected listen on ..." *)

Definition SockaddrSize : Z := 28.
Definition AF_INET : Z := 2.
Definition AF_INET6 : Z := 10.

(** [for ; i > 0; i /= 10 { bp--; b[bp] = byte(i%10) + '0' }]: the loop runs on
    the [fuel] cells left in the array [b] and stores from its end; no cell
    left would be the index panic ([int2decimal_total] excludes it). *)
Fixpoint int2decimal_loop (fuel : nat) (i : Z) (b : list byte) : option (list byte) :=
  if decide (0 < i) then
    match fuel with
    | O => None
    | S fuel => int2decimal_loop fuel (i `div` 10) (u8 (u8 (i `mod` 10) + 48) :: b)
    end
  else Some b.

Definition int2decimal (i : Z) : list byte :=
  if decide (i = 0) then [48] else default [] (int2decimal_loop 32 i []).

Definition LittleToBigEndian (i : Z) : Z := rd_be16 (le16 i) 0.
Definition BigToLittleEndian (i : Z) : Z := rd_le16 (be16 i) 0.

Section NetAddr.
Context `{I : Interfaces}.

Definition IP6ZoneToString (z : Z) : zone :=
  if decide (z = 0) then []
  else match InterfaceByIndex z with
       | Some n => n
       | None => int2decimal (u64 z)
       end.

Definition StringToZoneID (z : zone) : result addr_err Z :=
  if decide (z = []) then Ok 0
  else match InterfaceByName z with
       | Some i => Ok (u32 i)
       | None => match Atoi z with
                 | None => Err ErrZone
                 | Some n => Ok (u32 n)
                 end
       end.

Definition sockaddrInet4ToIP (addr : list byte) : ip :=
  let ip := store 11 [255] (store 10 [255] (replicate 16 0)) in
  store 12 (take 4 addr) ip.

Definition sockaddrInet6ToIPAndZone (addr : list byte) (zoneId : Z) : ip * zone :=
  (store 0 (take 16 addr) (replicate 16 0), IP6ZoneToString zoneId).

Definition SockaddrToTCPOrUnixAddr (sa : Sockaddr) : option Addr :=
  match sa with
  | SockaddrInet4 port addr => Some (TCPAddr (sockaddrInet4ToIP addr) port [])
  | SockaddrInet6 port zid addr =>
      let '(ip, z) := sockaddrInet6ToIPAndZone addr zid in Some (TCPAddr ip port z)
  | SockaddrUnix name => Some (UnixAddr name "unix")
  | SockaddrOther => None
  end.

Definition SockaddrToUDPAddr (sa : Sockaddr) : option Addr :=
  match sa with
  | SockaddrInet4 port addr => Some (UDPAddr (sockaddrInet4ToIP addr) port [])
  | SockaddrInet6 port zid addr =>
      let '(ip, z) := sockaddrInet6ToIPAndZone addr zid in Some (UDPAddr ip port z)
  | _ => None
  end.

(** *** The raw form *)

Definition SockaddrSliceToUDPAddr (sockaddr : list byte) : result addr_err Addr :=
  if decide (zlen sockaddr ≠ SockaddrSize) then Err ErrInvalidSockaddr
  else
    let family := rd_le16 sockaddr 0 in
    if decide (family = AF_INET) then
      Ok (UDPAddr (zsub 4 8 sockaddr) (BigToLittleEndian (rd_le16 sockaddr 2)) [])
    else if decide (family = AF_INET6) then
      Ok (UDPAddr (zsub 8 24 sockaddr) (BigToLittleEndian (rd_le16 sockaddr 2))
                  (IP6ZoneToString (rd_le32 sockaddr 24)))
    else Err ErrUnknownFamily.

Definition buildSockaddrSliceIPv4 (sockaddr : list byte) (ip : ip) (port : Z)
  : result addr_err (list byte) :=
  if decide (zlen sockaddr < SockaddrSize) then Err ErrShortSockaddr
  else
    let sockaddr := store 0 (le16 AF_INET) sockaddr in
    let sockaddr := store 2 (be16 (u16 port)) sockaddr in
    Ok (store 4 (take 4 ip) sockaddr).

Definition buildSockaddrSliceIPv6 (sockaddr : list byte) (ip : ip) (port zoneID : Z)
  : result addr_err (list byte) :=
  if decide (zlen sockaddr < SockaddrSize) then Err ErrShortSockaddr
  else
    let sockaddr := store 0 (le16 AF_INET6) sockaddr in
    let sockaddr := store 2 (be16 (u16 port)) sockaddr in
    let sockaddr := store 8 (take 16 ip) sockaddr in
    Ok (store 24 (be32 zoneID) sockaddr).

Definition UDPAddrToSockaddrSlice (IP : ip) (port : Z) (z : zone)
  : result addr_err (list byte) :=
  let sa := replicate (Z.to_nat SockaddrSize) 0 in
  match To4 IP with
  | Some ipv4 => buildSockaddrSliceIPv4 sa ipv4 port
  | None =>
      match StringToZoneID z with
      | Err e => Err e
      | Ok zoneID => buildSockaddrSliceIPv6 sa (default [] (To16 IP)) port zoneID
      end
  end.

Definition UnixSockaddrToSockaddrSlice (us : Sockaddr) (sockaddr : list byte)
  : result addr_err (list byte) :=
  match us with
  | SockaddrInet4 port addr => buildSockaddrSliceIPv4 sockaddr addr port
  | SockaddrInet6 port zid addr => buildSockaddrSliceIPv6 sockaddr addr port zid
  | _ => Err ErrAddrType
  end.

(** *** The peer's socket address *)

Definition getFamily (a : ip) : Z :=
  if decide (zlen a ≤ IPv4len) then AF_INET
  else match To4 a with
       | Some _ => AF_INET
       | None => AF_INET6
       end.

Definition family2String (family : Z) : string :=
  if decide (family = AF_INET) then "AF_INET"
  else if decide (family = AF_INET6) then "AF_INET6"
  else "UNKOWN".

Definition getAndCompareFamily (lIP rIP : ip) : result addr_err Z :=
  let lFamily := getFamily lIP in
  let rFamily := getFamily rIP in
  if decide (lFamily ≠ rFamily) then Err (ErrFamilyMismatch lFamily rFamily)
  else Ok rFamily.

Definition ipToSockaddr (family : Z) (a : ip) (port : Z) (z : zone)
  : result addr_err Sockaddr :=
  if decide (family = AF_INET) then
    let a := if decide (zlen a = 0) then IPv4zero else a in
    match To4 a with
    | None => Err ErrNonIPv4
    | Some ip4 => Ok (SockaddrInet4 port ip4)
    end
  else if decide (family = AF_INET6) then
    let a := if decide (zlen a = 0 ∨ ip_Equal a IPv4zero = true) then IPv6zero else a in
    match To16 a with
    | None => Err ErrNonIPv6
    | Some ip6 =>
        match StringToZoneID z with
        | Err e => Err e
        | Ok zoneID => Ok (SockaddrInet6 port zoneID ip6)
        end
    end
  else Err ErrInvalidFamily.

Definition tcpAddrToSockAddr (laddr raddr : option Addr) : result addr_err Sockaddr :=
  match laddr, raddr with
  | Some (TCPAddr lIP _ _), Some (TCPAddr rIP rPort rZone) =>
      match getAndCompareFamily lIP rIP with
      | Err e => Err e
      | Ok family => ipToSockaddr family rIP rPort rZone
      end
  | _, _ => Err ErrNotBoth
  end.

Definition udpAddrToSockAddr (laddr raddr : option Addr) : result addr_err Sockaddr :=
  match laddr, raddr with
  | Some (UDPAddr lIP _ _), Some (UDPAddr rIP rPort rZone) =>
      match getAndCompareFamily lIP rIP with
      | Err e => Err e
      | Ok family => ipToSockaddr family rIP rPort rZone
      end
  | _, _ => Err ErrNotBoth
  end.

Definition AddrToSockAddr (laddr raddr : option Addr) : result addr_err Sockaddr :=
  match raddr with
  | Some (TCPAddr _ _ _) => tcpAddrToSockAddr laddr raddr
  | Some (UDPAddr _ _ _) => udpAddrToSockAddr laddr raddr
  | _ => Err ErrAddrType
  end.

End NetAddr.

(** *** Which networks *)

(** The result of [net.InterfaceAddrs]: [None] is its error; an address that is
    not a [*net.IPNet] has no IP. *)
Definition hasIPv4Addr (addrs : option (list (option ip))) : bool :=
  match addrs with
  | None => false
  | Some l => existsb (λ a, match a with
                            | None => false
                            | Some a => bool_decide (is_Some (To4 a))
                            end) l
  end.

Definition hasIPv6Addr (addrs : option (list (option ip))) : bool :=
  match addrs with
  | None => false
  | Some l => existsb (λ a, match a with
                            | None => false
                            | Some a => negb (bool_decide (is_Some (To4 a)))
                            end) l
  end.

Definition TestableNetwork (addrs : option (list (option ip))) (network : string) : bool :=
  if decide (network = "unix"%string) then true
  else if decide (network = "tcp4" ∨ network = "udp4")%string then hasIPv4Addr addrs
  else if decide (network = "tcp6" ∨ network = "udp6")%string then hasIPv6Addr addrs
  else if decide (network = "tcp" ∨ network = "udp")%string
  then hasIPv6Addr addrs || hasIPv4Addr addrs
  else false.

(** [net.Addr.Network] *)
Definition Network (a : Addr) : string :=
  match a with
  | TCPAddr _ _ _ => "tcp"
  | UDPAddr _ _ _ => "udp"
  | UnixAddr _ n => n
  | OtherAddr n => n
  end.

Definition ValidateTCP (listener_addr : Addr) : result addr_err () :=
  if decide (Network listener_addr ∈ ["tcp"; "tcp4"; "tcp6"]%string)
  then Ok () else Err ErrNetwork.

Definition ValidateUDP (local_addr : Addr) : result addr_err () :=
  if decide (Network local_addr ∈ ["udp"; "udp4"; "udp6"]%string)
  then Ok () else Err ErrNetwork.

(** ** Bytes and ports *)

Lemma u8_range z : 0 ≤ u8 z < 256.
Proof. unfold u8. apply Z.mod_pos_bound. lia. Qed.

Lemma u8_small z : 0 ≤ z < 256 → u8 z = z.
Proof. intros. unfold u8. by apply Z.mod_small. Qed.

Lemma u16_range z : 0 ≤ u16 z < 2 ^ 16.
Proof. unfold u16. apply Z.mod_pos_bound. lia. Qed.

Lemma u16_small z : 0 ≤ z < 2 ^ 16 → u16 z = z.
Proof. intros. unfold u16. by apply Z.mod_small. Qed.

(** A byte below another one: the bitwise or is a sum. *)
Lemma lor_byte a b : 0 ≤ a < 256 → Z.lor a (Z.shiftl b 8) = a + 256 * b.
Proof.
  intros Ha.
  assert (E : Z.land a (Z.shiftl b 8) = 0).
  { apply Z.bits_inj'. intros n Hn. rewrite Z.land_spec, Z.bits_0.
    destruct (decide (n < 8)).
    - rewrite Z.shiftl_spec_low by lia. apply andb_false_r.
    - rewrite <-(Z.mod_small a (2 ^ 8)) by lia.
      by rewrite Z.mod_pow2_bits_high by lia. }
  rewrite <-Z.lxor_lor, <-Z.add_nocarry_lxor by done.
  rewrite Z.shiftl_mul_pow2 by lia. lia.
Qed.

Lemma be16_le16 p : 0 ≤ p < 2 ^ 16 → u8 (Z.shiftr p 8) = p `div` 256 ∧ u8 p = p `mod` 256.
Proof.
  intros. split; [|done]. rewrite Z.shiftr_div_pow2 by lia.
  apply u8_small. change (2 ^ 8) with 256.
  split; [apply Z.div_pos; lia|apply Z.div_lt_upper_bound; lia].
Qed.

(** The raw port: what was stored in network order is read back. *)
Lemma port_roundtrip p :
  0 ≤ p < 2 ^ 16 → BigToLittleEndian (rd_le16 (be16 (u16 p)) 0) = p.
Proof.
  intros Hp. rewrite u16_small by done.
  pose proof (be16_le16 p Hp) as [Eh El].
  pose proof (u8_range p). pose proof (u8_range (Z.shiftr p 8)).
  assert (Er : rd_le16 (be16 p) 0 = u8 (Z.shiftr p 8) + 256 * u8 p)
    by (unfold rd_le16; apply lor_byte; exact H0).
  rewrite Er. set (h := u8 (Z.shiftr p 8)) in *. set (l := u8 p) in *.
  assert (Hq : 0 ≤ h + 256 * l < 2 ^ 16) by lia.
  destruct (be16_le16 _ Hq) as [Eh' El'].
  assert (E1 : (h + 256 * l) `div` 256 = l)
    by (rewrite (Z.mul_comm 256), Z.div_add, Z.div_small by lia; lia).
  assert (E2 : (h + 256 * l) `mod` 256 = h)
    by (rewrite (Z.mul_comm 256), Z_mod_plus_full; apply Z.mod_small; lia).
  unfold BigToLittleEndian, rd_le16, be16. rewrite Eh', El', E1, E2.
  change (Z.lor l (Z.shiftl h 8) = p). rewrite lor_byte by lia.
  rewrite Eh, El. pose proof (Z.div_mod p 256). lia.
Qed.

(** The zone's four bytes, reversed. *)
Definition bswap32 (v : Z) : Z :=
  u8 (Z.shiftr v 24) + 2 ^ 8 * u8 (Z.shiftr v 16) + 2 ^ 16 * u8 (Z.shiftr v 8)
  + 2 ^ 24 * u8 v.

(** ** Decimal numerals *)

Definition is_digit (b : Z) : Prop := 48 ≤ b ≤ 57.

Lemma digits_val_app acc s t :
  Forall is_digit s → digits_val acc (s ++ t) = n ← digits_val acc s; digits_val n t.
Proof.
  intros Hs. revert acc. induction Hs as [|c s Hc _ IH]; intros acc; [done|].
  simpl. rewrite !decide_True by exact Hc. apply IH.
Qed.

(** The loop prepends the digits of [i], and a number of [d] digits needs [d]
    cells. *)
Lemma int2decimal_loop_spec d i b :
  0 ≤ i < 10 ^ Z.of_nat d →
  ∃ ds, int2decimal_loop d i b = Some (ds ++ b) ∧ Forall is_digit ds ∧
        digits_val 0 ds = Some i ∧ (0 < i → ds ≠ []).
Proof.
  revert i b. induction d as [|d IH]; intros i b Hi.
  { change (10 ^ Z.of_nat 0) with 1 in Hi.
    assert (i = 0) as -> by lia. by exists []. }
  simpl. destruct (decide (0 < i)) as [Hp|Hn].
  2: { assert (i = 0) as -> by lia. by exists []. }
  assert (Hm : 0 ≤ i `mod` 10 < 10) by (apply Z.mod_pos_bound; lia).
  rewrite (u8_small (i `mod` 10)) by lia. rewrite u8_small by lia.
  destruct (IH (i `div` 10) ((i `mod` 10 + 48) :: b)) as (ds & E & Hds & Hv & _).
  { split; [apply Z.div_pos; lia|]. apply Z.div_lt_upper_bound; [lia|].
    rewrite Nat2Z.inj_succ, Z.pow_succ_r in Hi; lia. }
  exists (ds ++ [i `mod` 10 + 48]). split_and!.
  - by rewrite E, <-(assoc_L app).
  - apply Forall_app. split; [done|]. constructor; [|done]. unfold is_digit. lia.
  - rewrite digits_val_app by done. rewrite Hv. simpl.
    rewrite decide_True by lia. f_equal. pose proof (Z.div_mod i 10). lia.
  - intros _ Hnil. by apply app_nil in Hnil as [_ ?].
Qed.

(** More cells do no harm, so the 32 of the array are enough for 64 bits. *)
Lemma int2decimal_spec i :
  0 ≤ i < 2 ^ 64 →
  Forall is_digit (int2decimal i) ∧ digits_val 0 (int2decimal i) = Some i ∧
  int2decimal i ≠ [] ∧ is_Some (int2decimal_loop 32 i []).
Proof.
  intros Hi. destruct (int2decimal_loop_spec 32 i []) as (ds & E & Hds & Hv & Hne).
  { change (10 ^ Z.of_nat 32) with 100000000000000000000000000000000. lia. }
  unfold int2decimal. rewrite E. case_decide as Hz; simpl.
  - subst i. split_and!; [|done|done|done].
    constructor; [unfold is_digit; lia|done].
  - rewrite app_nil_r. split_and!; try done. apply Hne. lia.
Qed.

Lemma Atoi_decimal i : 0 ≤ i < 2 ^ 63 → Atoi (int2decimal i) = Some i.
Proof.
  intros Hi. destruct (int2decimal_spec i) as (Hd & Hv & Hne & _); [lia|].
  destruct (int2decimal i) as [|c s] eqn:E; [done|].
  apply Forall_cons in Hd as [Hc _]. unfold Atoi, is_digit in *.
  assert (E' : (n ← digits_val 0 (c :: s);
                if decide (- 2 ^ 63 ≤ 1 * n < 2 ^ 63) then Some (1 * n) else None)
               = Some i).
  { rewrite Hv. cbn [mbind option_bind]. rewrite decide_True by lia. f_equal. lia. }
  destruct c as [|p|p]; [exact E'| |exact E'].
  repeat (destruct p as [p|p|]; try exact E'); lia.
Qed.

Ltac sixteen l H :=
  do 16 (destruct l as [|? l]; [discriminate H|]); destruct l; [|discriminate H].

Section Theorems.
Context `{I : Interfaces} {IO : InterfacesOk I}.

(** Whatever number an IPv6 socket address carries, the zone string it is given
    is read back as that number, for named interfaces and decimal zones. *)
Lemma zone_id_roundtrip z :
  0 ≤ z < 2 ^ 32 → StringToZoneID (IP6ZoneToString z) = Ok z.
Proof.
  intros Hz. unfold IP6ZoneToString, StringToZoneID.
  destruct (decide (z = 0)) as [->|Hz0]; [done|].
  destruct (InterfaceByIndex z) as [n|] eqn:E.
  - rewrite decide_False by (by eapply ifaces_nonempty).
    rewrite (ifaces_named _ _ E). by rewrite u32_small.
  - rewrite u64_small by lia.
    destruct (int2decimal_spec z) as (Hd & _ & Hne & _); [lia|].
    rewrite decide_False by done. rewrite ifaces_not_decimal by exact Hd.
    rewrite Atoi_decimal by lia. by rewrite u32_small.
Qed.

(** *** The raw form *)

Lemma build4_eq a b c d p :
  buildSockaddrSliceIPv4 (replicate 28 0) [a; b; c; d] p
  = Ok ([2; 0] ++ be16 (u16 p) ++ [a; b; c; d] ++ replicate 20 0).
Proof. reflexivity. Qed.

Lemma build6_eq addr p zid :
  length addr = 16%nat →
  buildSockaddrSliceIPv6 (replicate 28 0) addr p zid
  = Ok ([10; 0] ++ be16 (u16 p) ++ replicate 4 0 ++ addr ++ be32 zid).
Proof. intros H. sixteen addr H. reflexivity. Qed.

Lemma parse4_eq a b c d p :
  0 ≤ p < 2 ^ 16 →
  SockaddrSliceToUDPAddr ([2; 0] ++ be16 (u16 p) ++ [a; b; c; d] ++ replicate 20 0)
  = Ok (UDPAddr [a; b; c; d] p []).
Proof. intros Hp. rewrite <-(port_roundtrip p Hp) at 2. reflexivity. Qed.

Lemma parse6_eq addr p zid :
  0 ≤ p < 2 ^ 16 → length addr = 16%nat →
  SockaddrSliceToUDPAddr ([10; 0] ++ be16 (u16 p) ++ replicate 4 0 ++ addr ++ be32 zid)
  = Ok (UDPAddr addr p (IP6ZoneToString (bswap32 zid))).
Proof.
  intros Hp H. rewrite <-(port_roundtrip p Hp) at 2. sixteen addr H. reflexivity.
Qed.

(** What an IP address is in the raw form: its four bytes if it is an IPv4
    address in either form. *)
Definition canonical (a : ip) : ip := default a (To4 a).

Lemma To4_length a b : To4 a = Some b → length b = 4%nat.
Proof.
  unfold To4. repeat case_decide; intros; simplify_eq; [done|].
  rewrite length_drop. lia.
Qed.

Lemma To16_length a b : To16 a = Some b → length b = 16%nat.
Proof. unfold To16. repeat case_decide; intros; simplify_eq; simpl; lia. Qed.

(** A UDP address without a zone survives the raw form the batched system
    calls use: every IPv4 address (in its 4 or 16 byte form) and every IPv6
    address, with any port, is encoded into 28 bytes that decode to the same
    address, IPv4 ones in their 4 byte form. *)
Lemma udp_addr_raw (a : ip) (port : Z) :
  0 ≤ port < 2 ^ 16 → length a = 4%nat ∨ length a = 16%nat →
  ∃ sa, UDPAddrToSockaddrSlice a port [] = Ok sa ∧ zlen sa = SockaddrSize ∧
        SockaddrSliceToUDPAddr sa = Ok (UDPAddr (canonical a) port []).
Proof.
  intros Hp Ha. unfold UDPAddrToSockaddrSlice, canonical.
  change (Z.to_nat SockaddrSize) with 28%nat.
  destruct (To4 a) as [b|] eqn:E4; simpl.
  - apply To4_length in E4.
    destruct b as [|b0 [|b1 [|b2 [|b3 [|]]]]]; try discriminate.
    rewrite build4_eq. eexists. split_and!; [done|done|by apply parse4_eq].
  - assert (E16 : To16 a = Some a).
    { destruct Ha as [Ha|Ha]; unfold To4, To16 in *; rewrite Ha in *; [done|done]. }
    rewrite E16. simpl. pose proof (To16_length _ _ E16) as Hl.
    rewrite build6_eq by done. eexists. split_and!; [done| |].
    + rewrite !zlen_app. unfold zlen at 4. rewrite Hl. done.
    + rewrite parse6_eq by done. done.
Qed.

(** A zone does not survive it: the encoder stores the zone's number in
    network order where the decoder (and the kernel) reads it in host order, so
    an IPv6 address with zone number [zid] comes back with the number whose four
    bytes are those of [zid] reversed. *)
Theorem udp_zone_is_reversed (a : ip) (port : Z) (z : zone) (zid : Z) :
  0 ≤ port < 2 ^ 16 → length a = 16%nat → To4 a = None → StringToZoneID z = Ok zid →
  ∃ sa, UDPAddrToSockaddrSlice a port z = Ok sa ∧
        SockaddrSliceToUDPAddr sa
        = Ok (UDPAddr a port (IP6ZoneToString (bswap32 zid))).
Proof.
  intros Hp Hl E4 Ez. unfold UDPAddrToSockaddrSlice.
  change (Z.to_nat SockaddrSize) with 28%nat. rewrite E4, Ez.
  assert (E16 : To16 a = Some a) by (unfold To16; rewrite Hl; done).
  rewrite E16. simpl. rewrite build6_eq by done.
  eexists. split; [done|]. by rewrite parse6_eq.
Qed.

(** *** Socket addresses *)

(** A socket address the kernel reports for a peer: IPv4, or an IPv6 address
    that is not a mapped IPv4 one. *)
Definition sockaddr_wf (sa : Sockaddr) : Prop :=
  match sa with
  | SockaddrInet4 _ addr => length addr = 4%nat
  | SockaddrInet6 _ zid addr =>
      length addr = 16%nat ∧ To4 addr = None ∧ 0 ≤ zid < 2 ^ 32
  | _ => False
  end.

Definition sockaddr_family (sa : Sockaddr) : Z :=
  match sa with
  | SockaddrInet4 _ _ => AF_INET
  | _ => AF_INET6
  end.

Lemma Inet4ToIP_eq addr :
  length addr = 4%nat → sockaddrInet4ToIP addr = v4InV6Prefix ++ addr.
Proof.
  intros H. destruct addr as [|b0 [|b1 [|b2 [|b3 [|]]]]]; try discriminate.
  reflexivity.
Qed.

Lemma Inet6ToIP_eq addr zid :
  length addr = 16%nat →
  sockaddrInet6ToIPAndZone addr zid = (addr, IP6ZoneToString zid).
Proof. intros H. sixteen addr H. reflexivity. Qed.

Lemma To4_mapped addr : length addr = 4%nat → To4 (v4InV6Prefix ++ addr) = Some addr.
Proof.
  intros H. destruct addr as [|b0 [|b1 [|b2 [|b3 [|]]]]]; try discriminate.
  reflexivity.
Qed.

Lemma family_mapped addr : length addr = 4%nat → getFamily (v4InV6Prefix ++ addr) = AF_INET.
Proof.
  intros H. unfold getFamily. rewrite To4_mapped by done. by case_decide.
Qed.

Lemma family_6 addr :
  length addr = 16%nat → To4 addr = None → getFamily addr = AF_INET6.
Proof.
  intros H E. unfold getFamily, zlen, IPv4len. rewrite H, E. done.
Qed.

(** [AddrToSockAddr] after either conversion is a round trip. *)
Lemma ipToSockaddr_4 addr port z :
  length addr = 4%nat →
  ipToSockaddr AF_INET (v4InV6Prefix ++ addr) port z = Ok (SockaddrInet4 port addr).
Proof.
  intros H. unfold ipToSockaddr. rewrite decide_True by done.
  rewrite decide_False by (rewrite zlen_app; unfold zlen; simpl; lia).
  by rewrite To4_mapped.
Qed.

Lemma ipToSockaddr_6 addr port zid :
  length addr = 16%nat → To4 addr = None → 0 ≤ zid < 2 ^ 32 →
  ipToSockaddr AF_INET6 addr port (IP6ZoneToString zid)
  = Ok (SockaddrInet6 port zid addr).
Proof.
  intros H E Hz. unfold ipToSockaddr. rewrite decide_False by done.
  rewrite decide_True by done.
  rewrite decide_False.
  - assert (E16 : To16 addr = Some addr) by (unfold To16; rewrite H; done).
    rewrite E16. by rewrite zone_id_roundtrip.
  - intros [H0|H0]; [unfold zlen in H0; lia|].
    unfold ip_Equal in H0. rewrite H in H0. simpl in H0.
    apply bool_decide_eq_true_1 in H0 as ->. discriminate.
Qed.

Lemma sockaddr_back (tcp : bool) sa lIP lport lzone :
  let mk := if tcp then TCPAddr else UDPAddr in
  let conv := if tcp then SockaddrToTCPOrUnixAddr else SockaddrToUDPAddr in
  sockaddr_wf sa → getFamily lIP = sockaddr_family sa →
  AddrToSockAddr (Some (mk lIP lport lzone)) (conv sa) = Ok sa.
Proof.
  intros mk conv Hwf Hf.
  destruct sa as [p addr|p zid addr| |]; simpl in Hwf, Hf; try done.
  - subst mk conv. destruct tcp; simpl; rewrite Inet4ToIP_eq by done;
      unfold getAndCompareFamily; rewrite Hf, family_mapped by done; simpl;
      by apply ipToSockaddr_4.
  - destruct Hwf as (Hl & E & Hz).
    subst mk conv. destruct tcp; unfold SockaddrToTCPOrUnixAddr, SockaddrToUDPAddr;
      rewrite Inet6ToIP_eq by done; simpl;
      unfold getAndCompareFamily; rewrite Hf, family_6 by done; simpl;
      by apply ipToSockaddr_6.
Qed.

(** Whatever is encoded takes 28 bytes. *)
Lemma zlen_store off bs (l : list byte) :
  0 ≤ off → off + zlen bs ≤ zlen l → zlen (store off bs l) = zlen l.
Proof.
  intros Ho Hl. unfold store. pose proof (zlen_nonneg bs).
  zlen_lia.
Qed.

Lemma zlen_take_le k (l : list byte) : zlen (take k l) ≤ Z.of_nat k.
Proof. unfold zlen. rewrite length_take. lia. Qed.

Lemma zlen_store_28 off bs (l : list byte) :
  zlen l = 28 → 0 ≤ off → off + zlen bs ≤ 28 → zlen (store off bs l) = 28.
Proof. intros Hl Ho Hb. by rewrite zlen_store by (rewrite ?Hl; done). Qed.

Lemma zlen_raw a port z sa : UDPAddrToSockaddrSlice a port z = Ok sa → zlen sa = SockaddrSize.
Proof.
  unfold UDPAddrToSockaddrSlice. set (l := replicate _ _).
  assert (Hl : @zlen byte l = 28) by done. clearbody l.
  destruct (To4 a) as [b|]; [|destruct (StringToZoneID z) as [zid|e]; [|done]].
  - unfold buildSockaddrSliceIPv4, SockaddrSize. rewrite decide_False by lia. intros [= <-].
    pose proof (zlen_take_le 4 b). do 3 (apply zlen_store_28; [|done|done || lia]). done.
  - unfold buildSockaddrSliceIPv6, SockaddrSize. rewrite decide_False by lia. intros [= <-].
    pose proof (zlen_take_le 16 (default [] (To16 a))).
    do 4 (apply zlen_store_28; [|done|done || lia]). done.
Qed.


End Theorems.

(** ** Witnesses *)

(** A host with a loopback and one Ethernet interface. *)
Definition lo_name : zone := [108; 111].
Definition eth0_name : zone := [101; 116; 104; 48].

Definition demo_ifaces : Interfaces := {|
  InterfaceByIndex i := if decide (i = 1) then Some lo_name
                        else if decide (i = 2) then Some eth0_name else None;
  InterfaceByName n := if decide (n = lo_name) then Some 1
                       else if decide (n = eth0_name) then Some 2 else None;
|}.

Lemma demo_ifaces_ok : InterfacesOk demo_ifaces.
Proof.
  split; simpl.
  - intros i n. repeat case_decide; intros; by simplify_eq.
  - intros i n. repeat case_decide; intros; by simplify_eq.
  - intros n Hn. repeat case_decide; simplify_eq; try done; exfalso.
    + apply Forall_cons in Hn as [Hc _]. lia.
    + apply Forall_cons in Hn as [Hc _]. lia.
Qed.

(** fe80::1 *)
Definition link_local : ip := [254; 128] ++ replicate 13 0 ++ [1].

Lemma udp_zone_is_reversed_witness :
  ∃ sa, UDPAddrToSockaddrSlice (I := demo_ifaces) link_local 8080 eth0_name = Ok sa ∧
        SockaddrSliceToUDPAddr (I := demo_ifaces) sa
        = Ok (UDPAddr link_local 8080 (IP6ZoneToString (I := demo_ifaces) (bswap32 2))).
Proof. apply (udp_zone_is_reversed (I := demo_ifaces)); [lia|done|done|done]. Defined.


Example eth0_comes_back_as_a_number :
  IP6ZoneToString (I := demo_ifaces) (bswap32 2) = [51;51;53;53;52;52;51;50].
Proof. vm_compute. reflexivity. Qed.
