(* ===== verification/Reuseport.v ===== *)
(** * Sockets that share a port (src/internal/reuseport)

    The package opens a UDP socket with system calls, sets its options, binds it and
    wraps it as a [net.PacketConn].  The model has the table of descriptors of the
    process, the answers of the system calls to come and the files that nobody closed:
    [os.NewFile] makes a file that owns its descriptor and closes it when it is
    collected.  Resolving names and the table of interfaces are parameters.

    The theorems: what a call leaves open on every path; which socket address is chosen
    for a resolved address. *)

From Stdlib Require Import String.
From stdpp Require Import base gmap list numbers strings pretty.
From S2P Require Import Prelude NetAddr.

Local Open Scope Z_scope.

(** ** The process *)

Definition SOCK_DGRAM : Z := 2.
Definition IPPROTO_UDP : Z := 17.
Definition SOL_SOCKET_ : Z := 1.
Definition SO_REUSEADDR : Z := 2.
Definition SO_BROADCAST : Z := 6.
Definition soReusePort : Z := 0x0F.
Definition EBADF : Z := 9.

Record sock : Type := Sock { sk_family : Z; sk_set : list (Z * Z); sk_bound : option Sockaddr }.

Record process : Type := Process {
  ps_fds : gmap Z sock;
  ps_answers : list Z;          (* 0, or the error of the next system call *)
  ps_files : list Z             (* descriptors of files that are not closed *)
}.

(** A file that is closed is not collected. *)
Fixpoint forget (fd : Z) (files : list Z) : list Z :=
  match files with
  | [] => []
  | f :: files => if decide (f = fd) then files else f :: forget fd files
  end.

Definition set_fds v p := Process v (ps_answers p) (ps_files p).
Definition set_files v p := Process (ps_fds p) (ps_answers p) v.

Abbreviation MP := (M process).

Definition answer : MP Z := λ p, Ret (hd 0 (ps_answers p), Process (ps_fds p) (tl (ps_answers p)) (ps_files p)).

Inductive rp_err : Type :=
| RErrno (e : Z)
| RUnsupportedProtocol
| RUnsupportedUDPProtocol
| RResolve
| RInterface.

#[export] Instance rp_err_eq_dec : EqDecision rp_err.
Proof. solve_decision. Defined.

(** A system call on a descriptor: the answer of the kernel, [EBADF] for a number that
    is not open. *)
Definition on_fd (fd : Z) (f : sock → sock) : MP (result rp_err ()) :=
  e ← answer; t ← gets ps_fds;
  match t !! fd with
  | None => mret (Err (RErrno EBADF))
  | Some s =>
      if decide (e = 0) then _ ← modify (set_fds (<[fd := f s]> t)); mret (Ok ())
      else mret (Err (RErrno e))
  end.

Definition rp_SetsockoptInt (fd opt value : Z) : MP (result rp_err ()) :=
  on_fd fd (λ s, Sock (sk_family s) (sk_set s ++ [(opt, value)]) (sk_bound s)).
Definition rp_Bind (fd : Z) (sa : Sockaddr) : MP (result rp_err ()) :=
  on_fd fd (λ s, Sock (sk_family s) (sk_set s) (Some sa)).
Definition rp_Close (fd : Z) : MP () := modify (λ p, set_fds (delete fd (ps_fds p)) p).

(** The files that nobody refers to are collected: each closes its number. *)
Definition collect : MP () :=
  modify (λ p, Process (foldr delete (ps_fds p) (ps_files p)) (ps_answers p) []).

Section Reuseport.
Context `{I : Interfaces}.
(** The kernel gives out a number that is not in use. *)
Variable newfd : gmap Z sock → Z.
(** [net.ResolveUDPAddr]: the address, port and zone of a name. *)
Variable ResolveUDPAddr : string → string → option (ip * Z * zone).

Definition rp_Socket (family : Z) : MP (result rp_err Z) :=
  e ← answer;
  if decide (e = 0) then
    t ← gets ps_fds;
    _ ← modify (set_fds (<[newfd t := Sock family [] None]> t));
    mret (Ok (newfd t))
  else mret (Err (RErrno e)).

(** [os.NewFile]; [net.FilePacketConn], which duplicates the descriptor;
    [os.File.Close], after which the file is closed whatever the answer. *)
Definition NewFile (fd : Z) : MP Z := _ ← modify (λ p, set_files (fd :: ps_files p) p); mret fd.

Definition FilePacketConn (file : Z) : MP (result rp_err Z) :=
  e ← answer; t ← gets ps_fds;
  match t !! file with
  | None => mret (Err (RErrno EBADF))
  | Some s =>
      if decide (e = 0) then _ ← modify (set_fds (<[newfd t := s]> t)); mret (Ok (newfd t))
      else mret (Err (RErrno e))
  end.

Definition file_Close (file : Z) : MP (result rp_err ()) :=
  e ← answer;
  _ ← modify (λ p, Process (delete file (ps_fds p)) (ps_answers p) (forget file (ps_files p)));
  mret (if decide (e = 0) then Ok () else Err (RErrno e)).

(** ** Addresses *)

Definition determineUDPProto (proto : string) (addr : ip) : result rp_err string :=
  match To4 addr, To16 addr with
  | Some _, _ => Ok "udp4"%string
  | None, Some _ => Ok "udp6"%string
  | None, None =>
      if decide (proto = "udp" ∨ proto = "udp4" ∨ proto = "udp6")%string then Ok proto
      else Err RUnsupportedUDPProtocol
  end.

Definition rp_getUDPAddr (proto addr : string) : result rp_err (ip * Z * zone * string) :=
  match ResolveUDPAddr proto addr with
  | None => Err RResolve
  | Some (a, port, z) =>
      match determineUDPProto proto a with
      | Err e => Err e
      | Ok v => Ok (a, port, z, v)
      end
  end.

(** [copy(dst[:], src)] into an array: as many bytes as fit. *)
Definition copy_array (n : Z) (src : list byte) : list byte :=
  ztake n src ++ replicate (Z.to_nat (n - zlen src)) 0.

Definition getUDP4Sockaddr (a : ip) (port : Z) : result rp_err (Sockaddr * Z) :=
  Ok (SockaddrInet4 port (copy_array 4 (if decide (zlen a = 16) then zsub 12 16 a else a)), AF_INET).

Definition getUDP6Sockaddr (a : ip) (port : Z) (z : zone) : result rp_err (Sockaddr * Z) :=
  if decide (z = []) then Ok (SockaddrInet6 port 0 (copy_array 16 a), AF_INET6)
  else match InterfaceByName z with
       | None => Err RInterface
       | Some index => Ok (SockaddrInet6 port (u32 index) (copy_array 16 a), AF_INET6)
       end.

Definition getUDPSockaddr (proto addr : string) : result rp_err (Sockaddr * Z) :=
  match rp_getUDPAddr proto addr with
  | Err e => Err e
  | Ok (a, port, z, udpVersion) =>
      if decide (udpVersion = "udp"%string) then Ok (SockaddrInet4 port (replicate 4 0), AF_INET)
      else if decide (udpVersion = "udp4"%string) then getUDP4Sockaddr a port
      else getUDP6Sockaddr a port z
  end.

Definition getSockaddr (proto addr : string) : result rp_err (Sockaddr * Z) :=
  if decide (proto = "udp" ∨ proto = "udp4" ∨ proto = "udp6")%string then getUDPSockaddr proto addr
  else Err RUnsupportedProtocol.

(** ** Opening *)

Definition setPacketConnSockOpt (fd : Z) (sa : Sockaddr) : MP (result rp_err ()) :=
  r ← rp_SetsockoptInt fd SO_REUSEADDR 1;
  match r with
  | Err e => mret (Err e)
  | Ok _ =>
      r ← rp_SetsockoptInt fd soReusePort 1;
      match r with
      | Err e => mret (Err e)
      | Ok _ =>
          r ← rp_SetsockoptInt fd SO_BROADCAST 1;
          match r with
          | Err e => mret (Err e)
          | Ok _ => rp_Bind fd sa
          end
      end
  end.

Definition createPacketConn (fd : Z) (sa : Sockaddr) : MP (result rp_err Z) :=
  r ← setPacketConnSockOpt fd sa;
  match r with
  | Err e => _ ← rp_Close fd; mret (Err e)
  | Ok _ =>
      file ← NewFile fd;
      l ← FilePacketConn file;
      match l with
      | Err e => _ ← rp_Close fd; mret (Err e)
      | Ok l =>
          r ← file_Close file;
          match r with
          | Err e => _ ← rp_Close fd; mret (Err e)
          | Ok _ => mret (Ok l)
          end
      end
  end.

(** The name of the file, which only shows in errors. *)
Definition getSocketFileName (pid : Z) (proto addr : string) : string :=
  ("reuseport." +:+ pretty pid +:+ "." +:+ proto +:+ "." +:+ addr)%string.

(** A failed call of [socket] is answered with the number -1. *)
Definition NewReusablePortPacketConn (proto addr : string) : MP (result rp_err Z) :=
  match getSockaddr proto addr with
  | Err e => mret (Err e)
  | Ok (sa, soType) =>
      fd ← rp_Socket soType;
      match fd with
      | Err e => _ ← rp_Close (-1); mret (Err e)
      | Ok fd => createPacketConn fd sa
      end
  end.

Definition rp_ListenPacket : string → string → MP (result rp_err Z) := NewReusablePortPacketConn.

(** ** What a call leaves open *)

Hypothesis Hnewfd : ∀ t, t !! newfd t = None ∧ newfd t ≠ -1.

Definition ready (sa : Sockaddr) (family : Z) : sock :=
  Sock family [(SO_REUSEADDR, 1); (soReusePort, 1); (SO_BROADCAST, 1)] (Some sa).

(** A system call on an open descriptor changes that descriptor or fails. *)
Lemma on_fd_cases fd f s p :
  ps_fds p !! fd = Some s →
  (∃ a, on_fd fd f p = Ret (Ok (), Process (<[fd := f s]> (ps_fds p)) a (ps_files p))) ∨
  (∃ e a, on_fd fd f p = Ret (Err e, Process (ps_fds p) a (ps_files p))).
Proof.
  intros Hs. unfold on_fd. erewrite bind_Ret by reflexivity. mpure. simpl. rewrite Hs.
  destruct (decide (hd 0 (ps_answers p) = 0)); [left|right]; eauto.
Qed.

(** The same where the table is a table with the socket in it. *)
Lemma on_fd_insert fd f s t a fs :
  (∃ a', on_fd fd f (Process (<[fd := s]> t) a fs) = Ret (Ok (), Process (<[fd := f s]> t) a' fs)) ∨
  (∃ e a', on_fd fd f (Process (<[fd := s]> t) a fs) = Ret (Err e, Process (<[fd := s]> t) a' fs)).
Proof.
  destruct (on_fd_cases fd f s (Process (<[fd := s]> t) a fs)) as [[a' ->]|(e & a' & ->)];
    [apply lookup_insert_eq|left|right]; simpl; rewrite ?insert_insert_eq; eauto.
Qed.

Lemma setPacketConnSockOpt_cases fd family sa t a fs :
  (∃ a', setPacketConnSockOpt fd sa (Process (<[fd := Sock family [] None]> t) a fs)
         = Ret (Ok (), Process (<[fd := ready sa family]> t) a' fs)) ∨
  (∃ e a' s, setPacketConnSockOpt fd sa (Process (<[fd := Sock family [] None]> t) a fs)
             = Ret (Err e, Process (<[fd := s]> t) a' fs)).
Proof.
  unfold setPacketConnSockOpt, rp_SetsockoptInt, rp_Bind.
  do 3 (edestruct on_fd_insert as [[? H]|(? & ? & H)];
        [mrun H; clear H; cbn beta iota|right; mrun H; eauto]).
  edestruct on_fd_insert as [[? ->]|(? & ? & ->)]; [left|right]; eauto.
Qed.

(** How a call ends: with the socket, ready, as the only new descriptor; or with an
    error and nothing left; or the file still owns a number that is free again; or the
    socket is left open. *)
Inductive listened (proto addr : string) (p : process) : result rp_err Z → process → Prop :=
| listened_ok l sa family a :
    getSockaddr proto addr = Ok (sa, family) → ps_fds p !! l = None →
    listened proto addr p (Ok l) (Process (<[l := ready sa family]> (ps_fds p)) a (ps_files p))
| listened_nothing e a :
    listened proto addr p (Err e) (Process (ps_fds p) a (ps_files p))
| listened_owned e a fd :
    ps_fds p !! fd = None →
    listened proto addr p (Err e) (Process (ps_fds p) a (fd :: ps_files p))
| listened_leak e a l s :
    ps_fds p !! l = None →
    listened proto addr p (Err e) (Process (<[l := s]> (ps_fds p)) a (ps_files p)).

Lemma FilePacketConn_insert fd s t a fs :
  (∃ l a', t !! l = None ∧ l ≠ fd ∧
     FilePacketConn fd (Process (<[fd := s]> t) a fs) = Ret (Ok l, Process (<[l := s]> (<[fd := s]> t)) a' fs)) ∨
  (∃ e a', FilePacketConn fd (Process (<[fd := s]> t) a fs) = Ret (Err e, Process (<[fd := s]> t) a' fs)).
Proof.
  unfold FilePacketConn. erewrite bind_Ret by reflexivity. mpure. simpl. rewrite lookup_insert_eq.
  destruct (Hnewfd (<[fd := s]> t)) as [Hl _]. set (l := newfd _) in *.
  destruct (decide (hd 0 a = 0)); [left|right; eauto].
  apply lookup_insert_None in Hl as [Hl Hne]. exists l. eauto.
Qed.

Lemma file_Close_cases fd p :
  ∃ r a, file_Close fd p = Ret (r, Process (delete fd (ps_fds p)) a (forget fd (ps_files p))).
Proof. eexists _, _. reflexivity. Qed.

Lemma createPacketConn_cases proto addr sa family p a :
  getSockaddr proto addr = Ok (sa, family) →
  ∃ r p', createPacketConn (newfd (ps_fds p)) sa
            (Process (<[newfd (ps_fds p) := Sock family [] None]> (ps_fds p)) a (ps_files p)) = Ret (r, p') ∧
          listened proto addr p r p'.
Proof.
  intros Hsa. destruct (Hnewfd (ps_fds p)) as [Hfree _].
  set (fd := newfd (ps_fds p)) in *. destruct p as [t a0 fs]; cbn [ps_fds ps_files] in *.
  unfold createPacketConn.
  destruct (setPacketConnSockOpt_cases fd family sa t a fs) as [[a' H]|(e & a' & s & H)]; mrun H; clear H; cbn beta iota.
  2:{ unfold rp_Close. mpure. unfold set_fds; simpl. rewrite delete_insert_id by done.
      do 2 eexists. split; [done|]. apply (listened_nothing _ _ (Process t a0 fs)). }
  unfold NewFile. erewrite bind_Ret by reflexivity. unfold set_files; simpl.
  destruct (FilePacketConn_insert fd (ready sa family) t a' (fd :: fs)) as [(l & a1 & Hl & Hne & H)|(e & a1 & H)];
    mrun H; clear H; cbn beta iota.
  2:{ unfold rp_Close. mpure. unfold set_fds; simpl. rewrite delete_insert_id by done.
      do 2 eexists. split; [done|]. by apply (listened_owned _ _ (Process t a0 fs)). }
  edestruct file_Close_cases as (r & a2 & H); mrun H; clear H; simpl.
  rewrite decide_True, delete_insert_ne, delete_insert_id by done.
  destruct r as [[]|e].
  - do 2 eexists. split; [done|]. by apply (listened_ok _ _ (Process t a0 fs)).
  - unfold rp_Close. mpure. unfold set_fds; simpl. rewrite delete_insert_ne, (delete_id t) by done.
    do 2 eexists. split; [done|]. by apply (listened_leak _ _ (Process t a0 fs)).
Qed.

(** A call returns, with a socket that has the three options and is bound to the
    address that was chosen, the only new descriptor; or with an error, and then it
    leaves nothing, a file that owns a number it has closed, or the socket itself. *)
Theorem listen_packet_outcomes proto addr p :
  ps_fds p !! (-1) = None →
  ∃ r p', rp_ListenPacket proto addr p = Ret (r, p') ∧ listened proto addr p r p'.
Proof.
  intros Hneg. unfold rp_ListenPacket, NewReusablePortPacketConn.
  destruct (getSockaddr proto addr) as [[sa family]|e] eqn:Hsa.
  2:{ do 2 eexists. split; [done|]. destruct p. apply (listened_nothing _ _ (Process _ _ _)). }
  unfold rp_Socket. rewrite bind_assoc_run. mpure. destruct (decide _) as [E|E].
  - rewrite bind_assoc_run. mpure. rewrite bind_assoc_run. mpure. mpure.
    by apply (createPacketConn_cases proto addr sa family p (tl (ps_answers p))).
  - mpure. unfold rp_Close. mpure. unfold set_fds; simpl. rewrite delete_id by done.
    do 2 eexists. split; [done|]. apply listened_nothing.
Qed.

(** ** Which address is bound *)

(** The socket address that a resolved address gets, by the form of its IP. *)
Inductive chosen (a : ip) (port : Z) (z : zone) (proto : string) : result rp_err (Sockaddr * Z) → Prop :=
| chosen_ip4 b : To4 a = Some b → chosen a port z proto (Ok (SockaddrInet4 port b, AF_INET))
| chosen_ip6 : To4 a = None → To16 a = Some a → z = [] →
    chosen a port z proto (Ok (SockaddrInet6 port 0 a, AF_INET6))
| chosen_zone i : To4 a = None → To16 a = Some a → z ≠ [] → InterfaceByName z = Some i →
    chosen a port z proto (Ok (SockaddrInet6 port (u32 i) a, AF_INET6))
| chosen_no_zone : To4 a = None → To16 a = Some a → z ≠ [] → InterfaceByName z = None →
    chosen a port z proto (Err RInterface)
| chosen_any4 : a = [] → proto ≠ "udp6"%string → chosen a port z proto (Ok (SockaddrInet4 port (replicate 4 0), AF_INET))
| chosen_any6 : a = [] → proto = "udp6"%string → z = [] →
    chosen a port z proto (Ok (SockaddrInet6 port 0 (replicate 16 0), AF_INET6)).

Lemma copy_array_exact n a : zlen a = n → copy_array n a = a.
Proof. intros <-. unfold copy_array. rewrite ztake_ge, Z.sub_diag by lia. apply app_nil_r. Qed.

Lemma ip_cases (a : ip) :
  a = [] ∨ zlen a = 4 ∨ zlen a = 16 →
  (To4 a = None ∧ To16 a = None ∧ a = []) ∨
  (To4 a = Some (if decide (zlen a = 16) then zsub 12 16 a else a) ∧
   zlen (if decide (zlen a = 16) then zsub 12 16 a else a) = 4) ∨
  (To4 a = None ∧ To16 a = Some a ∧ zlen a = 16).
Proof.
  unfold To4, To16, zlen. intros [->|[Ha|Ha]]; [left; done|right; left|right].
  - rewrite !decide_True by lia. rewrite decide_False by lia. done.
  - rewrite (decide_False (P := length a = 4%nat)), (decide_True (P := Z.of_nat (length a) = 16)) by lia.
    destruct (decide (length a = 16%nat ∧ take 12 a = v4InV6Prefix)) as [[_ Hp]|Hn]; [left|right].
    + assert (zsub 12 16 a = drop 12 a) as ->.
      { unfold zsub, ztake, zdrop. apply take_ge. rewrite length_drop. lia. }
      rewrite length_drop. split; [done|lia].
    + rewrite (decide_False (P := length a = 4%nat)), decide_True by lia. done.
Qed.

(** The address that is bound is the address that the name resolves to: IPv4 and
    IPv4-mapped addresses in an IPv4 socket, whatever the protocol asked for; other
    addresses in an IPv6 socket, with the index of their zone's interface; and no
    address is any IPv4 address, also for "udp". *)
Theorem bound_address proto addr a port z :
  (proto = "udp" ∨ proto = "udp4" ∨ proto = "udp6")%string →
  ResolveUDPAddr proto addr = Some (a, port, z) →
  a = [] ∧ z = [] ∨ zlen a = 4 ∨ zlen a = 16 →
  chosen a port z proto (getSockaddr proto addr).
Proof.
  intros Hp Hr Ha. unfold getSockaddr, getUDPSockaddr, rp_getUDPAddr, determineUDPProto.
  rewrite decide_True by done. rewrite Hr.
  destruct (ip_cases a) as [(-> & -> & ->)|[(H4 & Hl)|(H4 & H16 & Hl)]]; [tauto|..].
  - destruct Ha as [[_ ->]|[?|?]]; [|done..].
    destruct Hp as [->|[->| ->]]; simpl; [by apply chosen_any4..|by apply chosen_any6].
  - rewrite H4. simpl. unfold getUDP4Sockaddr. rewrite copy_array_exact by done. by apply chosen_ip4.
  - rewrite H4, H16. simpl. unfold getUDP6Sockaddr. rewrite copy_array_exact by done.
    destruct (decide (z = [])) as [->|Hz]; [by apply chosen_ip6|].
    destruct (InterfaceByName z) eqn:E; [by apply chosen_zone|by apply chosen_no_zone].
Qed.

End Reuseport.

(** ** A concrete process *)

Definition demo_newfd (t : gmap Z sock) : Z := Z.of_nat (fresh (Z.to_nat <$> (map_to_list t).*1)).

Definition demo_resolve (proto addr : string) : option (ip * Z * zone) :=
  Some ([127; 0; 0; 1], 10082, []).

Definition demo_process (answers : list Z) : process := Process ∅ answers [].

Lemma demo_newfd_ok t : t !! demo_newfd t = None ∧ demo_newfd t ≠ -1.
Proof.
  split; [|unfold demo_newfd; lia]. apply not_elem_of_dom. intros Hin.
  apply elem_of_dom in Hin as [s Hs]. apply elem_of_map_to_list in Hs.
  apply (infinite_is_fresh (Z.to_nat <$> (map_to_list t).*1)). apply list_elem_of_fmap.
  exists (demo_newfd t). split; [unfold demo_newfd; by rewrite Nat2Z.id|].
  apply list_elem_of_fmap. by exists (demo_newfd t, s).
Qed.

Lemma listen_packet_outcomes_witness :
  ∃ r p', rp_ListenPacket (I := demo_ifaces) demo_newfd demo_resolve "udp" "localhost:10082" (demo_process []) = Ret (r, p') ∧
          listened (I := demo_ifaces) demo_resolve "udp" "localhost:10082" (demo_process []) r p'.
Proof. apply (listen_packet_outcomes (I := demo_ifaces) demo_newfd demo_resolve demo_newfd_ok). reflexivity. Defined.

Lemma bound_address_witness :
  chosen (I := demo_ifaces) [127; 0; 0; 1] 10082 [] "udp6"
    (getSockaddr (I := demo_ifaces) demo_resolve "udp6" "localhost:10082").
Proof. apply (bound_address (I := demo_ifaces) demo_resolve "udp6" "localhost:10082"); [tauto|reflexivity|auto]. Defined.

(** A call that fails to wrap its socket has closed the number that its file still owns:
    a socket opened later gets the number, and is closed when the file is collected. *)
Theorem failed_wrap_closes_a_later_socket :
  (r ← rp_ListenPacket (I := demo_ifaces) demo_newfd demo_resolve "udp" "localhost:10082";
   other ← rp_Socket demo_newfd AF_INET;
   _ ← collect;
   t ← gets ps_fds;
   mret (r, other, map_to_list t)) (demo_process [0; 0; 0; 0; 0; 12; 0]) =
  Ret ((Err (RErrno 12), Ok 0, []), Process ∅ [] []).
Proof. vm_compute. reflexivity. Qed.
