(* ===== verification/Listeners.v ===== *)
(** * Listeners and their descriptors (src/tcplistener.go, src/internal/netutil/fd.go, parts of src/tcpservice.go and src/tnet.go)

    A listener is a socket of the standard library and the number of its descriptor,
    which [GetFD] finds.  The state is the table of descriptors of [Reuseport], with
    the files that close their number when they are collected: [DupFD] and [Restart]
    make such files.

    The theorems: [GetFD] in every case; which listeners become a service; and what
    becomes of the numbers that files own. *)

From Stdlib Require Import String.
From stdpp Require Import base gmap list numbers strings.
From S2P Require Import Prelude AsyncTimer Options NetFD NetAddr TcpService Reuseport.

Local Open Scope Z_scope.

Inductive lerr : Type :=
| LNil                    (* "listener is nil" *)
| LNoConn                 (* "type %T doesn't implement syscall.Conn interface" *)
| LRaw (e : Z)            (* "get raw connection fail" *)
| LInvalid                (* "invalid file descriptor" *)
| LControl (e : Z)        (* the error of [Control] *)
| LNotTCP                 (* "validate listener fail" *)
| LListen (e : Z)         (* the error of [net.Listen] *)
| LNoFile                 (* "not implement SyscallConn()" *)
| LFile (e : Z).          (* the error of [File] *)

#[export] Instance lerr_eq_dec : EqDecision lerr.
Proof. solve_decision. Defined.

(** ** Descriptors of sockets *)

(** What a socket answers: whether it is a [syscall.Conn], the error of [SyscallConn],
    the number that [Control] passes to its function, if it calls it, and its error. *)
Record syscallConn : Type := SyscallConn {
  sc_conn : bool;
  sc_raw : option Z;
  sc_sysfd : option Z;
  sc_control : option Z
}.

Definition GetFD (s : syscallConn) : Z * option lerr :=
  if negb (sc_conn s) then (-1, Some LNoConn)
  else
    match sc_raw s with
    | Some e => (-1, Some (LRaw e))
    | None =>
        let fd := default (-1) (sc_sysfd s) in
        if decide (fd = -1) then (-1, Some LInvalid) else (fd, LControl <$> sc_control s)
    end.

(** [File] duplicates the descriptor of the socket; the file is forgotten. *)
Definition DupFD (newfd : gmap Z sock → Z) (has_File : bool) (sockfd : Z) : MP (Z * option lerr) :=
  if negb has_File then mret (-1, Some LNoFile)
  else
    f ← FilePacketConn newfd sockfd;
    match f with
    | Err (RErrno e) => mret (-1, Some (LFile e))
    | Err _ => mret (-1, Some LInvalid)
    | Ok fd => _ ← NewFile fd; mret (fd, None)
    end.

(** ** Listeners *)

(** A listener of the standard library: its descriptor, what it answers, its address. *)
Record libListener : Type := LibListener { ll_fd : Z; ll_conn : syscallConn; ll_addr : Addr }.

Record tcpListener : Type := TcpListener {
  tl_fd : Z;
  tl_fdtype : fdType;
  tl_sock : libListener;
  tl_network : string;
  tl_laddr : Addr
}.

Definition tl_FD (t : tcpListener) : Z := tl_fd t.
Definition tl_Addr (t : tcpListener) : Addr := tl_laddr t.

Definition newListener (l : libListener) : result lerr tcpListener :=
  match GetFD (ll_conn l) with
  | (_, Some e) => Err e
  | (fd, None) => Ok (TcpListener fd fdListen l (Network (ll_addr l)) (ll_addr l))
  end.

(** [net.Listen] is a parameter. *)
Definition listenTCP (net_Listen : string → string → MP (result Z libListener)) (network address : string) : MP (result lerr tcpListener) :=
  ln ← net_Listen network address;
  match ln with
  | Err e => mret (Err (LListen e))
  | Ok ln => mret (newListener ln)
  end.

Definition Listen := listenTCP.

(** ** Services *)

(** [net.Listener]: nil, made by [Listen], or another. *)
Inductive netListener : Type := NilListener | OurListener (t : tcpListener) | OtherListener (l : libListener).

(** A service: its listener, handler, options and state. *)
Definition new_service {H} (ln : tcpListener) (handler : option H) (opt : list (Option H)) :
    tcpListener * option H * options H * tcpservice :=
  (ln, handler, newOptions opt, newTCPService).

Definition NewTCPService {H} (listener : netListener) (handler : option H) (opt : list (Option H)) :
    result lerr (tcpListener * option H * options H * tcpservice) :=
  match listener with
  | NilListener => Err LNil
  | OurListener ln => Ok (new_service ln handler opt)
  | OtherListener l =>
      match ValidateTCP (ll_addr l) with
      | Err _ => Err LNotTCP
      | Ok _ =>
          match newListener l with
          | Err e => Err e
          | Ok ln => Ok (new_service ln handler opt)
          end
      end
  end.

(** The descriptors in [Restart]: a file for the listener, which the child inherits;
    when the child has started the listener is closed. *)
Definition restart_fds (ln : tcpListener) (starts : bool) : MP bool :=
  _ ← NewFile (tl_FD ln);
  if starts then _ ← rp_Close (ll_fd (tl_sock ln)); mret true else mret false.

(** ** What holds *)

(** A socket of the standard library that is open: it answers its descriptor. *)
Definition answers_fd (s : syscallConn) (fd : Z) : Prop :=
  sc_conn s = true ∧ sc_raw s = None ∧ sc_sysfd s = Some fd ∧ sc_control s = None ∧ fd ≠ -1.

(** [GetFD] succeeds exactly for a socket that answers its descriptor. *)
Lemma GetFD_ok s fd : GetFD s = (fd, None) ↔ answers_fd s fd.
Proof.
  unfold GetFD, answers_fd. destruct s as [[] [] [v|] [c|]]; simpl; (split; [|by intros (? & ? & ? & ? & ?); simplify_eq; rewrite ?decide_False]);
    repeat case_decide; intros; simplify_eq; auto.
Qed.

(** A service is made of the listeners of the library as they are, and of other
    listeners on TCP that answer their descriptor; with the options in order. *)
Lemma NewTCPService_ok {H} listener (handler : option H) opt ln h o s :
  NewTCPService listener handler opt = Ok (ln, h, o, s) ↔
  h = handler ∧ o = newOptions opt ∧ s = newTCPService ∧
  (listener = OurListener ln ∨
   ∃ l fd, listener = OtherListener l ∧ Network (ll_addr l) ∈ ["tcp"; "tcp4"; "tcp6"]%string ∧ answers_fd (ll_conn l) fd ∧
           ln = TcpListener fd fdListen l (Network (ll_addr l)) (ll_addr l)).
Proof.
  unfold NewTCPService, newListener, ValidateTCP, new_service. destruct listener as [|t|l].
  - split; [done|]. intros (_ & _ & _ & [?|(? & ? & ? & _)]); done.
  - split; [intros [= <- <- <- <-]; auto|]. intros (-> & -> & -> & [[= ->]|(? & ? & ? & _)]); done.
  - case_decide as Hn.
    + destruct (GetFD (ll_conn l)) as [fd [e|]] eqn:E.
      * split; [done|]. intros (_ & _ & _ & [?|(l' & fd' & [= <-] & _ & Ha & _)]); [done|]. apply GetFD_ok in Ha. congruence.
      * split.
        -- intros [= <- <- <- <-]. split_and!; auto. right. exists l, fd. split_and!; auto. by apply GetFD_ok.
        -- intros (-> & -> & -> & [?|(l' & fd' & [= <-] & _ & Ha & ->)]); [done|]. apply GetFD_ok in Ha. congruence.
    + split; [done|]. intros (_ & _ & _ & [?|(l' & fd' & [= <-] & ? & _)]); done.
Qed.

(** [listenTCP] keeps a socket that does not answer its descriptor open. *)
Lemma listenTCP_keeps_socket net_Listen network address p l p' e :
  net_Listen network address p = Ret (Ok l, p') → GetFD (ll_conn l) = (-1, Some e) →
  listenTCP net_Listen network address p = Ret (Err e, p').
Proof. intros Hr Hg. unfold listenTCP. mrun Hr. unfold newListener. by rewrite Hg. Qed.

Lemma collect_closes fd p : fd ∈ ps_files p → ∃ p', collect p = Ret ((), p') ∧ ps_fds p' !! fd = None.
Proof.
  intros Hin. eexists. split; [done|]. simpl. induction (ps_files p) as [|f fs IH]; [by apply elem_of_nil in Hin|].
  simpl. apply lookup_delete_None. apply elem_of_cons in Hin as [->|Hin]; auto.
Qed.

(** The number that [DupFD] returns is open, until its file is collected. *)
Theorem dup_fd_is_collected newfd sockfd p :
  (∀ t, t !! newfd t = None ∧ newfd t ≠ -1) →
  (∃ s, ps_fds p !! sockfd = Some s) → hd 0 (ps_answers p) = 0 →
  ∃ fd p1 p2, DupFD newfd true sockfd p = Ret ((fd, None), p1) ∧ is_Some (ps_fds p1 !! fd) ∧
              collect p1 = Ret ((), p2) ∧ ps_fds p2 !! fd = None.
Proof.
  intros Hnew [s Hs] Ha. unfold DupFD, FilePacketConn; simpl. rewrite bind_assoc_run. mpure. rewrite bind_assoc_run. mpure.
  simpl. rewrite Hs, decide_True by done. rewrite bind_assoc_run. mpure. mpure. unfold NewFile. rewrite bind_assoc_run. mpure. mpure.
  match goal with |- ∃ fd p1 p2, mret _ ?q = _ ∧ _ =>
    destruct (collect_closes (newfd (ps_fds p)) q) as (p2 & Hc & Hn); [by left|exists (newfd (ps_fds p)), q, p2] end.
  simpl. rewrite lookup_insert_eq. eauto.
Qed.

(** After [Restart] a file owns the number of the listener, whether the child has
    started or not.  Collecting it closes the listener of a service that goes on, or
    whatever was opened under the number since the listener was closed. *)
Theorem restart_file_closes_listener ln starts p :
  ll_fd (tl_sock ln) = tl_fd ln →
  ∃ p', restart_fds ln starts p = Ret (starts, p') ∧
        (if starts then ps_fds p' = delete (tl_fd ln) (ps_fds p) else ps_fds p' = ps_fds p) ∧
        ∀ other p2, collect (set_fds (<[tl_fd ln := other]> (ps_fds p')) p') = Ret ((), p2) → ps_fds p2 !! tl_fd ln = None.
Proof.
  intros Hfd. unfold restart_fds, NewFile, tl_FD, rp_Close. rewrite bind_assoc_run. mpure. mpure.
  destruct starts.
  all: eexists; split; [reflexivity|].
  all: split; [simpl; by rewrite ?Hfd|].
  all: intros other p2 [= <-]; simpl; apply lookup_delete_eq.
Qed.
