(* ===== verification/TcpSetup.v ===== *)
(** * Setting up TCP connections (src/tcplistener.go, src/tcpservice.go, src/dialer.go)

    How a connection comes to be: the listener accepts a file descriptor, the service
    configures the new connection from its options ([openHandle]), the socket is
    registered with a poller; or a dialled socket is wrapped.  The socket calls that
    only this part uses are one more interface of the operating system.

    [accept] is a program on the state of a connection whose fields it fills in (its
    poller, its time wheel and its pools are those of the process), so its first step
    forgets whatever was there.  The service is passed in as it is when the accept
    starts; [Service] interleaves accepts with everything else.

    The theorems describe every outcome of an accept, whatever the system calls
    answer. *)

From Stdlib Require Import Floats.SpecFloat.
From stdpp Require Import base gmap sets list numbers strings.
From S2P Require Import Prelude MCache Node LinkedBuffer BufferInv BufferRead BufferBlocks BufferMem BufferSpec FixedBuffer AutoPostpone SafeJob Closer AsyncTimer Options Threads Timer Kernel IOVec DescCache Poller PollerSpec NetFD NetAddr TcpService TcpConn TcpSafety TcpClose.

Local Open Scope Z_scope.

(** ** More system calls *)

Class SockKernel (W : Type) := {
  (** accept4(fd, flags) and accept(fd): the new descriptor and the peer *)
  k_accept4 : Z → W → result Z (Z * Sockaddr) * W;
  k_accept : Z → W → result Z (Z * Sockaddr) * W;
  (** fcntl(fd, F_SETFD, FD_CLOEXEC), fcntl(fd, F_SETFL, O_NONBLOCK), whose errors are ignored *)
  k_closeOnExec : Z → W → W;
  k_setNonblock : Z → W → W;
  k_getsockname : Z → W → result Z Sockaddr * W;
  (** setsockopt(fd, level, name, value): an error number *)
  k_setsockopt : Z → Z → Z → Z → W → Z * W
}.

Definition EACCES : Z := 13.
Definition EFAULT : Z := 14.
Definition EINVAL : Z := 22.
Definition ENFILE : Z := 23.
Definition EMFILE : Z := 24.
Definition ENOSYS : Z := 38.
Definition ECONNABORTED : Z := 103.
Definition ECONNRESET : Z := 104.
Definition ETIMEDOUT : Z := 110.

Definition SOL_SOCKET : Z := 1.
Definition SO_KEEPALIVE : Z := 9.
Definition IPPROTO_TCP : Z := 6.
Definition TCP_NODELAY : Z := 1.
Definition TCP_KEEPIDLE : Z := 4.
Definition TCP_KEEPINTVL : Z := 5.

(** [netError.Temporary] of a [netError] around an error number: the three cases of
    the switch, then [syscall.Errno.Temporary]. *)
Definition netError_Temporary (e : Z) : bool :=
  bool_decide (e = EAGAIN ∨ e = ECONNRESET ∨ e = ECONNABORTED) ||
  bool_decide (e = EINTR ∨ e = EMFILE ∨ e = ENFILE ∨ e = ETIMEDOUT).

(** ** Seconds *)

(** [time.Duration.Seconds] in IEEE 754 binary64, and [math.Ceil] with the conversion
    to an integer. *)
Definition f64_of_Z (n : Z) : spec_float := binary_normalize 53 1024 n 0 false.

Definition Seconds (d : Z) : spec_float :=
  SFadd 53 1024 (f64_of_Z (d `quot` Second)) (SFdiv 53 1024 (f64_of_Z (d `rem` Second)) (f64_of_Z Second)).

Definition ceil (x : spec_float) : Z :=
  match x with
  | S754_finite s m e =>
      let v := if s then Z.neg m else Z.pos m in
      if decide (0 <= e) then v * 2 ^ e else - ((- v) `div` 2 ^ (- e))
  | _ => 0
  end.

Definition ceil_seconds (d : Z) : Z := ceil (Seconds d).

Example ceil_seconds_values :
  map ceil_seconds [1; Second; Second + 1; 15 * Second; 15 * Second - 1; 3600 * Second + 999999999]
  = [1; 1; 2; 15; 15; 3601].
Proof. vm_compute. reflexivity. Qed.

Section TcpSetup.
Context {D CB W H : Type} `{K : Kernel W} `{SK : SockKernel W} `{I : Interfaces}.
Abbreviation conn := (tcpconn D CB W H).
Abbreviation T := (thread conn).
Implicit Types c : conn.

(** unsafe.Sizeof(poller.Desc{}), the [Close] of standard library sockets, and running
    the user's handlers for closed and opened connections. *)
Variable pdSize : Z.
Variable sock_Close : Z → W → W.
Variable run_closed : H → T ().
Variable run_opened : H → T (option nerr).
(** The callbacks of TCP connections, and the poller that the manager picks. *)
Variables (tcpOnRead tcpOnWrite tcpOnHup : CB) (mgr : option nat).

(** ** Socket options *)

Definition sys {A} (f : W → A * W) : T A := on_net (net_syscall f).

Definition tc_fd : T Z := read (λ c, nfd_fd (tc_nfd c)).

Definition SetsockoptInt (fd level name value : Z) : T (result nerr ()) :=
  e ← sys (k_setsockopt fd level name value);
  Fin (if decide (e = 0) then Ok () else Err (NErrno e)).

Definition netutil_SetKeepAlive (fd secs : Z) : T (result nerr ()) :=
  and_then (SetsockoptInt fd SOL_SOCKET SO_KEEPALIVE 1) (λ _,
  and_then (SetsockoptInt fd IPPROTO_TCP TCP_KEEPINTVL secs) (λ _,
  SetsockoptInt fd IPPROTO_TCP TCP_KEEPIDLE secs)).

Definition nfd_SetNoDelay (noDelay : bool) : T (result nerr ()) :=
  fd ← tc_fd; SetsockoptInt fd IPPROTO_TCP TCP_NODELAY (if noDelay then 1 else 0).

Definition SetKeepAlive (t : Z) : T (result nerr ()) :=
  active ← IsActive;
  if negb active then Fin (Err NConnClosed)
  else if decide (t <= 0) then Fin (Ok ())
  else fd ← tc_fd; netutil_SetKeepAlive fd (ceil_seconds t).

(** ** Accepting *)

Definition netutil_Accept (fd : Z) : T (result Z (Z * Sockaddr)) :=
  r ← sys (k_accept4 fd);
  match r with
  | Ok x => Fin (Ok x)
  | Err e =>
      if decide (e = ENOSYS ∨ e = EINVAL ∨ e = EACCES ∨ e = EFAULT) then
        r ← sys (k_accept fd);
        match r with
        | Ok (ns, sa) =>
            _ ← sys (λ w, ((), k_closeOnExec ns w));
            _ ← sys (λ w, ((), k_setNonblock ns w));
            Fin (Ok (ns, sa))
        | Err e => Fin (Err e)
        end
      else Fin (Err e)
  end.

Definition of_outcome {S A} (o : outcome A) : M S A := λ s,
  match o with Ret x => Ret (x, s) | Panic => Panic | NoFuel => NoFuel end.

(** [&tcpconn{...}] with its buffers initialised; [sock] tells whether it keeps a
    connection of the standard library, [veclen] the length of [writevData]. *)
Definition fresh_conn (fd : Z) (sock : bool) (d : IOData) (ib ob : Buffer) (c : conn) : conn :=
  TcpConn ib ob (fb_Initialize (of_bytes []) NConnClosed) None None None None None d
    (NetFD None sock fd fdTCP false 0 false) zero_closer (zero_postpone (pw_metrics (tc_postpone c)))
    0 unlocked unlocked false false 0 (Chan false false) (Chan false false) None None None
    (tc_poll c) (tc_wheel c) (tc_clock c) [] (tc_coins c) 0 0 [] [].

Definition make_conn (fd : Z) (sock : bool) (veclen : option Z) : M conn () :=
  c ← get;
  d ← of_outcome (match veclen with Some l => NewIOData l | None => Ret (MkIOData None None) end);
  ib ← of_outcome (New (mc (tc_inBuffer c)) (cfg (tc_inBuffer c)));
  ob ← of_outcome (New (mc (tc_outBuffer c)) (cfg (tc_outBuffer c)));
  modify (fresh_conn fd sock d ib.2 ob.2).

(** [storeConn]; [id] is the name of the connection. *)
Definition storeConn (id : cid) : T () :=
  write (λ c, match tc_service c with
              | Some s => if sv_closed s then c
                          else set_service (Some (set_conns (<[nfd_fd (tc_nfd c) := id]> (sv_conns s)) s)) c
              | None => c
              end).

Definition opened_result (e : option nerr) : result nerr () := match e with None => Ok () | Some e => Err e end.

(** The closure that [tcpServiceOnRead] gives to [accept]. *)
Definition openHandle (s : tcpservice) (reqHandle : option H) (opts : options H) (id : cid) : T (result nerr ()) :=
  and_then (SetOnRequest reqHandle) (λ _,
  and_then (SetKeepAlive (o_tcpKeepAlive opts)) (λ _,
  and_then (SetIdleTimeout (o_tcpIdleTimeout opts)) (λ _,
  and_then (SetWriteIdleTimeout (o_tcpWriteIdleTimeout opts)) (λ _,
  and_then (SetReadIdleTimeout (o_tcpReadIdleTimeout opts)) (λ _,
  _ ← write (set_outboundBufferLimit (o_tcpOutboundBufferLimit opts));
  _ ← SetNonBlocking (o_nonblocking opts);
  _ ← SetSafeWrite (o_safeWrite opts);
  _ ← (match o_onTCPClosed opts with Some h => SetOnClosed (Some h) | None => Fin (Ok ()) end);
  _ ← write (set_service (Some s));
  _ ← storeConn id;
  match o_onTCPOpened opts with
  | Some h => e ← run_opened h; Fin (opened_result e)
  | None => Fin (Ok ())
  end))))).

Definition tc_Schedule (data : D) : T (result nerr ()) :=
  on_net (Schedule pdSize None mgr (Some tcpOnRead) (Some tcpOnWrite) (Some tcpOnHup) data).

(** [tcpListener.accept]: [lfd] and [laddr] are the listener's descriptor and address,
    [data] is the connection as the poller's descriptor stores it. *)
Definition accept (lfd : Z) (laddr : option Addr) (massive : bool) (data : D)
    (handle : option (T (result nerr ()))) : T (result nerr (option Addr * option Addr)) :=
  r ← netutil_Accept lfd;
  match r with
  | Err e => Fin (Err (NErrno e))
  | Ok (fd, sa) =>
      localSA ← sys (k_getsockname fd);
      let localAddr := match localSA with Ok sa => SockaddrToTCPOrUnixAddr sa | Err _ => laddr end in
      _ ← atomically (make_conn fd false (if massive then None else Some MaxLen));
      r ← (match handle with Some p => p | None => Fin (Ok ()) end);
      match r with
      | Err e => _ ← Close sock_Close run_closed; Fin (Err e)
      | Ok _ =>
          and_then (nfd_SetNoDelay true) (λ _,
          r ← tc_Schedule data;
          match r with
          | Err e => _ ← Close sock_Close run_closed; Fin (Err e)
          | Ok _ =>
              _ ← metrics_Add Metrics.TCPConnsCreate;
              Fin (Ok (localAddr, SockaddrToTCPOrUnixAddr sa))
          end)
      end
  end.

(** ** Dialling *)

(** The networks of TCP. *)
Definition tcp_network (network : string) : bool :=
  bool_decide (network = "tcp" ∨ network = "tcp4" ∨ network = "tcp6")%string.

(** [newTCPConn]: [fd] is what [GetFD] finds, the socket is of the standard library. *)
Definition newTCPConn (fd : option Z) (libfd : Z) (data : D) : T (result nerr ()) :=
  match fd with
  | None => _ ← sys (λ w, ((), sock_Close libfd w)); Fin (Err NOther)
  | Some fd =>
      _ ← atomically (make_conn fd true (Some DefaultLength));
      r ← tc_Schedule data;
      match r with
      | Err e => _ ← Close sock_Close run_closed; Fin (Err e)
      | Ok _ => _ ← metrics_Add Metrics.TCPConnsCreate; Fin (Ok ())
      end
  end.

(** [dialTCP]; [dial] is [net.Dialer.DialContext] with its context and timeout, which
    gives the socket and what [GetFD] finds in it. *)
Definition dialTCP (dial : string → string → W → result nerr (Z * option Z) * W) (network address : string) (data : D)
    : T (result nerr ()) :=
  if negb (tcp_network network) then Fin (Err NOther)
  else
    r ← sys (dial network address);
    match r with
    | Err e => Fin (Err e)
    | Ok (libfd, fd) => newTCPConn fd libfd data
    end.

(** ** Single steps *)

Definition with_world (w : W) c : conn := set_poll (set_world w (tc_poll c)) c.

Lemma sys_alone {A} (f : W → A * W) c x w :
  f (ep_world (tc_poll c)) = (x, w) → run_alone (sys f) c = Some (Ret (x, with_world w c)).
Proof.
  intros Hf. unfold sys, on_net. erewrite run_method.
  2: { unfold net_syscall. apply on_poll_Ret. unfold syscall. simpl. by rewrite Hf. }
  unfold with_world, set_net. destruct c, tc_postpone. reflexivity.
Qed.

Lemma with_world_id c : with_world (ep_world (tc_poll c)) c = c.
Proof. by destruct c as [? ? ? ? ? ? ? ? ? ? ? ? ? ? ? ? ? ? ? ? ? ? ? [] ? ? ? ? ? ? ? ?]. Qed.

(** A call that only talks to the system. *)
Definition talks (p : T (result nerr ())) : Prop :=
  ∀ c, ∃ r w, run_alone p c = Some (Ret (r, with_world w c)).

Lemma talks_fin r : talks (Fin r).
Proof. intros c. exists r, (ep_world (tc_poll c)). by rewrite with_world_id. Qed.

Lemma talks_setsockopt fd l n v : talks (SetsockoptInt fd l n v).
Proof.
  intros c. destruct (k_setsockopt fd l n v (ep_world (tc_poll c))) as [e w] eqn:Ek.
  eexists _, w. unfold SetsockoptInt. by arun (sys_alone _ c _ _ Ek).
Qed.

Lemma talks_and_then p k : talks p → talks k → talks (and_then p (λ _, k)).
Proof.
  intros Hp Hk c. destruct (Hp c) as (r & w & Hr). unfold and_then. arun Hr.
  destruct r as [[]|e]; [|by exists (Err e), w].
  destruct (Hk (with_world w c)) as (r & w' & Hr'). exists r, w'. by rewrite Hr'.
Qed.

Lemma SetKeepAlive_alone t c :
  tc_closer c = zero_closer → ∃ r w, run_alone (SetKeepAlive t) c = Some (Ret (r, with_world w c)).
Proof.
  intros Hc. unfold SetKeepAlive, IsActive. apure. rewrite Hc. cbn [negb]. cbv iota.
  change (negb (negb (closed zero_closer))) with false. cbv iota.
  case_decide; [apply talks_fin|]. unfold tc_fd. apure. unfold netutil_SetKeepAlive.
  repeat apply talks_and_then; apply talks_setsockopt.
Qed.

Lemma SetNoDelay_alone (b : bool) c :
  ∃ e w, k_setsockopt (nfd_fd (tc_nfd c)) IPPROTO_TCP TCP_NODELAY (if b then 1 else 0) (ep_world (tc_poll c)) = (e, w) ∧
    run_alone (nfd_SetNoDelay b) c = Some (Ret (if decide (e = 0) then Ok () else Err (NErrno e), with_world w c)).
Proof.
  destruct (k_setsockopt (nfd_fd (tc_nfd c)) IPPROTO_TCP TCP_NODELAY (if b then 1 else 0) (ep_world (tc_poll c)))
    as [e w] eqn:Ek.
  exists e, w. split; [done|]. unfold nfd_SetNoDelay, tc_fd. apure. unfold SetsockoptInt. by arun (sys_alone _ c _ _ Ek).
Qed.

(** *** Idle timers *)

Definition wheel_good (w : TimeWheel) : Prop := wheel_ok w ∧ 0 ≤ now w.

(** Nothing that was known about the timers is lost. *)
Record wheel_grows (w w' : TimeWheel) : Prop := {
  wg_good : wheel_good w';
  wg_interval : interval w' = interval w;
  wg_timers t x : timers w !! t = Some x → timers w' !! t = Some x;
  wg_queue t : t ∈ timersToAdd w → t ∈ timersToAdd w'
}.

Lemma wheel_grows_refl w : wheel_good w → wheel_grows w w.
Proof. by split. Qed.

Lemma wheel_grows_trans w1 w2 w3 : wheel_grows w1 w2 → wheel_grows w2 w3 → wheel_grows w1 w3.
Proof. intros [? ? ? ?] [? ? ? ?]. split; [done|congruence|auto|auto]. Qed.

(** The timer is queued with this timeout. *)
Definition armed (w : TimeWheel) (d : Z) (t : option tid) : Prop :=
  if decide (d <= 0) then t = None
  else interval w ≤ d ∧ ∃ t' x, t = Some t' ∧ timers w !! t' = Some x ∧ t_timeout x = d ∧ t_isActive x = true ∧ t' ∈ timersToAdd w.

Lemma armed_grows w w' d t : wheel_grows w w' → armed w d t → armed w' d t.
Proof.
  intros Hg. unfold armed. case_decide; [done|]. intros (Hi & t' & x & ? & ? & ? & ? & ?).
  split; [by rewrite (wg_interval _ _ Hg)|]. exists t', x. split; [done|]. split; [by apply Hg|]. split; [done|]. split; [done|]. by apply Hg.
Qed.

Lemma new_timer_ok d w :
  wheel_good w →
  ∃ t w', new_timer d w = Ret (t, w') ∧ wheel_grows w w' ∧ timers w' !! t = Some (AsyncTimer.NewTimer true d) ∧
          timers w !! t = None.
Proof.
  intros [Hw Hn]. unfold new_timer. mpure. cbv zeta. set (t := base.fresh _).
  assert (Ht : timers w !! t = None) by (apply not_elem_of_dom, is_fresh).
  assert (Hq : t ∉ timersToAdd w).
  { intros Hin. destruct (wk_known _ Hw t) as [x Hx]; [by left|congruence]. }
  mpure. exists t. eexists. split; [reflexivity|]. simpl. rewrite lookup_insert_eq. split; [|done].
  assert (Hne : ∀ t' x, timers w !! t' = Some x → t' ≠ t) by congruence.
  split; [|done| |done].
  - split; [|done]. destruct Hw as [? ? ? ? Hsl Hk Hb Hd Ha Hqu]. split; simpl; try done.
    + intros t' Hin. destruct (decide (t' = t)) as [->|]; [rewrite lookup_insert_eq; by eexists|].
      rewrite lookup_insert_ne by done. auto.
    + intros t' x. destruct (decide (t' = t)) as [->|]; [rewrite lookup_insert_eq; by intros [= <-]|].
      rewrite lookup_insert_ne by done. eauto.
    + intros t' x. destruct (decide (t' = t)) as [->|]; [rewrite lookup_insert_eq; by intros [= <-]|].
      rewrite lookup_insert_ne by done. eauto.
    + intros t' x. destruct (decide (t' = t)) as [->|]; [rewrite lookup_insert_eq; by intros [= <-]|].
      rewrite lookup_insert_ne by done. eauto.
    + intros t' x. destruct (decide (t' = t)) as [->|]; [rewrite lookup_insert_eq; by intros [= <-]|].
      rewrite lookup_insert_ne by done. eauto.
  - intros t' x Hx. simpl. rewrite lookup_insert_ne; [done|]. by apply not_eq_sym, (Hne _ x).
Qed.

(** Arming a new timer fails exactly for a timeout below the interval of the wheel. *)
Lemma Add_new_ok d w t :
  wheel_good w → timers w !! t = Some (AsyncTimer.NewTimer true d) →
  ∃ r w', AsyncTimer.Add t w = Ret (r, w') ∧ wheel_good w' ∧ interval w' = interval w ∧
    (∀ t' x, t' ≠ t → timers w !! t' = Some x → timers w' !! t' = Some x) ∧
    (∀ t', t' ∈ timersToAdd w → t' ∈ timersToAdd w') ∧
    match r with
    | Ok _ => interval w ≤ d ∧ ∃ x, timers w' !! t = Some x ∧ t_timeout x = d ∧ t_isActive x = true ∧ t ∈ timersToAdd w'
    | Err _ => d < interval w ∧ w' = w
    end.
Proof.
  intros [Hw Hn] Ht. destruct (Add_ok t _ w Hw Ht) as (r0 & w0 & Ha & Hw0 & _). revert Ha Hw0.
  unfold AsyncTimer.Add. erewrite bind_Ret by (by apply load_timer_ok). mpure. change (t_isActive (AsyncTimer.NewTimer true d)) with false. cbv iota.
  change (t_delay (AsyncTimer.NewTimer true d)) with d. case_decide as Hs.
  - intros [= <- <-] _. exists (Err AShortDelay), w. split; [done|]. by split.
  - mpure. mpure. set (w' := set_toAdd _ _). intros E Hw0. injection E as <- <-. exists (Ok ()), w'.
    split; [reflexivity|]. split; [by split|].
    split; [done|]. simpl. split; [|split].
    + intros t' x Hne Hx. by rewrite lookup_alter_ne by done.
    + intros t' Hin. apply elem_of_app. by left.
    + split; [lia|]. rewrite lookup_alter_eq, Ht. eexists. split; [reflexivity|]. split; [done|]. split; [done|].
      apply elem_of_app. right. by apply list_elem_of_singleton.
Qed.

(** Arming a new idle timer. *)
Lemma arm_idle_alone (upd : option tid → conn → conn) d c :
  0 < d → wheel_good (tc_wheel c) →
  (∀ t w, tc_wheel (upd t (set_wheel w c)) = w) → (∀ t w w', set_wheel w' (upd t (set_wheel w c)) = upd t (set_wheel w' c)) →
  ∃ r t w,
    run_alone (t ← on_wheel (new_timer d);
               _ ← write (upd (Some t));
               r ← on_wheel (AsyncTimer.Add t);
               match r with Ok _ => Fin (Ok ()) | Err _ => Fin (Err NOther) end) c
    = Some (Ret (r : result nerr (), upd (Some t) (set_wheel w c))) ∧
    wheel_grows (tc_wheel c) w ∧ is_Some (timers w !! t) ∧
    match r with Ok _ => armed w d (Some t) | Err _ => 0 < d < interval (tc_wheel c) end.
Proof.
  intros Hd Hg Hw1 Hw2. destruct (new_timer_ok d _ Hg) as (t & w1 & Hn & Hg1 & Ht & Hfr).
  arun (run_method tc_wheel set_wheel _ _ _ _ Hn). apure.
  destruct (Add_new_ok d w1 t (wg_good _ _ Hg1) Ht) as (r & w2 & Ha & Hg2 & Hi & Hkeep & Hqu & Hr).
  set (c1 := upd (Some t) (set_wheel w1 c)).
  assert (Ha' : run_alone (on_wheel (AsyncTimer.Add t)) c1 = Some (Ret (r, upd (Some t) (set_wheel w2 c)))).
  { unfold on_wheel. erewrite run_method; [unfold c1; by rewrite Hw2|]. unfold c1. by rewrite Hw1. }
  arun Ha'. exists (match r with Ok _ => Ok () | Err _ => Err NOther end), t, w2.
  split; [by destruct r|]. split; [split; [done|by rewrite Hi; apply Hg1| |]|split].
  - intros t' x Hx. apply (wg_timers _ _ Hg1) in Hx as Hx1. apply Hkeep; [|done]. intros ->.
    congruence.
  - intros t' Hin. by apply Hqu, Hg1.
  - destruct r; [destruct Hr as (_ & x & Hx & _); by exists x|destruct Hr as [_ ->]; by eexists].
  - destruct r as [[]|e].
    + destruct Hr as (Hr1 & x & Hx & Hx2 & Hx3 & Hx4). unfold armed. rewrite decide_False by lia. split; [by rewrite Hi|]. by exists t, x.
    + destruct Hr as [Hr _]. rewrite <-(wg_interval _ _ Hg1). lia.
Qed.

(** Setting an idle timeout of a connection that has none. *)
Lemma set_idle_alone (field : conn → option tid) upd d c :
  tc_closer c = zero_closer → field c = None → wheel_good (tc_wheel c) →
  (∀ t w, tc_wheel (upd t (set_wheel w c)) = w) → (∀ t w w', set_wheel w' (upd t (set_wheel w c)) = upd t (set_wheel w' c)) →
  upd None (set_wheel (tc_wheel c) c) = c →
  ∃ r t w, run_alone (set_idle_timeout field upd d) c = Some (Ret (r, upd t (set_wheel w c))) ∧
    wheel_grows (tc_wheel c) w ∧ (∀ t', t = Some t' → is_Some (timers w !! t')) ∧
    match r with Ok _ => armed w d t | Err _ => 0 < d < interval (tc_wheel c) end.
Proof.
  intros Hc Hf Hg Hw1 Hw2 Hid. unfold set_idle_timeout, IsActive. apure. rewrite Hc.
  change (negb (negb (closed zero_closer))) with false. cbv iota.
  assert (Hdel : run_alone (delete_timer field) c = Some (Ret ((), c))).
  { unfold delete_timer. apure. by rewrite Hf. }
  arun Hdel. case_decide as Hd.
  { exists (Ok ()), None, (tc_wheel c). rewrite Hid. split; [done|]. split; [by apply wheel_grows_refl|].
    split; [done|]. unfold armed. by rewrite decide_True. }
  destruct (arm_idle_alone upd d c ltac:(lia) Hg Hw1 Hw2) as (r & t & w & Hr & Hgr & Hk & Ha).
  exists r, (Some t), w. split; [exact Hr|]. split; [done|]. split; [by intros t' [= <-]|done].
Qed.

(** *** The new connection *)

(** What [Close] needs to know of a connection that is being set up. *)
Record opening c : Prop := {
  og_closer : tc_closer c = zero_closer;
  og_chans : tc_readTrigger c = Chan false false ∧ tc_closedFinished c = Chan false false;
  og_buf : tc_closedReadBuf c = fb_Initialize (of_bytes []) NConnClosed;
  og_in : holds false (tc_inBuffer c) [];
  og_out : holds true (tc_outBuffer c) [];
  og_open : nfd_closed (tc_nfd c) = false;
  og_desc : nfd_desc (tc_nfd c) = None;
  og_type : nfd_fdtype (tc_nfd c) = fdTCP
}.

Definition timers_known c : Prop := Forall (λ t, is_Some (timers (tc_wheel c) !! t)) (timers_of c).

Lemma opening_at_rest c :
  opening c → timers_known c → at_rest c.
Proof.
  intros [H1 [H2 H3] H4 _ _ H5 H6 _] Ht.
  destruct (fb_Initialize_ok (of_bytes []) NConnClosed) as [F1 F2]; [by vm_compute|by vm_compute|].
  split; [exact H1|by rewrite H2|by rewrite H3|rewrite H4; by split|exact Ht|exact H5|].
  intros desc. by rewrite H6.
Qed.

Record process_ok c (free marked : list dloc) (inuse : gset dloc) : Prop := {
  po_cfg : config_ok (cfg (tc_inBuffer c)) ∧ config_ok (cfg (tc_outBuffer c));
  po_mc : mcache_ok (mc (tc_inBuffer c)) ∧ mcache_ok (mc (tc_outBuffer c));
  po_wheel : wheel_good (tc_wheel c);
  po_cache : dc_ok (ep_cache (tc_poll c)) free marked inuse;
  po_room : 0 < pdSize ∧ dc_room pdSize (ep_cache (tc_poll c))
}.

Lemma make_conn_ok fd sock veclen c free marked inuse :
  process_ok c free marked inuse → (∀ l, veclen = Some l → 0 ≤ l) →
  ∃ d ib ob, run_alone (atomically (make_conn fd sock veclen)) c = Some (Ret ((), fresh_conn fd sock d ib ob c)) ∧
             opening (fresh_conn fd sock d ib ob c).
Proof.
  intros Hp Hl. destruct (po_cfg _ _ _ _ Hp) as [C1 C2], (po_mc _ _ _ _ Hp) as [M1 M2].
  destruct (New_ok _ _ C1 M1) as (ib & Hi & Hib & _), (New_ok _ _ C2 M2) as (ob & Ho & Hob & _).
  assert (∃ d, (match veclen with Some l => NewIOData l | None => Ret (MkIOData None None) end) = Ret d) as [d Hd].
  { destruct veclen as [l|]; [|by eexists]. unfold NewIOData. rewrite decide_False by (specialize (Hl l eq_refl); lia).
    by eexists. }
  exists d, ib, ob. split.
  - apply run_atomically. unfold make_conn. mpure. unfold of_outcome.
    erewrite bind_Ret by (by rewrite Hd). erewrite bind_Ret by (by rewrite Hi). erewrite bind_Ret by (by rewrite Ho).
    done.
  - split; try done.
    + simpl. apply holds_blocks_holds in Hib. destruct Hib as (ns & ri & wi & ? & ? & _). by exists ns, ri, wi.
    + simpl. by apply holds_blocks_holds in Hob.
Qed.

(** ** Opening a connection for a service *)

(** The service with the connection in its table. *)
Definition stored (s : tcpservice) (fd : Z) (id : cid) : tcpservice :=
  if sv_closed s then s else set_conns (<[fd := id]> (sv_conns s)) s.

(** A connection that is configured as the options say. *)
Record configured (s : tcpservice) (rq : option H) (opts : options H) (id : cid) c : Prop := {
  cg_handlers : rq ≠ None ∧ tc_reqHandle c = rq ∧ tc_closeHandle c = o_onTCPClosed opts;
  cg_modes : tc_nonblocking c = o_nonblocking opts ∧ tc_safeWrite c = o_safeWrite opts ∧
             tc_outboundBufferLimit c = o_tcpOutboundBufferLimit opts;
  cg_timers : armed (tc_wheel c) (o_tcpIdleTimeout opts) (tc_idleTimer c) ∧
              armed (tc_wheel c) (o_tcpWriteIdleTimeout opts) (tc_writeIdleTimer c) ∧
              armed (tc_wheel c) (o_tcpReadIdleTimeout opts) (tc_readIdleTimer c);
  cg_service : tc_service c = Some (stored s (nfd_fd (tc_nfd c)) id)
}.

(** Between two of its steps. *)
Record half c0 c : Prop := {
  ha_opening : opening c;
  ha_timers : timers_known c;
  ha_wheel : wheel_grows (tc_wheel c0) (tc_wheel c);
  ha_net : tc_nfd c = tc_nfd c0 ∧ ep_cache (tc_poll c) = ep_cache (tc_poll c0) ∧ ep_fd (tc_poll c) = ep_fd (tc_poll c0);
  ha_rest : tc_service c = None ∧ tc_closeHandle c = None
}.

Lemma and_then_alone {A B} (p : T (result nerr A)) (k : A → T (result nerr B)) c r c1 :
  run_alone p c = Some (Ret (r, c1)) →
  run_alone (and_then p k) c = match r with Ok a => run_alone (k a) c1 | Err e => Some (Ret (Err e, c1)) end.
Proof. intros Hp. unfold and_then. arun Hp. by destruct r. Qed.

Lemma half_world w c0 c : half c0 c → half c0 (with_world w c).
Proof. intros [[] Ht Hw (N1 & N2 & N3) Hr]. split; [by split|exact Ht|exact Hw|by split|exact Hr]. Qed.

Lemma timers_known_grows c w :
  timers_known c → wheel_grows (tc_wheel c) w → Forall (λ t, is_Some (timers w !! t)) (timers_of c).
Proof. intros Ht Hg. eapply list.Forall_impl; [exact Ht|]. intros t [x Hx]. exists x. by apply Hg. Qed.

Lemma known_list {P : tid → Prop} (t : option tid) : (∀ t', t = Some t' → P t') → Forall P (option_list t).
Proof. intros Hp. destruct t as [t|]; repeat constructor. by apply Hp. Qed.

(** One idle timer more. *)
Ltac half_timer field upd d c :=
  intros [Ho Ht Hw Hn Hr] Hf;
  destruct (set_idle_alone field upd d c) as (r & t & w & Hrun & Hg & Hk & Ha);
    [apply Ho|done|apply Hw|done|done|destruct c; simpl in *; by subst|];
  exists r, t, w; split; [exact Hrun|]; split; [|split; [exact Hg|rewrite <-(wg_interval _ _ Hw); exact Ha]];
  pose proof (timers_known_grows _ _ Ht Hg) as Hkn; unfold timers_of in Hkn;
  apply Forall_app in Hkn as [K1 Hkn]; apply Forall_app in Hkn as [K2 K3]; destruct Ho;
  split; [by split| |by eapply wheel_grows_trans|exact Hn|exact Hr];
  apply Forall_app; split; [|apply Forall_app; split]; first [assumption|by apply known_list].

Lemma half_idle d c0 c :
  half c0 c → tc_idleTimer c = None →
  ∃ r t w, run_alone (SetIdleTimeout d) c = Some (Ret (r, set_idleTimer t (set_wheel w c))) ∧
    half c0 (set_idleTimer t (set_wheel w c)) ∧ wheel_grows (tc_wheel c) w ∧
    match r with Ok _ => armed w d t | Err _ => 0 < d < interval (tc_wheel c0) end.
Proof. half_timer (tc_idleTimer : conn → option tid) (set_idleTimer : option tid → conn → conn) d c. Qed.

Lemma half_write_idle d c0 c :
  half c0 c → tc_writeIdleTimer c = None →
  ∃ r t w, run_alone (SetWriteIdleTimeout d) c = Some (Ret (r, set_writeIdleTimer t (set_wheel w c))) ∧
    half c0 (set_writeIdleTimer t (set_wheel w c)) ∧ wheel_grows (tc_wheel c) w ∧
    match r with Ok _ => armed w d t | Err _ => 0 < d < interval (tc_wheel c0) end.
Proof. half_timer (tc_writeIdleTimer : conn → option tid) (set_writeIdleTimer : option tid → conn → conn) d c. Qed.

Lemma half_read_idle d c0 c :
  half c0 c → tc_readIdleTimer c = None →
  ∃ r t w, run_alone (SetReadIdleTimeout d) c = Some (Ret (r, set_readIdleTimer t (set_wheel w c))) ∧
    half c0 (set_readIdleTimer t (set_wheel w c)) ∧ wheel_grows (tc_wheel c) w ∧
    match r with Ok _ => armed w d t | Err _ => 0 < d < interval (tc_wheel c0) end.
Proof. half_timer (tc_readIdleTimer : conn → option tid) (set_readIdleTimer : option tid → conn → conn) d c. Qed.

(** What [openHandle] leaves, whether it succeeds or not. *)
Record handled (s : tcpservice) (rq : option H) (opts : options H) (id : cid) c0 (r : result nerr ()) c : Prop := {
  hd_opening : opening c;
  hd_timers : timers_known c;
  hd_net : tc_nfd c = tc_nfd c0 ∧ ep_cache (tc_poll c) = ep_cache (tc_poll c0) ∧ ep_fd (tc_poll c) = ep_fd (tc_poll c0);
  hd_wheel : interval (tc_wheel c) = interval (tc_wheel c0);
  hd_closed : tc_closeHandle c = None ∨ tc_closeHandle c = o_onTCPClosed opts;
  hd_result : match r with
              | Ok _ => configured s rq opts id c
              | Err _ => tc_service c = None ∨ tc_service c = Some (stored s (nfd_fd (tc_nfd c)) id)
              end
}.

Lemma handled_err s rq opts id c0 e c : half c0 c → handled s rq opts id c0 (Err e) c.
Proof. intros [Ho Ht Hw Hn [Hs Hh]]. split; [exact Ho|exact Ht|exact Hn|apply Hw|by left|by left]. Qed.

Lemma half_refl c :
  opening c → timers_known c → wheel_good (tc_wheel c) → tc_service c = None → tc_closeHandle c = None → half c c.
Proof. intros. split; [done|done|by apply wheel_grows_refl|done|done]. Qed.

(** The user's [onTCPOpened] returns and leaves the connection as it found it. *)
Definition harmless_opened (h : option H) : Prop :=
  ∀ h', h = Some h' → ∀ c, ∃ e, run_alone (run_opened h') c = Some (Ret (e, c)).

(** The second half of [openHandle], which can only fail in the user's handler. *)
Definition open_tail (s : tcpservice) (opts : options H) (id : cid) : T (result nerr ()) :=
  _ ← write (set_outboundBufferLimit (o_tcpOutboundBufferLimit opts));
  _ ← SetNonBlocking (o_nonblocking opts);
  _ ← SetSafeWrite (o_safeWrite opts);
  _ ← (match o_onTCPClosed opts with Some h => SetOnClosed (Some h) | None => Fin (Ok ()) end);
  _ ← write (set_service (Some s));
  _ ← storeConn id;
  match o_onTCPOpened opts with
  | Some h => e ← run_opened h; Fin (opened_result e)
  | None => Fin (Ok ())
  end.

Lemma open_tail_ok s rq opts id c0 c :
  half c0 c → harmless_opened (o_onTCPOpened opts) → rq ≠ None → tc_reqHandle c = rq →
  armed (tc_wheel c) (o_tcpIdleTimeout opts) (tc_idleTimer c) →
  armed (tc_wheel c) (o_tcpWriteIdleTimeout opts) (tc_writeIdleTimer c) →
  armed (tc_wheel c) (o_tcpReadIdleTimeout opts) (tc_readIdleTimer c) →
  ∃ r c', run_alone (open_tail s opts id) c = Some (Ret (r, c')) ∧ handled s rq opts id c0 r c'.
Proof.
  intros [Ho Ht Hw Hn [Hs Hh]] Hop Hrq Hreq A1 A2 A3. unfold open_tail. apure. unfold SetNonBlocking, SetSafeWrite.
  apure. apure. set (c1 := set_safeWrite _ _).
  set (c2 := set_closeHandle (o_onTCPClosed opts) c1).
  assert (Hc2 : run_alone (match o_onTCPClosed opts with Some h => SetOnClosed (Some h) | None => Fin (Ok ()) end) c1
                = Some (Ret (Ok (), c2))).
  { unfold c2. destruct (o_onTCPClosed opts) as [h|].
    - unfold SetOnClosed, IsActive. apure. change (tc_closer c1) with (tc_closer c). rewrite (og_closer _ Ho).
      change (negb (negb (closed zero_closer))) with false. cbv iota. by apure.
    - simpl. do 2 f_equal. f_equal. destruct c. simpl in *. by subst. }
  arun Hc2. clear Hc2. apure. unfold storeConn. set (c3 := set_service (Some s) c2).
  set (c4 := set_service (Some (stored s (nfd_fd (tc_nfd c)) id)) c3).
  assert (Hc4 : run_alone (write (λ c, match tc_service c with
              | Some s => if sv_closed s then c
                          else set_service (Some (set_conns (<[nfd_fd (tc_nfd c) := id]> (sv_conns s)) s)) c
              | None => c
              end)) c3 = Some (Ret ((), c4))).
  { unfold c4, stored, write, atomically, atomic, modify. simpl. by destruct (sv_closed s). }
  arun Hc4. clear Hc4.
  assert (Hcf : configured s rq opts id c4) by (split; [done|by split|done|reflexivity]).
  assert (Hall : ∀ r, match r : result nerr () with Ok _ => True | Err _ => True end → handled s rq opts id c0 r c4).
  { intros r _. destruct Ho. split; [by split|exact Ht|exact Hn|exact (wg_interval _ _ Hw)|by right|]. destruct r; [exact Hcf|by right]. }
  destruct (o_onTCPOpened opts) as [h|] eqn:Eo.
  - destruct (Hop h eq_refl c4) as [e He]. arun He. eexists _, c4. split; [reflexivity|]. apply Hall. by destruct e.
  - eexists _, c4. split; [reflexivity|]. by apply Hall.
Qed.

Lemma openHandle_ok s rq opts id c :
  half c c → tc_idleTimer c = None → tc_writeIdleTimer c = None → tc_readIdleTimer c = None →
  harmless_opened (o_onTCPOpened opts) →
  ∃ r c', run_alone (openHandle s rq opts id) c = Some (Ret (r, c')) ∧ handled s rq opts id c r c'.
Proof.
  intros Hc N1 N2 N3 Hop. unfold openHandle, SetOnRequest.
  destruct rq as [h|]; [|eexists (Err NOther), c; split; [reflexivity|by apply handled_err]].
  set (c1 := set_reqHandle (Some h) c).
  assert (H1 : half c c1) by (destruct Hc as [[] Ht Hw Hn Hr]; split; [by split|exact Ht|exact Hw|exact Hn|exact Hr]).
  erewrite and_then_alone by reflexivity. cbv iota.
  destruct (SetKeepAlive_alone (o_tcpKeepAlive opts) c1 (og_closer _ (ha_opening _ _ H1))) as (r2 & w2 & Hr2).
  rewrite (and_then_alone _ _ _ _ _ Hr2). pose proof (half_world w2 _ _ H1) as H2. set (c2 := with_world w2 c1) in *.
  destruct r2 as [[]|e]; [|exists (Err e), c2; split; [reflexivity|by apply handled_err]].
  destruct (half_idle (o_tcpIdleTimeout opts) _ _ H2 N1) as (r3 & t3 & w3 & Hr3 & H3 & G3 & A3).
  rewrite (and_then_alone _ _ _ _ _ Hr3). set (c3 := set_idleTimer t3 _) in *.
  destruct r3 as [[]|e]; [|exists (Err e), c3; split; [reflexivity|by apply handled_err]].
  destruct (half_write_idle (o_tcpWriteIdleTimeout opts) _ _ H3 N2) as (r4 & t4 & w4 & Hr4 & H4 & G4 & A4).
  rewrite (and_then_alone _ _ _ _ _ Hr4). set (c4 := set_writeIdleTimer t4 _) in *.
  destruct r4 as [[]|e]; [|exists (Err e), c4; split; [reflexivity|by apply handled_err]].
  destruct (half_read_idle (o_tcpReadIdleTimeout opts) _ _ H4 N3) as (r5 & t5 & w5 & Hr5 & H5 & G5 & A5).
  rewrite (and_then_alone _ _ _ _ _ Hr5). set (c5 := set_readIdleTimer t5 _) in *.
  destruct r5 as [[]|e]; [|exists (Err e), c5; split; [reflexivity|by apply handled_err]].
  apply (open_tail_ok s (Some h) opts id c c5 H5 Hop); try done.
  - eapply armed_grows; [|exact A3]. exact (wheel_grows_trans _ _ _ G4 G5).
  - eapply armed_grows; [exact G5|exact A4].
Qed.

(** ** Every outcome of an accept *)

(** Nobody has closed the connection, and its buffers are empty. *)
Definition opening_open c : Prop :=
  tc_closer c = zero_closer ∧ nfd_closed (tc_nfd c) = false ∧
  holds false (tc_inBuffer c) [] ∧ holds true (tc_outBuffer c) [].

Inductive accept_outcome (s : tcpservice) (rq : option H) (opts : options H) (id : cid) c (inuse : gset dloc) :
    result nerr (option Addr * option Addr) → conn → Prop :=
| AO_none e w :
    (* no connection was accepted *)
    accept_outcome s rq opts id c inuse (Err (NErrno e)) (with_world w c)
| AO_accepted addrs desc c' :
    (* configured, in the table, and served by a poller with a descriptor of its own *)
    configured s rq opts id c' → opening_open c' → nfd_desc (tc_nfd c') = Some desc → desc ∉ inuse →
    served (net_of c') desc → interval (tc_wheel c') = interval (tc_wheel c) →
    accept_outcome s rq opts id c inuse (Ok addrs) c'
| AO_closed e fd c' :
    (* closed again, the descriptor too, and not in the table *)
    closed_conn c' [] → nfd_closed (tc_nfd c') = true → nfd_desc (tc_nfd c') = None →
    (∀ s', tc_service c' = Some s' → sv_conns s' = delete fd (sv_conns s)) →
    accept_outcome s rq opts id c inuse (Err e) c'
| AO_leaked e c' :
    (* [SetNoDelay] failed: in the table, its descriptor open, and no poller serves it *)
    configured s rq opts id c' → opening_open c' → nfd_desc (tc_nfd c') = None →
    accept_outcome s rq opts id c inuse (Err (NErrno e)) c'.

Lemma Accept_alone lfd c : ∃ r w, run_alone (netutil_Accept lfd) c = Some (Ret (r, with_world w c)).
Proof.
  unfold netutil_Accept. destruct (k_accept4 lfd (ep_world (tc_poll c))) as [r1 w1] eqn:E1.
  arun (sys_alone _ c _ _ E1). destruct r1 as [x|e]; [by exists (Ok x), w1|].
  case_decide; [|by exists (Err e), w1].
  destruct (k_accept lfd w1) as [r2 w2] eqn:E2. arun (sys_alone (k_accept lfd) (with_world w1 c) r2 w2 E2).
  destruct r2 as [[ns sa]|e2]; [|by exists (Err e2), w2].
  arun (sys_alone (λ w, ((), k_closeOnExec ns w)) (with_world w2 (with_world w1 c)) () (k_closeOnExec ns w2) eq_refl).
  set (w3 := k_closeOnExec ns w2).
  arun (sys_alone (λ w, ((), k_setNonblock ns w)) (with_world w3 (with_world w2 (with_world w1 c))) ()
          (k_setNonblock ns w3) eq_refl).
  by eexists _, _.
Qed.

(** Closing a connection that could not be set up. *)
Lemma close_opening fd s id opts c :
  at_rest c → holds false (tc_inBuffer c) [] → holds true (tc_outBuffer c) [] →
  tc_closeHandle c = None ∨ tc_closeHandle c = o_onTCPClosed opts → harmless run_closed (o_onTCPClosed opts) →
  nfd_fd (tc_nfd c) = fd → tc_service c = None ∨ tc_service c = Some (stored s fd id) →
  ∃ c', run_alone (Close sock_Close run_closed) c = Some (Ret ((), c')) ∧ closed_conn c' [] ∧
    nfd_closed (tc_nfd c') = true ∧ nfd_desc (tc_nfd c') = None ∧
    ∀ s', tc_service c' = Some s' → sv_conns s' = delete fd (sv_conns s).
Proof.
  intros Hr Hi Ho Hch Hh Hfd Hs. assert (Hhc : harmless run_closed (tc_closeHandle c)).
  { by destruct Hch as [->| ->]. }
  destruct (close_alone sock_Close run_closed false true c [] [] Hr Hi Ho Hhc) as (c' & Hrun & Hcl & Hre & _).
  exists c'. split; [exact Hrun|]. split; [exact Hcl|]. destruct (re_socket _ _ _ Hre) as [S1 S2].
  split; [exact S1|]. split; [exact S2|]. intros s' Hs'. destruct Hs as [Hs|Hs].
  - rewrite (re_noservice _ _ _ Hre Hs) in Hs'. done.
  - destruct (re_service _ _ _ Hre _ Hs) as (s2 & Hs2 & Hd). rewrite Hs2 in Hs'. injection Hs' as <-.
    rewrite Hd, Hfd. unfold stored. destruct (sv_closed s); [done|]. simpl. by rewrite delete_insert_eq.
Qed.

Lemma timers_known_nil c : tc_idleTimer c = None → tc_writeIdleTimer c = None → tc_readIdleTimer c = None → timers_known c.
Proof. intros E1 E2 E3. unfold timers_known, timers_of. by rewrite E1, E2, E3. Qed.

Lemma at_rest_net e c :
  at_rest c → nfd_closed (ne_nfd e) = false → (∀ desc, nfd_desc (ne_nfd e) = Some desc → served e desc) →
  at_rest (set_net e c).
Proof. intros [] Ho Hd. split; [assumption..|exact Ho|exact Hd]. Qed.

(** The steps after a successful [openHandle]. *)
Lemma accept_finish s rq opts id cx c0 c1 data addrs free marked inuse :
  handled s rq opts id c1 (Ok ()) c0 → dc_ok (ep_cache (tc_poll c1)) free marked inuse →
  0 < pdSize → dc_room pdSize (ep_cache (tc_poll c1)) → interval (tc_wheel c1) = interval (tc_wheel cx) →
  harmless run_closed (o_onTCPClosed opts) →
  ∃ r c', run_alone
      (and_then (nfd_SetNoDelay true) (λ _,
         r ← tc_Schedule data;
         match r with
         | Err e => _ ← Close sock_Close run_closed; Fin (Err e)
         | Ok _ => _ ← metrics_Add Metrics.TCPConnsCreate; Fin (Ok addrs)
         end)) c0 = Some (Ret (r, c')) ∧ accept_outcome s rq opts id cx inuse r c'.
Proof.
  intros [Ho Ht (En & Ec & Ef) Hitv Hch Hcf] Hdc Hpd Hroom Hcx Hh.
  destruct (SetNoDelay_alone true c0) as (e & w & _ & Hr). rewrite (and_then_alone _ _ _ _ _ Hr). clear Hr.
  set (c2 := with_world w c0). assert (Hcf2 : configured s rq opts id c2) by (destruct Hcf; by split).
  destruct (decide (e = 0)) as [He|He]; cycle 1.
  { eexists _, c2. split; [reflexivity|]. apply AO_leaked; [exact Hcf2| |apply Ho]. destruct Ho. by split. }
  destruct (Schedule_ok pdSize mgr (Some tcpOnRead) (Some tcpOnWrite) (Some tcpOnHup) data (net_of c2) free marked inuse)
    as (desc & e3 & Hs & Hni & Hm & Hn3 & Hw3 & Hserved).
  { exact Hpd. } { apply Ho. } { apply Ho. } { simpl. by rewrite (og_type _ Ho). }
  { simpl. by rewrite Ec. } { simpl. by rewrite Ec. }
  arun (on_net_alone _ _ _ _ Hs). set (c3 := set_net e3 c2).
  assert (Hop : nfd_closed (ne_nfd e3) = false) by (rewrite Hn3; destruct mgr; apply Ho).
  assert (Hfd : nfd_fd (ne_nfd e3) = nfd_fd (tc_nfd c0)) by (rewrite Hn3; by destruct mgr).
  destruct (match mgr with None => Err NOther | Some _ => _ end) as [[]|er] eqn:Er.
  - destruct mgr as [pn|]; [|done]. destruct (metric_alone Metrics.TCPConnsCreate c3) as (tb & Hs4); [by compute|].
    arun Hs4. eexists _, _. split; [reflexivity|]. apply (AO_accepted s rq opts id cx inuse addrs desc).
    + destruct Hcf2 as [F1 F2 F3 F4]. split; [exact F1|exact F2|exact F3|]. simpl. rewrite Hfd. exact F4.
    + split; [exact (og_closer _ Ho)|]. split; [exact Hop|]. split; apply Ho.
    + simpl. by rewrite Hn3.
    + exact Hni.
    + by apply Hserved.
    + change (interval (tc_wheel c0) = interval (tc_wheel cx)). congruence.
  - assert (Hrest : at_rest c3).
    { apply at_rest_net; [|exact Hop|].
      - apply opening_at_rest; [destruct Ho; by split|exact Ht].
      - intros desc' Hd. rewrite Hn3 in Hd. destruct mgr as [pn|].
        + injection Hd as <-. by apply Hserved.
        + change (nfd_desc (tc_nfd c0) = Some desc') in Hd. by rewrite (og_desc _ Ho) in Hd. }
    destruct (close_opening (nfd_fd (tc_nfd c0)) s id opts c3 Hrest) as (c4 & Hrun & Hcl & Hc4 & Hd4 & Hsv);
      [apply Ho|apply Ho|exact Hch|exact Hh|exact Hfd|right; exact (cg_service _ _ _ _ _ Hcf)|].
    arun Hrun. eexists _, c4. split; [reflexivity|]. by eapply AO_closed.
Qed.

Lemma accept_outcomes_ok (s : tcpservice) (rq : option H) (opts : options H) (id : cid) c
    (lfd : Z) (laddr : option Addr) (massive : bool) (data : D)
    (free marked : list dloc) (inuse : gset dloc) :
  process_ok c free marked inuse → harmless run_closed (o_onTCPClosed opts) → harmless_opened (o_onTCPOpened opts) →
  ∃ r c', run_alone (accept lfd laddr massive data (Some (openHandle s rq opts id))) c = Some (Ret (r, c')) ∧
          accept_outcome s rq opts id c inuse r c'.
Proof.
  intros Hp Hh Hop. unfold accept. destruct (Accept_alone lfd c) as (r1 & w1 & Hr1). arun Hr1.
  destruct r1 as [[fd sa]|e]; [|eexists _, _; split; [reflexivity|by apply AO_none]].
  destruct (k_getsockname fd (ep_world (tc_poll (with_world w1 c)))) as [r2 w2] eqn:E2.
  arun (sys_alone (k_getsockname fd) _ _ _ E2). cbv zeta. set (c2 := with_world w2 _).
  assert (Hp2 : process_ok c2 free marked inuse) by (destruct Hp; by split).
  destruct (make_conn_ok fd false (if massive then None else Some MaxLen) c2 free marked inuse Hp2) as (d & ib & ob & Hm & Ho).
  { destruct massive; [done|]. by intros l [= <-]. }
  arun Hm. set (c3 := fresh_conn fd false d ib ob c2) in *.
  assert (Hh3 : half c3 c3) by (apply half_refl; [exact Ho|by apply timers_known_nil|apply Hp|done..]).
  destruct (openHandle_ok s rq opts id c3 Hh3 eq_refl eq_refl eq_refl Hop) as (r4 & c4 & Hr4 & Hd4). arun Hr4.
  destruct r4 as [[]|e].
  - eapply accept_finish; [exact Hd4|apply Hp|apply Hp|apply Hp|done|exact Hh].
  - destruct Hd4 as [Ho4 Ht4 (En & _ & _) _ Hch Hsv].
    destruct (close_opening (nfd_fd (tc_nfd c4)) s id opts c4) as (c5 & Hrun & Hcl & Hc5 & Hd5 & Hs5);
      [by apply opening_at_rest|apply Ho4|apply Ho4|exact Hch|exact Hh|done|exact Hsv|].
    arun Hrun. eexists _, c5. split; [reflexivity|]. by eapply AO_closed.
Qed.


(** An idle timeout above zero but below the tick of the time wheel (one second)
    does not close idle connections early or late: [asynctimer.Add] refuses it, so the
    service refuses every connection. *)
Theorem short_idle_timeout_refuses_connections (s : tcpservice) (rq : option H) (opts : options H) (id : cid) c
    (lfd : Z) (laddr : option Addr) (massive : bool) (data : D)
    (free marked : list dloc) (inuse : gset dloc) :
  process_ok c free marked inuse → harmless run_closed (o_onTCPClosed opts) → harmless_opened (o_onTCPOpened opts) →
  0 < o_tcpIdleTimeout opts < interval (tc_wheel c) ∨
  0 < o_tcpWriteIdleTimeout opts < interval (tc_wheel c) ∨
  0 < o_tcpReadIdleTimeout opts < interval (tc_wheel c) →
  ∃ e c', run_alone (accept lfd laddr massive data (Some (openHandle s rq opts id))) c = Some (Ret (Err e, c')).
Proof.
  intros Hp Hh Hop Hshort.
  destruct (accept_outcomes_ok s rq opts id c lfd laddr massive data free marked inuse Hp Hh Hop) as (r & c' & Hr & Ho).
  destruct Ho as [e w|addrs desc c' Hcf _ _ _ _ Hi|e fd c' _ _ _ _|e c' _ _ _]; [by eexists _, _| |by eexists _, _..].
  exfalso. destruct (cg_timers _ _ _ _ _ Hcf) as (A1 & A2 & A3).
  assert (Hno : ∀ d t, armed (tc_wheel c') d t → ¬ 0 < d < interval (tc_wheel c)).
  { intros d t Ha Hd. unfold armed in Ha. rewrite decide_False in Ha by lia. rewrite <-Hi in Hd.
    destruct Ha as [Ha _]. lia. }
  destruct Hshort as [Hd|[Hd|Hd]]; [exact (Hno _ _ A1 Hd)|exact (Hno _ _ A2 Hd)|exact (Hno _ _ A3 Hd)].
Qed.

End TcpSetup.

(** ** Concrete accepts *)

(** A kernel whose listener has one connection, descriptor 9 from 127.0.0.1:4000, and
    whose [setsockopt] answers [nodelay] for TCP_NODELAY. *)
Definition local4 (port : Z) : Sockaddr := SockaddrInet4 port [127; 0; 0; 1].

Definition demo_sockets (nodelay : Z) : SockKernel script := {|
  k_accept4 _ w := (Err ENOSYS, w);
  k_accept _ w := (Ok (9, local4 4000), w);
  k_closeOnExec _ w := w;
  k_setNonblock _ w := w;
  k_getsockname _ w := (Ok (local4 80), w);
  k_setsockopt _ _ name _ w := ((if decide (name = TCP_NODELAY) then nodelay else 0), w)
|}.

Definition listening : tcpconn nat nat script nat :=
  set_inBuffer (zero_buffer (init_mcache (λ _ _, Some 0%nat)) tiny)
    (set_outBuffer (zero_buffer (init_mcache (λ _ _, Some 0%nat)) tiny)
      (set_poll (Epoll 1%positive (MkIOData None None) 3 0 false 0 init_cache empty_script []) demo_conn)).

Lemma listening_ok : process_ok 1200 listening [] [] ∅.
Proof.
  split.
  - split; exact tiny_ok.
  - split; apply init_mcache_ok.
  - split; [apply wheel1_ok|by vm_compute].
  - apply init_cache_ok.
  - split; [lia|by vm_compute].
Qed.

Definition demo_options : options nat :=
  newOptions [WithTCPIdleTimeout (10 * Second); WithNonBlocking true; WithTCPOutboundBufferLimit 4096].

Definition demo_accept (nodelay : Z) (opts : options nat) :=
  run_alone (accept (SK := demo_sockets nodelay) (I := demo_ifaces) 1200 (λ _ w, w) (λ _, Fin ()) 0%nat 1%nat 2%nat (Some 0%nat)
    5 None false 7%nat
    (Some (openHandle (SK := demo_sockets nodelay) (λ _, Fin None) newTCPService (Some 0%nat) opts 3%nat))) listening.


Lemma short_idle_timeout_refuses_connections_witness :
  ∃ e c', demo_accept 0 (newOptions [WithTCPIdleTimeout (500 * Millisecond)]) = Some (Ret (Err e, c')).
Proof.
  unfold demo_accept. apply (short_idle_timeout_refuses_connections (SK := demo_sockets 0) (I := demo_ifaces) 1200 (λ _ w, w) (λ _, Fin ())
           (λ _, Fin None) 0%nat 1%nat 2%nat (Some 0%nat) newTCPService (Some 0%nat)
           (newOptions [WithTCPIdleTimeout (500 * Millisecond)]) 3%nat listening 5 None false 7%nat [] [] ∅).
  - exact listening_ok.
  - by intros h [=].
  - by intros h [=].
  - left. by vm_compute.
Defined.

(** What a successful accept answers: the addresses, the table, the registration. *)
Example accepted_answers :
  match demo_accept 0 demo_options with
  | Some (Ret (Ok (l, r), c)) =>
      l = Some (TCPAddr (v4InV6Prefix ++ [127; 0; 0; 1]) 80 []) ∧ r = Some (TCPAddr (v4InV6Prefix ++ [127; 0; 0; 1]) 4000 []) ∧
      (sv_conns <$> tc_service c) = Some {[9 := 3%nat]} ∧ tc_nonblocking c = true ∧ tc_outboundBufferLimit c = 4096 ∧
      sk_interest (ep_world (tc_poll c)) = {[(3, 9) := (rflags, 3%positive)]}
  | _ => False
  end.
Proof. vm_compute. repeat split. Qed.

(** when [SetNoDelay] fails, the accept answers with an error but the connection
    stays: it is in the service's table, its descriptor is open and no poller serves it,
    so only the end of the whole service closes it. *)
Theorem failed_no_delay_leaks_connection :
  match demo_accept EINVAL demo_options with
  | Some (Ret (r, c)) =>
      r = Err (NErrno EINVAL) ∧ (sv_conns <$> tc_service c) = Some {[9 := 3%nat]} ∧
      nfd_closed (tc_nfd c) = false ∧ nfd_desc (tc_nfd c) = None ∧ closed (tc_closer c) = false ∧
      sk_interest (ep_world (tc_poll c)) = ∅
  | _ => False
  end.
Proof. vm_compute. repeat split. Qed.
