(* ===== verification/SockDarwin.v ===== *)
(** Keep-alive and accept of the systems without [accept4]
    (src/internal/netutil/keepalive_darwin.go, sys_cloexec.go): the same interface as
    [netutil_SetKeepAlive] and [netutil_Accept] of TcpSetup, with the option numbers
    and the error number of Darwin.  Each function is run alone and its result is
    compared with the answers of the system. *)

From stdpp Require Import base gmap list numbers.
From S2P Require Import Prelude LinkedBuffer Options Threads Kernel Poller NetFD NetAddr TcpService TcpConn TcpSafety TcpClose TcpSetup.

Local Open Scope Z_scope.

Definition darwin_SOL_SOCKET : Z := 65535.
Definition darwin_SO_KEEPALIVE : Z := 8.
Definition darwin_TCP_KEEPALIVE : Z := 16.
Definition darwin_TCP_KEEPINTVL : Z := 257.
Definition darwin_ENOPROTOOPT : Z := 42.

#[export] Instance result_eq_dec {E A} `{EqDecision E} `{EqDecision A} : EqDecision (result E A).
Proof. solve_decision. Defined.

Section SockDarwin.
Context {D CB W H : Type} `{K : Kernel W} `{SK : SockKernel W}.
Abbreviation conn := (tcpconn D CB W H).
Abbreviation T := (thread conn).
Implicit Types c : conn.

(** An old system that does not know TCP_KEEPINTVL is forgiven. *)
Definition darwin_SetKeepAlive (fd secs : Z) : T (result nerr ()) :=
  and_then (SetsockoptInt fd darwin_SOL_SOCKET darwin_SO_KEEPALIVE 1) (λ _,
  r ← SetsockoptInt fd IPPROTO_TCP darwin_TCP_KEEPINTVL secs;
  if decide (r = Ok () ∨ r = Err (NErrno darwin_ENOPROTOOPT))
  then SetsockoptInt fd IPPROTO_TCP darwin_TCP_KEEPALIVE secs
  else Fin r).

(** There is no second attempt, and O_NONBLOCK is left as the system hands it out. *)
Definition cloexec_Accept (fd : Z) : T (result Z (Z * Sockaddr)) :=
  r ← sys (k_accept fd);
  match r with
  | Ok (ns, sa) =>
      _ ← sys (λ w, ((), k_closeOnExec ns w));
      Fin (Ok (ns, sa))
  | Err e => Fin (Err e)
  end.

(** ** What the callers see *)

Definition of_errno (e : Z) : result nerr () := if decide (e = 0) then Ok () else Err (NErrno e).

Lemma with_world_twice w w' c : with_world w' (with_world w c) = with_world w' c.
Proof. reflexivity. Qed.

Lemma setsockopt_alone fd l n v w c e w' :
  k_setsockopt fd l n v w = (e, w') →
  run_alone (SetsockoptInt fd l n v) (with_world w c) = Some (Ret (of_errno e, with_world w' c)).
Proof.
  intros Ek. unfold SetsockoptInt.
  by arun (sys_alone (k_setsockopt fd l n v) (with_world w c) e w' Ek).
Qed.

(** The first failure is reported and ends the call, but for a system that does not
    know the probe interval: there the last option decides. *)
Theorem darwin_SetKeepAlive_outcome fd secs w c e1 w1 e2 w2 e3 w3 :
  k_setsockopt fd darwin_SOL_SOCKET darwin_SO_KEEPALIVE 1 w = (e1, w1) →
  k_setsockopt fd IPPROTO_TCP darwin_TCP_KEEPINTVL secs w1 = (e2, w2) →
  k_setsockopt fd IPPROTO_TCP darwin_TCP_KEEPALIVE secs w2 = (e3, w3) →
  run_alone (darwin_SetKeepAlive fd secs) (with_world w c) = Some (Ret (
    if decide (e1 ≠ 0) then (of_errno e1, with_world w1 c)
    else if decide (e2 ≠ 0 ∧ e2 ≠ darwin_ENOPROTOOPT) then (of_errno e2, with_world w2 c)
    else (of_errno e3, with_world w3 c))).
Proof.
  intros H1 H2 H3. unfold darwin_SetKeepAlive, and_then.
  arun (setsockopt_alone _ _ _ _ w c _ _ H1). unfold of_errno at 1.
  destruct (decide (e1 = 0)) as [->|Hn]; [|rewrite decide_True by done; unfold of_errno; by rewrite decide_False].
  rewrite (decide_False (P := 0 ≠ 0)) by lia.
  arun (setsockopt_alone _ _ _ _ w1 c _ _ H2).
  destruct (decide (e2 ≠ 0 ∧ e2 ≠ darwin_ENOPROTOOPT)) as [[Hn Hp]|Ht].
  - unfold of_errno. rewrite !(decide_False (P := e2 = 0)) by done. by rewrite decide_False by (intros [?|?]; congruence).
  - rewrite decide_True; [exact (setsockopt_alone _ _ _ _ w2 c _ _ H3)|].
    unfold of_errno. destruct (decide (e2 = 0)) as [|Hn]; [by left|right].
    destruct (decide (e2 = darwin_ENOPROTOOPT)) as [->|]; [done|tauto].
Qed.

(** What the system hands out is handed on, marked to be closed in a child. *)
Theorem cloexec_Accept_outcome fd w c :
  run_alone (cloexec_Accept fd) (with_world w c) = Some (Ret (
    match k_accept fd w with
    | (Ok (ns, sa), w') => (Ok (ns, sa), with_world (k_closeOnExec ns w') c)
    | (Err e, w') => (Err e, with_world w' c)
    end)).
Proof.
  unfold cloexec_Accept. destruct (k_accept fd w) as [r w'] eqn:E.
  arun (sys_alone (k_accept fd) (with_world w c) r w' E).
  destruct r as [[ns sa]|e]; [|done].
  by arun (sys_alone (λ w, ((), k_closeOnExec ns w)) (with_world w' (with_world w c)) () (k_closeOnExec ns w') eq_refl).
Qed.

End SockDarwin.
