(* ===== verification/StreamConn.v ===== *)
(** * Connections as the layers above see them (src/tnet.go, src/dialer.go)

    TLS and WebSocket are written against the interface of a TCP connection.
    [StreamConn] is the part of that interface they use, [StreamConnLaws] what they may
    rely on: a dial that fails leaves no open connection, a connection that is open
    or closed can be closed, settings keep it open.  [tcp_stream] shows that the
    connections of [TcpConn], dialled by [TcpSetup.dialTCP], keep these promises. *)

From stdpp Require Import base gmap sets list numbers strings.
From S2P Require Import Prelude MCache Node LinkedBuffer BufferInv FixedBuffer AutoPostpone SafeJob Closer AsyncTimer Threads Timer Kernel IOVec DescCache Poller NetFD TcpService TcpConn TcpInv TcpClose NetAddr TcpSetup.

Local Open Scope Z_scope.

(** A thread of a component as a thread of the whole. *)
Fixpoint focus {S T A} (get : S → T) (put : T → S → S) (p : thread T A) : thread S A :=
  match p with
  | Fin x => Fin x
  | Do B a k =>
      Do B (λ s, match a (get s) with
                 | Some (Ret (x, t)) => Some (Ret (x, put t s))
                 | Some Panic => Some Panic
                 | Some NoFuel => Some NoFuel
                 | None => None
                 end) (λ x, focus get put (k x))
  end.

Lemma run_focus {S T A} (get : S → T) put (p : thread T A) s x t :
  (∀ s, put (get s) s = s) → (∀ t s, get (put t s) = t) → (∀ t t' s, put t' (put t s) = put t' s) →
  run_alone p (get s) = Some (Ret (x, t)) → run_alone (focus get put p) s = Some (Ret (x, put t s)).
Proof.
  intros L1 L2 L3. revert s. induction p as [r|B a k IH]; intros s; simpl.
  { intros [= -> <-]. by rewrite L1. }
  destruct (a (get s)) as [[[y t1]| |]|]; [|done..]. intros Hr.
  rewrite (IH y (put t1 s)) by (by rewrite L2). by rewrite L3.
Qed.

(** ** The interface *)

(** [sc_dial network address timeout] is [DialTCP]; a deadline of [None] is the zero
    time; [sc_now] is [time.Now]. *)
Class StreamConn (S : Type) : Type := {
  sc_dial : string → string → Z → thread S (result nerr ());
  sc_now : S → Z;
  sc_Close : thread S ();
  sc_IsActive : thread S bool;
  sc_SetDeadline : option Z → thread S (result nerr ());
  sc_SetReadDeadline : option Z → thread S (result nerr ());
  sc_SetWriteDeadline : option Z → thread S (result nerr ());
  sc_SetIdleTimeout : Z → thread S (result nerr ());
  sc_SetReadIdleTimeout : Z → thread S (result nerr ());
  sc_SetWriteIdleTimeout : Z → thread S (result nerr ());
  sc_SetSafeWrite : bool → thread S ();
  sc_SetFlushWrite : bool → thread S ();
  sc_OutboundBuffered : thread S Z
}.

(** The handlers of a connection, closures of type [C] ([None] is nil). *)
Class StreamHandlers (S C : Type) : Type := {
  sc_SetOnRequest : option C → thread S (result nerr ());
  sc_SetOnClosed : option C → thread S (result nerr ());
  sc_onRequest : S → option C;
  sc_onClosed : S → option C;
  (** What is registered is what the connection will call. *)
  sc_SetOnRequest_ok k s :
    returns (sc_SetOnRequest (Some k)) (λ r s', r = Ok () ∧ sc_onRequest s' = Some k ∧ sc_onClosed s' = sc_onClosed s) s;
  sc_SetOnRequest_nil s : returns (sc_SetOnRequest None) (λ r s', r ≠ Ok () ∧ s' = s) s;
  sc_SetOnClosed_ok k s :
    returns (sc_SetOnClosed (Some k)) (λ r s', r = Ok () → sc_onClosed s' = Some k ∧ sc_onRequest s' = sc_onRequest s) s;
  sc_SetOnClosed_nil s : returns (sc_SetOnClosed None) (λ r s', r ≠ Ok () ∧ s' = s) s
}.

Class StreamConnLaws (S : Type) `{StreamConn S} : Type := {
  sc_ready : S → Prop;          (* a connection can be dialled *)
  sc_open : S → Prop;           (* nobody has closed it, nobody is using it *)
  sc_shut : S → Prop;           (* it is closed, its socket too *)
  sc_deadline : S → option Z → Prop;
  sc_safe : S → bool;
  sc_dial_ok network address timeout s :
    sc_ready s →
    returns (sc_dial network address timeout) (λ r s',
      match r with
      | Ok _ => sc_open s' ∧ sc_deadline s' None ∧ sc_safe s' = false
      | Err _ => sc_ready s' ∨ sc_shut s'
      end) s;
  sc_Close_ok s : sc_open s ∨ sc_shut s → returns sc_Close (λ _ s', sc_shut s') s;
  sc_IsActive_open s : sc_open s → run_alone sc_IsActive s = Some (Ret (true, s));
  sc_IsActive_shut s : sc_shut s → run_alone sc_IsActive s = Some (Ret (false, s));
  sc_SetDeadline_ok d s :
    sc_open s →
    returns (sc_SetDeadline d) (λ r s', r = Ok () ∧ sc_open s' ∧ sc_deadline s' d ∧ sc_safe s' = sc_safe s) s;
  sc_SetIdleTimeout_ok d s :
    sc_open s →
    returns (sc_SetIdleTimeout d) (λ _ s', sc_open s' ∧ (∀ d, sc_deadline s d → sc_deadline s' d) ∧ sc_safe s' = sc_safe s) s;
  sc_SetSafeWrite_ok b s :
    sc_open s →
    returns (sc_SetSafeWrite b) (λ _ s', sc_open s' ∧ (∀ d, sc_deadline s d → sc_deadline s' d) ∧ sc_safe s' = b) s;
  sc_SetFlushWrite_ok b s : run_alone (sc_SetFlushWrite b) s = Some (Ret ((), s))
}.

(** ** TCP connections keep the promises *)

Section TcpStream.
Context {D CB W H : Type} `{K : Kernel W}.
Abbreviation conn := (tcpconn D CB W H).
Abbreviation T := (thread conn).
Implicit Types c : conn.

Variable pdSize : Z.
Variable sock_Close : Z → W → W.
Variable run_closed : H → T ().
Variables (tcpOnRead tcpOnWrite tcpOnHup : CB) (mgr : option nat).
(** [net.Dialer.DialContext] by its timeout, with what [GetFD] finds; and the
    connection as the poller's descriptor stores it. *)
Variable dial : Z → string → string → W → result nerr (Z * option Z) * W.
Variable data : D.

(** [SetFlushWrite] does nothing. *)
Definition SetFlushWrite (flushWrite : bool) : T () := Fin ().

Definition OutboundBuffered : T Z := out_LenRead.

#[export] Instance tcp_stream_ops : StreamConn conn := {|
  sc_dial network address timeout :=
    dialTCP pdSize sock_Close run_closed tcpOnRead tcpOnWrite tcpOnHup mgr (dial timeout) network address data;
  sc_now c := tc_clock c;
  sc_Close := Close sock_Close run_closed;
  sc_IsActive := IsActive;
  sc_SetDeadline := SetDeadline;
  sc_SetReadDeadline := SetReadDeadline;
  sc_SetWriteDeadline := SetWriteDeadline;
  sc_SetIdleTimeout := SetIdleTimeout;
  sc_SetReadIdleTimeout := SetReadIdleTimeout;
  sc_SetWriteIdleTimeout := SetWriteIdleTimeout;
  sc_SetSafeWrite := SetSafeWrite;
  sc_SetFlushWrite := SetFlushWrite;
  sc_OutboundBuffered := OutboundBuffered
|}.

#[export] Instance tcp_stream_handlers : StreamHandlers conn H.
Proof.
  refine {| sc_SetOnRequest := SetOnRequest; sc_SetOnClosed := SetOnClosed;
            sc_onRequest := tc_reqHandle; sc_onClosed := tc_closeHandle |}.
  - intros k c. by eexists _, _.
  - intros c. by eexists _, _.
  - intros k c. destruct (closed (tc_closer c)) eqn:E; eexists _, _; (split; [simpl; rewrite E; reflexivity|done]).
  - intros c. destruct (closed (tc_closer c)) eqn:E; eexists _, _; (split; [simpl; rewrite E; reflexivity|done]).
Defined.

Definition dialled_ready c : Prop := ∃ free marked inuse, process_ok pdSize c free marked inuse.

Record dialled_open c : Prop := {
  do_rest : at_rest c;
  do_in : ∃ wi q, holds wi (tc_inBuffer c) q;
  do_out : ∃ wo q, holds wo (tc_outBuffer c) q;
  do_handle : tc_closeHandle c = None;
  do_wheel : wheel_good (tc_wheel c)
}.

Definition dialled_shut c : Prop :=
  (∃ q, closed_conn c q) ∧ nfd_closed (tc_nfd c) = true ∧ nfd_desc (tc_nfd c) = None.

Definition timer_deadline (t : option timer) : option Z := t ≫= tm_deadline.

Definition dialled_deadline c (d : option Z) : Prop :=
  timer_deadline (tc_rtimer c) = d ∧ timer_deadline (tc_wtimer c) = d.

Lemma dialled_close c :
  dialled_open c ∨ dialled_shut c → returns (Close sock_Close run_closed) (λ _ c', dialled_shut c') c.
Proof.
  intros [[Hr (wi & q & Hi) (wo & qo & Ho) Hh _]|Hs].
  - assert (Hhc : harmless run_closed (tc_closeHandle c)) by (rewrite Hh; by intros h [=]).
    destruct (close_alone sock_Close run_closed wi wo c q qo Hr Hi Ho Hhc) as (c' & Hrun & Hcl & Hre & _).
    eapply returns_run; [exact Hrun|]. split; [by exists q|]. exact (re_socket _ _ _ Hre).
  - destruct Hs as ((q & Hq) & Hn). exists (), c. split; [|by split; [exists q|]]. unfold Close.
    assert (Hb : run_alone (tc_begin Closer.closeAll) c = Some (Ret (false, c))).
    { apply refused_alone; [apply Hq|by compute]. }
    by arun Hb.
Qed.

Lemma dialled_active c : dialled_open c → run_alone IsActive c = Some (Ret (true, c)).
Proof. intros [Hr]. unfold IsActive. simpl. by rewrite (ar_closer _ Hr). Qed.

(** A field of the connection that its invariant does not look at. *)
Lemma set_deadline_open d c :
  dialled_open c →
  returns (SetDeadline d) (λ r c', r = Ok () ∧ dialled_open c' ∧ dialled_deadline c' d ∧ tc_safeWrite c' = tc_safeWrite c) c.
Proof.
  intros [[]]. unfold SetDeadline.
  assert (Hact : ∀ c, tc_closer c = zero_closer → ∀ f upd, run_alone (set_deadline f upd d) c = Some (Ret (Ok (),
    upd (Some (match f c with None => timer_New d | Some tm => Timer.MkTimer d (tm_timer tm) end)) c))).
  { intros c0 E f upd. unfold set_deadline. apure. by rewrite E. }
  eexists _, _. split.
  { erewrite and_then_alone by (by apply Hact). by apply Hact. }
  split; [done|]. split; [by split|]. split; [|done]. simpl.
  split; simpl; [by destruct (tc_rtimer c)|by destruct (tc_wtimer c)].
Qed.

(** Deleting the idle timer and arming a new one. *)
Lemma delete_idle_open c :
  dialled_open c → ∃ w, run_alone (delete_timer tc_idleTimer) c = Some (Ret ((), set_wheel w c)) ∧ dialled_open (set_wheel w c).
Proof.
  intros [[? ? ? ? Ht ? ?] Hi Ho Hh [Hw Hn]]. apply Forall_app in Ht as [K1 K2].
  destruct (tc_idleTimer c) as [t|] eqn:Et; cycle 1.
  { exists (tc_wheel c). assert (set_wheel (tc_wheel c) c = c) as -> by by destruct c. split.
    - unfold delete_timer. apure. by rewrite Et.
    - split; [split; try done; unfold timers_of; rewrite Et; by apply Forall_app|done..|by split]. }
  apply Forall_singleton in K1 as [x Hx]. destruct (Del_ok t x (tc_wheel c) Hw Hx) as (w & Hd & Hw' & Hdom).
  assert (Hnow : now w = now (tc_wheel c)).
  { revert Hd. unfold AsyncTimer.Del. erewrite bind_Ret by (by apply load_timer_ok). by intros [= <-]. }
  exists w. split.
  - unfold delete_timer. apure. rewrite Et. by apply (run_method tc_wheel set_wheel).
  - assert (Hk : ∀ ts, Forall (λ t, is_Some (timers (tc_wheel c) !! t)) ts → Forall (λ t, is_Some (timers w !! t)) ts).
    { intros ts Hts. eapply list.Forall_impl; [exact Hts|]. intros t' Hs. apply elem_of_dom. rewrite Hdom. by apply elem_of_dom. }
    split; [split; try done|done..|split; [done|simpl; by rewrite Hnow]].
    unfold timers_of. simpl. rewrite Et. apply Forall_app. split; [|by apply Hk]. apply Hk, Forall_singleton. by exists x.
Qed.

Lemma set_idle_open d c :
  dialled_open c →
  returns (SetIdleTimeout d) (λ _ c', dialled_open c' ∧ (∀ d, dialled_deadline c d → dialled_deadline c' d) ∧
                                      tc_safeWrite c' = tc_safeWrite c) c.
Proof.
  intros Hop. unfold SetIdleTimeout, set_idle_timeout. destruct (delete_idle_open c Hop) as (w & Hd & Hop1).
  unfold returns. setoid_rewrite (run_alone_bind _ _ _ _ _ (dialled_active c Hop)). cbv iota. simpl negb. cbv iota.
  setoid_rewrite (run_alone_bind _ _ _ _ _ Hd). case_decide as Hle.
  { eexists _, _. split; [reflexivity|]. by split. }
  destruct (arm_idle_alone (set_idleTimer : option tid → conn → conn) d (set_wheel w c) ltac:(lia) (do_wheel _ Hop1))
    as (r & t & w2 & Hr & Hg & Hk & _); [done..|].
  eexists _, _. split; [exact Hr|]. destruct Hop1 as [[? ? ? ? Ht ? ?] Hi Ho Hh _].
  split; [|by split]. split; [split; try done|done..|by apply Hg].
  unfold timers_of in *. simpl in *. apply Forall_app in Ht as [_ Ht]. constructor; [exact Hk|].
  eapply list.Forall_impl; [exact Ht|]. intros t' [x Hx]. exists x. by apply Hg.
Qed.

Lemma ready_world w c free marked inuse :
  process_ok pdSize c free marked inuse → process_ok pdSize (with_world w c) free marked inuse.
Proof. intros []. by split. Qed.

(** A connection around a descriptor: registered with a poller, or closed again. *)
Lemma newTCPConn_ok fd libfd c :
  dialled_ready c →
  returns (newTCPConn pdSize sock_Close run_closed tcpOnRead tcpOnWrite tcpOnHup mgr fd libfd data) (λ r c',
    match r with
    | Ok _ => dialled_open c' ∧ dialled_deadline c' None ∧ tc_safeWrite c' = false
    | Err _ => dialled_ready c' ∨ dialled_shut c'
    end) c.
Proof.
  intros (free & marked & inuse & Hp). unfold newTCPConn. destruct fd as [fd|]; cycle 1.
  { eexists _, _. split; [by arun (sys_alone (λ w, ((), sock_Close libfd w)) c () _ eq_refl)|].
    left. exists free, marked, inuse. by apply ready_world. }
  destruct (make_conn_ok pdSize fd true (Some DefaultLength) c free marked inuse Hp) as (d & ib & ob & Hm & Ho);
    [by intros l [= <-]|].
  set (c1 := fresh_conn fd true d ib ob c) in *.
  destruct (Schedule_ok pdSize mgr (Some tcpOnRead) (Some tcpOnWrite) (Some tcpOnHup) data (net_of c1) free marked inuse)
    as (desc & e3 & Hs & Hni & Hm3 & Hn3 & Hw3 & Hserved); [apply Hp|done..|apply Hp|apply Hp|].
  unfold returns. setoid_rewrite (run_alone_bind _ _ _ _ _ Hm). setoid_rewrite (run_alone_bind _ _ _ _ _ (on_net_alone _ _ _ _ Hs)).
  set (c3 := set_net e3 c1).
  assert (Hop : nfd_closed (ne_nfd e3) = false) by (rewrite Hn3; by destruct mgr).
  assert (Hrest : dialled_open c3).
  { split; [|exists false, []; apply Ho|exists true, []; apply Ho|done|apply Hp]. apply at_rest_net; [|exact Hop|].
    - apply opening_at_rest; [exact Ho|by apply timers_known_nil].
    - intros desc' Hd. rewrite Hn3 in Hd. destruct mgr as [pn|]; [|done]. injection Hd as <-. by apply Hserved. }
  destruct (match mgr with None => Err NOther | Some _ => _ end) as [[]|er] eqn:Er.
  - destruct (metric_alone Metrics.TCPConnsCreate c3) as (tb & Hs4); [by compute|].
    eexists _, _. split; [by arun Hs4|]. split; [|by split].
    destruct Hrest as [Hr Hi Hob Hh Hw]. split; [|exact Hi|exact Hob|exact Hh|exact Hw].
    apply (at_rest_net (NetEnv (tc_nfd c3) (tc_poll c3) tb) c3 Hr); [exact Hop|]. intros desc' Hd.
    exact (ar_desc _ Hr desc' Hd).
  - destruct (dialled_close c3 (or_introl Hrest)) as ([] & c4 & Hrun & Hsh).
    eexists _, _. split; [by arun Hrun|]. by right.
Qed.

Lemma dialTCP_ok network address timeout c :
  dialled_ready c →
  returns (dialTCP pdSize sock_Close run_closed tcpOnRead tcpOnWrite tcpOnHup mgr (dial timeout) network address data) (λ r c',
    match r with
    | Ok _ => dialled_open c' ∧ dialled_deadline c' None ∧ tc_safeWrite c' = false
    | Err _ => dialled_ready c' ∨ dialled_shut c'
    end) c.
Proof.
  intros Hr. unfold dialTCP. destruct (tcp_network network); cbn [negb]; [|apply returns_fin; by left].
  destruct (dial timeout network address (ep_world (tc_poll c))) as [x w] eqn:E.
  apply returns_bind. eapply returns_run; [exact (sys_alone _ c _ _ E)|].
  assert (Hr' : dialled_ready (with_world w c)).
  { destruct Hr as (free & marked & inuse & Hp). exists free, marked, inuse. by apply ready_world. }
  destruct x as [[libfd fd]|e]; [by apply newTCPConn_ok|apply returns_fin; by left].
Qed.

#[export] Instance tcp_stream : StreamConnLaws conn.
Proof.
  refine {| sc_ready := dialled_ready; sc_open := dialled_open; sc_shut := dialled_shut;
            sc_deadline := dialled_deadline; sc_safe := tc_safeWrite |}.
  - intros network address timeout c. apply dialTCP_ok.
  - apply dialled_close.
  - apply dialled_active.
  - intros c ((q & Hq) & _). simpl. unfold IsActive, read. simpl. by rewrite (cd_closer _ _ Hq).
  - apply set_deadline_open.
  - apply set_idle_open.
  - intros b c [[]]. eexists _, _. split; [reflexivity|]. split; [by split|by split].
  - done.
Defined.

End TcpStream.
