(* ===== verification/Tls.v ===== *)
(** * TLS connections (src/tls)

    The options of TLS servers and clients, dialling with its handshake, the hooks and
    the request loop of a service, against the interface [StreamConn] of a TCP
    connection.  crypto/tls is a parameter ([TlsLib]) with what its documentation says
    ([TlsLibLaws]).

    A connection of these layers is a [layered]: the TCP connection, its metadata, the
    TLS object around it and the WebSocket object on top, if there are any.  Metadata
    that points to one of these objects says so ([MTls], [MWs]), so that changes
    through the pointer are seen by everybody. *)

From Stdlib Require Import Ascii String.
From stdpp Require Import base list numbers strings.
From S2P Require Import Prelude SafeJob Threads Timer AsyncTimer Kernel NetFD Options StreamConn.

Local Open Scope Z_scope.

(** Metadata: a pointer to a layer's object, or anything of the user's. *)
Inductive metadata (U : Type) : Type := MTls | MWs | MUser (u : U).
Arguments MTls {U}.
Arguments MWs {U}.
Arguments MUser {U} u.

(** Errors: of tnet, of a library, of a hook or handler; and those of the layers. *)
Inductive lerr : Type :=
| LNet (e : nerr)
| LLib (e : nat)
| LUser (e : nat)
| LNoMetaData      (* "metadata is empty, expect tls connection" *)
| LNotTls          (* "tls connection is not stored in metadata" *)
| LNotWs           (* "websocket connection is not stored in metadata" *)
| LScheme          (* "unexpected websocket scheme" *)
| LNotTnet.        (* "websocket.conn is expected to have raw to be tnet.Conn ..." *)

#[export] Instance lerr_eq_dec : EqDecision lerr.
Proof. solve_decision. Defined.

(** ** Options *)

Definition defaultDialTimeout : Z := 10 * Second.

(** [tls.Config]: the name to verify, and the rest. *)
Record Config (CR : Type) : Type := MkConfig { cfg_ServerName : string; cfg_rest : CR }.
Arguments MkConfig {CR} _ _.
Arguments cfg_ServerName {CR} _.
Arguments cfg_rest {CR} _.

Section TlsOptions.
Context {CR TH : Type}.   (* the rest of a configuration; the user's handlers *)

Record tls_serverOptions : Type := TlsServerOptions {
  ts_cfg : option (Config CR);
  ts_keepAlive : Z;
  ts_idleTimeout : Z;
  ts_flushWrite : bool;
  ts_outboundBufferLimit : Z;
  ts_onOpened : option TH;
  ts_onClosed : option TH
}.

Definition tls_ServerOption : Type := tls_serverOptions → tls_serverOptions.

Definition tls_WithServerTLSConfig (cfg : option (Config CR)) : tls_ServerOption := λ o,
  TlsServerOptions cfg (ts_keepAlive o) (ts_idleTimeout o) (ts_flushWrite o) (ts_outboundBufferLimit o) (ts_onOpened o) (ts_onClosed o).
Definition tls_WithTCPKeepAlive (keepAlive : Z) : tls_ServerOption := λ o,
  TlsServerOptions (ts_cfg o) keepAlive (ts_idleTimeout o) (ts_flushWrite o) (ts_outboundBufferLimit o) (ts_onOpened o) (ts_onClosed o).
Definition tls_WithServerIdleTimeout (idleTimeout : Z) : tls_ServerOption := λ o,
  TlsServerOptions (ts_cfg o) (ts_keepAlive o) idleTimeout (ts_flushWrite o) (ts_outboundBufferLimit o) (ts_onOpened o) (ts_onClosed o).
Definition tls_WithServerFlushWrite (flushWrite : bool) : tls_ServerOption := λ o,
  TlsServerOptions (ts_cfg o) (ts_keepAlive o) (ts_idleTimeout o) flushWrite (ts_outboundBufferLimit o) (ts_onOpened o) (ts_onClosed o).
Definition tls_WithServerOutboundBufferLimit (limit : Z) : tls_ServerOption := λ o,
  TlsServerOptions (ts_cfg o) (ts_keepAlive o) (ts_idleTimeout o) (ts_flushWrite o) limit (ts_onOpened o) (ts_onClosed o).
Definition tls_WithOnOpened (onOpened : option TH) : tls_ServerOption := λ o,
  TlsServerOptions (ts_cfg o) (ts_keepAlive o) (ts_idleTimeout o) (ts_flushWrite o) (ts_outboundBufferLimit o) onOpened (ts_onClosed o).
Definition tls_WithOnClosed (onClosed : option TH) : tls_ServerOption := λ o,
  TlsServerOptions (ts_cfg o) (ts_keepAlive o) (ts_idleTimeout o) (ts_flushWrite o) (ts_outboundBufferLimit o) (ts_onOpened o) onClosed.

Definition tls_zero_options : tls_serverOptions := TlsServerOptions None 0 0 false 0 None None.

Record tls_clientOptions : Type := TlsClientOptions {
  tl_cfg : option (Config CR);
  tl_dialTimeout : Z;
  tl_idleTimeout : Z;
  tl_flushWrite : bool
}.

Definition tls_ClientOption : Type := tls_clientOptions → tls_clientOptions.

Definition tls_setDefaults (o : tls_clientOptions) : tls_clientOptions :=
  TlsClientOptions (tl_cfg o) defaultDialTimeout (tl_idleTimeout o) (tl_flushWrite o).
Definition tls_WithTimeout (timeout : Z) : tls_ClientOption := λ o,
  TlsClientOptions (tl_cfg o) timeout (tl_idleTimeout o) (tl_flushWrite o).
Definition tls_WithClientTLSConfig (cfg : option (Config CR)) : tls_ClientOption := λ o,
  TlsClientOptions cfg (tl_dialTimeout o) (tl_idleTimeout o) (tl_flushWrite o).
Definition tls_WithClientFlushWrite (flushWrite : bool) : tls_ClientOption := λ o,
  TlsClientOptions (tl_cfg o) (tl_dialTimeout o) (tl_idleTimeout o) flushWrite.
Definition tls_WithClientIdleTimeout (idleTimeout : Z) : tls_ClientOption := λ o,
  TlsClientOptions (tl_cfg o) (tl_dialTimeout o) idleTimeout (tl_flushWrite o).

(** The closures that [NewService] gives to the TCP service. *)
Inductive tls_closure : Type :=
| TcOpened (cfg : option (Config CR)) (onOpened : option TH)
| TcHandle (handler : TH)
| TcClosed (onClosed : TH).

(** The options of the TCP service under a TLS service. *)
Definition tls_tnetOpts (options : tls_serverOptions) : list (Option tls_closure) :=
  [WithTCPKeepAlive (ts_keepAlive options);
   WithTCPIdleTimeout (ts_idleTimeout options);
   WithTCPOutboundBufferLimit (ts_outboundBufferLimit options);
   WithSafeWrite true;
   WithFlushWrite (ts_flushWrite options);
   WithOnTCPOpened (Some (TcOpened (ts_cfg options) (ts_onOpened options)))] ++
  match ts_onClosed options with
  | Some h => [WithOnTCPClosed (Some (TcClosed h))]
  | None => []
  end.

Definition tls_NewService (handler : TH) (opts : list tls_ServerOption) : tls_closure * list (Option tls_closure) :=
  let options := foldl (λ o opt, opt o) tls_zero_options opts in
  (TcHandle handler, tls_tnetOpts options).

End TlsOptions.

Arguments tls_serverOptions : clear implicits.
Arguments tls_clientOptions : clear implicits.
Arguments tls_ServerOption : clear implicits.
Arguments tls_ClientOption : clear implicits.
Arguments tls_closure : clear implicits.

(** ** Names to verify *)

(** [strings.LastIndex(s, string(c))], [strings.LastIndexByte] and [strings.IndexByte]. *)
Fixpoint IndexByte (s : string) (c : ascii) : option nat :=
  match s with
  | EmptyString => None
  | String a s => if decide (a = c) then Some O else Datatypes.S <$> IndexByte s c
  end.

Fixpoint LastIndexByte (s : string) (c : ascii) : option nat :=
  match s with
  | EmptyString => None
  | String a s =>
      match LastIndexByte s c with
      | Some i => Some (Datatypes.S i)
      | None => if decide (a = c) then Some O else None
      end
  end.

Definition colon : ascii := ":"%char.

Definition fixConfig {CR} (zero : CR) (config : option (Config CR)) (addr : string) : Config CR :=
  let config := default (MkConfig "" zero) config in
  if decide (cfg_ServerName config ≠ "") then config
  else
    let colonPos := default (String.length addr) (LastIndexByte addr colon) in
    MkConfig (substring 0 colonPos addr) (cfg_rest config).

(** The closures that [SetOnRequest] and [SetOnClosed] of a TLS connection register with
    the TCP connection, around a handler that may be nil. *)
Inductive tls_conn_closure (K : Type) : Type :=
| TcRequest (handle : option K)
| TcOnClosed (handle : option K).
Arguments TcRequest {K} handle.
Arguments TcOnClosed {K} handle.

(** ** Layered connections *)

Section Tls.
Context {CR TH TC U WO S : Type} `{SC : StreamConn S}.

Record layered : Type := Layered {
  ly_conn : S;                        (* the TCP connection *)
  ly_meta : option (metadata U);      (* its metadata *)
  ly_tls : option TC;                 (* the [crypto/tls] connection of the TLS object around it *)
  ly_tlsMeta : option (metadata U);   (* the metadata of that object *)
  ly_ws : option WO                   (* the object on top *)
}.

Definition set_conn v l := Layered v (ly_meta l) (ly_tls l) (ly_tlsMeta l) (ly_ws l).
Definition set_meta v l := Layered (ly_conn l) v (ly_tls l) (ly_tlsMeta l) (ly_ws l).
Definition set_tls v l := Layered (ly_conn l) (ly_meta l) v (ly_tlsMeta l) (ly_ws l).
Definition set_tlsMeta v l := Layered (ly_conn l) (ly_meta l) (ly_tls l) v (ly_ws l).
Definition set_ws v l := Layered (ly_conn l) (ly_meta l) (ly_tls l) (ly_tlsMeta l) v.

Abbreviation LT := (thread layered).

(** A method of the TCP connection. *)
Definition on_raw {A} (p : thread S A) : LT A := focus ly_conn set_conn p.

Lemma run_on_raw {A} (p : thread S A) l x t :
  run_alone p (ly_conn l) = Some (Ret (x, t)) → run_alone (on_raw p) l = Some (Ret (x, set_conn t l)).
Proof. by apply run_focus; [intros []|..]. Qed.

Lemma returns_on_raw {A} (p : thread S A) (Q : A → S → Prop) (Q' : A → layered → Prop) l :
  returns p Q (ly_conn l) → (∀ x t, Q x t → Q' x (set_conn t l)) → returns (on_raw p) Q' l.
Proof. intros (x & t & Hr & HQ) Hm. exists x, (set_conn t l). split; [by apply run_on_raw|auto]. Qed.

(** ** crypto/tls *)

(** [tls.Server], [tls.Client], [HandshakeContext] with the context's deadline, [Close]
    and the deadlines of a [tls.Conn]. *)
Class TlsLib : Type := {
  tls_Server : option (Config CR) → TC;
  tls_Client : Config CR → TC;
  tls_HandshakeContext : Z → LT (option lerr);
  tls_Close : LT ();
  tls_std_SetDeadline : option Z → LT (result nerr ());
  tls_std_SetReadDeadline : option Z → LT (result nerr ());
  tls_std_SetWriteDeadline : option Z → LT (result nerr ())
}.

Context `{TL : TlsLib}.
Variable zero_rest : CR.
(** Running the user's handlers. *)
Variable run_tls : TH → LT (option lerr).

(** [conn] of tls/conn.go: the TLS object of the connection. *)
Definition tls_SetMetaData (m : option (metadata U)) : LT () := write (set_tlsMeta m).
Definition tls_GetMetaData : LT (option (metadata U)) := read ly_tlsMeta.
Definition tls_OutboundBuffered : LT Z := on_raw sc_OutboundBuffered.
Definition tls_SetIdleTimeout (d : Z) : LT (result nerr ()) := on_raw (sc_SetIdleTimeout d).
Definition tls_SetWriteIdleTimeout (d : Z) : LT (result nerr ()) := on_raw (sc_SetWriteIdleTimeout d).
Definition tls_SetReadIdleTimeout (d : Z) : LT (result nerr ()) := on_raw (sc_SetReadIdleTimeout d).
Definition tls_SetFlushWrite (flushWrite : bool) : LT () := on_raw (sc_SetFlushWrite flushWrite).
Definition tls_IsActive : LT bool := on_raw sc_IsActive.

(** The request loop: the handler again and again, as long as the connection is active. *)
Fixpoint tls_request_loop (fuel : nat) (handler : LT (option lerr)) : LT lerr :=
  match fuel with
  | O => atomically nofuel
  | Datatypes.S fuel =>
      active ← tls_IsActive;
      if negb active then Fin (LNet NConnClosed)
      else
        e ← handler;
        match e with
        | Some e => Fin e
        | None => tls_request_loop fuel handler
        end
  end.

(** Handlers set on a connection: the closure is registered whatever the handler is, and
    [wrap] makes it one of the closures the TCP connection can have. *)
Definition tls_SetOnRequest {K C} `{SH : !StreamHandlers S C} (wrap : tls_conn_closure K → C)
    (handle : option K) : LT (result nerr ()) :=
  on_raw (sc_SetOnRequest (Some (wrap (TcRequest handle)))).

Definition tls_SetOnClosed {K C} `{SH : !StreamHandlers S C} (wrap : tls_conn_closure K → C)
    (handle : option K) : LT (result nerr ()) :=
  on_raw (sc_SetOnClosed (Some (wrap (TcOnClosed handle)))).

(** Calling a handler: a nil one panics. *)
Definition call_handler {K} (run : K → LT (option lerr)) (handle : option K) : LT (option lerr) :=
  match handle with Some h => run h | None => crash end.

(** What the TCP connection runs when it calls such a closure. *)
Definition tls_run_closure {K} (run : K → LT (option lerr)) (fuel : nat) (k : tls_conn_closure K) : LT (option lerr) :=
  match k with
  | TcRequest handle => e ← tls_request_loop fuel (call_handler run handle); Fin (Some e)
  | TcOnClosed handle => call_handler run handle
  end.

(** A nil handler, which a TCP connection refuses, is accepted, and the next event
    panics. *)
Lemma tls_nil_handler_is_accepted {K C} `{SH : !StreamHandlers S C} (wrap : tls_conn_closure K → C)
    (run : K → LT (option lerr)) fuel l :
  returns (tls_SetOnRequest wrap None)
    (λ r l', r = Ok () ∧ sc_onRequest (ly_conn l') = Some (wrap (TcRequest None))) l ∧
  (run_alone tls_IsActive l = Some (Ret (true, l)) →
   run_alone (tls_run_closure run (Datatypes.S fuel) (TcRequest None)) l = Some Panic).
Proof.
  split.
  - eapply returns_on_raw; [by apply sc_SetOnRequest_ok|]. by intros r t (-> & ? & _).
  - intros Ha. unfold tls_run_closure. cbn [tls_request_loop call_handler].
    rewrite run_alone_then. by arun Ha.
Qed.

(** ** Serving: the closures of [NewService] *)

Definition tls_onOpened (cfg : option (Config CR)) (onOpened : option TH) : LT (option lerr) :=
  _ ← write (set_tls (Some (tls_Server cfg)));
  _ ← write (set_tlsMeta None);
  _ ← write (set_meta (Some MTls));
  match onOpened with
  | Some h => run_tls h
  | None => Fin None
  end.

Definition tls_handleFunc (fuel : nat) (handler : LT (option lerr)) : LT lerr :=
  m ← read ly_meta;
  match m with
  | None => Fin LNoMetaData
  | Some MTls => tls_request_loop fuel handler
  | Some _ => Fin LNotTls
  end.

Definition tls_onClosed (onClosed : LT (option lerr)) : LT (option lerr) :=
  m ← read ly_meta;
  match m with
  | None => Fin (Some LNoMetaData)
  | Some MTls => onClosed
  | Some _ => Fin (Some LNotTls)
  end.

(** ** Dialling *)

Definition tls_dial (network addr : string) (options : tls_clientOptions CR) (config : Config CR) : LT (result lerr ()) :=
  r ← on_raw (sc_dial network addr (tl_dialTimeout options));
  match r with
  | Err e => Fin (Err (LNet e))
  | Ok _ =>
      _ ← on_raw (sc_SetSafeWrite true);
      _ ← write (set_tls (Some (tls_Client config)));
      _ ← write (set_tlsMeta None);
      now ← read (λ l, sc_now (ly_conn l));
      e ← tls_HandshakeContext (now + tl_dialTimeout options);
      match e with
      | Some e => _ ← on_raw sc_Close; Fin (Err e)
      | None =>
          _ ← on_raw (sc_SetFlushWrite (tl_flushWrite options));
          _ ← on_raw (sc_SetIdleTimeout (tl_idleTimeout options));
          Fin (Ok ())
      end
  end.

Definition tls_Dial (network addr : string) (opts : list (tls_ClientOption CR)) : LT (result lerr ()) :=
  let options := foldl (λ o opt, opt o) (tls_setDefaults (TlsClientOptions None 0 0 false)) opts in
  tls_dial network addr options (fixConfig zero_rest (tl_cfg options) addr).

(** ** What is documented of crypto/tls *)

Context `{SL : !StreamConnLaws S}.

(** Everything but the connection and the TLS state is as before. *)
Definition same_objects (l l' : layered) : Prop :=
  ly_meta l' = ly_meta l ∧ ly_tlsMeta l' = ly_tlsMeta l ∧ ly_ws l' = ly_ws l ∧
  (is_Some (ly_tls l) ↔ is_Some (ly_tls l')).

(** The connection stays open, with its settings. *)
Definition keeps_open (l l' : layered) : Prop :=
  sc_open (ly_conn l') ∧ (∀ d, sc_deadline (ly_conn l) d → sc_deadline (ly_conn l') d) ∧
  sc_safe (ly_conn l') = sc_safe (ly_conn l) ∧ same_objects l l'.

(** A handshake that is interrupted closes the connection; one whose context has
    expired is interrupted.  Closing the [tls.Conn] closes the connection. *)
Class TlsLibLaws : Prop := {
  tls_Handshake_ok d l :
    sc_open (ly_conn l) → is_Some (ly_tls l) →
    returns (tls_HandshakeContext d) (λ e l',
      match e with
      | None => keeps_open l l' ∧ sc_now (ly_conn l) < d
      | Some _ => sc_open (ly_conn l') ∨ sc_shut (ly_conn l')
      end) l;
  tls_Close_ok l :
    sc_open (ly_conn l) ∨ sc_shut (ly_conn l) → is_Some (ly_tls l) → returns tls_Close (λ _ l', sc_shut (ly_conn l')) l;
  tls_SetDeadline_ok d l :
    sc_open (ly_conn l) → is_Some (ly_tls l) →
    returns (tls_std_SetDeadline d) (λ r l', r = Ok () ∧ sc_open (ly_conn l') ∧ sc_deadline (ly_conn l') d ∧
      sc_safe (ly_conn l') = sc_safe (ly_conn l) ∧ same_objects l l') l
}.

Context `{TLL : TlsLibLaws}.

Lemma tls_dial_ok network addr options config l :
  sc_ready (ly_conn l) →
  returns (tls_dial network addr options config) (λ r l',
    match r with
    | Ok _ => sc_open (ly_conn l') ∧ sc_deadline (ly_conn l') None ∧ sc_safe (ly_conn l') = true ∧
              is_Some (ly_tls l') ∧ ly_tlsMeta l' = None ∧ ly_meta l' = ly_meta l ∧ ly_ws l' = ly_ws l ∧
              0 < tl_dialTimeout options
    | Err _ => sc_ready (ly_conn l') ∨ sc_shut (ly_conn l')
    end) l.
Proof.
  intros Hready. unfold tls_dial. apply returns_bind.
  eapply returns_on_raw; [by apply sc_dial_ok|]. cbv beta. intros r t Hr. destruct r as [[]|e]; [|by apply returns_fin].
  destruct Hr as (Ho & Hd & _). apply returns_bind.
  eapply returns_on_raw; [by apply sc_SetSafeWrite_ok|]. cbv beta. intros _ t2 (Ho2 & Hd2 & Hs2).
  apply returns_bind, returns_write, returns_bind, returns_write, returns_bind, returns_read.
  set (l2 := set_tlsMeta None _). apply returns_bind.
  eapply returns_mono; [apply (tls_Handshake_ok _ l2); [exact Ho2|by eexists]|]. cbv beta. intros e l3 H3.
  destruct e as [e|].
  - apply returns_bind. eapply returns_on_raw; [by apply sc_Close_ok|]. cbv beta. intros _ t4 Hs4.
    apply returns_fin. by right.
  - destruct H3 as ((Ho3 & Hd3 & Hs3 & Hm3 & Htm3 & Hw3 & Ht3) & Hnow). apply returns_bind.
    eapply returns_run; [by apply run_on_raw, sc_SetFlushWrite_ok|]. apply returns_bind.
    eapply returns_on_raw; [by apply sc_SetIdleTimeout_ok|]. cbv beta. intros r t5 (Ho5 & Hd5 & Hs5).
    apply returns_fin. simpl in *. split; [exact Ho5|]. split; [by apply Hd5, Hd3, Hd2|]. split; [by rewrite Hs5, Hs3|].
    split; [apply Ht3; by eexists|]. split; [done|]. split; [done|]. split; [done|]. lia.
Qed.


End Tls.
