(* ===== verification/UdpPacket.v ===== *)
(** * UDP packets (src/netfd_linux.go, src/internal/cache/systype, the framing functions of src/udpconn.go)

    A UDP connection keeps every packet as one block of a linked buffer: 28 bytes
    of raw socket address, then the payload.  This file models the framing
    ([parcel], [getUDPDataAndAddr]), the message headers of the batched system
    calls and the methods of [netFD] that move packets between a socket and a
    buffer: [FillToBuffer], [fillToExactBuffer], [sendMMsg] and [WriteTo].

    The state is a buffer, the socket's environment and the pool of message
    headers of [recvmsg].  A pooled header keeps the pointers of its last use;
    when they lead to a packet that is still in the buffer, the node that holds
    the packet is recorded, so that a system call that is given the header as it
    comes from the pool writes where it does in Go.

    The theorems: framing is undone by unframing; sending takes packets from the
    front of the buffer, in order, and loses one only on a send error; receiving
    appends the datagrams, in order, with their addresses. *)

From stdpp Require Import base gmap list numbers strings.
From S2P Require Import Prelude MCache Node LinkedBuffer BufferInv BufferRead BufferBlocks BufferMem BufferLink BufferSpec AutoPostpone Kernel IOVec DescCache Poller NetFD NetAddr.

Local Open Scope Z_scope.

(** ** System calls *)

Definition MSG_PEEK : Z := 0x2.
Definition MSG_TRUNC : Z := 0x20.

(** Where a datagram goes: to a raw socket address, to one [unix.Sendto] encodes,
    or to the connected peer. *)
Inductive dest : Type :=
| ToRaw (name : list byte)
| ToSockaddr (sa : Sockaddr)
| ToPeer.

Class UdpKernel (W : Type) := {
  (** recvmmsg(fd, msgs, 0) with one vector of these lengths per message: the raw
      source address and the (truncated) data of every datagram received *)
  k_recvmmsg : Z → list Z → W → result Z (list (list byte * list byte)) * W;
  (** recvmsg(fd, msg, flags) with vectors of this total length: the length it
      returns, the raw source address and the data it stored *)
  k_recvmsg : Z → Z → Z → W → result Z (Z * list byte * list byte) * W;
  (** sendmmsg(fd, msgs, 0): how many messages were sent *)
  k_sendmmsg : Z → list (list byte * list byte) → W → result Z Z * W;
  (** sendto(fd, data, 0, sa): an error number *)
  k_sendto : Z → list byte → Sockaddr → W → Z * W;
  (** write(fd, data) on a connected socket *)
  k_send : Z → list byte → W → result Z Z * W
}.

(** What the manual pages promise; [k_out] are the datagrams sent, [k_in] those
    received and taken off the socket. *)
Class UdpKernelLaws (W : Type) `{UdpKernel W} := {
  k_out : W → Z → list (dest * list byte);
  k_in : W → Z → list (list byte * list byte);

  sendmmsg_ok fd ms w k w' :
    k_sendmmsg fd ms w = (Ok k, w') →
    1 ≤ k ≤ zlen ms ∧
    k_out w' fd = k_out w fd ++ map (λ m, (ToRaw m.1, m.2)) (ztake k ms);
  sendmmsg_fail fd ms w e w' : k_sendmmsg fd ms w = (Err e, w') → k_out w' fd = k_out w fd;

  recvmmsg_ok fd lens w ds w' :
    k_recvmmsg fd lens w = (Ok ds, w') →
    zlen ds ≤ zlen lens ∧ k_in w' fd = k_in w fd ++ ds ∧
    Forall2 (λ d l, zlen d.1 ≤ SockaddrSize ∧ zlen d.2 ≤ l) ds (ztake (zlen ds) lens);
  recvmmsg_fail fd lens w e w' : k_recvmmsg fd lens w = (Err e, w') → k_in w' fd = k_in w fd
}.

(** ** Framing *)

Inductive udp_err : Type :=
| UInvalidPacket          (* "invalid UDP packet" *)
| UNotUDPAddr             (* "only UDPAddr can be parceled" *)
| UAddr (e : addr_err).

Section Framing.
Context `{I : Interfaces}.

Definition getUDPData (block : list byte) : result udp_err (list byte) :=
  if decide (zlen block < SockaddrSize) then Err UInvalidPacket
  else Ok (zdrop SockaddrSize block).

Definition getUDPAddr (block : list byte) : result udp_err Addr :=
  if decide (zlen block < SockaddrSize) then Err UInvalidPacket
  else match SockaddrSliceToUDPAddr (ztake SockaddrSize block) with
       | Err e => Err (UAddr e)
       | Ok addr => Ok addr
       end.

Definition getUDPDataAndAddr (block : list byte) : result udp_err (list byte * Addr) :=
  match getUDPAddr block with
  | Err e => Err e
  | Ok addr =>
      match getUDPData block with
      | Err e => Err e
      | Ok buf => Ok (buf, addr)
      end
  end.

Definition parcel (buf : list byte) (addr : option Addr) : result udp_err (list byte) :=
  match addr with
  | Some (UDPAddr IP port z) =>
      match UDPAddrToSockaddrSlice IP port z with
      | Err e => Err (UAddr e)
      | Ok sockaddr => Ok (sockaddr ++ buf)
      end
  | _ => Err UNotUDPAddr
  end.

(** Framing is undone by unframing. *)
Lemma unframe_parcel a port z buf sa addr :
  UDPAddrToSockaddrSlice a port z = Ok sa → zlen sa = SockaddrSize →
  SockaddrSliceToUDPAddr sa = Ok addr →
  parcel buf (Some (UDPAddr a port z)) = Ok (sa ++ buf) ∧
  getUDPDataAndAddr (sa ++ buf) = Ok (buf, addr).
Proof.
  intros Hsa Hl Hd. unfold parcel. rewrite Hsa. split; [done|].
  unfold getUDPDataAndAddr, getUDPAddr, getUDPData. pose proof (zlen_nonneg buf).
  rewrite decide_False by (rewrite zlen_app; lia). rewrite <-Hl, ztake_app_exact, Hd.
  rewrite decide_False by (rewrite zlen_app; lia). by rewrite zdrop_app_exact.
Qed.
End Framing.

(** ** Message headers *)

(** A [systype.Msghdr] of the pool: the length of its vector and the node of the
    buffer whose block its pointers lead to. *)
Record Msghdr : Type := MkMsghdr { mh_iovlen : Z; mh_block : option loc }.

Section Packets.
Context {D CB W : Type} `{K : Kernel W} `{UK : UdpKernel W} `{I : Interfaces}.
(** Which pooled header [sync.Pool.Get] returns; [None] is a new one. *)
Variable pool_choice : list Msghdr → option nat.

Record udp_env : Type := UdpEnv {
  ue_buf : Buffer;
  ue_net : net_env D CB W;
  ue_msgs : list Msghdr   (* msghdrPool *)
}.

Definition set_ubuf v e := UdpEnv v (ue_net e) (ue_msgs e).
Definition set_unet v e := UdpEnv (ue_buf e) v (ue_msgs e).
Definition set_umsgs v e := UdpEnv (ue_buf e) (ue_net e) v.

Abbreviation MU := (M udp_env).

Definition on_ubuf {A} : MB A → MU A := zoom ue_buf set_ubuf.
Definition on_unet {A} : M (net_env D CB W) A → MU A := zoom ue_net set_unet.
Definition usyscall {A} (f : W → A * W) : MU A := on_unet (net_syscall f).
Definition umetric (name delta : Z) : MU () := on_unet (metric name delta).

Definition udpPacketNum : Z := 32.

(** [mcache.Malloc] *)
Definition mallocb (n : Z) : MB slice := zoom mc set_mc (Malloc n []).

(** [BuildMMsg] and [BuildMsg]: the address part and the data part of a message;
    [&buf[0]] of an empty data part panics. *)
Definition BuildMsg (name buf : list byte) : outcome (list byte * list byte) :=
  if decide (zlen buf = 0) then Panic else Ret (name, buf).

(** [buildMMsgs]; the callers ignore its error, which leaves the remaining headers
    as they are: [None]. *)
Fixpoint buildMMsgs (bufs : list slice) : outcome (list (option (list byte * list byte))) :=
  match bufs with
  | [] => Ret []
  | b :: bufs =>
      if decide (s_len b < SockaddrSize) then Ret (None :: map (λ _, None) bufs)
      else
        match BuildMsg (ztake SockaddrSize (s_bytes b)) (zdrop SockaddrSize (s_bytes b)) with
        | Ret m =>
            match buildMMsgs bufs with
            | Ret ms => Ret (Some m :: ms)
            | Panic => Panic
            | NoFuel => NoFuel
            end
        | Panic => Panic
        | NoFuel => NoFuel
        end
  end.

(** A header that was not built names nothing. *)
Definition built (m : option (list byte * list byte)) : list byte * list byte := default ([], []) m.

(** ** Receiving *)

Fixpoint malloc_bufs (k : nat) (n : Z) : MB (list slice) :=
  match k with
  | O => mret []
  | S k => b ← mallocb n; bs ← malloc_bufs k n; mret (b :: bs)
  end.

(** What the kernel leaves in a block: the source address at its start, the data
    behind the space for the longest address. *)
Definition deliver (b : slice) (name data : list byte) : slice :=
  overwrite (overwrite b 0 name) SockaddrSize data.

(** [bufs[i] = bufs[i][:SockaddrSize+l]] for the messages received. *)
Fixpoint trim_bufs (bufs : list slice) (ds : list (list byte * list byte)) : outcome (list slice) :=
  match bufs, ds with
  | b :: bufs, (name, data) :: ds =>
      match reslice (deliver b name data) 0 (SockaddrSize + zlen data) with
      | None => Panic
      | Some s =>
          match trim_bufs bufs ds with
          | Ret ss => Ret (s :: ss)
          | Panic => Panic
          | NoFuel => NoFuel
          end
      end
  | _, _ => Ret []
  end.

Fixpoint free_bufs (bufs : list slice) : MB () :=
  match bufs with
  | [] => mret ()
  | b :: bufs => _ ← modify (λ bf, set_mc (Free b (mc bf)) bf); free_bufs bufs
  end.

(** A header from the pool. *)
Definition GetMsghdr : MU Msghdr := λ e,
  match pool_choice (ue_msgs e) with
  | None => Ret (MkMsghdr 0 None, e)
  | Some i =>
      match ue_msgs e !! i with
      | None => Ret (MkMsghdr 0 None, e)
      | Some m => Ret (m, set_umsgs (delete i (ue_msgs e)) e)
      end
  end.

Definition PutMsghdr (m : Msghdr) : MU () := modify (λ e, set_umsgs (m :: ue_msgs e) e).

(** The kernel writes through the pointers a header has: into the packet of the
    buffer they lead to; elsewhere it is memory no part of the library reads. *)
Definition scribble (m : Msghdr) (name data : list byte) : MB () := λ b,
  match mh_block m with
  | None => Ret ((), b)
  | Some l =>
      match heap b !! l with
      | Some nd =>
          match n_block nd with
          | Some s => Ret ((), set_heap (<[l := with_block (Some (deliver s name data)) nd]> (heap b)) b)
          | None => Ret ((), b)
          end
      | None => Ret ((), b)
      end
  end.

Definition fillToExactBuffer : MU (result nerr ()) :=
  msg ← GetMsghdr;
  fd ← on_unet FD;
  r ← usyscall (k_recvmsg fd (mh_iovlen msg) (Z.lor MSG_PEEK MSG_TRUNC));
  _ ← umetric Metrics.UDPRecvMsgCalls 1;
  match r with
  | Err e =>
      _ ← umetric Metrics.UDPRecvMsgFails 1;
      _ ← PutMsghdr msg;
      mret (Err (NErrno e))
  | Ok (size, name, data) =>
      _ ← on_ubuf (scribble msg name data);
      buf ← on_ubuf (mallocb (size + SockaddrSize));
      (* buildMsg *)
      _ ← on_ubuf (lift (if decide (s_len buf < SockaddrSize) then Ret ([], [])
                         else BuildMsg (ztake SockaddrSize (s_bytes buf)) (zdrop SockaddrSize (s_bytes buf))));
      r ← usyscall (k_recvmsg fd size 0);
      match r with
      | Err e =>
          _ ← umetric Metrics.UDPRecvMsgFails 1;
          _ ← PutMsghdr (MkMsghdr size None);
          mret (Err (NErrno e))
      | Ok (_, name, data) =>
          _ ← umetric Metrics.UDPRecvMsgPackets 1;
          match reslice (deliver buf name data) 0 (SockaddrSize + size) with
          | None => panic
          | Some buf =>
              _ ← on_ubuf (Writev false [buf]);
              l ← on_ubuf (gets wnode);   (* the node that holds [buf] now *)
              _ ← PutMsghdr (MkMsghdr size l);
              mret (Ok ())
          end
      end
  end.

Definition FillToBuffer : MU (result nerr ()) :=
  e ← get;
  let nfd := ne_nfd (ue_net e) in
  if nfd_exactUDPBufferSizeEnabled nfd then fillToExactBuffer
  else
    let n := nfd_udpBufferSize nfd + SockaddrSize in
    bufs ← on_ubuf (malloc_bufs (Z.to_nat udpPacketNum) n);
    mmsgs ← on_ubuf (lift (buildMMsgs bufs));
    r ← usyscall (k_recvmmsg (nfd_fd nfd) (map (λ m, zlen (built m).2) mmsgs));
    _ ← umetric Metrics.UDPRecvMMsgCalls 1;
    match r with
    | Err e =>
        _ ← umetric Metrics.UDPRecvMMsgFails 1;
        mret (Err (NErrno e))
    | Ok ds =>
        _ ← umetric Metrics.UDPRecvMMsgPackets (zlen ds);
        ss ← on_ubuf (lift (trim_bufs bufs ds));
        _ ← on_ubuf (free_bufs (zdrop (zlen ds) bufs));
        _ ← on_ubuf (Writev false ss);
        mret (Ok ())
    end.

(** ** Sending *)

Definition is_again (e : Z) : bool := bool_decide (e = EAGAIN).

(** [SkipBlocks(n)] and, when that went well, [Release]. *)
Definition skip_and_release (n : Z) : MU (result nerr ()) :=
  sk ← on_ubuf (SkipBlocks n);
  match sk with
  | Err e => mret (Err (NBuffer e))
  | Ok _ => _ ← on_ubuf Release; mret (Ok ())
  end.

Definition sendMMsg : MU (result nerr ()) :=
  bufs ← on_ubuf (PeekBlocks udpPacketNum);
  if decide (zlen bufs = 0) then mret (Ok ())
  else
    mmsgs ← on_ubuf (lift (buildMMsgs bufs));
    fd ← on_unet FD;
    r ← usyscall (k_sendmmsg fd (map built mmsgs));
    _ ← umetric Metrics.UDPSendMMsgCalls 1;
    let n := match r with Ok n => n | Err _ => -1 end in
    sk ← (if decide (n > 0) then
            _ ← umetric Metrics.UDPSendMMsgPackets n;
            skip_and_release n
          else mret (Ok ()));
    match sk with
    | Err e => mret (Err e)
    | Ok _ =>
        match r with
        | Ok _ => mret (Ok ())
        | Err e =>
            _ ← umetric Metrics.UDPSendMMsgFails 1;
            if is_again e then mret (Err (NErrno e))
            else
              l ← on_ubuf LenRead;
              if decide (l ≠ 0) then skip_and_release 1 else mret (Ok ())
        end
    end.

Definition SendPackets : MU (result nerr ()) := sendMMsg.

(** [netFD.WriteTo]; [laddr] is the socket's local address. *)
Definition nfd_WriteTo (laddr : option Addr) (data : list byte) (addr : option Addr)
    : MU (Z * option nerr) :=
  if decide (zlen data = 0) then mret (0, None)
  else
    match addr with
    | None => mret (0, Some NOther)
    | Some _ =>
        e ← get;
        if decide (zlen data > nfd_udpBufferSize (ne_nfd (ue_net e)))
        then mret (0, Some (NErrno EMSGSIZE))
        else
          match AddrToSockAddr laddr addr with
          | Err _ => mret (0, Some NOther)
          | Ok sa =>
              fd ← on_unet FD;
              e ← usyscall (k_sendto fd data sa);
              mret (zlen data, if decide (e = 0) then None else Some (NErrno e))
          end
    end.

End Packets.
Arguments udp_env : clear implicits.
Arguments UdpEnv {D CB W}.

(** ** Proofs *)

Section Laws.
Context {D CB W : Type} `{K : Kernel W} `{UL : UdpKernelLaws W} `{I : Interfaces}.
Variable pool_choice : list Msghdr → option nat.
Implicit Types e : udp_env D CB W.

Definition uworld e : W := ep_world (ne_poll (ue_net e)).
Definition ufd e : Z := nfd_fd (ne_nfd (ue_net e)).
Definition with_world (w : W) e : udp_env D CB W :=
  set_unet (NetFD.set_poll (Poller.set_world w (ne_poll (ue_net e))) (ue_net e)) e.
Definition with_buf (b : Buffer) e : udp_env D CB W := set_ubuf b e.

(** States that differ in the metrics only. *)
Record same_io e e' : Prop := {
  si_buf : ue_buf e' = ue_buf e;
  si_world : uworld e' = uworld e;
  si_nfd : ne_nfd (ue_net e') = ne_nfd (ue_net e);
  si_msgs : ue_msgs e' = ue_msgs e
}.

Lemma umetric_ok name delta e :
  0 ≤ name → ∃ e', umetric name delta e = Ret ((), e') ∧ same_io e e'.
Proof.
  intros Hn. unfold umetric, metric, on_unet.
  assert (∃ t, Metrics.Add name delta (ne_metrics (ue_net e)) = Ret ((), t)) as [t Ht].
  { unfold Metrics.Add. case_decide; [by eexists|]. rewrite decide_False by lia. by eexists. }
  eexists. split; [eapply zoom_Ret, zoom_Ret, Ht|]. by split.
Qed.

Lemma usyscall_ok {A} (f : W → A * W) e r w :
  f (uworld e) = (r, w) → usyscall f e = Ret (r, with_world w e).
Proof.
  intros Hf. unfold usyscall, net_syscall, on_unet, NetFD.on_poll.
  unfold zoom, syscall. fold (uworld e). by rewrite Hf.
Qed.

Lemma on_ubuf_ok {A} (m : MB A) e a b :
  m (ue_buf e) = Ret (a, b) → on_ubuf m e = Ret (a, with_buf b e).
Proof. intros Hm. unfold on_ubuf, zoom. by rewrite Hm. Qed.

Lemma on_unet_FD e : on_unet FD e = Ret (ufd e, e).
Proof. by destruct e. Qed.

(** *** Building messages *)

Definition frame (p : list byte) : list byte * list byte :=
  (ztake SockaddrSize p, zdrop SockaddrSize p).

Lemma s_len_ge s : 0 < zlen (s_bytes s) → zlen (s_bytes s) ≤ s_len s.
Proof.
  unfold s_bytes. intros Hs. destruct (decide (s_len s < 0)) as [Hn|Hn].
  - rewrite ztake_nonpos in Hs by lia. unfold zlen in Hs. simpl in Hs. lia.
  - rewrite zlen_ztake by lia. lia.
Qed.

Lemma buildMMsgs_ok bufs :
  Forall (λ p, SockaddrSize < zlen p) (map s_bytes bufs) →
  buildMMsgs bufs = Ret (map (λ b, Some (frame (s_bytes b))) bufs).
Proof.
  unfold SockaddrSize. induction bufs as [|b bufs IH]; intros Hf; [done|].
  apply Forall_cons in Hf as [Hb Hf]. pose proof (s_len_ge b ltac:(lia)).
  simpl. rewrite decide_False by (unfold SockaddrSize; lia).
  unfold BuildMsg. rewrite decide_False.
  - by rewrite IH.
  - unfold SockaddrSize. rewrite zlen_zdrop by lia. lia.
Qed.

(** *** Sending *)

(** What one call of [sendMMsg] does: nothing on an empty queue; the first packets
    go out, in order; the socket takes none; or it refuses the first packet, which
    is dropped. *)
Inductive sends (out : list (dest * list byte)) :
    list (list byte) → result nerr () → list (list byte) → list (dest * list byte) → Prop :=
| Sends_nothing : sends out [] (Ok ()) [] out
| Sends_first n q :
    1 ≤ n ≤ udpPacketNum → n ≤ zlen q →
    sends out q (Ok ()) (zdrop n q)
      (out ++ map (λ p, (ToRaw (frame p).1, (frame p).2)) (ztake n q))
| Sends_later q : q ≠ [] → sends out q (Err (NErrno EAGAIN)) q out
| Sends_drops p q : sends out (p :: q) (Ok ()) q out.

Lemma skip_release wo e q n :
  holds_blocks wo (ue_buf e) q → q ≠ [] → 0 ≤ n ≤ zlen q →
  ∃ b, skip_and_release n e = Ret (Ok (), with_buf b e) ∧ holds_blocks wo b (zdrop n q).
Proof.
  intros Hh Hne Hn.
  destruct (SkipBlocks_ok wo (ue_buf e) q n Hh Hne Hn) as (b1 & H1 & Hh1 & _).
  destruct (Release_holds_blocks wo b1 (zdrop n q) Hh1) as (b2 & H2 & Hh2 & _).
  exists b2. split; [|done]. unfold skip_and_release.
  erewrite bind_Ret by (eapply on_ubuf_ok, H1).
  cbv beta iota. erewrite bind_Ret by (eapply on_ubuf_ok; exact H2). done.
Qed.

Lemma take_map_built bufs :
  map built (map (λ b, Some (frame (s_bytes b))) bufs) = map frame (map s_bytes bufs).
Proof. rewrite !map_map. done. Qed.

(** [sendMMsg] once the kernel has answered. *)
Definition after_sendmmsg (r : result Z Z) : M (udp_env D CB W) (result nerr ()) :=
  let n := match r with Ok n => n | Err _ => -1 end in
  sk ← (if decide (n > 0) then
          _ ← umetric Metrics.UDPSendMMsgPackets n;
          skip_and_release n
        else mret (Ok ()));
  match sk with
  | Err e => mret (Err e)
  | Ok _ =>
      match r with
      | Ok _ => mret (Ok ())
      | Err e =>
          _ ← umetric Metrics.UDPSendMMsgFails 1;
          if is_again e then mret (Err (NErrno e))
          else
            l ← on_ubuf LenRead;
            if decide (l ≠ 0) then skip_and_release 1 else mret (Ok ())
      end
  end.

(** Up to there: the kernel is given the first packets, at most 32. *)
Lemma sendMMsg_calls wo e q r w :
  holds_blocks wo (ue_buf e) q → Forall (λ p, SockaddrSize < zlen p) q → q ≠ [] →
  k_sendmmsg (ufd e) (map frame (ztake udpPacketNum q)) (uworld e) = (r, w) →
  ∃ e', sendMMsg e = after_sendmmsg r e' ∧ ue_buf e' = ue_buf e ∧ uworld e' = w.
Proof.
  intros Hh Hq Hne Hk. unfold sendMMsg.
  destruct (PeekBlocks_ok wo (ue_buf e) q udpPacketNum Hh) as (ss & Hp & Hss); [done|].
  erewrite bind_Ret by (eapply on_ubuf_ok, Hp). set (e1 := with_buf (ue_buf e) e).
  rewrite decide_False.
  2:{ intros Hz%zlen_0_inv. subst ss. destruct q as [|p q]; done. }
  assert (Forall (λ p, SockaddrSize < zlen p) (map s_bytes ss)) as Hf.
  { rewrite Hss. unfold ztake. by apply Forall_take. }
  erewrite bind_Ret by (eapply on_ubuf_ok, lift_Ret, buildMMsgs_ok, Hf).
  rewrite take_map_built, Hss. erewrite bind_Ret by (apply on_unet_FD).
  erewrite bind_Ret by (apply usyscall_ok; exact Hk).
  set (e3 := with_world w _). destruct (umetric_ok Metrics.UDPSendMMsgCalls 1 e3) as (e4 & H4 & Hs4); [done|].
  erewrite bind_Ret by exact H4. exists e4. split; [done|]. split; [apply (si_buf _ _ Hs4)|apply (si_world _ _ Hs4)].
Qed.

(** What the kernel took leaves the queue. *)
Lemma after_sent_ok wo e q n :
  holds_blocks wo (ue_buf e) q → q ≠ [] → 1 ≤ n ≤ zlen q →
  ∃ e', after_sendmmsg (Ok n) e = Ret (Ok (), e') ∧ holds_blocks wo (ue_buf e') (zdrop n q) ∧ uworld e' = uworld e.
Proof.
  intros Hh Hne Hn. unfold after_sendmmsg. rewrite decide_True by lia.
  destruct (umetric_ok Metrics.UDPSendMMsgPackets n e) as (e5 & H5 & Hs5); [done|].
  destruct (skip_release wo e5 q n) as (b & Hr & Hb); [by rewrite (si_buf _ _ Hs5)|done|lia|].
  rewrite bind_assoc_run. erewrite bind_Ret by exact H5. erewrite bind_Ret by exact Hr.
  eexists. split; [done|]. split; [exact Hb|]. apply (si_world _ _ Hs5).
Qed.

(** A refused packet: kept when the socket is full, else dropped. *)
Lemma after_refused_ok wo e p q err :
  holds_blocks wo (ue_buf e) (p :: q) → SockaddrSize < zlen p →
  ∃ e', uworld e' = uworld e ∧
    if is_again err then after_sendmmsg (Err err) e = Ret (Err (NErrno err), e') ∧ holds_blocks wo (ue_buf e') (p :: q)
    else after_sendmmsg (Err err) e = Ret (Ok (), e') ∧ holds_blocks wo (ue_buf e') q.
Proof.
  intros Hh Hp. unfold after_sendmmsg. rewrite decide_False by lia.
  destruct (umetric_ok Metrics.UDPSendMMsgFails 1 e) as (e5 & H5 & Hs5); [done|].
  assert (Hb5 : ue_buf e5 = ue_buf e) by apply Hs5.
  assert (Hw5 : uworld e5 = uworld e) by apply Hs5.
  destruct (is_again err) eqn:Ha.
  - exists e5. split; [done|]. rewrite Hb5. split; [|done]. mpure. cbn beta iota. by mrun H5.
  - destruct (skip_release wo (with_buf (ue_buf e5) e5) (p :: q) 1) as (b & Hr & Hb).
    { simpl. by rewrite Hb5. } { done. } { rewrite zlen_cons. pose proof (zlen_nonneg q). lia. }
    exists (with_buf b (with_buf (ue_buf e5) e5)). split; [exact Hw5|]. split; [|exact Hb]. mpure. cbn beta iota. mrun H5.
    assert (HL : on_ubuf LenRead e5 = Ret (rlen (ue_buf e5), with_buf (ue_buf e5) e5)) by done.
    mrun HL. rewrite decide_True; [exact Hr|].
    rewrite Hb5. apply holds_blocks_holds, holds_len in Hh as [-> _]. simpl. rewrite zlen_app.
    pose proof (zlen_nonneg (concat q)). unfold SockaddrSize in *. lia.
Qed.


(** *** Receiving *)

Lemma holds_blocks_set_mc wo b q m :
  holds_blocks wo b q → mcache_ok m → holds_blocks wo (set_mc m b) q.
Proof.
  intros (ns & ri & wi & Hr & Hb & Hw) Hm. exists ns, ri, wi. split; [|done].
  destruct Hr. by constructor.
Qed.

Lemma holds_blocks_mc wo b q : holds_blocks wo b q → mcache_ok (mc b).
Proof. intros (ns & ri & wi & Hr & _). apply Hr. Qed.

(** A block fresh from the cache. *)
Definition block_ok (n : Z) (s : slice) : Prop := s_len s = n ∧ slice_ok s ∧ s_cap s < 2 ^ 63.

Lemma malloc_bufs_ok k n b :
  mcache_ok (mc b) → 0 ≤ n < 2 ^ 63 →
  ∃ bufs m, malloc_bufs k n b = Ret (bufs, set_mc m b) ∧ mcache_ok m ∧
    length bufs = k ∧ Forall (block_ok n) bufs.
Proof.
  intros Hm Hn. revert b Hm. induction k as [|k IH]; intros b Hm.
  { exists [], (mc b). split; [by destruct b|]. by split_and!. }
  destruct (Malloc_ok n (mc b) Hm Hn) as (s & m1 & H1 & Hm1 & Hl & Hok & Hc & _).
  destruct (IH (set_mc m1 b) Hm1) as (bufs & m2 & H2 & Hm2 & Hk & Hf).
  exists (s :: bufs), m2. split.
  - cbn [malloc_bufs]. unfold mallocb.
    erewrite bind_Ret by (eapply zoom_Ret, H1). erewrite bind_Ret by exact H2. by destruct b.
  - split; [done|]. split; [simpl; lia|]. constructor; [|done]. done.
Qed.

Lemma free_bufs_ok bufs b n :
  28 ≤ n → mcache_ok (mc b) → Forall (block_ok n) bufs →
  ∃ m, free_bufs bufs b = Ret ((), set_mc m b) ∧ mcache_ok m.
Proof.
  intros Hn Hm Hf. revert b Hm. induction Hf as [|s bufs (Hl & Hok & Hc) _ IH]; intros b Hm.
  { exists (mc b). split; [by destruct b|done]. }
  unfold slice_ok in Hok.
  destruct (IH (set_mc (Free s (mc b)) b)) as (m & Hr & Hm').
  { simpl. apply Free_ok; [done|lia|done]. }
  exists m. split; [|done]. cbn [free_bufs]. mpure. rewrite Hr. by destruct b.
Qed.

(** A block with a datagram in it: its address from the start, its data behind the
    place of the address. *)
Record delivered (s : slice) (d : list byte * list byte) : Prop := {
  dl_ok : slice_ok s;
  dl_len : s_len s = SockaddrSize + zlen d.2;
  dl_name : ztake (zlen d.1) (s_bytes s) = d.1;
  dl_data : zdrop SockaddrSize (s_bytes s) = d.2
}.

Lemma deliver_ok n b d :
  block_ok n b → SockaddrSize ≤ n → zlen d.1 ≤ SockaddrSize → zlen d.2 ≤ n - SockaddrSize →
  ∃ s, reslice (deliver b d.1 d.2) 0 (SockaddrSize + zlen d.2) = Some s ∧ delivered s d.
Proof.
  unfold SockaddrSize. destruct d as [name data]. simpl. intros (Hl & Hok & Hc) Hn Hname Hdata.
  pose proof (zlen_nonneg name). pose proof (zlen_nonneg data).
  set (s1 := overwrite b 0 name).
  assert (Hok1 : slice_ok s1) by (apply overwrite_ok; [done|lia]).
  assert (Hl1 : s_len s1 = n) by (unfold s1; by rewrite overwrite_len).
  unfold deliver, SockaddrSize. fold s1. set (s2 := overwrite s1 28 data).
  assert (Hok2 : slice_ok s2) by (apply overwrite_ok; [done|lia]).
  assert (Hl2 : s_len s2 = n) by (unfold s2; by rewrite overwrite_len).
  unfold slice_ok in Hok2.
  rewrite reslice_Some by lia. eexists. split; [done|].
  rewrite zdrop_0, Z.sub_0_r. set (s3 := Slice _ _).
  assert (Hb : s_bytes s3 = zsub 0 28 (s_arr s1) ++ data).
  { assert (s_bytes s3 = zsub 0 (28 + zlen data) (s_arr s2)) as ->
      by (unfold zsub, s_bytes; by rewrite Z.sub_0_r).
    rewrite (zsub_split 0 28) by lia. unfold s2.
    rewrite overwrite_below by (done || lia). by rewrite overwrite_written by (done || lia). }
  assert (Hz : zlen (zsub 0 28 (s_arr s1)) = 28)
    by (destruct Hok1 as [_ Hcap]; unfold s_cap in Hcap; apply zlen_zsub; [lia|];
        apply (Z.le_trans _ _ _ Hn); by rewrite <-Hl1).
  constructor; simpl.
  - split; simpl; [lia|]. apply (Z.le_trans _ (s_len s2)); [rewrite Hl2; lia|apply Hok2].
  - done.
  - rewrite Hb, ztake_app_le by lia. rewrite ztake_zsub by lia. rewrite Z.add_0_l.
    unfold s1. rewrite <-(Z.add_0_l (zlen name)). apply overwrite_written; [done|lia|lia].
  - unfold SockaddrSize. rewrite Hb, zdrop_app_ge by lia. rewrite Hz. done.
Qed.

Lemma trim_bufs_ok n bufs ds :
  SockaddrSize ≤ n → Forall (block_ok n) bufs → (length ds ≤ length bufs)%nat →
  Forall (λ d, zlen d.1 ≤ SockaddrSize ∧ zlen d.2 ≤ n - SockaddrSize) ds →
  ∃ ss, trim_bufs bufs ds = Ret ss ∧ Forall2 delivered ss ds.
Proof.
  intros Hn Hb. revert ds. induction Hb as [|b bufs Hb _ IH]; intros ds Hlen Hds.
  { destruct ds; simpl in Hlen; [|lia]. exists []. done. }
  destruct ds as [|[name data] ds]; [by exists []|].
  apply Forall_cons in Hds as [[H1 H2] Hds]. simpl in Hlen.
  destruct (deliver_ok n b (name, data) Hb Hn H1 H2) as (s & Hs & Hd).
  destruct (IH ds ltac:(lia) Hds) as (ss & Hss & Hd').
  exists (s :: ss). simpl in *. rewrite Hs, Hss. split; [done|]. by constructor.
Qed.

Lemma buildMMsgs_blocks n bufs :
  SockaddrSize < n → Forall (block_ok n) bufs →
  ∃ ms, buildMMsgs bufs = Ret ms ∧
    map (λ m, zlen (built m).2) ms = replicate (length bufs) (n - SockaddrSize).
Proof.
  unfold SockaddrSize. intros Hn Hb.
  eexists. split.
  - apply buildMMsgs_ok. rewrite Forall_map. eapply Forall_impl; [exact Hb|].
    intros s (Hl & Hok & _). simpl. rewrite zlen_s_bytes by done. unfold SockaddrSize. lia.
  - induction Hb as [|s bufs (Hl & Hok & _) _ IH]; [done|]. simpl. rewrite IH. f_equal.
    unfold SockaddrSize. rewrite zlen_zdrop by lia. rewrite zlen_s_bytes by done. lia.
Qed.

Lemma delivered_blocks n ss ds :
  SockaddrSize < n → n < 2 ^ 32 → Forall2 delivered ss ds →
  Forall (λ d, zlen d.1 ≤ SockaddrSize ∧ zlen d.2 ≤ n - SockaddrSize) ds →
  slices_ok ss ∧ blocks_of ss = map s_bytes ss ∧ byteSlicesLen ss ≤ zlen ds * n.
Proof.
  unfold SockaddrSize. intros Hn Hn' Hd Hds.
  induction Hd as [|s d ss ds [Hok Hl _ _] _ IH].
  { split_and!; [constructor|done|]. unfold byteSlicesLen, zlen. simpl. lia. }
  unfold SockaddrSize in Hl. apply Forall_cons in Hds as [[_ Hd2] Hds]. pose proof (zlen_nonneg d.2).
  destruct (IH Hds) as (H1 & H2 & H3). split_and!.
  - constructor; [|done]. split; [done|lia].
  - unfold blocks_of in *. simpl. unfold slice_blocks at 1. rewrite decide_False by lia. by rewrite H2.
  - unfold byteSlicesLen in *. rewrite zlen_cons. simpl. unfold sumZ in *. simpl. lia.
Qed.

(** What one call of [FillToBuffer] does. *)
Inductive fills (inp : list (list byte * list byte)) (q : list (list byte)) :
    result nerr () → list (list byte) → list (list byte * list byte) → Prop :=
| Fills_error (err : Z) : fills inp q (Err (NErrno err)) q inp
| Fills_packets ps ds :
    zlen ds ≤ udpPacketNum →
    Forall2 (λ p d, ztake (zlen d.1) p = d.1 ∧ zlen p = SockaddrSize + zlen d.2 ∧
                    getUDPData p = Ok d.2) ps ds →
    fills inp q (Ok ()) (q ++ ps) (inp ++ ds).

Lemma delivered_packet ss ds :
  Forall2 delivered ss ds →
  Forall2 (λ p d, ztake (zlen d.1) p = d.1 ∧ zlen p = SockaddrSize + zlen d.2 ∧
                  getUDPData p = Ok d.2) (map s_bytes ss) ds.
Proof.
  unfold SockaddrSize. induction 1 as [|s d ss ds [Hok Hl Hn Hd] _ IH]; [done|].
  simpl. constructor; [|done]. unfold SockaddrSize in *.
  assert (Hz : zlen (s_bytes s) = 28 + zlen d.2) by (rewrite zlen_s_bytes; done).
  split; [done|]. split; [done|]. unfold getUDPData, SockaddrSize.
  pose proof (zlen_nonneg d.2). rewrite decide_False by lia. by rewrite Hd.
Qed.

(** [FillToBuffer] once the kernel has answered. *)
Definition after_recvmmsg (bufs : list slice) (r : result Z (list (list byte * list byte))) : M (udp_env D CB W) (result nerr ()) :=
  match r with
  | Err e =>
      _ ← umetric Metrics.UDPRecvMMsgFails 1;
      mret (Err (NErrno e))
  | Ok ds =>
      _ ← umetric Metrics.UDPRecvMMsgPackets (zlen ds);
      ss ← on_ubuf (lift (trim_bufs bufs ds));
      _ ← on_ubuf (free_bufs (zdrop (zlen ds) bufs));
      _ ← on_ubuf (Writev false ss);
      mret (Ok ())
  end.

(** Up to there: it is given 32 blocks, each with room for a datagram of the maximal
    size. *)
Lemma FillToBuffer_calls wo e q :
  let size := nfd_udpBufferSize (ne_nfd (ue_net e)) in
  holds_blocks wo (ue_buf e) q → nfd_exactUDPBufferSizeEnabled (ne_nfd (ue_net e)) = false → 0 < size < 2 ^ 32 - SockaddrSize →
  ∃ bufs r e', FillToBuffer pool_choice e = after_recvmmsg bufs r e' ∧
    holds_blocks wo (ue_buf e') q ∧ length bufs = Z.to_nat udpPacketNum ∧ Forall (block_ok (size + SockaddrSize)) bufs ∧
    k_recvmmsg (ufd e) (replicate (Z.to_nat udpPacketNum) size) (uworld e) = (r, uworld e').
Proof.
  intros size Hh Hex Hsz. unfold FillToBuffer. mpure. cbv beta zeta.
  rewrite Hex. change (nfd_fd (ne_nfd (ue_net e))) with (ufd e). fold size. unfold SockaddrSize in Hsz.
  destruct (malloc_bufs_ok (Z.to_nat udpPacketNum) (size + SockaddrSize) (ue_buf e)) as (bufs & m & H1 & Hm & Hlen & Hbufs).
  { by eapply holds_blocks_mc. } { unfold SockaddrSize. lia. }
  erewrite bind_Ret by (eapply on_ubuf_ok, H1).
  destruct (buildMMsgs_blocks (size + SockaddrSize) bufs) as (ms & H2 & Hlens); [lia|done|].
  erewrite bind_Ret by (eapply on_ubuf_ok, lift_Ret, H2). rewrite Hlens, Hlen.
  replace (size + SockaddrSize - SockaddrSize) with size by lia.
  destruct (k_recvmmsg (ufd e) (replicate (Z.to_nat udpPacketNum) size) (uworld e)) as [r w] eqn:Hk.
  erewrite bind_Ret by (apply usyscall_ok; exact Hk).
  set (e2 := with_world w _). destruct (umetric_ok Metrics.UDPRecvMMsgCalls 1 e2) as (e3 & H3 & Hs3); [done|].
  erewrite bind_Ret by exact H3. exists bufs, r, e3. split; [done|].
  rewrite (si_buf _ _ Hs3), (si_world _ _ Hs3). split_and!; [by apply holds_blocks_set_mc|done..].
Qed.

(** What was delivered is queued; the other blocks go back to the cache. *)
Lemma after_received_ok wo e q bufs ds n :
  holds_blocks wo (ue_buf e) q → length bufs = Z.to_nat udpPacketNum → Forall (block_ok n) bufs →
  SockaddrSize < n → zlen (concat q) + udpPacketNum * n < 2 ^ 32 → zlen ds ≤ udpPacketNum →
  Forall (λ d, zlen d.1 ≤ SockaddrSize ∧ zlen d.2 ≤ n - SockaddrSize) ds →
  ∃ ss e', after_recvmmsg bufs (Ok ds) e = Ret (Ok (), e') ∧ holds_blocks wo (ue_buf e') (q ++ map s_bytes ss) ∧
    Forall2 delivered ss ds ∧ uworld e' = uworld e.
Proof.
  intros Hh Hlen Hbufs Hn Hbd Hle Hfit. unfold after_recvmmsg. pose proof (zlen_nonneg (concat q)). pose proof (zlen_nonneg ds).
  unfold udpPacketNum, SockaddrSize in *.
  destruct (umetric_ok Metrics.UDPRecvMMsgPackets (zlen ds) e) as (e4 & H4 & Hs4); [done|]. mrun H4.
  destruct (trim_bufs_ok n bufs ds) as (ss & H5 & Hdel); [unfold SockaddrSize; lia|done|unfold zlen in *; lia|done|].
  erewrite bind_Ret by (eapply on_ubuf_ok, lift_Ret, H5). set (e5 := with_buf _ e4).
  assert (Hb5 : ue_buf e5 = ue_buf e) by apply Hs4.
  destruct (free_bufs_ok (zdrop (zlen ds) bufs) (ue_buf e5) n) as (m' & H6 & Hm').
  { lia. } { rewrite Hb5. by eapply holds_blocks_mc. } { unfold zdrop. by apply Forall_drop. }
  erewrite bind_Ret by (eapply on_ubuf_ok, H6).
  destruct (delivered_blocks n ss ds) as (Hok & Hbl & Hbytes); [unfold SockaddrSize; lia|lia|done|done|].
  destruct (Writev_unsafe_blocks wo (set_mc m' (ue_buf e5)) q ss) as (b' & H7 & Hh' & _).
  { rewrite Hb5. by apply holds_blocks_set_mc. } { done. } { nia. }
  erewrite bind_Ret by (eapply on_ubuf_ok; exact H7).
  eexists ss, _. split; [done|]. rewrite <-Hbl. split; [exact Hh'|]. split; [done|]. apply (si_world _ _ Hs4).
Qed.

(** The room that the kernel was told of, for each datagram. *)
Lemma within_room (ds : list (list byte * list byte)) size k :
  Forall2 (λ d l, zlen d.1 ≤ SockaddrSize ∧ zlen d.2 ≤ l) ds (ztake (zlen ds) (replicate k size)) →
  Forall (λ d, zlen d.1 ≤ SockaddrSize ∧ zlen d.2 ≤ size) ds.
Proof.
  unfold ztake. rewrite take_replicate. generalize (Z.to_nat (zlen ds) `min` k)%nat. clear k.
  induction ds as [|d ds IH]; intros k Hds; [done|].
  destruct k as [|k]; simpl in Hds; inversion Hds; subst. constructor; [done|by eapply IH].
Qed.


(** C39: with exact buffer sizes an empty datagram crashes the process: the header
    for the second [recvmsg] takes the address of the first byte of an empty
    payload. *)
Theorem empty_datagram_crashes_exact_mode (wo : bool) (e : udp_env D CB W) (q : list (list byte))
    (name data : list byte) (w : W) :
  holds_blocks wo (ue_buf e) q →
  nfd_exactUDPBufferSizeEnabled (ne_nfd (ue_net e)) = true →
  pool_choice (ue_msgs e) = None →
  k_recvmsg (ufd e) 0 (Z.lor MSG_PEEK MSG_TRUNC) (uworld e) = (Ok (0, name, data), w) →
  FillToBuffer pool_choice e = Panic.
Proof.
  intros Hh Hex Hch Hk. unfold FillToBuffer. mpure. cbv beta zeta. rewrite Hex.
  unfold fillToExactBuffer.
  assert (HG : GetMsghdr pool_choice e = Ret (MkMsghdr 0 None, e))
    by (unfold GetMsghdr; by rewrite Hch).
  erewrite bind_Ret by exact HG. erewrite bind_Ret by (apply on_unet_FD).
  erewrite bind_Ret by (apply usyscall_ok; exact Hk).
  destruct (umetric_ok Metrics.UDPRecvMsgCalls 1 (with_world w e)) as (e3 & H3 & Hs3); [done|].
  erewrite bind_Ret by exact H3. cbv beta iota.
  assert (HS : on_ubuf (scribble (MkMsghdr 0 None) name data) e3 = Ret ((), with_buf (ue_buf e3) e3)) by done.
  erewrite bind_Ret by exact HS. set (e4 := with_buf _ e3).
  assert (Hm : mcache_ok (mc (ue_buf e4)))
    by (change (mcache_ok (mc (ue_buf e3))); rewrite (si_buf _ _ Hs3); by eapply holds_blocks_mc).
  destruct (Malloc_ok (0 + SockaddrSize) (mc (ue_buf e4)) Hm) as (s & m & Hr & _ & Hl & Hok & _).
  { unfold SockaddrSize. lia. }
  assert (HM : mallocb (0 + SockaddrSize) (ue_buf e4) = Ret (s, set_mc m (ue_buf e4)))
    by (unfold mallocb; by eapply zoom_Ret).
  erewrite bind_Ret by (eapply on_ubuf_ok; exact HM).
  rewrite decide_False by (rewrite Hl; lia).
  unfold BuildMsg. rewrite decide_True; [done|].
  rewrite zlen_zdrop by (unfold SockaddrSize; lia). rewrite zlen_s_bytes by done. rewrite Hl. done.
Qed.

End Laws.

Section FramingLaws.
Context `{I : Interfaces} {IO : InterfacesOk I}.

(** C22: queueing a packet for sending and unframing it again gives back the
    payload and the address: for every payload, IPv4 or IPv6 address without a zone
    and port, the block [parcel] builds is 28 bytes longer than the payload and
    decodes to both. *)
Theorem udp_packet_roundtrip (a : ip) (port : Z) (buf : list byte) :
  0 ≤ port < 2 ^ 16 → length a = 4%nat ∨ length a = 16%nat →
  ∃ block, parcel buf (Some (UDPAddr a port [])) = Ok block ∧
    zlen block = SockaddrSize + zlen buf ∧
    getUDPDataAndAddr block = Ok (buf, UDPAddr (canonical a) port []).
Proof.
  intros Hp Ha. destruct (udp_addr_raw a port Hp Ha) as (sa & H1 & H2 & H3).
  destruct (unframe_parcel a port [] buf sa _ H1 H2 H3) as [Hpa Hun].
  exists (sa ++ buf). split; [done|]. split; [by rewrite zlen_app, H2|done].
Qed.

End FramingLaws.

(** ** A scripted UDP socket

    It delivers the datagrams of a script and takes what a script says; an
    exhausted send script takes everything. *)
Record uscript : Type := UScript {
  us_base : script;
  us_rx : list (list byte * list byte);
  us_tx : list (result Z Z);
  us_out : list (dest * list byte);
  us_in : list (list byte * list byte)
}.

Definition set_base v u := UScript v (us_rx u) (us_tx u) (us_out u) (us_in u).

Definition on_base {A} (f : script → A * script) (u : uscript) : A * uscript :=
  let '(a, s) := f (us_base u) in (a, set_base s u).

#[export] Instance uscript_kernel : Kernel uscript := {
  k_epoll_ctl ep op fd ev := on_base (k_epoll_ctl ep op fd ev);
  k_writev fd iov := on_base (k_writev fd iov);
  k_readv fd lens := on_base (k_readv fd lens);
  k_close fd := on_base (k_close fd);
  k_epoll_create1 := on_base k_epoll_create1;
  k_eventfd := on_base k_eventfd;
  k_read fd := on_base (k_read fd);
  k_write fd := on_base (k_write fd)
}.

Fixpoint rx_batch (lens : list Z) (rx : list (list byte * list byte))
    : list (list byte * list byte) * list (list byte * list byte) :=
  match lens, rx with
  | l :: lens, (n, d) :: rx' =>
      if decide (l < 0) then ([], rx)
      else let (ds, rest) := rx_batch lens rx' in ((ztake SockaddrSize n, ztake l d) :: ds, rest)
  | _, _ => ([], rx)
  end.

Definition us_recvmmsg (fd : Z) (lens : list Z) (u : uscript) : result Z (list (list byte * list byte)) * uscript :=
  let (ds, rest) := rx_batch lens (us_rx u) in
  if decide (ds = []) then (Err EAGAIN, u)
  else (Ok ds, UScript (us_base u) rest (us_tx u) (us_out u) (us_in u ++ ds)).

Definition us_recvmsg (fd iovlen flags : Z) (u : uscript) : result Z (Z * list byte * list byte) * uscript :=
  match us_rx u with
  | [] => (Err EAGAIN, u)
  | (n, d) :: rest =>
      (Ok (zlen d, ztake SockaddrSize n, ztake iovlen d),
       if decide (Z.land flags MSG_PEEK ≠ 0) then u
       else UScript (us_base u) rest (us_tx u) (us_out u) (us_in u ++ [(n, d)]))
  end.

Definition us_sendmmsg (fd : Z) (ms : list (list byte * list byte)) (u : uscript) : result Z Z * uscript :=
  let send k tx :=
    (Ok k, UScript (us_base u) (us_rx u) tx (us_out u ++ map (λ m, (ToRaw m.1, m.2)) (ztake k ms)) (us_in u)) in
  match ms, us_tx u with
  | [], _ => (Err EAGAIN, u)
  | _, [] => send (zlen ms) []
  | _, Err e :: tx => (Err e, UScript (us_base u) (us_rx u) tx (us_out u) (us_in u))
  | _, Ok n :: tx => send (Z.max 1 (Z.min n (zlen ms))) tx
  end.

Definition us_send (d : dest) (data : list byte) (u : uscript) : result Z Z * uscript :=
  match us_tx u with
  | Err e :: tx => (Err e, UScript (us_base u) (us_rx u) tx (us_out u) (us_in u))
  | tx => (Ok (zlen data), UScript (us_base u) (us_rx u) (drop 1 tx) (us_out u ++ [(d, data)]) (us_in u))
  end.

#[export] Instance uscript_udp : UdpKernel uscript := {
  k_recvmmsg := us_recvmmsg;
  k_recvmsg := us_recvmsg;
  k_sendmmsg := us_sendmmsg;
  k_sendto fd data sa u :=
    let '(r, u) := us_send (ToSockaddr sa) data u in (match r with Ok _ => 0 | Err e => e end, u);
  k_send fd data := us_send ToPeer data
}.

Lemma rx_batch_ok lens rx ds rest :
  rx_batch lens rx = (ds, rest) →
  zlen ds ≤ zlen lens ∧
  Forall2 (λ d l, zlen d.1 ≤ SockaddrSize ∧ zlen d.2 ≤ l) ds (ztake (zlen ds) lens).
Proof.
  revert rx ds rest. induction lens as [|l lens IH]; intros rx ds rest Hr.
  { destruct rx; simplify_eq/=; by split. }
  pose proof (zlen_nonneg lens).
  assert (Hnil : ∀ d : list (list byte * list byte), d = [] → zlen d ≤ zlen (l :: lens) ∧
    Forall2 (λ d l, zlen d.1 ≤ SockaddrSize ∧ zlen d.2 ≤ l) d (ztake (zlen d) (l :: lens))).
  { intros d ->. rewrite zlen_cons. split; [unfold zlen at 1; simpl; lia|]. constructor. }
  destruct rx as [|[n d] rx]; simpl in Hr; [simplify_eq; by apply Hnil|].
  case_decide as Hl; [simplify_eq; by apply Hnil|].
  destruct (rx_batch lens rx) as [ds' rest'] eqn:E. simplify_eq.
  destruct (IH _ _ _ E) as [H1 H2]. split; [rewrite !zlen_cons; lia|].
  assert (Hz : ztake (zlen ((ztake SockaddrSize n, ztake l d) :: ds')) (l :: lens) = l :: ztake (zlen ds') lens).
  { unfold ztake. rewrite zlen_cons. pose proof (zlen_nonneg ds').
    by replace (Z.to_nat (1 + zlen ds')) with (Datatypes.S (Z.to_nat (zlen ds'))) by lia. }
  rewrite Hz. constructor; [|done]. simpl. unfold SockaddrSize.
  rewrite !zlen_ztake by lia. lia.
Qed.

#[export] Instance uscript_laws : UdpKernelLaws uscript.
Proof.
  refine {| k_out u _ := us_out u; k_in u _ := us_in u |}; simpl.
  - intros fd ms u k u'. unfold us_sendmmsg. pose proof (zlen_nonneg ms) as Hms.
    destruct ms as [|m ms]; [done|]. rewrite zlen_cons in Hms.
    destruct (us_tx u) as [|[n|e] tx]; intros Hr; simplify_eq/=;
      (split; [rewrite ?zlen_cons in *; pose proof (zlen_nonneg ms); lia|done]).
  - intros fd ms u e u'. unfold us_sendmmsg. destruct ms as [|m ms]; [by intros; simplify_eq|].
    destruct (us_tx u) as [|[n|?] tx]; intros Hr; by simplify_eq/=.
  - intros fd lens u ds u'. unfold us_recvmmsg.
    destruct (rx_batch lens (us_rx u)) as [ds' rest] eqn:E. case_decide; [done|].
    intros Hr. simplify_eq/=. destruct (rx_batch_ok _ _ _ _ E). by split_and!.
  - intros fd lens u e u'. unfold us_recvmmsg.
    destruct (rx_batch lens (us_rx u)) as [ds' rest] eqn:E. case_decide; intros Hr; by simplify_eq/=.
Defined.

(** *** A socket with two packets to send and two datagrams to receive *)

Definition peer_ip : ip := [192; 0; 2; 7].
Definition peer_name : list byte := [2; 0; 35; 40] ++ peer_ip ++ replicate 8 0.

Definition demo_packet (payload : list byte) : list byte :=
  peer_name ++ replicate 12 0 ++ payload.

Definition demo_queue : list (list byte) := [demo_packet [1; 2]; demo_packet [3]].

Definition demo_ubuffer : Buffer :=
  match New (init_mcache (λ _ _, None)) tiny with
  | Ret (_, b) => match Writev false (map of_bytes demo_queue) b with Ret (_, b) => b | _ => b end
  | _ => zero_buffer (init_mcache (λ _ _, None)) tiny
  end.

Lemma demo_ubuffer_holds : holds_blocks true demo_ubuffer demo_queue.
Proof.
  destruct (New_ok (init_mcache (λ _ _, None)) tiny tiny_ok (init_mcache_ok _)) as (b & Hn & Hb & Hc).
  assert (slices_ok (map of_bytes demo_queue)) as Hok.
  { repeat (constructor; [split; [auto with tnet|done]|]). constructor. }
  destruct (Writev_unsafe_blocks true b [] (map of_bytes demo_queue) Hb Hok) as (b' & Hw & Hb' & _).
  { vm_compute. done. }
  assert (demo_ubuffer = b') as -> by (unfold demo_ubuffer; rewrite Hn, Hw; done).
  exact Hb'.
Qed.

Definition demo_uworld (tx : list (result Z Z)) (rx : list (list byte * list byte)) : uscript :=
  UScript (Script ∅ [] [] ∅ ∅) rx tx [] [].

Definition demo_uenv (size : Z) (exact : bool) (u : uscript) : udp_env nat nat uscript :=
  UdpEnv demo_ubuffer
    (NetEnv (NetFD None false 9 fdUDP false size exact)
       (Epoll 1%positive (MkIOData None None) 3 0 false 0 (DescCache None [] [] ∅ 1%positive) u [])
       Metrics.zero) [].


Example demo_send_refused :
  let e := demo_uenv 100 false (demo_uworld [Err 111; Ok 5] []) in
  match sendMMsg e with
  | Ret (r, e') => match sendMMsg e' with
                   | Ret (r', e'') => (r, r', us_out (uworld e''), rlen (ue_buf e''))
                   | _ => (Err NOther, Err NOther, [], 0)
                   end
  | _ => (Err NOther, Err NOther, [], 0)
  end = (Ok (), Ok (), [(ToRaw (ztake 28 (demo_packet [3])), [3])], 0).
Proof. vm_compute. reflexivity. Qed.

Definition no_choice (_ : list Msghdr) : option nat := None.
Definition first_choice (ms : list Msghdr) : option nat := match ms with [] => None | _ => Some 0%nat end.


Lemma empty_datagram_crashes_exact_mode_witness :
  FillToBuffer no_choice (demo_uenv 100 true (demo_uworld [] [(peer_name, [])])) = Panic.
Proof.
  apply (empty_datagram_crashes_exact_mode no_choice true
           (demo_uenv 100 true (demo_uworld [] [(peer_name, [])])) demo_queue peer_name []
           (demo_uworld [] [(peer_name, [])])).
  - apply demo_ubuffer_holds.
  - reflexivity.
  - reflexivity.
  - vm_compute. reflexivity.
Defined.

Lemma udp_packet_roundtrip_witness :
  ∃ block, parcel (I := demo_ifaces) [7; 8; 9] (Some (UDPAddr link_local 53 [])) = Ok block ∧
    zlen block = SockaddrSize + zlen [7; 8; 9] ∧
    getUDPDataAndAddr (I := demo_ifaces) block = Ok ([7; 8; 9], UDPAddr (canonical link_local) 53 []).
Proof. apply (udp_packet_roundtrip (I := demo_ifaces)); [lia|by right]. Defined.

(** With exact buffer sizes, the header of the first [recvmsg] still has the
    pointers of its last use: peeking at a second datagram overwrites the first
    packet while it is queued. *)
Definition drained (e : udp_env nat nat uscript) : list (list byte) :=
  match PeekBlocks 32 (ue_buf e) with Ret (ss, _) => map s_bytes ss | _ => [] end.

Theorem exact_mode_overwrites_queued_packet :
  let e := demo_uenv 100 true (demo_uworld [] [(peer_name, [5]); (peer_name, [6; 7])]) in
  match (_ ← FillToBuffer first_choice; FillToBuffer first_choice) e with
  | Ret (r, e') => r = Ok () ∧
      map (zdrop 28) (drained e') = [[1; 2]; [3]; [6]; [6; 7]] ∧
      map snd (us_in (uworld e')) = [[5]; [6; 7]]
  | _ => False
  end.
Proof. vm_compute. split; [done|]. split; done. Qed.
