(* ===== verification/UdpBsd.v ===== *)
(** * UDP sockets without batched system calls (src/netfd_bsd.go)

    The methods of [netFD] that move packets between a socket and a buffer on systems
    that have no [recvmmsg] and [sendmmsg]: one packet at a time, with [recvfrom] and
    [sendto].  The state is that of [UdpPacket].

    The theorems: what receiving and sending do to the queue of packets, on every
    answer of the kernel. *)

From stdpp Require Import base gmap list numbers strings.
From S2P Require Import Prelude MCache Node LinkedBuffer BufferInv BufferRead BufferBlocks BufferMem BufferLink BufferSpec AutoPostpone Kernel IOVec DescCache Poller NetFD NetAddr UdpPacket.

Local Open Scope Z_scope.

Section Bsd.
Context {D CB W : Type} `{K : Kernel W} `{UL : UdpKernelLaws W} `{I : Interfaces}.
(** recvfrom(fd, p, flags) into a buffer of that length: the data, cut to the length,
    and the address of the sender. *)
Variable k_recvfrom : Z → Z → Z → W → result Z (list byte * Sockaddr) * W.
Implicit Types e : udp_env D CB W.
Abbreviation MU := (M (udp_env D CB W)).

Definition getUdpBufferSize : MU (result nerr Z) :=
  e ← get;
  let nfd := ne_nfd (ue_net e) in
  if negb (nfd_exactUDPBufferSizeEnabled nfd) then mret (Ok (nfd_udpBufferSize nfd))
  else
    r ← usyscall (k_recvfrom (nfd_fd nfd) (nfd_udpBufferSize nfd) MSG_PEEK);
    match r with
    | Err e => mret (Err (NErrno e))
    | Ok (data, _) => mret (Ok (zlen data))
    end.

Definition bsd_FillToBuffer : MU (result nerr ()) :=
  r ← getUdpBufferSize;
  match r with
  | Err e => mret (Err e)
  | Ok udpBufferSize =>
      block ← on_ubuf (mallocb (udpBufferSize + SockaddrSize));
      fd ← on_unet FD;
      r ← usyscall (k_recvfrom fd (s_len block - SockaddrSize) 0);
      match r with
      | Err e => mret (if is_again e then Ok () else Err (NErrno e))
      | Ok (data, sa) =>
          match UnixSockaddrToSockaddrSlice sa (ztake SockaddrSize (s_bytes block)) with
          | Err _ => mret (Err NOther)
          | Ok name =>
              match reslice (deliver block name data) 0 (SockaddrSize + zlen data) with
              | None => panic
              | Some b => _ ← on_ubuf (Write false b); mret (Ok ())
              end
          end
      end
  end.

(** The result of [WriteTo] is not looked at; [laddr] is the socket's local address. *)
Definition bsd_SendPackets (laddr : option Addr) : MU (result nerr ()) :=
  block ← on_ubuf (PeekBlocks 1);
  match block with
  | [b] =>
      match getUDPDataAndAddr (s_bytes b) with
      | Err _ => mret (Err NOther)
      | Ok (buf, addr) => _ ← nfd_WriteTo laddr buf (Some addr); skip_and_release 1
      end
  | _ => mret (Err NOther)
  end.

(** ** Receiving *)

Lemma zlen_UnixSockaddrToSockaddrSlice sa b name :
  zlen b = SockaddrSize → UnixSockaddrToSockaddrSlice sa b = Ok name → zlen name = SockaddrSize.
Proof.
  unfold SockaddrSize. intros Hb. destruct sa as [port addr|port zid addr| |]; [| |done..]; simpl.
  - unfold buildSockaddrSliceIPv4, SockaddrSize. rewrite decide_False by lia. intros [= <-].
    pose proof (zlen_take_le 4 addr). do 3 (apply zlen_store_28; [|done|done || lia]). done.
  - unfold buildSockaddrSliceIPv6, SockaddrSize. rewrite decide_False by lia. intros [= <-].
    pose proof (zlen_take_le 16 addr). do 4 (apply zlen_store_28; [|done|done || lia]). done.
Qed.

(** One readable event: nothing changes, or one packet is appended: the address of
    its sender in the raw form, then its data. *)
Inductive bsd_fills (q : list (list byte)) : result nerr () → list (list byte) → Prop :=
| BF_error (err : nerr) : bsd_fills q (Err err) q
| BF_again : bsd_fills q (Ok ()) q
| BF_packet sa base name data :
    UnixSockaddrToSockaddrSlice sa base = Ok name → zlen name = SockaddrSize →
    bsd_fills q (Ok ()) (q ++ [name ++ data]).

(** With the size of the packet peeked or not, when the kernel keeps to the length
    it is given. *)
Theorem bsd_receives_one_packet (wo : bool) e q :
  let size := nfd_udpBufferSize (ne_nfd (ue_net e)) in
  (∀ fd len flags w data sa w', k_recvfrom fd len flags w = (Ok (data, sa), w') → zlen data ≤ len) →
  holds_blocks wo (ue_buf e) q → 0 < size → zlen (concat q) + size + SockaddrSize < 2 ^ 32 →
  ∃ r q' e', bsd_FillToBuffer e = Ret (r, e') ∧ holds_blocks wo (ue_buf e') q' ∧ bsd_fills q r q'.
Proof.
  intros size Hk Hh Hsz Hbd. unfold bsd_FillToBuffer.
  assert (∃ r e1, getUdpBufferSize e = Ret (r, e1) ∧ ue_buf e1 = ue_buf e ∧ ∀ n, r = Ok n → 0 ≤ n ≤ size) as (r & e1 & Hr & Hb1 & Hn).
  { unfold getUdpBufferSize. mpure. cbv zeta. destruct (nfd_exactUDPBufferSizeEnabled _); simpl.
    - destruct (k_recvfrom (nfd_fd (ne_nfd (ue_net e))) size MSG_PEEK (uworld e)) as [r w] eqn:Er.
      erewrite bind_Ret by (apply usyscall_ok; exact Er). destruct r as [[data sa]|err].
      + do 2 eexists. split; [done|]. split; [done|]. intros n [= <-]. apply Hk in Er. pose proof (zlen_nonneg data). lia.
      + by do 2 eexists.
    - do 2 eexists. split; [done|]. split; [done|]. intros n [= <-]. unfold size in *. lia. }
  mrun Hr. destruct r as [n|err]; [specialize (Hn n eq_refl)|].
  2:{ eexists _, q, e1. split; [done|]. rewrite Hb1. split; [done|constructor]. }
  pose proof (zlen_nonneg (concat q)). unfold SockaddrSize in Hbd.
  destruct (Malloc_ok (n + SockaddrSize) (mc (ue_buf e1))) as (block & m & H1 & Hm & Hl & Hok & Hc & _).
  { rewrite Hb1. by eapply holds_blocks_mc. } { unfold SockaddrSize. lia. }
  assert (mallocb (n + SockaddrSize) (ue_buf e1) = Ret (block, set_mc m (ue_buf e1))) as H2 by (eapply zoom_Ret, H1).
  erewrite bind_Ret by (eapply on_ubuf_ok, H2). set (e2 := with_buf _ e1).
  assert (Hh2 : holds_blocks wo (set_mc m (ue_buf e1)) q) by (rewrite Hb1; by apply holds_blocks_set_mc).
  erewrite bind_Ret by (apply on_unet_FD). rewrite Hl. replace (n + SockaddrSize - SockaddrSize) with n by lia.
  destruct (k_recvfrom (ufd e2) n 0 (uworld e2)) as [r w] eqn:Er.
  erewrite bind_Ret by (apply usyscall_ok; exact Er).
  destruct r as [[data sa]|err]; cycle 1.
  { eexists _, q, _. split; [done|]. split; [exact Hh2|]. destruct (is_again err); constructor. }
  apply Hk in Er. set (base := ztake SockaddrSize (s_bytes block)).
  assert (Hbase : zlen base = SockaddrSize).
  { unfold base, SockaddrSize in *. rewrite zlen_ztake, zlen_s_bytes by (done || lia). lia. }
  destruct (UnixSockaddrToSockaddrSlice sa base) as [name|err] eqn:Ename; cycle 1.
  { eexists _, q, _. split; [done|]. split; [exact Hh2|]. constructor. }
  pose proof (zlen_UnixSockaddrToSockaddrSlice sa base name Hbase Ename) as Hname.
  destruct (deliver_ok (n + SockaddrSize) block (name, data)) as (s & Hs & Hd); simpl; [done|unfold SockaddrSize; lia|lia|lia|].
  simpl in Hs. rewrite Hs. pose proof (zlen_nonneg data). pose proof (dl_len _ _ Hd) as Hsl. simpl in Hsl. unfold SockaddrSize in Hsl.
  destruct (Writev_unsafe_blocks wo (set_mc m (ue_buf e1)) q [s]) as (b' & H7 & Hh' & _); [done| | |].
  { constructor; [|constructor]. split; [apply (dl_ok _ _ Hd)|lia]. }
  { unfold byteSlicesLen; simpl. lia. }
  erewrite bind_Ret by (eapply on_ubuf_ok; exact H7).
  eexists _, _, _. split; [done|]. split; [exact Hh'|].
  assert (blocks_of [s] = [name ++ data]) as ->.
  { unfold blocks_of. simpl. unfold slice_blocks. rewrite decide_False by lia. simpl. f_equal.
    rewrite <-(ztake_zdrop SockaddrSize (s_bytes s)). rewrite (dl_data _ _ Hd). f_equal.
    rewrite <-Hname. apply (dl_name _ _ Hd). }
  by eapply BF_packet.
Qed.

(** ** Sending *)

(** One writable event: the packet at the front leaves the queue whatever [sendto]
    answers, [EAGAIN] included; a packet whose address cannot be read stays. *)
Theorem bsd_sends_drops_on_again (wo : bool) e laddr p q :
  holds_blocks wo (ue_buf e) (p :: q) → SockaddrSize ≤ zlen p →
  (∀ buf addr, getUDPDataAndAddr p = Ok (buf, addr) →
     ∃ e', bsd_SendPackets laddr e = Ret (Ok (), e') ∧ holds_blocks wo (ue_buf e') q) ∧
  (∀ err, getUDPDataAndAddr p = Err err →
     ∃ e', bsd_SendPackets laddr e = Ret (Err NOther, e') ∧ holds_blocks wo (ue_buf e') (p :: q)).
Proof.
  intros Hh Hp. unfold bsd_SendPackets.
  destruct (PeekBlocks_ok wo (ue_buf e) (p :: q) 1 Hh) as (ss & Hr & Hss); [done|].
  destruct ss as [|s [|]]; [done| |done]. injection Hss as Hs.
  set (e1 := with_buf (ue_buf e) e). split.
  - intros buf addr Hu. erewrite bind_Ret by (eapply on_ubuf_ok, Hr). cbn beta iota. rewrite Hs, Hu.
    assert (∃ x e2, nfd_WriteTo laddr buf (Some addr) e1 = Ret (x, e2) ∧ ue_buf e2 = ue_buf e) as (x & e2 & Hw & Hb2).
    { unfold nfd_WriteTo. case_decide; [by do 2 eexists|]. mpure. case_decide; [by do 2 eexists|].
      destruct (AddrToSockAddr laddr (Some addr)) as [sa|]; [|by do 2 eexists].
      erewrite bind_Ret by (apply on_unet_FD).
      destruct (k_sendto (ufd e1) buf sa (uworld e1)) as [er w] eqn:Ek.
      erewrite bind_Ret by (apply usyscall_ok; exact Ek). by do 2 eexists. }
    mrun Hw. destruct (skip_release wo e2 (p :: q) 1) as (b & Hsk & Hb); [by rewrite Hb2|done| |].
    { rewrite zlen_cons. pose proof (zlen_nonneg q). lia. }
    eexists. split; [exact Hsk|]. exact Hb.
  - intros err Hu. erewrite bind_Ret by (eapply on_ubuf_ok, Hr). cbn beta iota. rewrite Hs, Hu. eexists. split; [done|]. exact Hh.
Qed.

End Bsd.
