(* ===== verification/UdpConn.v ===== *)
(** * UDP connections (src/udpconn.go)

    [udpconn]: its fields, the parts of the process it works on (poller, kernel,
    clock) and its methods as programs of atomic actions ([Threads]), as for TCP
    connections.  A method of a buffer is one action, so are a system call, the
    methods of [netFD] that run on the poller goroutine between two of its locks,
    an atomic load or store and a step of a job.  User handlers are names ([H])
    that two parameters run.  Endless loops take fuel ([out_of_fuel]).

    The theorems: reading takes exactly one packet; a write sends the packet or
    queues it and asks for the writable event; and two executions that show what
    goes wrong: a packet that nobody sends, a poller that waits for itself. *)

From stdpp Require Import base gmap sets list numbers.
From S2P Require Import Prelude MCache Node LinkedBuffer BufferInv BufferRead BufferBlocks BufferMem BufferLink BufferSpec AutoPostpone SafeJob Closer Threads Timer Kernel IOVec DescCache Poller NetFD NetAddr UdpPacket TcpConn.

Local Open Scope Z_scope.

Section UdpConn.
Context {D CB W H : Type} `{K : Kernel W} `{UK : UdpKernel W} `{I : Interfaces}.
Variable sock_Close : Z → W → W.
Variable pool_choice : list Msghdr → option nat.

Record udpconn : Type := UdpConn {
  uc_metaData : option nat;   (* user data, by name *)
  uc_reqHandle : option H;
  uc_closeHandle : option H;
  uc_readTrigger : chan;
  uc_inBuffer : Buffer;
  uc_outBuffer : Buffer;
  uc_rtimer : option timer;
  uc_wtimer : option timer;
  uc_nfd : netFD;
  uc_laddr : option Addr;   (* nfd.laddr *)
  uc_raddr : option Addr;   (* nfd.raddr *)
  uc_closer : closer;
  uc_postpone : PostponeWrite;
  uc_reading : Locker;
  uc_writing : Locker;
  uc_nonblocking : bool;
  uc_closeService : option Z;   (* the wait group of the service: its counter *)
  uc_msgs : list Msghdr;   (* msghdrPool *)
  uc_poll : epoll D CB W;   (* the poller, its descriptors and the kernel *)
  uc_clock : Z;   (* time.Now() *)
  uc_coins : list bool;   (* outcomes of select and of the task pool *)
  uc_tasks : nat   (* calls of udpAsyncHandler not yet started *)
}.

Definition uset_metaData (v : option nat) (c : udpconn) : udpconn :=
  UdpConn v (uc_reqHandle c) (uc_closeHandle c) (uc_readTrigger c) (uc_inBuffer c)
    (uc_outBuffer c) (uc_rtimer c) (uc_wtimer c) (uc_nfd c) (uc_laddr c) (uc_raddr c)
    (uc_closer c) (uc_postpone c) (uc_reading c) (uc_writing c) (uc_nonblocking c)
    (uc_closeService c) (uc_msgs c) (uc_poll c) (uc_clock c) (uc_coins c) (uc_tasks c).
Definition uset_reqHandle (v : option H) (c : udpconn) : udpconn :=
  UdpConn (uc_metaData c) v (uc_closeHandle c) (uc_readTrigger c) (uc_inBuffer c)
    (uc_outBuffer c) (uc_rtimer c) (uc_wtimer c) (uc_nfd c) (uc_laddr c) (uc_raddr c)
    (uc_closer c) (uc_postpone c) (uc_reading c) (uc_writing c) (uc_nonblocking c)
    (uc_closeService c) (uc_msgs c) (uc_poll c) (uc_clock c) (uc_coins c) (uc_tasks c).
Definition uset_closeHandle (v : option H) (c : udpconn) : udpconn :=
  UdpConn (uc_metaData c) (uc_reqHandle c) v (uc_readTrigger c) (uc_inBuffer c)
    (uc_outBuffer c) (uc_rtimer c) (uc_wtimer c) (uc_nfd c) (uc_laddr c) (uc_raddr c)
    (uc_closer c) (uc_postpone c) (uc_reading c) (uc_writing c) (uc_nonblocking c)
    (uc_closeService c) (uc_msgs c) (uc_poll c) (uc_clock c) (uc_coins c) (uc_tasks c).
Definition uset_readTrigger (v : chan) (c : udpconn) : udpconn :=
  UdpConn (uc_metaData c) (uc_reqHandle c) (uc_closeHandle c) v (uc_inBuffer c)
    (uc_outBuffer c) (uc_rtimer c) (uc_wtimer c) (uc_nfd c) (uc_laddr c) (uc_raddr c)
    (uc_closer c) (uc_postpone c) (uc_reading c) (uc_writing c) (uc_nonblocking c)
    (uc_closeService c) (uc_msgs c) (uc_poll c) (uc_clock c) (uc_coins c) (uc_tasks c).
Definition uset_inBuffer (v : Buffer) (c : udpconn) : udpconn :=
  UdpConn (uc_metaData c) (uc_reqHandle c) (uc_closeHandle c) (uc_readTrigger c) v
    (uc_outBuffer c) (uc_rtimer c) (uc_wtimer c) (uc_nfd c) (uc_laddr c) (uc_raddr c)
    (uc_closer c) (uc_postpone c) (uc_reading c) (uc_writing c) (uc_nonblocking c)
    (uc_closeService c) (uc_msgs c) (uc_poll c) (uc_clock c) (uc_coins c) (uc_tasks c).
Definition uset_outBuffer (v : Buffer) (c : udpconn) : udpconn :=
  UdpConn (uc_metaData c) (uc_reqHandle c) (uc_closeHandle c) (uc_readTrigger c)
    (uc_inBuffer c) v (uc_rtimer c) (uc_wtimer c) (uc_nfd c) (uc_laddr c) (uc_raddr c)
    (uc_closer c) (uc_postpone c) (uc_reading c) (uc_writing c) (uc_nonblocking c)
    (uc_closeService c) (uc_msgs c) (uc_poll c) (uc_clock c) (uc_coins c) (uc_tasks c).
Definition uset_rtimer (v : option timer) (c : udpconn) : udpconn :=
  UdpConn (uc_metaData c) (uc_reqHandle c) (uc_closeHandle c) (uc_readTrigger c)
    (uc_inBuffer c) (uc_outBuffer c) v (uc_wtimer c) (uc_nfd c) (uc_laddr c) (uc_raddr c)
    (uc_closer c) (uc_postpone c) (uc_reading c) (uc_writing c) (uc_nonblocking c)
    (uc_closeService c) (uc_msgs c) (uc_poll c) (uc_clock c) (uc_coins c) (uc_tasks c).
Definition uset_wtimer (v : option timer) (c : udpconn) : udpconn :=
  UdpConn (uc_metaData c) (uc_reqHandle c) (uc_closeHandle c) (uc_readTrigger c)
    (uc_inBuffer c) (uc_outBuffer c) (uc_rtimer c) v (uc_nfd c) (uc_laddr c) (uc_raddr c)
    (uc_closer c) (uc_postpone c) (uc_reading c) (uc_writing c) (uc_nonblocking c)
    (uc_closeService c) (uc_msgs c) (uc_poll c) (uc_clock c) (uc_coins c) (uc_tasks c).
Definition uset_nfd (v : netFD) (c : udpconn) : udpconn :=
  UdpConn (uc_metaData c) (uc_reqHandle c) (uc_closeHandle c) (uc_readTrigger c)
    (uc_inBuffer c) (uc_outBuffer c) (uc_rtimer c) (uc_wtimer c) v (uc_laddr c) (uc_raddr c)
    (uc_closer c) (uc_postpone c) (uc_reading c) (uc_writing c) (uc_nonblocking c)
    (uc_closeService c) (uc_msgs c) (uc_poll c) (uc_clock c) (uc_coins c) (uc_tasks c).
Definition uset_laddr (v : option Addr) (c : udpconn) : udpconn :=
  UdpConn (uc_metaData c) (uc_reqHandle c) (uc_closeHandle c) (uc_readTrigger c)
    (uc_inBuffer c) (uc_outBuffer c) (uc_rtimer c) (uc_wtimer c) (uc_nfd c) v (uc_raddr c)
    (uc_closer c) (uc_postpone c) (uc_reading c) (uc_writing c) (uc_nonblocking c)
    (uc_closeService c) (uc_msgs c) (uc_poll c) (uc_clock c) (uc_coins c) (uc_tasks c).
Definition uset_raddr (v : option Addr) (c : udpconn) : udpconn :=
  UdpConn (uc_metaData c) (uc_reqHandle c) (uc_closeHandle c) (uc_readTrigger c)
    (uc_inBuffer c) (uc_outBuffer c) (uc_rtimer c) (uc_wtimer c) (uc_nfd c) (uc_laddr c) v
    (uc_closer c) (uc_postpone c) (uc_reading c) (uc_writing c) (uc_nonblocking c)
    (uc_closeService c) (uc_msgs c) (uc_poll c) (uc_clock c) (uc_coins c) (uc_tasks c).
Definition uset_closer (v : closer) (c : udpconn) : udpconn :=
  UdpConn (uc_metaData c) (uc_reqHandle c) (uc_closeHandle c) (uc_readTrigger c)
    (uc_inBuffer c) (uc_outBuffer c) (uc_rtimer c) (uc_wtimer c) (uc_nfd c) (uc_laddr c)
    (uc_raddr c) v (uc_postpone c) (uc_reading c) (uc_writing c) (uc_nonblocking c)
    (uc_closeService c) (uc_msgs c) (uc_poll c) (uc_clock c) (uc_coins c) (uc_tasks c).
Definition uset_postpone (v : PostponeWrite) (c : udpconn) : udpconn :=
  UdpConn (uc_metaData c) (uc_reqHandle c) (uc_closeHandle c) (uc_readTrigger c)
    (uc_inBuffer c) (uc_outBuffer c) (uc_rtimer c) (uc_wtimer c) (uc_nfd c) (uc_laddr c)
    (uc_raddr c) (uc_closer c) v (uc_reading c) (uc_writing c) (uc_nonblocking c)
    (uc_closeService c) (uc_msgs c) (uc_poll c) (uc_clock c) (uc_coins c) (uc_tasks c).
Definition uset_reading (v : Locker) (c : udpconn) : udpconn :=
  UdpConn (uc_metaData c) (uc_reqHandle c) (uc_closeHandle c) (uc_readTrigger c)
    (uc_inBuffer c) (uc_outBuffer c) (uc_rtimer c) (uc_wtimer c) (uc_nfd c) (uc_laddr c)
    (uc_raddr c) (uc_closer c) (uc_postpone c) v (uc_writing c) (uc_nonblocking c)
    (uc_closeService c) (uc_msgs c) (uc_poll c) (uc_clock c) (uc_coins c) (uc_tasks c).
Definition uset_writing (v : Locker) (c : udpconn) : udpconn :=
  UdpConn (uc_metaData c) (uc_reqHandle c) (uc_closeHandle c) (uc_readTrigger c)
    (uc_inBuffer c) (uc_outBuffer c) (uc_rtimer c) (uc_wtimer c) (uc_nfd c) (uc_laddr c)
    (uc_raddr c) (uc_closer c) (uc_postpone c) (uc_reading c) v (uc_nonblocking c)
    (uc_closeService c) (uc_msgs c) (uc_poll c) (uc_clock c) (uc_coins c) (uc_tasks c).
Definition uset_nonblocking (v : bool) (c : udpconn) : udpconn :=
  UdpConn (uc_metaData c) (uc_reqHandle c) (uc_closeHandle c) (uc_readTrigger c)
    (uc_inBuffer c) (uc_outBuffer c) (uc_rtimer c) (uc_wtimer c) (uc_nfd c) (uc_laddr c)
    (uc_raddr c) (uc_closer c) (uc_postpone c) (uc_reading c) (uc_writing c) v
    (uc_closeService c) (uc_msgs c) (uc_poll c) (uc_clock c) (uc_coins c) (uc_tasks c).
Definition uset_closeService (v : option Z) (c : udpconn) : udpconn :=
  UdpConn (uc_metaData c) (uc_reqHandle c) (uc_closeHandle c) (uc_readTrigger c)
    (uc_inBuffer c) (uc_outBuffer c) (uc_rtimer c) (uc_wtimer c) (uc_nfd c) (uc_laddr c)
    (uc_raddr c) (uc_closer c) (uc_postpone c) (uc_reading c) (uc_writing c) (uc_nonblocking
    c) v (uc_msgs c) (uc_poll c) (uc_clock c) (uc_coins c) (uc_tasks c).
Definition uset_msgs (v : list Msghdr) (c : udpconn) : udpconn :=
  UdpConn (uc_metaData c) (uc_reqHandle c) (uc_closeHandle c) (uc_readTrigger c)
    (uc_inBuffer c) (uc_outBuffer c) (uc_rtimer c) (uc_wtimer c) (uc_nfd c) (uc_laddr c)
    (uc_raddr c) (uc_closer c) (uc_postpone c) (uc_reading c) (uc_writing c) (uc_nonblocking
    c) (uc_closeService c) v (uc_poll c) (uc_clock c) (uc_coins c) (uc_tasks c).
Definition uset_poll (v : epoll D CB W) (c : udpconn) : udpconn :=
  UdpConn (uc_metaData c) (uc_reqHandle c) (uc_closeHandle c) (uc_readTrigger c)
    (uc_inBuffer c) (uc_outBuffer c) (uc_rtimer c) (uc_wtimer c) (uc_nfd c) (uc_laddr c)
    (uc_raddr c) (uc_closer c) (uc_postpone c) (uc_reading c) (uc_writing c) (uc_nonblocking
    c) (uc_closeService c) (uc_msgs c) v (uc_clock c) (uc_coins c) (uc_tasks c).
Definition uset_clock (v : Z) (c : udpconn) : udpconn :=
  UdpConn (uc_metaData c) (uc_reqHandle c) (uc_closeHandle c) (uc_readTrigger c)
    (uc_inBuffer c) (uc_outBuffer c) (uc_rtimer c) (uc_wtimer c) (uc_nfd c) (uc_laddr c)
    (uc_raddr c) (uc_closer c) (uc_postpone c) (uc_reading c) (uc_writing c) (uc_nonblocking
    c) (uc_closeService c) (uc_msgs c) (uc_poll c) v (uc_coins c) (uc_tasks c).
Definition uset_coins (v : list bool) (c : udpconn) : udpconn :=
  UdpConn (uc_metaData c) (uc_reqHandle c) (uc_closeHandle c) (uc_readTrigger c)
    (uc_inBuffer c) (uc_outBuffer c) (uc_rtimer c) (uc_wtimer c) (uc_nfd c) (uc_laddr c)
    (uc_raddr c) (uc_closer c) (uc_postpone c) (uc_reading c) (uc_writing c) (uc_nonblocking
    c) (uc_closeService c) (uc_msgs c) (uc_poll c) (uc_clock c) v (uc_tasks c).
Definition uset_tasks (v : nat) (c : udpconn) : udpconn :=
  UdpConn (uc_metaData c) (uc_reqHandle c) (uc_closeHandle c) (uc_readTrigger c)
    (uc_inBuffer c) (uc_outBuffer c) (uc_rtimer c) (uc_wtimer c) (uc_nfd c) (uc_laddr c)
    (uc_raddr c) (uc_closer c) (uc_postpone c) (uc_reading c) (uc_writing c) (uc_nonblocking
    c) (uc_closeService c) (uc_msgs c) (uc_poll c) (uc_clock c) (uc_coins c) v.

Abbreviation U := (thread udpconn).

(** Running the user's handlers: the request handler's error, the close handler. *)
Variable run_request : H → U (option nerr).
Variable run_closed : H → U ().

(** ** Components *)

Definition unet_of (c : udpconn) : net_env D CB W :=
  NetEnv (uc_nfd c) (uc_poll c) (pw_metrics (uc_postpone c)).
Definition uset_net (e : net_env D CB W) (c : udpconn) : udpconn :=
  uset_postpone (AutoPostpone.set_metrics (ne_metrics e) (uc_postpone c))
    (uset_poll (ne_poll e) (uset_nfd (ne_nfd e) c)).

(** The socket together with one of the buffers. *)
Definition in_env (c : udpconn) : udp_env D CB W := UdpEnv (uc_inBuffer c) (unet_of c) (uc_msgs c).
Definition set_in_env (e : udp_env D CB W) (c : udpconn) : udpconn :=
  uset_net (ue_net e) (uset_msgs (ue_msgs e) (uset_inBuffer (ue_buf e) c)).
Definition out_env (c : udpconn) : udp_env D CB W := UdpEnv (uc_outBuffer c) (unet_of c) (uc_msgs c).
Definition set_out_env (e : udp_env D CB W) (c : udpconn) : udpconn :=
  uset_net (ue_net e) (uset_msgs (ue_msgs e) (uset_outBuffer (ue_buf e) c)).

Definition u_in {A} : MB A → M udpconn A := zoom uc_inBuffer uset_inBuffer.
Definition u_out {A} : MB A → M udpconn A := zoom uc_outBuffer uset_outBuffer.
Definition u_net {A} (m : M (net_env D CB W) A) : U A := method unet_of uset_net m.
Definition u_postpone {A} (m : MPW A) : U A := method uc_postpone uset_postpone m.
Definition u_metric (name : Z) : U () := u_net (metric name 1).

Definition u_begin (k : Z) : U bool := of_job uc_closer uset_closer (Closer.beginJobSafely k).
Definition u_end (k : Z) : U () := of_job uc_closer uset_closer (Closer.endJobSafely k).
Definition u_closeJob (k : Z) : U () := of_job uc_closer uset_closer (Closer.closeJobSafely k).
Definition u_closeAllJobs : U () := of_job uc_closer uset_closer Closer.closeAllJobs.

Definition u_try_lock (proj : udpconn → Locker) (upd : Locker → udpconn → udpconn) : U bool :=
  of_job proj upd (Act Locker_TryLock (λ ok, Done ok)).
Definition u_unlock (proj : udpconn → Locker) (upd : Locker → udpconn → udpconn) : U () :=
  of_job proj upd (Act Locker_Unlock (λ _, Done ())).
Definition u_writing_TryLock : U bool := u_try_lock uc_writing uset_writing.
Definition u_writing_Unlock : U () := u_unlock uc_writing uset_writing.
Definition u_reading_TryLock : U bool := u_try_lock uc_reading uset_reading.
Definition u_reading_Unlock : U () := u_unlock uc_reading uset_reading.

Definition u_out_of_fuel {A} : U A := atomically nofuel.

Definition u_IsActive : U bool := read (λ c, negb (closed (uc_closer c))).
Definition u_in_LenRead : U Z := atomically (u_in LenRead).
Definition u_out_LenRead : U Z := atomically (u_out LenRead).
Definition u_Control (e : Event) : U (result nerr ()) := u_net (nfd_Control e).

(** ** Waiting for a packet *)

Definition u_recv_readTrigger : U () :=
  await (λ c, match recv (uc_readTrigger c) with
              | Some ch => Some ((), uset_readTrigger ch c)
              | None => None
              end).

(** [select { case uc.readTrigger <- struct{}{}: default: }] *)
Definition u_send_readTrigger : U () :=
  atomically (λ c,
    if ch_closed (uc_readTrigger c) then Panic
    else Ret ((), uset_readTrigger (Chan true false) c)).

Definition u_flip (c : udpconn) : bool * udpconn :=
  match uc_coins c with b :: bs => (b, uset_coins bs c) | [] => (false, c) end.

(** Methods of the read timer, whose pointer must not be nil. *)
Definition u_on_rtimer {A} (m : MT A) : U A :=
  atomically (λ c,
    match uc_rtimer c with
    | None => Panic
    | Some t =>
        match m t with
        | Ret (a, t) => Ret (a, uset_rtimer (Some t) c)
        | Panic => Panic
        | NoFuel => NoFuel
        end
    end).

(** [select] on the trigger and the timer; when both are ready, a coin decides. *)
Definition u_select : U selected :=
  await (λ c,
    let timer_ready := match uc_rtimer c with
                       | Some (Timer.MkTimer _ (Some g)) => gt_chan g
                       | _ => false
                       end in
    let by_timer c := (SelTimer, uset_rtimer (match uc_rtimer c with
                                              | Some t => Some (Timer.MkTimer (tm_deadline t) (gt_drain <$> tm_timer t))
                                              | None => None
                                              end) c) in
    match recv (uc_readTrigger c), timer_ready with
    | Some ch, true =>
        let '(b, c) := u_flip c in
        Some (if b : bool then by_timer c else (SelTrigger, uset_readTrigger ch c))
    | Some ch, false => Some (SelTrigger, uset_readTrigger ch c)
    | None, true => Some (by_timer c)
    | None, false => None
    end).

Fixpoint u_wait_loop (fuel : nat) : U (result nerr ()) :=
  match fuel with
  | O => u_out_of_fuel
  | S fuel =>
      l ← u_in_LenRead;
      if decide (l = 0) then
        active ← u_IsActive;
        if negb active then Fin (Err NConnClosed)
        else _ ← u_recv_readTrigger; u_wait_loop fuel
      else Fin (Ok ())
  end.

Fixpoint u_timed_wait_loop (fuel : nat) : U (result nerr ()) :=
  match fuel with
  | O => u_out_of_fuel
  | S fuel =>
      l ← u_in_LenRead;
      if decide (l = 0) then
        active ← u_IsActive;
        if negb active then Fin (Err NConnClosed)
        else
          s ← u_select;
          match s with
          | SelTrigger => u_timed_wait_loop fuel
          | SelTimer => Fin (Err NTimeout)
          end
      else Fin (Ok ())
  end.

Definition u_waitReadWithTimeout (fuel : nat) : U (result nerr ()) :=
  now ← read uc_clock;
  _ ← u_on_rtimer (Start now);
  fired ← u_on_rtimer Wait;
  if (fired : bool) then _ ← u_on_rtimer Received; Fin (Err NTimeout)
  else u_timed_wait_loop fuel.

Definition u_rtimer_set : U bool :=
  read (λ c, match uc_rtimer c with
             | Some t => match tm_deadline t with Some _ => true | None => false end
             | None => false
             end).

Definition u_waitRead (fuel : nat) : U (result nerr ()) :=
  active ← u_IsActive;
  if negb active then Fin (Err NConnClosed)
  else
    l ← u_in_LenRead;
    if decide (l > 0) then Fin (Ok ())
    else
      nonblocking ← read uc_nonblocking;
      if (nonblocking : bool) then Fin (Err NEAGAIN)
      else
        timed ← u_rtimer_set;
        if (timed : bool) then u_waitReadWithTimeout fuel else u_wait_loop fuel.

(** ** Reading *)

(** [ReadBlock]: the node that held the block is not part of the queue any more,
    whatever message header still leads to it. *)
Definition forget (l : option loc) (m : Msghdr) : Msghdr :=
  if decide (mh_block m = l) then MkMsghdr (mh_iovlen m) None else m.

Definition u_ReadBlock : M udpconn (result Node.err slice) :=
  r ← u_in ReadBlock;
  _ ← modify (λ c, uset_msgs (map (forget (rnode (uc_inBuffer c))) (uc_msgs c)) c);
  mret r.

Definition readBlock (fuel : nat) : U (result nerr slice) :=
  w ← u_waitRead fuel;
  match w with
  | Err e => Fin (Err e)
  | Ok _ =>
      r ← atomically u_ReadBlock;
      Fin (match r with Ok s => Ok s | Err e => Err (NBuffer e) end)
  end.

Definition u_in_Release : U () := atomically (u_in Release).
Definition u_mcache_Free (s : slice) : U () := write (λ c, uset_inBuffer (set_mc (Free s (mc (uc_inBuffer c))) (uc_inBuffer c)) c).

(** [ReadPacket]: the block, which is the packet, and the sender. *)
Definition ReadPacket (fuel : nat) : U (result nerr (slice * Addr)) :=
  ok ← u_begin kApiRead;
  if negb ok then Fin (Err NConnClosed)
  else
    b ← readBlock fuel;
    match b with
    | Err e => _ ← u_end kApiRead; Fin (Err e)
    | Ok block =>
        let r := match getUDPAddr (s_bytes block) with
                 | Err _ => Err NOther
                 | Ok addr => Ok (block, addr)
                 end in
        _ ← u_in_Release;
        _ ← u_end kApiRead;
        Fin r
    end.

(** [packet.Data] and [packet.Free] *)
Definition packet_Data (block : slice) : result udp_err (list byte) := getUDPData (s_bytes block).
Definition packet_Free (block : slice) : U () := u_mcache_Free block.

(** [ReadFrom] into a slice of [blen] bytes: what was copied, and the sender. *)
Definition ReadFrom (fuel : nat) (blen : Z) : U (result nerr (list byte * option Addr)) :=
  if decide (blen = 0) then Fin (Ok ([], None))
  else
    ok ← u_begin kApiRead;
    if negb ok then Fin (Err NConnClosed)
    else
      b ← readBlock fuel;
      match b with
      | Err e => _ ← u_end kApiRead; Fin (Err e)
      | Ok block =>
          let r := match getUDPDataAndAddr (s_bytes block) with
                   | Err _ => Err NOther
                   | Ok (s, addr) => Ok (ztake blen s, Some addr)
                   end in
          _ ← u_in_Release;
          _ ← u_mcache_Free block;
          _ ← u_end kApiRead;
          Fin r
      end.

Definition u_Read (fuel : nat) (blen : Z) : U (result nerr (list byte)) :=
  r ← ReadFrom fuel blen;
  Fin (match r with Ok (bs, _) => Ok bs | Err e => Err e end).

(** ** Writing *)

Definition u_write_expired : U bool :=
  read (λ c, match uc_wtimer c with
             | Some t => match tm_deadline t with Some d => bool_decide (d < uc_clock c) | None => false end
             | None => false
             end).

(** After a write lock was given up: packets that came in meanwhile. *)
Definition u_recheck (n : Z) : U (Z * option nerr) :=
  l ← u_out_LenRead;
  if decide (l ≠ 0) then
    ok ← u_writing_TryLock;
    if (ok : bool) then
      r ← u_Control ModReadWriteable;
      Fin (n, match r with Ok _ => None | Err e => Some e end)
    else Fin (n, None)
  else Fin (n, None).

Definition u_writeToNetFD (p : list byte) (addr : option Addr) : U (Z * option nerr) :=
  ok ← u_writing_TryLock;
  if negb ok then Fin (0, None)
  else
    laddr ← read uc_laddr;
    r ← method out_env set_out_env (nfd_WriteTo laddr p addr);
    _ ← u_metric Metrics.UDPWriteToCalls;
    _ ← u_writing_Unlock;
    match r with
    | (n, Some err) => _ ← u_metric Metrics.UDPWriteToFails; Fin (n, Some err)
    | (n, None) => u_recheck n
    end.

Definition u_writeToBuffer (p : list byte) (addr : option Addr) : U (Z * option nerr) :=
  match parcel p addr with
  | Err _ => Fin (0, Some NOther)
  | Ok block =>
      n ← atomically (u_out (Write false (of_bytes block)));
      let n := n - SockaddrSize in
      ok ← u_writing_TryLock;
      if negb ok then Fin (n, None)
      else
        l ← u_out_LenRead;
        if decide (l ≠ 0) then
          r ← u_Control ModReadWriteable;
          Fin (n, match r with Ok _ => None | Err e => Some e end)
        else
          _ ← u_writing_Unlock;
          u_recheck n
  end.

Definition u_WriteTo (p : list byte) (addr : option Addr) : U (Z * option nerr) :=
  if decide (zlen p = 0) then Fin (0, None)
  else
    expired ← u_write_expired;
    if (expired : bool) then Fin (0, Some NTimeout)
    else
      ok ← u_begin kApiWrite;
      if negb ok then Fin (0, Some NConnClosed)
      else
        enabled ← u_postpone Enabled;
        r ← (if (enabled : bool) then u_writeToBuffer p addr
             else
               r ← u_writeToNetFD p addr;
               if decide (r = (0, None) ∨ r.2 = Some (NErrno EAGAIN))
               then u_writeToBuffer p addr else Fin r);
        _ ← u_end kApiWrite;
        Fin r.

(** [Write] on a connected socket. *)
Definition u_Write (b : list byte) : U (Z * option nerr) :=
  raddr ← read uc_raddr;
  match raddr with
  | None => Fin (0, Some NOther)
  | Some _ =>
      expired ← u_write_expired;
      if (expired : bool) then Fin (0, Some NTimeout)
      else
        ok ← u_begin kApiWrite;
        if negb ok then Fin (0, Some NConnClosed)
        else
          fd ← read (λ c, nfd_fd (uc_nfd c));
          r ← u_net (net_syscall (k_send fd b));
          _ ← u_end kApiWrite;
          Fin (match r with Ok n => (n, None) | Err e => (-1, Some (NErrno e)) end)
  end.

(** ** Close and settings *)

Definition u_stop_timer (field : udpconn → option timer) (upd : option timer → udpconn → udpconn) : U () :=
  write (λ c, match field c with
              | None => c
              | Some t => match Stop t with Ret (_, t) => upd (Some t) c | _ => c end
              end).

(** [WaitGroup.Done]: a negative counter panics. *)
Definition closeService_Done : U () :=
  atomically (λ c,
    match uc_closeService c with
    | None => Ret ((), c)
    | Some n => if decide (n - 1 < 0) then Panic else Ret ((), uset_closeService (Some (n - 1)) c)
    end).

Definition u_Close : U () :=
  first ← u_begin Closer.closeAll;
  if negb first then Fin ()
  else
    _ ← u_closeJob kSysRead;
    _ ← atomically (λ c,
          if ch_closed (uc_readTrigger c) then Panic
          else Ret ((), uset_readTrigger (Chan (ch_full (uc_readTrigger c)) true) c));
    _ ← u_closeAllJobs;
    closeHandle ← read uc_closeHandle;
    _ ← (match closeHandle with Some h => run_closed h | None => Fin () end);
    _ ← write (uset_metaData None);
    _ ← u_stop_timer uc_rtimer uset_rtimer;
    _ ← u_stop_timer uc_wtimer uset_wtimer;
    _ ← closeService_Done;
    _ ← u_net (nfd_close sock_Close);
    u_end Closer.closeAll.

Definition u_Len : U Z :=
  ok ← u_begin kApiCtrl;
  if negb ok then Fin 0
  else l ← u_in_LenRead; _ ← u_end kApiCtrl; Fin l.

Definition u_set_deadline (field : udpconn → option timer) (upd : option timer → udpconn → udpconn)
    (t : option Z) : U (result nerr ()) :=
  active ← u_IsActive;
  if negb active then Fin (Err NConnClosed)
  else
    _ ← write (λ c, upd (Some (match field c with
                               | None => timer_New t
                               | Some tm => Timer.MkTimer t (tm_timer tm)
                               end)) c);
    Fin (Ok ()).

Definition u_SetReadDeadline := u_set_deadline uc_rtimer uset_rtimer.
Definition u_SetWriteDeadline := u_set_deadline uc_wtimer uset_wtimer.

Definition u_SetDeadline (t : option Z) : U (result nerr ()) :=
  r ← u_SetReadDeadline t;
  match r with
  | Err e => Fin (Err e)
  | Ok _ => u_SetWriteDeadline t
  end.

Definition SetMaxPacketSize (size : Z) : U () :=
  write (λ c, uset_nfd (NetFD (nfd_desc (uc_nfd c)) (nfd_sock (uc_nfd c)) (nfd_fd (uc_nfd c)) (nfd_fdtype (uc_nfd c))
                          (nfd_closed (uc_nfd c)) size (nfd_exactUDPBufferSizeEnabled (uc_nfd c))) c).

Definition SetExactUDPBufferSizeEnabled (exact : bool) : U () :=
  write (λ c, uset_nfd (NetFD (nfd_desc (uc_nfd c)) (nfd_sock (uc_nfd c)) (nfd_fd (uc_nfd c)) (nfd_fdtype (uc_nfd c))
                          (nfd_closed (uc_nfd c)) (nfd_udpBufferSize (uc_nfd c)) exact) c).

Definition u_SetNonBlocking (nonblock : bool) : U () := write (uset_nonblocking nonblock).
Definition u_SetFlushWrite (_ : bool) : U () := Fin ().

Definition u_SetOnClosed (handle : option H) : U (result nerr ()) :=
  active ← u_IsActive;
  if negb active then Fin (Err NConnClosed)
  else
    match handle with
    | None => Fin (Err NOther)
    | Some h => _ ← write (uset_closeHandle (Some h)); Fin (Ok ())
    end.

Definition u_SetOnRequest (handle : option H) : U (result nerr ()) :=
  match handle with
  | None => Fin (Err NOther)
  | Some h => _ ← write (uset_reqHandle (Some h)); Fin (Ok ())
  end.

Definition SetMetaData (m : option nat) : U () := write (uset_metaData m).
Definition GetMetaData : U (option nat) := read uc_metaData.

(** ** Handlers of the poller's events *)

Fixpoint udp_request_loop (fuel : nat) (h : H) : U (option nerr) :=
  match fuel with
  | O => u_out_of_fuel
  | S fuel =>
      l ← u_Len;
      active ← (if decide (l > 0) then u_IsActive else Fin false);
      if negb active then Fin None
      else
        e ← run_request h;
        match e with
        | Some e => Fin (Some e)
        | None => udp_request_loop fuel h
        end
  end.

Fixpoint udpAsyncHandler_loop (fuel : nat) (h : H) : U () :=
  match fuel with
  | O => u_out_of_fuel
  | S fuel =>
      e ← udp_request_loop fuel h;
      match e with
      | Some _ => _ ← u_reading_Unlock; u_Close
      | None =>
          _ ← u_reading_Unlock;
          _ ← u_postpone ResetReadingTryLockFail;
          l ← u_Len;
          if decide (l <= 0) then Fin ()
          else
            ok ← u_reading_TryLock;
            if negb ok then Fin () else udpAsyncHandler_loop fuel h
      end
  end.

Definition udpAsyncHandler (fuel : nat) : U () :=
  h ← read uc_reqHandle;
  match h with
  | None => Fin ()
  | Some h => udpAsyncHandler_loop fuel h
  end.

Fixpoint udp_sync_loop (fuel : nat) (h : H) : U (option nerr) :=
  match fuel with
  | O => u_out_of_fuel
  | S fuel =>
      l ← u_Len;
      active ← (if decide (l > 0) then u_IsActive else Fin false);
      if negb active then Fin None
      else
        _ ← u_postpone IncLoopCnt;
        e ← run_request h;
        match e with
        | Some e => Fin (Some e)
        | None => udp_sync_loop fuel h
        end
  end.

Definition udpSyncHandle (fuel : nat) : U (result nerr ()) :=
  h ← read uc_reqHandle;
  match h with
  | None => crash
  | Some h =>
      _ ← u_postpone ResetLoopCnt;
      e ← udp_sync_loop fuel h;
      match e with
      | Some e => _ ← u_Close; Fin (Err e)
      | None => _ ← u_postpone CheckLoopCnt; Fin (Ok ())
      end
  end.

Definition u_doTask : U (result nerr ()) :=
  _ ← u_metric Metrics.TaskAssigned;
  atomically (λ c,
    let '(refused, c) := u_flip c in
    if refused : bool then Ret (Err NOther, c) else Ret (Ok (), uset_tasks (S (uc_tasks c)) c)).

Definition udpOnRead (fuel : nat) : U (result nerr ()) :=
  ok ← u_begin kSysRead;
  if negb ok then Fin (Ok ())
  else
    r ← (f ← method in_env set_in_env (FillToBuffer pool_choice);
         match f with
         | Err e => Fin (Err e)
         | Ok _ =>
             nonblocking ← read uc_nonblocking;
             if (nonblocking : bool) then udpSyncHandle fuel
             else
               _ ← u_send_readTrigger;
               h ← read uc_reqHandle;
               match h with
               | None => Fin (Ok ())
               | Some _ =>
                   ok ← u_reading_TryLock;
                   if negb ok then _ ← u_postpone IncReadingTryLockFail; Fin (Ok ())
                   else u_doTask
               end
         end);
    _ ← u_end kSysRead;
    Fin r.

Definition udpOnWrite : U (result nerr ()) :=
  ok ← u_begin kSysWrite;
  if negb ok then Fin (Ok ())
  else
    r ← (s ← method out_env set_out_env SendPackets;
         match s with
         | Err e => if decide (e = NErrno EAGAIN) then Fin (Ok ()) else Fin (Err e)
         | Ok _ =>
             l ← u_out_LenRead;
             if decide (l ≠ 0) then Fin (Ok ())
             else
               r ← u_Control ModReadable;
               match r with
               | Err e => Fin (Err e)
               | Ok _ =>
                   _ ← u_writing_Unlock;
                   r ← u_recheck 0;
                   Fin (match r.2 with None => Ok () | Some e => Err e end)
               end
         end);
    _ ← u_end kSysWrite;
    Fin r.

(** ** Goroutines of the library *)

(** A round of the poller for one event of a connection; UDP connections have no
    [onHup], so a detached one is not closed. *)
Definition u_poll_once (fuel : nat) (desc : dloc) (events : Z) : U () :=
  let hup := has_flag events (Z.lor (Z.lor EPOLLHUP EPOLLRDHUP) EPOLLERR) in
  hup ← (if has_flag events EPOLLOUT then
           r ← udpOnWrite; Fin (hup || match r with Err _ => true | Ok _ => false end)
         else Fin hup);
  hup ← (if has_flag events (Z.lor EPOLLIN EPOLLPRI) then
           r ← udpOnRead fuel; Fin (hup || match r with Err _ => true | Ok _ => false end)
         else Fin hup);
  if (hup : bool) then _ ← u_net (NetFD.on_poll (Control desc Detach)); Fin () else Fin ().

Definition u_task_worker (fuel : nat) : U () :=
  _ ← await (λ c, match uc_tasks c with S n => Some ((), uset_tasks n c) | O => None end);
  udpAsyncHandler fuel.

End UdpConn.
Arguments udpconn : clear implicits.

(** ** One goroutine on its own *)

Section Alone.
Context {D CB W H : Type} `{K : Kernel W} `{UL : UdpKernelLaws W} `{I : Interfaces}.
Variable pool_choice : list Msghdr → option nat.
Implicit Types c : udpconn D CB W H.

Abbreviation US := (udpconn D CB W H).

Definition idle (c : US) : Prop :=
  closed (uc_closer c) = false ∧
  apiReadJob (uc_closer c) = EBJob false false ∧
  apiWriteJob (uc_closer c) = CJob (RW 0 false) false.

Lemma begin_apiRead c :
  idle c →
  run_alone (u_begin kApiRead) c
  = Some (Ret (true, uset_closer (setJob apiRead (EBJob true false) (uc_closer c)) c)).
Proof.
  intros (_ & Hr & _). unfold u_begin. destruct c as [? ? ? ? ? ? ? ? ? ? ? cl ? ? ? ? ? ? ? ? ? ?].
  simpl in *. destruct cl. simpl in *. subst. reflexivity.
Qed.

Lemma end_apiRead c c0 :
  idle c0 → uc_closer c = setJob apiRead (EBJob true false) (uc_closer c0) →
  run_alone (u_end kApiRead) c = Some (Ret ((), uset_closer (uc_closer c0) c)).
Proof.
  intros (_ & Hr & _) Hc. unfold u_end. destruct c as [? ? ? ? ? ? ? ? ? ? ? cl ? ? ? ? ? ? ? ? ? ?].
  simpl in *. subst cl. destruct (uc_closer c0). simpl in *. subst. reflexivity.
Qed.

Lemma begin_apiWrite c :
  idle c →
  run_alone (u_begin kApiWrite) c
  = Some (Ret (true, uset_closer (setJob apiWrite (CJob (RW 1 false) false) (uc_closer c)) c)).
Proof.
  intros (_ & _ & Hw). unfold u_begin. destruct c as [? ? ? ? ? ? ? ? ? ? ? cl ? ? ? ? ? ? ? ? ? ?].
  simpl in *. destruct cl. simpl in *. subst. reflexivity.
Qed.

Lemma end_apiWrite c c0 :
  idle c0 → uc_closer c = setJob apiWrite (CJob (RW 1 false) false) (uc_closer c0) →
  run_alone (u_end kApiWrite) c = Some (Ret ((), uset_closer (uc_closer c0) c)).
Proof.
  intros (_ & _ & Hw) Hc. unfold u_end. destruct c as [? ? ? ? ? ? ? ? ? ? ? cl ? ? ? ? ? ? ? ? ? ?].
  simpl in *. subst cl. destruct (uc_closer c0). simpl in *. subst. reflexivity.
Qed.

(** *** Reading *)

Lemma run_u_in {A} (m : MB A) c x b :
  m (uc_inBuffer c) = Ret (x, b) → run_alone (atomically (u_in m)) c = Some (Ret (x, uset_inBuffer b c)).
Proof. intros Hm. apply run_atomically. by apply zoom_Ret. Qed.

Lemma closed_setJob k j (cl : closer) : closed (setJob k j cl) = closed cl.
Proof. by destruct k, cl. Qed.

(** A read finds the packet that is there. *)
Lemma readBlock_ok fuel wo c p q :
  holds_blocks wo (uc_inBuffer c) (p :: q) → p ≠ [] → closed (uc_closer c) = false →
  ∃ s b, ReadBlock (uc_inBuffer c) = Ret (Ok s, b) ∧ s_bytes s = p ∧ holds_blocks wo b q ∧
    run_alone (readBlock fuel) c
    = Some (Ret (Ok s, uset_msgs (map (forget (rnode b)) (uc_msgs c)) (uset_inBuffer b c))).
Proof.
  intros Hh Hp Hc.
  destruct (ReadBlock_ok wo (uc_inBuffer c) p q Hh) as (s & b & Hr & Hs & Hb & _).
  exists s, b. split; [done|]. split; [done|]. split; [done|].
  assert (Hw : run_alone (u_waitRead fuel) c = Some (Ret (Ok (), uset_inBuffer (uc_inBuffer c) c))).
  { unfold u_waitRead, u_IsActive. apure. rewrite Hc. cbn [negb]. cbv iota.
    assert (HL : run_alone u_in_LenRead c = Some (Ret (rlen (uc_inBuffer c), uset_inBuffer (uc_inBuffer c) c)))
      by done.
    arun HL. rewrite decide_True; [done|].
    apply holds_blocks_holds, holds_len in Hh as [-> _]. simpl. rewrite zlen_app.
    pose proof (zlen_nonneg (concat q)). destruct p as [|x p]; [done|].
    rewrite zlen_cons. pose proof (zlen_nonneg p). lia. }
  unfold readBlock. arun Hw. cbv beta iota.
  assert (HR : u_ReadBlock (uset_inBuffer (uc_inBuffer c) c)
               = Ret (Ok s, uset_msgs (map (forget (rnode b)) (uc_msgs c)) (uset_inBuffer b c))).
  { unfold u_ReadBlock. erewrite bind_Ret by (apply zoom_Ret; exact Hr). done. }
  erewrite run_alone_bind by (apply run_atomically; exact HR). done.
Qed.

(** C21: [ReadFrom] takes exactly one packet: it copies as much of the oldest
    packet's payload as fits, returns the sender's address and leaves the other
    packets; the rest of a payload that does not fit is lost with its packet, whose
    block goes back to the cache. *)
Theorem read_from_takes_one_packet (fuel : nat) (wo : bool) (c : US) (p : list byte) (q : list (list byte))
    (blen : Z) (data : list byte) (addr : Addr) :
  idle c → holds_blocks wo (uc_inBuffer c) (p :: q) → 0 < blen →
  getUDPDataAndAddr p = Ok (data, addr) →
  (∀ s b, ReadBlock (uc_inBuffer c) = Ret (Ok s, b) → s_cap s < 2 ^ 63) →
  ∃ c', run_alone (ReadFrom fuel blen) c = Some (Ret (Ok (ztake blen data, Some addr), c')) ∧
    holds_blocks wo (uc_inBuffer c') q ∧ uc_closer c' = uc_closer c.
Proof.
  intros Hid Hh Hbl Hd Hcap. unfold ReadFrom. rewrite decide_False by lia.
  arun (begin_apiRead c Hid). cbn [negb]. cbv iota. set (c1 := uset_closer _ c).
  assert (Hlen : SockaddrSize ≤ zlen p).
  { unfold getUDPDataAndAddr, getUDPAddr in Hd. case_decide; [done|lia]. }
  assert (Hp : p ≠ []) by (intros ->; unfold SockaddrSize, zlen in Hlen; simpl in Hlen; lia).
  destruct (readBlock_ok fuel wo c1 p q Hh Hp) as (s & b & Hr & Hs & Hb & Hrun).
  { rewrite <-(proj1 Hid). apply (closed_setJob apiRead). }
  arun Hrun. cbv beta iota zeta. rewrite Hs, Hd. set (c2 := uset_msgs _ _).
  destruct (Release_holds_blocks wo b q Hb) as (b3 & H3 & Hb3 & _).
  assert (HR : run_alone u_in_Release c2 = Some (Ret ((), uset_inBuffer b3 c2)))
    by (unfold u_in_Release; by apply run_u_in).
  arun HR. set (c3 := uset_inBuffer b3 c2).
  set (b4 := set_mc (Free s (mc b3)) b3).
  assert (HF : run_alone (u_mcache_Free s) c3 = Some (Ret ((), uset_inBuffer b4 c3))) by done.
  arun HF.
  erewrite run_alone_bind by (by apply (end_apiRead _ c Hid)).
  eexists. split; [done|]. simpl. split; [|done].
  apply holds_blocks_set_mc; [done|].
  apply Free_ok; [by eapply holds_blocks_mc| |by eapply Hcap].
  pose proof (s_len_ge s). rewrite Hs in *. unfold SockaddrSize in *.
  assert (zlen (s_bytes s) ≤ s_cap s).
  { unfold s_bytes, s_cap, ztake, zlen. rewrite length_take. lia. }
  rewrite Hs in *. lia.
Qed.

(** *** Writing *)

Definition uc_world (c : US) : W := ep_world (uc_poll c).
Definition uc_fd (c : US) : Z := nfd_fd (uc_nfd c).

(** The connection's socket is open and served by a poller. *)
Definition registered (c : US) (desc : dloc) : Prop :=
  nfd_closed (uc_nfd c) = false ∧ nfd_desc (uc_nfd c) = Some desc ∧
  ∃ d, dc_heap (ep_cache (uc_poll c)) !! desc = Some d ∧ d_poller d ≠ None ∧ d_FD d = uc_fd c.

(** Asking the poller for writable events. *)
Definition ask_writable (c : US) (desc : dloc) (w : W) : Z * W :=
  k_epoll_ctl (ep_fd (uc_poll c)) EPOLL_CTL_MOD (uc_fd c) (Some (Z.lor rflags wflags, desc)) w.

Definition ctl_error (er : Z) : option nerr :=
  if decide (er = 0) then None else Some (NPoll (PErrno er)).

(** States that differ in what the write path does not use. *)
Record same_write (c c' : US) : Prop := {
  sw_closer : uc_closer c' = uc_closer c;
  sw_out : uc_outBuffer c' = uc_outBuffer c;
  sw_writing : uc_writing c' = uc_writing c;
  sw_nfd : uc_nfd c' = uc_nfd c;
  sw_cache : ep_cache (uc_poll c') = ep_cache (uc_poll c);
  sw_epfd : ep_fd (uc_poll c') = ep_fd (uc_poll c)
}.

Lemma Control_alone c desc :
  registered c desc →
  let '(er, w) := ask_writable c desc (uc_world c) in
  ∃ r c', run_alone (u_Control ModReadWriteable) c = Some (Ret (r, c')) ∧
    match r with Ok _ => None | Err e => Some e end = ctl_error er ∧
    same_write c c' ∧ uc_world c' = w.
Proof.
  intros (Hop & Hde & d & Hd & Hp & Hfd).
  destruct (ask_writable c desc (uc_world c)) as [er w] eqn:Ek.
  destruct c as [md rq ch tr ib ob rt wt nf la ra cl po rd wr nb cs ms pl ck co tk].
  unfold uc_world, uc_fd, ask_writable, uc_fd in *. simpl in *.
  destruct (d_poller d) as [pn|] eqn:Hpn; [|done].
  exists (match errno_result er with Ok u => Ok u | Err x => Err (NPoll x) end).
  assert (HC : Control desc ModReadWriteable pl = Ret (errno_result er, Poller.set_world w pl)).
  { unfold Control. erewrite bind_Ret.
    2: { unfold on_cache. apply zoom_Ret. unfold load_desc. by rewrite Hd. }
    cbv zeta. unfold ep_interest. mpure. erewrite bind_Ret.
    2: { unfold syscall. simpl. rewrite Hfd, Ek. reflexivity. }
    by destruct pl. }
  eexists. split.
  - unfold u_Control, u_net, method. apply run_atomically, zoom_Ret.
    unfold nfd_Control. mpure. simpl. rewrite Hop, Hde. unfold desc_Control.
    erewrite bind_Ret.
    2: { unfold NetFD.on_poll, on_cache. apply zoom_Ret, zoom_Ret. unfold load_desc. simpl. by rewrite Hd. }
    rewrite Hpn. erewrite bind_Ret.
    2: { unfold NetFD.on_poll. apply zoom_Ret. simpl. destruct pl. exact HC. }
    reflexivity.
  - split; [unfold errno_result, ctl_error; by case_decide|].
    destruct pl. split; [by split|done].
Qed.

Lemma out_LenRead_alone c : run_alone u_out_LenRead c = Some (Ret (rlen (uc_outBuffer c), uset_outBuffer (uc_outBuffer c) c)).
Proof. done. Qed.

Lemma TryLock_alone c :
  uc_writing c = unlocked → run_alone u_writing_TryLock c = Some (Ret (true, uset_writing locked c)).
Proof.
  intros Hu. unfold u_writing_TryLock, u_try_lock. simpl. unfold Locker_TryLock, cas_u32. by rewrite Hu.
Qed.

(** Queueing a packet when nobody is sending. *)
Lemma writeToBuffer_alone c desc p addr block :
  registered c desc → uc_writing c = unlocked → parcel p addr = Ok block →
  holds_blocks true (uc_outBuffer c) [] → zlen block < 2 ^ 32 → SockaddrSize < zlen block →
  let '(er, w) := ask_writable c desc (uc_world c) in
  ∃ c', run_alone (u_writeToBuffer p addr) c
        = Some (Ret ((zlen block - SockaddrSize, ctl_error er), c')) ∧
    uc_closer c' = uc_closer c ∧ uc_writing c' = locked ∧
    holds_blocks true (uc_outBuffer c') [block] ∧ uc_world c' = w.
Proof.
  intros Hreg Hun Hpa Hh Hlt Hgt. unfold SockaddrSize in Hgt. unfold u_writeToBuffer. rewrite Hpa.
  destruct (Writev_unsafe_blocks true (uc_outBuffer c) [] [of_bytes block] Hh) as (b & Hw & Hb & _).
  { constructor; [|constructor]. split; [auto with tnet|done]. }
  { unfold byteSlicesLen, sumZ. simpl. unfold zlen in *. simpl. lia. }
  assert (Hbl : byteSlicesLen [of_bytes block] = zlen block) by (unfold byteSlicesLen, sumZ; simpl; lia).
  assert (Hbs : [] ++ blocks_of [of_bytes block] = [block]).
  { unfold blocks_of. simpl. unfold slice_blocks. rewrite decide_False by (simpl; lia).
    by rewrite s_bytes_of_bytes. }
  rewrite Hbs in Hb. rewrite Hbl in Hw.
  assert (HW : run_alone (atomically (u_out (Write false (of_bytes block)))) c
               = Some (Ret (zlen block, uset_outBuffer b c))).
  { apply run_atomically, zoom_Ret. exact Hw. }
  arun HW. cbv zeta. set (c1 := uset_outBuffer b c).
  arun (TryLock_alone c1 Hun). cbn [negb]. cbv iota. set (c2 := uset_writing locked c1).
  arun (out_LenRead_alone c2). rewrite decide_True.
  2: { change (rlen b ≠ 0). apply holds_blocks_holds, holds_len in Hb as [-> _].
    cbn [concat]. rewrite app_nil_r. lia. }
  set (c3 := uset_outBuffer _ c2).
  pose proof (Control_alone c3 desc Hreg) as HC.
  change (ask_writable c3 desc (uc_world c3)) with (ask_writable c desc (uc_world c)) in HC.
  destruct (ask_writable c desc (uc_world c)) as [er w].
  destruct HC as (r & c4 & Hrun & Hr & Hsw & Hwo). arun Hrun.
  exists c4. rewrite <-Hr. split; [done|].
  rewrite (sw_closer _ _ Hsw), (sw_writing _ _ Hsw), (sw_out _ _ Hsw). done.
Qed.

Lemma WriteTo_run c p addr sa e w :
  AddrToSockAddr (uc_laddr c) addr = Ok sa → 0 < zlen p ≤ nfd_udpBufferSize (uc_nfd c) →
  k_sendto (uc_fd c) p sa (uc_world c) = (e, w) → addr ≠ None →
  ∃ c', run_alone (method out_env set_out_env (nfd_WriteTo (uc_laddr c) p addr)) c
        = Some (Ret ((zlen p, if decide (e = 0) then None else Some (NErrno e)), c')) ∧
    same_write c c' ∧ uc_world c' = w ∧ uc_postpone c' = uc_postpone c ∧ uc_laddr c' = uc_laddr c.
Proof.
  intros Hsa Hp Hk Ha. destruct addr as [a|]; [|done].
  eexists. split.
  - apply run_atomically, zoom_Ret. unfold nfd_WriteTo. rewrite decide_False by lia. mpure.
    rewrite decide_False by (simpl; lia). rewrite Hsa.
    erewrite bind_Ret by (apply on_unet_FD).
    erewrite bind_Ret by (apply usyscall_ok; exact Hk). reflexivity.
  - destruct c as [md rq ch tr ib ob rt wt nf la ra cl po rd wr nb cs ms pl ck co tk].
    destruct pl, po. split; [by split|done].
Qed.

Lemma u_metric_alone name c :
  0 ≤ name →
  ∃ c', run_alone (u_metric name) c = Some (Ret ((), c')) ∧ same_write c c' ∧ uc_world c' = uc_world c.
Proof.
  intros Hn. assert (∃ t, Metrics.Add name 1 (pw_metrics (uc_postpone c)) = Ret ((), t)) as [t Ht].
  { unfold Metrics.Add. case_decide; [by eexists|]. rewrite decide_False by lia. by eexists. }
  eexists. split.
  - unfold u_metric, u_net, method. apply run_atomically, zoom_Ret.
    unfold metric. apply zoom_Ret. exact Ht.
  - by split.
Qed.

Lemma registered_same c c' desc : same_write c c' → registered c desc → registered c' desc.
Proof.
  intros Hs (Hop & Hde & d & Hd & Hp & Hfd). destruct Hs as [_ _ _ Hn Hc _].
  unfold registered, uc_fd. rewrite Hn, Hc. split; [done|]. split; [done|]. by exists d.
Qed.

Lemma ask_same c c' desc w : same_write c c' → ask_writable c' desc w = ask_writable c desc w.
Proof. intros [_ _ _ Hn _ He]. unfold ask_writable, uc_fd. by rewrite Hn, He. Qed.

Lemma parcel_len p addr block : parcel p addr = Ok block → zlen block = SockaddrSize + zlen p.
Proof.
  unfold parcel. destruct addr as [[| a port z| |]|]; try done.
  destruct (UDPAddrToSockaddrSlice a port z) as [sa|] eqn:E; [|done]. intros [= <-].
  by rewrite zlen_app, (zlen_raw _ _ _ _ E).
Qed.

(** What is left to do after a direct send. *)
Lemma recheck_alone c n :
  holds_blocks true (uc_outBuffer c) [] →
  run_alone (u_recheck n) c = Some (Ret ((n, None), uset_outBuffer (uc_outBuffer c) c)).
Proof.
  intros Hh. unfold u_recheck. arun (out_LenRead_alone c). rewrite decide_False; [done|].
  apply holds_blocks_holds, holds_len in Hh as [-> _]. by intros [].
Qed.

(** Sending a packet when nobody else is. *)
Lemma writeToNetFD_alone c p addr sa e w :
  uc_writing c = unlocked → holds_blocks true (uc_outBuffer c) [] →
  AddrToSockAddr (uc_laddr c) addr = Ok sa → 0 < zlen p ≤ nfd_udpBufferSize (uc_nfd c) → addr ≠ None →
  k_sendto (uc_fd c) p sa (uc_world c) = (e, w) →
  ∃ c', run_alone (u_writeToNetFD p addr) c
        = Some (Ret ((zlen p, if decide (e = 0) then None else Some (NErrno e)), c')) ∧
    same_write c c' ∧ uc_world c' = w.
Proof.
  intros Hun Hh Hsa Hp Ha Hk. unfold u_writeToNetFD.
  arun (TryLock_alone c Hun). cbn [negb]. cbv iota. apure.
  set (c1 := uset_writing locked c).
  destruct (WriteTo_run c1 p addr sa e w Hsa Hp Hk Ha) as (c2 & H2 & Hs2 & Hw2 & _). arun H2.
  destruct (u_metric_alone Metrics.UDPWriteToCalls c2) as (c3 & H3 & Hs3 & Hw3); [done|]. arun H3.
  apure. set (c4 := uset_writing unlocked c3).
  assert (Hs4 : same_write c c4).
  { destruct Hs2 as [? ? ? ? ? ?], Hs3 as [? ? ? ? ? ?].
    split; simpl in *; congruence. }
  destruct (decide (e = 0)) as [He|He].
  - exists (uset_outBuffer (uc_outBuffer c4) c4). split.
    + apply recheck_alone. by rewrite (sw_out _ _ Hs4).
    + split; [by destruct Hs4|]. change (uc_world c3 = w). congruence.
  - destruct (u_metric_alone Metrics.UDPWriteToFails c4) as (c5 & H5 & Hs5 & Hw5); [done|].
    exists c5. split; [by arun H5|]. split.
    + destruct Hs4, Hs5. split; congruence.
    + rewrite Hw5. change (uc_world c3 = w). congruence.
Qed.

(** The packet goes into the queue, as it is or after the socket refused it. *)
Lemma queue_alone c2 c3 desc p addr block w :
  same_write c2 c3 → uc_world c3 = w → registered c2 desc → uc_writing c2 = unlocked →
  parcel p addr = Ok block → holds_blocks true (uc_outBuffer c2) [] → 0 < zlen p < 2 ^ 31 →
  let '(er, w') := ask_writable c2 desc w in
  ∃ c4, run_alone (u_writeToBuffer p addr) c3 = Some (Ret ((zlen p, ctl_error er), c4)) ∧
    uc_closer c4 = uc_closer c2 ∧ uc_writing c4 = locked ∧
    holds_blocks true (uc_outBuffer c4) [block] ∧ uc_world c4 = w'.
Proof.
  intros Hs Hw Hreg Hun Hpa Hh Hp. pose proof (parcel_len _ _ _ Hpa) as Hlen. unfold SockaddrSize in Hlen.
  pose proof (writeToBuffer_alone c3 desc p addr block) as HB.
  rewrite (ask_same _ _ _ _ Hs), Hw, (sw_writing _ _ Hs), (sw_out _ _ Hs), (sw_closer _ _ Hs) in HB.
  replace (zlen block - SockaddrSize) with (zlen p) in HB by (unfold SockaddrSize; lia).
  apply HB; try done; [by eapply registered_same|lia|unfold SockaddrSize; lia].
Qed.

(** [WriteTo] inside its job, where [c2] differs from [c] in the job alone. *)
Lemma WriteTo_alone c p addr r c3 :
  idle c → uc_wtimer c = None → 0 < zlen p ≤ nfd_udpBufferSize (uc_nfd c) →
  let c2 := uset_postpone (uc_postpone c)
              (uset_closer (setJob apiWrite (CJob (RW 1 false) false) (uc_closer c)) c) in
  run_alone (if pw_enable (uc_postpone c) then u_writeToBuffer p addr
             else r ← u_writeToNetFD p addr;
                  if decide (r = (0, None) ∨ r.2 = Some (NErrno EAGAIN)) then u_writeToBuffer p addr else Fin r) c2
    = Some (Ret (r, c3)) →
  uc_closer c3 = uc_closer c2 →
  run_alone (u_WriteTo p addr) c = Some (Ret (r, uset_closer (uc_closer c) c3)).
Proof.
  intros Hid Hwt Hp c2 Hrun Hcl. unfold u_WriteTo. rewrite decide_False by lia.
  assert (Hx : run_alone u_write_expired c = Some (Ret (false, c))).
  { unfold u_write_expired. simpl. unfold gets. by rewrite Hwt. }
  arun Hx. cbv iota. arun (begin_apiWrite c Hid). cbn [negb]. cbv iota.
  assert (Hen : run_alone (u_postpone Enabled) (uset_closer (setJob apiWrite (CJob (RW 1 false) false) (uc_closer c)) c)
                = Some (Ret (pw_enable (uc_postpone c), c2))) by done.
  arun Hen. arun Hrun. by arun (end_apiWrite c3 c Hid Hcl).
Qed.


End Alone.

(** ** Concrete runs *)

#[local] Existing Instance demo_ifaces.

Definition local_addr : Addr := UDPAddr [192; 0; 2; 1] 53 [].
Definition peer_addr : Addr := UDPAddr peer_ip 9000 [].

Definition empty_buffer : Buffer :=
  match New (init_mcache (λ _ _, None)) tiny with
  | Ret (_, b) => b
  | _ => zero_buffer (init_mcache (λ _ _, None)) tiny
  end.

Lemma empty_buffer_holds : holds_blocks true empty_buffer [].
Proof.
  destruct (New_ok (init_mcache (λ _ _, None)) tiny tiny_ok (init_mcache_ok _)) as (b & Hn & Hb & Hc).
  assert (empty_buffer = b) as -> by (unfold empty_buffer; by rewrite Hn). exact Hb.
Qed.

(** Descriptor 2 serves file descriptor 9 of epoll instance 3, which is registered
    for reading. *)
Definition demo_udpconn (inb : Buffer) (nonblocking : bool) (h : option nat) (u : uscript)
    : udpconn nat nat uscript nat :=
  UdpConn None h None (Chan false false) inb empty_buffer None None
    (NetFD (Some 2%positive) false 9 fdUDP false 100 false) (Some local_addr) None
    zero_closer (zero_postpone Metrics.zero) unlocked unlocked nonblocking None []
    (Epoll 1%positive (MkIOData None None) 3 0 false 0
       (DescCache None [] [] {[ 2%positive := MkDesc None (Some 0%nat) 0 None None None None 9 ]} 3%positive)
       u [])
    0 [] 0.

Definition udp_kernel (tx : list (result Z Z)) (rx : list (list byte * list byte)) : uscript :=
  UScript (Script {[ (3, 9) := (rflags, 2%positive) ]} [] [] ∅ ∅) rx tx [] [].

Lemma read_from_takes_one_packet_witness :
  let c := demo_udpconn demo_ubuffer false None (udp_kernel [] []) in
  ∃ c', run_alone (ReadFrom 5 1) c = Some (Ret (Ok (ztake 1 [1; 2], Some peer_addr), c')) ∧
    holds_blocks true (uc_inBuffer c') [demo_packet [3]] ∧ uc_closer c' = uc_closer c.
Proof.
  apply (read_from_takes_one_packet 5 true
           (demo_udpconn demo_ubuffer false None (udp_kernel [] [])) (demo_packet [1; 2]) [demo_packet [3]]).
  - by split_and!.
  - apply demo_ubuffer_holds.
  - lia.
  - vm_compute. reflexivity.
  - intros s b E. vm_compute in E. injection E as <- <-. vm_compute. reflexivity.
Defined.


(** A goroutine that writes one packet. *)
Definition writer (p : list byte) : thread (udpconn nat nat uscript nat) () :=
  _ ← u_WriteTo p (Some peer_addr); Fin ().

Definition finished {S} (i : nat) (w : pool S) : bool :=
  match p_threads w !! i with Some (Fin _) => true | _ => false end.

(** Two goroutines write: while the first one is sending, the second queues its
    packet; the first send fails, and [writeToNetFD] gives the lock up without
    looking at the queue. *)
Definition two_writers : pool (udpconn nat nat uscript nat) :=
  Pool (demo_udpconn empty_buffer false None (udp_kernel [Err 111] [])) [writer [1]; writer [2]].

Definition one_fails : pool (udpconn nat nat uscript nat) :=
  pool_run (replicate 6 0%nat ++ replicate 30 1%nat ++ replicate 30 0%nat) two_writers.

(** Both calls have returned, the second with success; its packet is queued, nobody
    holds the write lock, and the socket is registered for reading only. *)
Theorem udp_packet_is_stuck :
  finished 0 one_fails = true ∧ finished 1 one_fails = true ∧
  rlen (uc_outBuffer (p_state one_fails)) = 29 ∧
  us_out (uc_world (p_state one_fails)) = [] ∧
  uc_writing (p_state one_fails) = unlocked ∧
  sk_interest (us_base (uc_world (p_state one_fails))) = {[ (3, 9) := (rflags, 2%positive) ]}.
Proof. vm_compute. by split_and!. Qed.

(** In nonblocking mode a handler's error closes the connection from inside the
    [sysRead] job, which [Close] waits for: the poller goroutine waits for itself. *)
Definition failing_handler (_ : nat) : thread (udpconn nat nat uscript nat) (option nerr) := Fin (Some NOther).
Definition no_close_handler (_ : nat) : thread (udpconn nat nat uscript nat) () := Fin ().

Definition nonblocking_poller : pool (udpconn nat nat uscript nat) :=
  Pool (demo_udpconn empty_buffer true (Some 0%nat) (udp_kernel [] [(peer_name, [5])]))
    [_ ← udpOnRead (λ _ w, w) no_choice failing_handler no_close_handler 10; Fin ()].

Theorem udp_sync_handler_error_deadlocks :
  let w := pool_run (replicate 60 0%nat) nonblocking_poller in
  finished 0 w = false ∧ eu_l (sysReadJob (uc_closer (p_state w))) = locked ∧
  (match pool_next 0 w with None => true | _ => false end) = true.
Proof. vm_compute. done. Qed.
