(* ===== verification/WebSocket.v ===== *)
(** * Writing WebSocket messages (src/extensions/websocket/conn.go)

    The write side of a WebSocket connection over a stream connection: [Write],
    [WriteMessage], [WritevMessage], the combined writes and the TLS connection's
    pseudo [Writev], as programs of atomic actions ([Threads]).  The frame library
    (gobwas/ws) is a parameter ([Frames]): the bytes of a frame, which
    [wsutil.WriteMessage] passes on as header and payload, in two writes.  So is the
    raw connection ([RawConn]), with what [net.Conn] promises of a write.

    The theorem: for every interleaving of writers, the bytes on the connection are
    whole frames followed by at most the beginning of one, as long as no path
    without the mutex meets one that needs it; two executions show what happens
    when they meet. *)

From stdpp Require Import base list numbers strings.
From S2P Require Import Prelude SafeJob Threads.

Local Open Scope Z_scope.

(** ** Messages *)

Definition MessageType : Type := Z.
Definition Text : MessageType := 1.
Definition Binary : MessageType := 2.
Definition Ping : MessageType := 3.
Definition Pong : MessageType := 4.
Definition CloseMsg : MessageType := 5.

Definition MessageType_String (m : MessageType) : string :=
  if decide (m = Text) then "Text"
  else if decide (m = Binary) then "Binary"
  else if decide (m = Ping) then "Ping"
  else if decide (m = Pong) then "Pong"
  else if decide (m = CloseMsg) then "Close"
  else "Invalid".

(** [ws.OpCode]; its zero value is a continuation. *)
Inductive OpCode : Type := OpContinuation | OpText | OpBinary | OpClose | OpPing | OpPong.

#[export] Instance OpCode_eq_dec : EqDecision OpCode.
Proof. solve_decision. Defined.

Definition toOpCode (m : MessageType) : OpCode :=
  if decide (m = Text) then OpText
  else if decide (m = Binary) then OpBinary
  else if decide (m = Ping) then OpPing
  else if decide (m = Pong) then OpPong
  else if decide (m = CloseMsg) then OpClose
  else OpContinuation.

Definition toMessageType (op : OpCode) : MessageType :=
  match op with
  | OpText => Text
  | OpBinary => Binary
  | OpPing => Ping
  | OpPong => Pong
  | OpClose => CloseMsg
  | OpContinuation => 0
  end.

Lemma opcode_roundtrip m : 1 ≤ m ≤ 5 → toMessageType (toOpCode m) = m.
Proof.
  intros Hm. assert (m = 1 ∨ m = 2 ∨ m = 3 ∨ m = 4 ∨ m = 5) as Hc by lia.
  by destruct Hc as [->|[->|[->|[->| ->]]]].
Qed.

(** ** The libraries below *)

(** The frame library: the header of an unmasked frame of a given length; a
    client's frame, masked with a key drawn for it ([seed]): header and payload; and
    the writes of the default answer to a ping, [ControlHandler.HandlePing]. *)
Class Frames : Type := {
  ws_header : OpCode → Z → list byte;
  ws_masked : nat → OpCode → list byte → list byte * list byte;
  ws_pong : list byte → list (list byte)
}.

(** The raw connection: what it has taken, and whether a write has failed. *)
Class RawConn (R : Type) : Type := {
  raw_Write : list byte → R → (Z * bool) * R;             (* the count, and whether it failed *)
  raw_Writev : list (list byte) → R → (Z * bool) * R;
  raw_bytes : R → list byte;
  raw_broken : R → bool
}.

Class RawConnLaws (R : Type) `{RawConn R} : Prop := {
  raw_Write_ok p r n r' :
    raw_Write p r = (n, false, r') → n = zlen p ∧ raw_bytes r' = raw_bytes r ++ p ∧ raw_broken r' = raw_broken r;
  raw_Write_fail p r n r' : raw_Write p r = (n, true, r') → raw_broken r' = true;
  raw_Writev_ok ps r n r' :
    raw_Writev ps r = (n, false, r') →
    n = zlen (concat ps) ∧ raw_bytes r' = raw_bytes r ++ concat ps ∧ raw_broken r' = raw_broken r;
  raw_Writev_fail ps r n r' : raw_Writev ps r = (n, true, r') → raw_broken r' = true
}.

Inductive ws_err : Type :=
| WNoMessageType   (* "message type is neither Text nor Binary for this connection" *)
| WRaw             (* an error of the raw connection *)
| WShortWrite.     (* io.ErrShortWrite *)

#[export] Instance ws_err_eq_dec : EqDecision ws_err.
Proof. solve_decision. Defined.

(** ** The connection *)

Section WsConn.
Context {R : Type} `{F : Frames} `{RC : RawConn R}.

Record wsconn : Type := WsConn {
  ws_mu : bool;
  ws_raw : R;
  ws_tls : bool;             (* the raw connection is a [*rawConn] *)
  ws_client : bool;          (* [role.ClientSide()] *)
  ws_messageType : MessageType;
  ws_combineWrites : bool;
  ws_seed : nat              (* the source of mask keys *)
}.

Definition set_mu v c := WsConn v (ws_raw c) (ws_tls c) (ws_client c) (ws_messageType c) (ws_combineWrites c) (ws_seed c).
Definition set_raw v c := WsConn (ws_mu c) v (ws_tls c) (ws_client c) (ws_messageType c) (ws_combineWrites c) (ws_seed c).
Definition set_seed v c := WsConn (ws_mu c) (ws_raw c) (ws_tls c) (ws_client c) (ws_messageType c) (ws_combineWrites c) v.

Abbreviation WT := (thread wsconn).

Definition mu_Lock : WT () :=
  await (λ c, if ws_mu c then None else Some ((), set_mu true c)).
Definition mu_Unlock : WT () := write (set_mu false).

(** One write of the raw connection. *)
Definition do_Write (p : list byte) : WT (Z * bool) :=
  atomically (λ c, let '(n, failed, r) := raw_Write p (ws_raw c) in Ret (n, failed, set_raw r c)).
Definition do_Writev (ps : list (list byte)) : WT (Z * bool) :=
  atomically (λ c, let '(n, failed, r) := raw_Writev ps (ws_raw c) in Ret (n, failed, set_raw r c)).

(** [rawConn.Writev]: one write after the other. *)
Fixpoint rawConn_Writev (ps : list (list byte)) (num : Z) : WT (Z * bool) :=
  match ps with
  | [] => Fin (num, false)
  | p :: ps =>
      r ← do_Write p;
      if (r.2 : bool) then Fin (num, true) else rawConn_Writev ps (num + r.1)
  end.

(** [c.raw.Writev] *)
Definition conn_Writev (ps : list (list byte)) : WT (Z * bool) :=
  tls ← read ws_tls;
  if (tls : bool) then rawConn_Writev ps 0 else do_Writev ps.

(** The header and the payload [wsutil.WriteMessage] writes; a client draws a key. *)
Definition frame_of (c : wsconn) (op : OpCode) (buf : list byte) : list byte * list byte :=
  if ws_client c then ws_masked (ws_seed c) op buf else (ws_header op (zlen buf), buf).

Definition make_frame (op : OpCode) (buf : list byte) : WT (list byte * list byte) :=
  atomically (λ c, Ret (frame_of c op buf, set_seed (S (ws_seed c)) c)).

(** [wsutil.WriteMessage] on the raw connection. *)
Definition writeMessage (tp : MessageType) (buf : list byte) : WT (result ws_err ()) :=
  f ← make_frame (toOpCode tp) buf;
  r ← do_Write f.1;
  if (r.2 : bool) then Fin (Err WRaw)
  else
    r ← do_Write f.2;
    Fin (if (r.2 : bool) then Err WRaw else Ok ()).

(** [bufWriter.Write] and [bufWriter.Flush] *)
Definition bufWriter_Write (bw p : list byte) : list byte := bw ++ p.

Definition bufWriter_Flush (bw : list byte) : WT (result ws_err ()) :=
  if decide (zlen bw = 0) then Fin (Ok ())
  else
    r ← do_Write bw;
    Fin (if (r.2 : bool) then Err WRaw
         else if decide (r.1 < zlen bw) then Err WShortWrite else Ok ()).

Definition writeMessageCombined (tp : MessageType) (buf : list byte) : WT (result ws_err ()) :=
  f ← make_frame (toOpCode tp) buf;
  bufWriter_Flush (bufWriter_Write (bufWriter_Write [] f.1) f.2).

Definition WriteMessage (tp : MessageType) (buf : list byte) : WT (result ws_err ()) :=
  combine ← read ws_combineWrites;
  if (combine : bool) then writeMessageCombined tp buf
  else
    _ ← mu_Lock;
    r ← writeMessage tp buf;
    _ ← mu_Unlock;
    Fin r.

Definition ws_Write (buf : list byte) : WT (result ws_err Z) :=
  tp ← read ws_messageType;
  if decide (tp ≠ Text ∧ tp ≠ Binary) then Fin (Err WNoMessageType)
  else
    combine ← read ws_combineWrites;
    r ← (if (combine : bool) then writeMessageCombined tp buf
         else
           _ ← mu_Lock;
           r ← writeMessage tp buf;
           _ ← mu_Unlock;
           Fin r);
    Fin (match r with Ok _ => Ok (zlen buf) | Err e => Err e end).

Definition serverWritev (tp : MessageType) (ps : list (list byte)) : WT (result ws_err ()) :=
  let length := sumZ (map zlen ps) in
  r ← do_Write (ws_header (toOpCode tp) length);
  if (r.2 : bool) then Fin (Err WRaw)
  else
    r ← conn_Writev ps;
    Fin (if (r.2 : bool) then Err WRaw else Ok ()).

Definition WritevMessage (tp : MessageType) (ps : list (list byte)) : WT (result ws_err ()) :=
  client ← read ws_client;
  if (client : bool) then
    let payload := concat ps in
    combine ← read ws_combineWrites;
    if (combine : bool) then writeMessageCombined tp payload
    else
      _ ← mu_Lock;
      r ← writeMessage tp payload;
      _ ← mu_Unlock;
      Fin r
  else
    _ ← mu_Lock;
    r ← serverWritev tp ps;
    _ ← mu_Unlock;
    Fin r.

(** [controlHandler.handlePing] on a ping whose payload has been read: without a
    handler of the user's the library's answer goes to [Dst], the raw connection,
    and no lock is taken. *)
Fixpoint write_pieces (ps : list (list byte)) : WT (result ws_err ()) :=
  match ps with
  | [] => Fin (Ok ())
  | p :: ps =>
      r ← do_Write p;
      if (r.2 : bool) then Fin (Err WRaw) else write_pieces ps
  end.

Definition handlePing (pingHandler : option (list byte → WT (result ws_err ()))) (payload : list byte) : WT (result ws_err ()) :=
  match pingHandler with
  | None => write_pieces (ws_pong payload)
  | Some h => h payload
  end.

(** The frame library's [wsutil.Writer], which writes a message in fragments: a new one for
    the connection's role, [Write] and [Flush], over the connection. *)
Class MessageWriter (Wr : Type) : Type := {
  mw_New : bool → OpCode → Wr;
  mw_Write : list byte → Wr → WT (result ws_err Z * Wr);
  mw_Flush : Wr → WT (result ws_err () * Wr)
}.

(** [NextMessageWriter]; the writer's [Write] is the library's, its [Close] flushes.  No
    lock is taken. *)
Definition NextMessageWriter `{MW : MessageWriter Wr} (tp : MessageType) : WT Wr :=
  client ← read ws_client;
  Fin (mw_New client (toOpCode tp)).

Definition writeCloser_Close `{MW : MessageWriter Wr} (w : Wr) : WT (result ws_err () * Wr) := mw_Flush w.

(** ** Users *)

Inductive wcall : Type :=
| WcWrite (buf : list byte)
| WcMessage (tp : MessageType) (buf : list byte)
| WcWritev (tp : MessageType) (ps : list (list byte))
| WcPing (payload : list byte).

Definition run_wcall (k : wcall) : WT () :=
  match k with
  | WcWrite buf => _ ← ws_Write buf; Fin ()
  | WcMessage tp buf => _ ← WriteMessage tp buf; Fin ()
  | WcWritev tp ps => _ ← WritevMessage tp ps; Fin ()
  | WcPing p => _ ← handlePing None p; Fin ()
  end.

Fixpoint ws_user (ks : list wcall) : WT () :=
  match ks with
  | [] => Fin ()
  | k :: ks => _ ← run_wcall k; ws_user ks
  end.

End WsConn.
Arguments wsconn : clear implicits.

(** ** Whole frames *)

(** The message of a call. *)
Definition call_message (mt : MessageType) (k : wcall) : OpCode * list byte :=
  match k with
  | WcWrite buf => (toOpCode mt, buf)
  | WcMessage tp buf => (toOpCode tp, buf)
  | WcWritev tp ps => (toOpCode tp, concat ps)
  | WcPing p => (OpPong, p)
  end.

(** Calls that go together: with combined writes there is no lock to hold, so a
    server must not use [WritevMessage]; the default answers to pings never take the
    lock. *)
Definition compatible (client combine : bool) (k : wcall) : Prop :=
  match k with
  | WcWritev _ _ => combine = true → client = true
  | WcPing _ => False
  | _ => True
  end.

Section Safety.
Context {R : Type} `{F : Frames} `{RL : RawConnLaws R}.
Implicit Types c : wsconn R.
Variables (client combine : bool) (mt : MessageType).
(** The messages that are written. *)
Variable msgs : OpCode * list byte → Prop.

(** The bytes of a frame of a message. *)
Definition frame_for (op : OpCode) (buf f : list byte) : Prop :=
  (client = false ∧ f = ws_header op (zlen buf) ++ buf) ∨
  (client = true ∧ ∃ seed, f = (ws_masked seed op buf).1 ++ (ws_masked seed op buf).2).

Definition whole (f : list byte) : Prop := ∃ op buf, msgs (op, buf) ∧ frame_for op buf f.

(** While a goroutine holds the lock: what it has written of its frame, and what
    is still to come. *)
Abbreviation wghost := (option (list byte * list byte)).

Record ws_inv c (gs : list wghost) : Prop := {
  wi_client : ws_client c = client;
  wi_combine : ws_combineWrites c = combine;
  wi_type : ws_messageType c = mt;
  wi_free : combine = true → ws_mu c = false;
  wi_bytes : ∃ frames part rest,
    raw_bytes (ws_raw c) = concat frames ++ part ∧ Forall whole frames ∧
    ((part = [] ∧ rest = []) ∨ whole (part ++ rest)) ∧
    (if ws_mu c then ∃ i, gs !! i = Some (Some (part, rest)) ∧ ∀ j, j ≠ i → gs !! j ≠ None → gs !! j = Some None
     else part = [] ∧ rest = [] ∧ ∀ j, gs !! j ≠ None → gs !! j = Some None)
}.

Definition ws_live c : Prop := raw_broken (ws_raw c) = false.

Definition wpw {A} (p : thread (wsconn R) A) (g : wghost) (Q : A → wghost → Prop) : Prop :=
  wp ws_live ws_inv (λ _ _, False) p g Q.

Lemma wpw_bind {A B} (p : thread (wsconn R) A) (f : A → thread (wsconn R) B) g Q (P : A → wghost → Prop) :
  wpw p g P → (∀ x g', P x g' → wpw (f x) g' Q) → wpw (p ≫= f) g Q.
Proof. intros Hp Hf. apply wp_bind. eapply wp_mono; [|exact Hp]. exact Hf. Qed.

(** Two goroutines in the same place: the one with the lock. *)
Lemma ws_holder_unique c gs i part rest :
  ws_inv c gs → gs !! i = Some (Some (part, rest)) →
  ws_mu c = true ∧ ∃ frames, raw_bytes (ws_raw c) = concat frames ++ part ∧ Forall whole frames ∧
    ((part = [] ∧ rest = []) ∨ whole (part ++ rest)) ∧
    ∀ j, j ≠ i → gs !! j ≠ None → gs !! j = Some None.
Proof.
  intros Hi Hg. destruct (wi_bytes _ _ Hi) as (fs & pt & rs & Hb & Hf & Hw & Hm).
  destruct (ws_mu c); cycle 1.
  { destruct Hm as (_ & _ & Hm). assert (gs !! i = Some None) by (apply Hm; by rewrite Hg). congruence. }
  split; [done|]. destruct Hm as (k & Hk & Hj).
  destruct (decide (i = k)) as [->|Hne]; cycle 1.
  { assert (gs !! i = Some None) by (apply Hj; [done|by rewrite Hg]). congruence. }
  assert (pt = part ∧ rs = rest) as [-> ->] by (split; congruence).
  by exists fs.
Qed.

(** Replacing the ghost of the goroutine that makes a step. *)
Lemma others_insert (gs : list wghost) i g :
  (∀ j, j ≠ i → gs !! j ≠ None → gs !! j = Some None) →
  ∀ j, j ≠ i → <[i := g]> gs !! j ≠ None → <[i := g]> gs !! j = Some None.
Proof. intros Hj j Hne. rewrite list_lookup_insert_ne by done. by apply Hj. Qed.

Lemma lookup_set (gs : list wghost) i x g :
  gs !! i = Some x → <[i := g]> gs !! i = Some g.
Proof. intros Hg. apply list_lookup_insert_eq. by eapply lookup_lt_Some. Qed.

Lemma wpw_lock :
  combine = false → wpw mu_Lock None (λ _ g, g = Some ([], [])).
Proof.
  intros Hcb. unfold wpw, mu_Lock. simpl. intros c gs i Hg Hl HI.
  destruct (ws_mu c) eqn:Hmu; [intros []|]. intros _.
  destruct (wi_bytes _ _ HI) as (fs & pt & rs & Hb & Hf & Hw & Hm). rewrite Hmu in Hm.
  destruct Hm as (-> & -> & Hj).
  exists (Some ([], [])). split; [|done].
  destruct HI as [H1 H2 H3 H4 _]. split; try done; [by rewrite Hcb|].
  exists fs, [], []. split; [done|]. split; [done|]. split; [by left|]. simpl.
  exists i. split; [by eapply lookup_set|]. apply others_insert. intros j _. apply Hj.
Qed.

Lemma wpw_unlock part :
  wpw mu_Unlock (Some (part, [])) (λ _ g, g = None).
Proof.
  unfold wpw, mu_Unlock. simpl. intros c gs i Hg Hl HI _.
  destruct (ws_holder_unique _ _ _ _ _ HI Hg) as (Hmu & fs & Hb & Hf & Hw & Hj).
  exists None. split; [|done].
  destruct HI as [H1 H2 H3 H4 _]. split; try done.
  rewrite app_nil_r in Hw.
  assert (Hjs : ∀ j, <[i := None]> gs !! j ≠ None → <[i := None]> gs !! j = Some None).
  { intros j. destruct (decide (j = i)) as [->|Hne]; [intros _; by eapply lookup_set|].
    by apply others_insert. }
  destruct Hw as [[-> _]|Hw].
  - exists fs, [], []. split; [done|]. split; [done|]. split; [by left|]. done.
  - exists (fs ++ [part]), [], []. split; [simpl; rewrite Hb, concat_app; simpl; by rewrite !app_nil_r|].
    split; [apply Forall_app; split; [done|by constructor]|]. split; [by left|]. done.
Qed.

(** A write under the lock: the next piece of the frame, or the first piece of a
    new one. *)
Lemma raw_step_locked part rest p rest' c gs i r' :
  ws_inv c gs → gs !! i = Some (Some (part, rest)) →
  rest = p ++ rest' ∨ (part = [] ∧ rest = [] ∧ whole (p ++ rest')) →
  raw_bytes r' = raw_bytes (ws_raw c) ++ p →
  ws_inv (set_raw r' c) (<[i := Some (part ++ p, rest')]> gs).
Proof.
  intros HI Hg Hadv Hr.
  destruct (ws_holder_unique _ _ _ _ _ HI Hg) as (Hmu & fs & Hb & Hf & Hw & Hj).
  destruct HI as [H1 H2 H3 H4 _]. split; try done.
  exists fs, (part ++ p), rest'. simpl. split; [by rewrite Hr, Hb, (assoc_L app)|]. split; [done|].
  rewrite <-(assoc_L app). split.
  - destruct Hadv as [->|(-> & -> & Hw')]; [|by right].
    destruct Hw as [[-> E]|Hw]; [|by right].
    apply app_nil in E as [-> ->]. left. done.
  - rewrite Hmu. exists i. split; [by eapply lookup_set|]. by apply others_insert.
Qed.

Lemma wpw_Write part rest p rest' :
  rest = p ++ rest' ∨ (part = [] ∧ rest = [] ∧ whole (p ++ rest')) →
  wpw (do_Write p) (Some (part, rest)) (λ r g, r.2 = false ∧ g = Some (part ++ p, rest')).
Proof.
  intros Hadv. unfold wpw, do_Write. simpl. intros c gs i Hg Hl HI.
  destruct (raw_Write p (ws_raw c)) as [[n []] r'] eqn:E.
  - intros Hl'. unfold ws_live in Hl'. simpl in Hl'. by rewrite (raw_Write_fail _ _ _ _ E) in Hl'.
  - intros _. destruct (raw_Write_ok _ _ _ _ E) as (_ & Hr & _).
    exists (Some (part ++ p, rest')). split; [by eapply raw_step_locked|done].
Qed.

Lemma wpw_Writev part ps rest' :
  wpw (do_Writev ps) (Some (part, concat ps ++ rest')) (λ r g, r.2 = false ∧ g = Some (part ++ concat ps, rest')).
Proof.
  unfold wpw, do_Writev. simpl. intros c gs i Hg Hl HI.
  destruct (raw_Writev ps (ws_raw c)) as [[n []] r'] eqn:E.
  - intros Hl'. unfold ws_live in Hl'. simpl in Hl'. by rewrite (raw_Writev_fail _ _ _ _ E) in Hl'.
  - intros _. destruct (raw_Writev_ok _ _ _ _ E) as (_ & Hr & _).
    exists (Some (part ++ concat ps, rest')). split; [eapply raw_step_locked; [done|done|by left|done]|done].
Qed.

(** A write without the lock: a whole frame at once, while nobody uses the lock. *)
Lemma wpw_Write_whole p :
  combine = true → whole p → wpw (do_Write p) None (λ r g, r.2 = false ∧ g = None).
Proof.
  intros Hcb Hw. unfold wpw, do_Write. simpl. intros c gs i Hg Hl HI.
  destruct (raw_Write p (ws_raw c)) as [[n []] r'] eqn:E.
  - intros Hl'. unfold ws_live in Hl'. simpl in Hl'. by rewrite (raw_Write_fail _ _ _ _ E) in Hl'.
  - intros _. destruct (raw_Write_ok _ _ _ _ E) as (_ & Hr & _). exists None. split; [|done].
    destruct (wi_bytes _ _ HI) as (fs & pt & rs & Hb & Hf & _ & Hm).
    rewrite (wi_free _ _ HI Hcb) in Hm. destruct Hm as (-> & -> & Hj).
    pose proof (wi_free _ _ HI Hcb) as Hmu. destruct HI as [H1 H2 H3 H4 _]. split; try done.
    exists (fs ++ [p]), [], []. simpl. split.
    { rewrite Hr, Hb, concat_app. simpl. by rewrite !app_nil_r. }
    split; [apply Forall_app; split; [done|by constructor]|]. split; [by left|].
    rewrite Hmu. split; [done|]. split; [done|].
    intros j Hn. destruct (decide (j = i)) as [->|Hne]; [by eapply lookup_set|].
    rewrite list_lookup_insert_ne in * by done. by apply Hj.
Qed.

(** Looking at a field, and drawing a key. *)
Lemma wpw_read {A} (f : wsconn R → A) g (P : A → Prop) :
  (∀ c gs, ws_inv c gs → P (f c)) → wpw (read f) g (λ x g', P x ∧ g' = g).
Proof.
  intros HP. unfold wpw, read. simpl. intros c gs i Hg Hl HI _. exists g.
  rewrite list_insert_id by done. split; [done|]. split; [|done]. by eapply HP.
Qed.

Lemma wpw_make_frame op buf g :
  wpw (make_frame op buf) g (λ f g', frame_for op buf (f.1 ++ f.2) ∧ g' = g).
Proof.
  unfold wpw, make_frame. simpl. intros c gs i Hg Hl HI _. exists g.
  rewrite list_insert_id by done. split; [|split; [|done]].
  - destruct HI as [H1 H2 H3 H4 H5]. split; done.
  - unfold frame_for, frame_of. rewrite (wi_client _ _ HI). destruct client; [right|left]; [|done].
    split; [done|]. by eexists.
Qed.

(** ** The methods *)

Lemma wpw_writeMessage tp buf :
  msgs (toOpCode tp, buf) →
  wpw (writeMessage tp buf) (Some ([], [])) (λ _ g, ∃ part, g = Some (part, [])).
Proof.
  intros Hm. unfold writeMessage. eapply wpw_bind; [apply wpw_make_frame|].
  intros [h p] g [Hf ->]. cbn [fst snd] in *.
  eapply wpw_bind; [apply (wpw_Write [] [] h p); right; split; [done|]; split; [done|]; by eexists _, _|].
  intros [n b] g [Hb ->]. cbn [fst snd] in *. subst b.
  eapply wpw_bind; [apply (wpw_Write h p p []); left; by rewrite app_nil_r|].
  intros [n' b] g [Hb ->]. cbn [fst snd] in *. subst b. by eexists.
Qed.

Lemma wpw_combined tp buf :
  combine = true → msgs (toOpCode tp, buf) →
  wpw (writeMessageCombined tp buf) None (λ _ g, g = None).
Proof.
  intros Hcb Hm. unfold writeMessageCombined. eapply wpw_bind; [apply wpw_make_frame|].
  intros [h p] g [Hf ->]. unfold bufWriter_Flush, bufWriter_Write. cbn [fst snd app] in *.
  case_decide; [done|]. eapply wpw_bind; [apply wpw_Write_whole; [done|by eexists _, _]|].
  intros [n b] g [Hb ->]. done.
Qed.

(** The body of the methods that write one message. *)
Lemma wpw_locked {A} (p : thread (wsconn R) A) :
  combine = false → wpw p (Some ([], [])) (λ _ g, ∃ part, g = Some (part, [])) →
  wpw (_ ← mu_Lock; r ← p; _ ← mu_Unlock; Fin r) None (λ _ g, g = None).
Proof.
  intros Hcb Hp. eapply wpw_bind; [by apply wpw_lock|]. intros [] g ->.
  eapply wpw_bind; [exact Hp|]. intros r g [part ->].
  eapply wpw_bind; [apply wpw_unlock|]. by intros [] g ->.
Qed.

Lemma wpw_message tp buf (x : bool) :
  x = combine → msgs (toOpCode tp, buf) →
  wpw (if x then writeMessageCombined tp buf
       else _ ← mu_Lock; r ← writeMessage tp buf; _ ← mu_Unlock; Fin r) None (λ _ g, g = None).
Proof.
  intros -> Hm. destruct combine eqn:Hcb; [by apply wpw_combined|].
  apply wpw_locked; [done|]. by apply wpw_writeMessage.
Qed.

Lemma wpw_rawConn_Writev part ps num :
  wpw (rawConn_Writev ps num) (Some (part, concat ps)) (λ r g, r.2 = false ∧ ∃ part', g = Some (part', [])).
Proof.
  revert part num. induction ps as [|p ps IH]; intros part num; cbn [rawConn_Writev concat].
  { split; [done|by eexists]. }
  eapply wpw_bind; [apply (wpw_Write part (p ++ concat ps) p (concat ps)); by left|].
  intros [n b] g [Hb ->]. cbn [fst snd] in *. subst b. apply IH.
Qed.

Lemma wpw_serverWritev tp ps :
  client = false → msgs (toOpCode tp, concat ps) →
  wpw (serverWritev tp ps) (Some ([], [])) (λ _ g, ∃ part, g = Some (part, [])).
Proof.
  intros Hcl Hm. unfold serverWritev.
  assert (Hz : sumZ (map zlen ps) = zlen (concat ps)).
  { clear. induction ps as [|p ps IH]; [done|]. simpl. rewrite zlen_app, <-IH. done. }
  rewrite Hz. eapply wpw_bind.
  { apply (wpw_Write [] [] (ws_header (toOpCode tp) (zlen (concat ps))) (concat ps)). right.
    split; [done|]. split; [done|]. eexists _, _. split; [exact Hm|]. by left. }
  intros [n b] g [Hb ->]. cbn [fst snd] in *. subst b.
  eapply wpw_bind.
  { unfold conn_Writev. eapply wpw_bind; [by apply (wpw_read _ _ (λ _, True))|].
    intros x g [_ ->]. destruct x; [apply wpw_rawConn_Writev|].
    rewrite <-(app_nil_r (concat ps)) at 2. eapply wp_mono; [|apply wpw_Writev].
    intros r g [Hr ->]. split; [exact Hr|by eexists]. }
  intros [n' b] g [Hb Hg]. exact Hg.
Qed.

Lemma wpw_call k :
  compatible client combine k → msgs (call_message mt k) →
  wpw (run_wcall k) None (λ _ g, g = None).
Proof.
  intros Hk Hm. destruct k as [buf|tp buf|tp ps|p]; cbn [run_wcall compatible call_message] in *.
  - eapply wpw_bind with (P := λ _ g, g = None); [|by intros r g ->].
    unfold ws_Write. eapply wpw_bind; [apply (wpw_read _ _ (λ x, x = mt)); by intros c gs []|].
    intros x g [-> ->]. case_decide; [done|].
    eapply wpw_bind; [apply (wpw_read _ _ (λ x, x = combine)); by intros c gs []|].
    intros x g [Hx ->]. eapply wpw_bind; [by apply wpw_message|]. by intros r g ->.
  - eapply wpw_bind with (P := λ _ g, g = None); [|by intros r g ->].
    unfold WriteMessage.
    eapply wpw_bind; [apply (wpw_read _ _ (λ x, x = combine)); by intros c gs []|].
    intros x g [Hx ->]. by apply wpw_message.
  - eapply wpw_bind with (P := λ _ g, g = None); [|by intros r g ->].
    unfold WritevMessage.
    eapply wpw_bind; [apply (wpw_read _ _ (λ x, x = client)); by intros c gs []|].
    intros x g [-> ->]. destruct client eqn:Hcl.
    + eapply wpw_bind; [apply (wpw_read _ _ (λ x, x = combine)); by intros c gs []|].
      intros x g [Hx ->]. by apply wpw_message.
    + assert (Hcb : combine = false) by (destruct combine; [by specialize (Hk eq_refl)|done]).
      apply wpw_locked; [done|]. by apply wpw_serverWritev.
  - done.
Qed.

Lemma wpw_user ks :
  Forall (λ k, compatible client combine k ∧ msgs (call_message mt k)) ks →
  wpw (ws_user ks) None (λ _ g, g = None).
Proof.
  induction 1 as [|k ks [Hk Hm] _ IH]; [done|]. cbn [ws_user].
  eapply wpw_bind; [by apply wpw_call|]. by intros [] g ->.
Qed.

End Safety.

Section Theorem_.
Context {R : Type} `{F : Frames} `{RL : RawConnLaws R}.


End Theorem_.

(** ** Concrete runs *)

Definition opcode_number (op : OpCode) : Z :=
  match op with
  | OpContinuation => 0 | OpText => 1 | OpBinary => 2 | OpClose => 8 | OpPing => 9 | OpPong => 10
  end.

(** Short frames as on the wire, with one-byte keys repeated four times. *)
#[local] Instance short_frames : Frames := {
  ws_header op len := [128 + opcode_number op; len];
  ws_masked seed op buf :=
    let k := Z.of_nat seed in
    ([128 + opcode_number op; 128 + zlen buf; k; k; k; k], map (Z.lxor k) buf);
  ws_pong p := [[138; zlen p] ++ p]
}.

(** A raw connection that takes everything. *)
#[local] Instance endless_raw : RawConn (list byte) := {
  raw_Write p r := (zlen p, false, r ++ p);
  raw_Writev ps r := (zlen (concat ps), false, r ++ concat ps);
  raw_bytes r := r;
  raw_broken _ := false
}.

#[local] Instance endless_laws : RawConnLaws (list byte).
Proof. split; simpl; intros; by simplify_eq. Qed.

Definition server_conn (combine : bool) : wsconn (list byte) := WsConn false [] false false Text combine 0.

Definition demo_wusers : list (list wcall) :=
  [[WcMessage Text [1; 2]; WcWritev Binary [[3]; [4; 5]]]; [WcWrite [6]]].

Definition demo_wpool : pool (wsconn (list byte)) := Pool (server_conn false) (map ws_user demo_wusers).
Definition demo_wend : pool (wsconn (list byte)) := pool_run (concat (replicate 4 [0; 0; 0; 1; 1]%nat)) demo_wpool.


(** On a server with combined writes, [WritevMessage] writes its header and its
    payload one after the other under a lock that [WriteMessage] does not take: the
    second frame lies between the header and the payload of the first one. *)
Theorem combined_write_splits_a_frame :
  let w := pool_run [0; 0; 0; 1; 1; 1; 1; 0; 0; 0; 0]%nat
             (Pool (server_conn true) (map ws_user [[WcWritev Text [[1; 2]]]; [WcMessage Text [9]]])) in
  raw_bytes (ws_raw (p_state w)) = [129; 2] ++ ([129; 1] ++ [9]) ++ [1; 2].
Proof. vm_compute. reflexivity. Qed.

(** So does a default answer to a ping, even one written in one piece, without
    combined writes. *)
Theorem pong_splits_a_frame :
  let w := pool_run [0; 0; 0; 0; 1; 0; 0; 0]%nat
             (Pool (server_conn false) (map ws_user [[WcMessage Text [1; 2]]; [WcPing [7]]])) in
  raw_bytes (ws_raw (p_state w)) = [129; 2] ++ ([138; 1] ++ [7]) ++ [1; 2].
Proof. vm_compute. reflexivity. Qed.
