(* ===== verification/WsRead.v ===== *)
(** * Reading WebSocket messages (src/extensions/websocket/conn.go, control_handler.go)

    The read side of a WebSocket connection: [Read], which makes a byte stream of the
    messages of one type, [ReadMessage], [ReadAnyMessage], [NextMessageReader] and
    the handling of control frames.  The frame reader (gobwas/ws, wsutil.Reader) and
    its default control handlers are a parameter ([FrameReader]), with what their
    documentation says of them ([FrameReaderLaws]); a reader is a value, the source
    it reads from is threaded through.  [io.ReadFull], [io.ReadAll] and [io.Copy]
    are written out.

    The theorems: [Read] delivers the payloads of the messages of its type in order,
    byte for byte, whatever control frames lie between them; a message of another type
    leaves behind a reader that fails forever. *)

From stdpp Require Import base list numbers.
From S2P Require Import Prelude WebSocket.

Local Open Scope Z_scope.

Inductive rerr : Type :=
| REOF               (* io.EOF *)
| RUnexpectedEOF     (* io.ErrUnexpectedEOF *)
| RNoFrameAdvance    (* wsutil.ErrNoFrameAdvance: a read without a frame *)
| RNoMessageType     (* "message type is neither Text nor binary for this connection ..." *)
| RInconsistent      (* "inconsistent message type from Read ..." *)
| RNotControl        (* "not a control frame" *)
| ROther (e : nat).  (* the source, the library or a handler failed *)

#[export] Instance rerr_eq_dec : EqDecision rerr.
Proof. solve_decision. Defined.

Record header : Type := Header { h_OpCode : OpCode; h_Length : Z }.

(** ** The frame library *)

(** [Rd]: readers; [Src]: the sources they read from. *)
Class FrameReader (Rd Src : Type) : Type := {
  fr_new : Rd;
  fr_IsControl : OpCode → bool;
  fr_NextFrame : Rd → Src → (header * option rerr) * (Rd * Src);
  fr_Read : Z → Rd → Src → (list byte * option rerr) * (Rd * Src);
  fr_HandlePing : header → Rd → Src → option rerr * (Rd * Src);
  fr_HandlePong : header → Rd → Src → option rerr * (Rd * Src);
  fr_HandleClose : header → Rd → Src → option rerr * (Rd * Src)
}.

Abbreviation message := (OpCode * list byte)%type.

(** What is documented of them: a source holds messages ([fr_msgs], those that are
    complete and, if text, valid); a reader is idle or has the rest of a message to deliver
    ([fr_rest]), in at most [fr_left] reads. *)
Class FrameReaderLaws (Rd Src : Type) `{FrameReader Rd Src} : Type := {
  fr_msgs : Src → list message;
  fr_idle : Rd → Prop;
  fr_rest : Rd → Src → option (list byte);
  fr_left : Rd → Src → nat;
  fr_new_idle : fr_idle fr_new;
  fr_IsControl_ok op : fr_IsControl op = true ↔ op = OpClose ∨ op = OpPing ∨ op = OpPong;
  (** The next frame of a reader that has finished its message. *)
  fr_NextFrame_ok rd src op p ms :
    fr_idle rd ∨ fr_rest rd src = Some [] → fr_msgs src = (op, p) :: ms →
    ∃ h rd' src', fr_NextFrame rd src = ((h, None), (rd', src')) ∧ h_OpCode h = op ∧
      (fr_IsControl op = true → h_Length h = zlen p) ∧
      fr_rest rd' src' = Some p ∧ fr_msgs src' = ms;
  fr_NextFrame_end rd src :
    fr_idle rd ∨ fr_rest rd src = Some [] → fr_msgs src = [] →
    ∃ h e rd' src', fr_NextFrame rd src = ((h, Some e), (rd', src'));
  (** A read delivers some of the rest of the message, and [io.EOF] at its end. *)
  fr_Read_ok n rd src p :
    0 < n → fr_rest rd src = Some p →
    ∃ data e rd' src' p', fr_Read n rd src = ((data, e), (rd', src')) ∧ p = data ++ p' ∧ zlen data ≤ n ∧
      fr_msgs src' = fr_msgs src ∧
      (e = None ∧ fr_rest rd' src' = Some p' ∧ (fr_left rd' src' < fr_left rd src)%nat ∨
       e = Some REOF ∧ p' = [] ∧ fr_idle rd');
  fr_Read_idle n rd src : fr_idle rd → fr_Read n rd src = (([], Some RNoFrameAdvance), (rd, src));
  (** The default handlers consume the frame. *)
  fr_Handle_ok f h rd src p :
    f = fr_HandlePing ∨ f = fr_HandlePong ∨ f = fr_HandleClose →
    fr_rest rd src = Some p →
    ∃ e rd' src', f h rd src = (e, (rd', src')) ∧ fr_msgs src' = fr_msgs src ∧
      (e = None → fr_idle rd' ∨ fr_rest rd' src' = Some [])
}.

(** ** The connection *)

Section WsRead.
Context {Rd Src : Type} `{FR : FrameReader Rd Src}.

(** User handlers by the error they return. *)
Record rconn : Type := RConn {
  rc_src : Src;
  rc_reader : option Rd;
  rc_messageType : MessageType;
  rc_pingHandler : option (list byte → option rerr);
  rc_pongHandler : option (list byte → option rerr)
}.

Definition set_src v c := RConn v (rc_reader c) (rc_messageType c) (rc_pingHandler c) (rc_pongHandler c).
Definition set_reader v c := RConn (rc_src c) v (rc_messageType c) (rc_pingHandler c) (rc_pongHandler c).

Abbreviation MR := (M rconn).

(** A call of the library on the source. *)
Definition on_src {A} (f : Src → A * (Rd * Src)) : MR (A * Rd) := λ c,
  let '(a, (rd, src)) := f (rc_src c) in Ret ((a, rd), set_src src c).

(** [io.ReadFull(rd, make([]byte, n))] *)
Fixpoint ReadFull (fuel : nat) (n : Z) (rd : Rd) (got : list byte) : MR (result rerr (list byte) * Rd) :=
  if decide (n ≤ zlen got) then mret (Ok got, rd)
  else
    match fuel with
    | O => nofuel
    | S fuel =>
        x ← on_src (fr_Read (n - zlen got) rd);
        let '((data, e), rd) := x : (list byte * option rerr) * Rd in
        let got := got ++ data in
        match e with
        | None => ReadFull fuel n rd got
        | Some err =>
            if decide (n ≤ zlen got) then mret (Ok got, rd)
            else if decide (err = REOF ∧ 0 < zlen got) then mret (Err RUnexpectedEOF, rd)
            else mret (Err err, rd)
        end
    end.

(** [io.ReadAll], with a buffer that has room for [piece] bytes at every read; with
    8192 it is [io.Copy] to [io.Discard]. *)
Fixpoint ReadAll (fuel : nat) (piece : Z) (rd : Rd) (got : list byte) : MR (list byte * option rerr * Rd) :=
  match fuel with
  | O => nofuel
  | S fuel =>
      x ← on_src (fr_Read piece rd);
      let '((data, e), rd) := x : (list byte * option rerr) * Rd in
      let got := got ++ data in
      match e with
      | None => ReadAll fuel piece rd got
      | Some REOF => mret (got, None, rd)
      | Some err => mret (got, Some err, rd)
      end
  end.

(** [controlHandler.handle] and what it calls. *)
Definition handleCustomized (fuel : nat) (handler : list byte → option rerr) (h : header) (rd : Rd) : MR (option rerr * Rd) :=
  r ← ReadFull fuel (h_Length h) rd [];
  match r : result rerr (list byte) * Rd with
  | (Err e, rd) => mret (Some e, rd)
  | (Ok buf, rd) => mret (handler buf, rd)
  end.

Definition r_handlePing (fuel : nat) (h : header) (rd : Rd) : MR (option rerr * Rd) :=
  ph ← gets rc_pingHandler;
  match ph with
  | None => on_src (fr_HandlePing h rd)
  | Some f => handleCustomized fuel f h rd
  end.

Definition r_handlePong (fuel : nat) (h : header) (rd : Rd) : MR (option rerr * Rd) :=
  ph ← gets rc_pongHandler;
  match ph with
  | None => on_src (fr_HandlePong h rd)
  | Some f => handleCustomized fuel f h rd
  end.

Definition r_handleClose (h : header) (rd : Rd) : MR (option rerr * Rd) := on_src (fr_HandleClose h rd).

Definition ws_handle (fuel : nat) (h : header) (rd : Rd) : MR (option rerr * Rd) :=
  match h_OpCode h with
  | OpPing => r_handlePing fuel h rd
  | OpPong => r_handlePong fuel h rd
  | OpClose => r_handleClose h rd
  | _ => mret (Some RNotControl, rd)
  end.

(** [NextMessageReader]: the message type with the reader, or with the error. *)
Fixpoint next_message_loop (fuel : nat) (rd : Rd) : MR (MessageType * result rerr Rd) :=
  match fuel with
  | O => nofuel
  | S fuel' =>
      x ← on_src (fr_NextFrame rd);
      let '((h, e), rd) := x : (header * option rerr) * Rd in
      match e with
      | Some err => mret (toMessageType (h_OpCode h), Err err)
      | None =>
          if fr_IsControl (h_OpCode h) then
            y ← ws_handle fuel h rd;
            match y : option rerr * Rd with
            | (Some err, _) => mret (toMessageType (h_OpCode h), Err err)
            | (None, rd) => next_message_loop fuel' rd
            end
          else mret (toMessageType (h_OpCode h), Ok rd)
      end
  end.

Definition NextMessageReader (fuel : nat) : MR (MessageType * result rerr Rd) := next_message_loop fuel fr_new.

Definition ReadMessage (fuel : nat) (piece : Z) : MR (MessageType * list byte * option rerr) :=
  x ← NextMessageReader fuel;
  match x : MessageType * result rerr Rd with
  | (tp, Err e) => mret (tp, [], Some e)
  | (tp, Ok rd) =>
      y ← ReadAll fuel piece rd [];
      let '(bts, e, _) := y : list byte * option rerr * Rd in
      mret (tp, bts, e)
  end.

Definition ReadAnyMessage (fuel : nat) (piece : Z) : MR (MessageType * list byte * option rerr) :=
  x ← on_src (fr_NextFrame fr_new);
  let '((h, e), rd) := x : (header * option rerr) * Rd in
  match e with
  | Some err => mret (-1, [], Some err)
  | None =>
      y ← ReadAll fuel piece rd [];
      let '(bts, e, _) := y : list byte * option rerr * Rd in
      mret (toMessageType (h_OpCode h), bts, e)
  end.

(** [conn.Read] into a buffer of [n] bytes: the bytes read, or the error.  The
    reader keeps its state behind [c.reader].  First, getting to a message of the
    connection's type. *)
Definition next_of_type (fuel : nat) : MR (result rerr Rd) :=
  x ← NextMessageReader fuel;
  match x : MessageType * result rerr Rd with
  | (_, Err e) => _ ← modify (set_reader None); mret (Err e)
  | (tp, Ok rd) =>
      mt ← gets rc_messageType;
      if decide (tp ≠ mt) then
        y ← ReadAll fuel 8192 rd [];
        _ ← modify (set_reader (Some (y.2)));
        mret (Err RInconsistent)
      else _ ← modify (set_reader (Some rd)); mret (Ok rd)
  end.

(** One read of the reader; [again] at the end of an empty message. *)
Definition read_some (again : MR (list byte * option rerr)) (n : Z) (rd : Rd) : MR (list byte * option rerr) :=
  x ← on_src (fr_Read n rd);
  let '((data, e), rd) := x : (list byte * option rerr) * Rd in
  _ ← modify (set_reader (Some rd));
  if decide (e = Some REOF) then
    _ ← modify (set_reader None);
    if decide (0 < zlen data) then mret (data, None) else again
  else mret (data, e).

Fixpoint ws_Read_loop (fuel : nat) (n : Z) : MR (list byte * option rerr) :=
  match fuel with
  | O => nofuel
  | S fuel' =>
      reader ← gets rc_reader;
      ready ← (match reader with Some rd => mret (Ok rd) | None => next_of_type fuel end);
      match ready : result rerr Rd with
      | Err e => mret ([], Some e)
      | Ok rd => read_some (ws_Read_loop fuel' n) n rd
      end
  end.

Definition ws_Read (fuel : nat) (n : Z) : MR (list byte * option rerr) :=
  mt ← gets rc_messageType;
  if decide (mt ≠ Text ∧ mt ≠ Binary) then mret ([], Some RNoMessageType)
  else ws_Read_loop fuel n.

End WsRead.
Arguments rconn : clear implicits.

(** ** What is read *)

Section Props.
Context {Rd Src : Type} `{FL : FrameReaderLaws Rd Src}.
Implicit Types (c : rconn Rd Src) (rd : Rd) (src : Src) (ms : list message).

(** A reader that may go on to the next frame. *)
Definition between rd src : Prop := fr_idle rd ∨ fr_rest rd src = Some [].

(** The bytes [Read] delivers of the messages to come: the payloads of the messages
    of its type, up to the first one of another type. *)
Fixpoint stream (mt : MessageType) (ms : list message) : list byte :=
  match ms with
  | [] => []
  | (op, p) :: ms =>
      if fr_IsControl op then stream mt ms
      else if decide (toMessageType op = mt) then p ++ stream mt ms else []
  end.

Definition control (m : message) : Prop := fr_IsControl m.1 = true.

(** Messages without bytes for [Read]. *)
Definition blank (mt : MessageType) (m : message) : Prop :=
  control m ∨ (fr_IsControl m.1 = false ∧ toMessageType m.1 = mt ∧ m.2 = []).

Lemma stream_blank mt pre ms : Forall (blank mt) pre → stream mt (pre ++ ms) = stream mt ms.
Proof.
  induction 1 as [|[op p] pre [Hc|(Hc & Ht & Hp)] _ IH]; [done| |]; simpl in *.
  - unfold control in Hc. simpl in Hc. by rewrite Hc.
  - subst p. by rewrite Hc, decide_True.
Qed.

Lemma control_blank mt pre : Forall control pre → Forall (blank mt) pre.
Proof. intros Hc. eapply Forall_impl; [|exact Hc]. by left. Qed.

Lemma on_src_run {A} (f : Src → A * (Rd * Src)) c a rd src :
  f (rc_src c) = (a, (rd, src)) → on_src f c = Ret ((a, rd), set_src src c).
Proof. intros E. unfold on_src. by rewrite E. Qed.

Lemma set_src_same c : set_src (rc_src c) c = c.
Proof. by destruct c. Qed.

(** With enough fuel, a computation returns one result. *)
Definition returns {A} (f : nat → M (rconn Rd Src) A) c (a : A) c' : Prop :=
  ∃ N, ∀ fuel, (N ≤ fuel)%nat → f fuel c = Ret (a, c').

Lemma returns_const {A} (m : M (rconn Rd Src) A) c a c' : m c = Ret (a, c') → returns (λ _, m) c a c'.
Proof. intros E. by exists O. Qed.

Lemma fuel_returns_bind {A B} (f : nat → M (rconn Rd Src) A) (g : nat → A → M (rconn Rd Src) B) c a c1 b c2 :
  returns f c a c1 → returns (λ fuel, g fuel a) c1 b c2 → returns (λ fuel, f fuel ≫= g fuel) c b c2.
Proof.
  intros [N HN] [N' HN']. exists (N `max` N')%nat. intros fuel Hf.
  erewrite bind_Ret by (apply HN; lia). apply HN'. lia.
Qed.

(** A round of a loop. *)
Lemma returns_step {A} (f : nat → M (rconn Rd Src) A) (g : nat → M (rconn Rd Src) A) c c1 a c' :
  (∀ fuel, f (S fuel) c = g fuel c1) → returns g c1 a c' → returns f c a c'.
Proof.
  intros Hfg [N HN]. exists (S N). intros [|fuel] Hf; [lia|]. rewrite Hfg. apply HN. lia.
Qed.

(** *** The loops of package io *)

Lemma ReadFull_ok n rd c p got :
  fr_rest rd (rc_src c) = Some p → n = zlen got + zlen p →
  ∃ rd' src', returns (λ fuel, ReadFull fuel n rd got) c (Ok (got ++ p), rd') (set_src src' c) ∧
    fr_msgs src' = fr_msgs (rc_src c) ∧ between rd' src'.
Proof.
  remember (fr_left rd (rc_src c)) as left eqn:El. assert (fr_left rd (rc_src c) ≤ left)%nat as Hl by lia. clear El.
  revert rd c p got Hl. induction left as [left IH] using lt_wf_ind; intros rd c p got Hl Hr Hn.
  destruct (decide (n ≤ zlen got)) as [Hd|Hd].
  { assert (p = []) as -> by (apply zlen_0_inv; pose proof (zlen_nonneg p); lia).
    exists rd, (rc_src c). rewrite app_nil_r, set_src_same. split; [|split; [done|by right]].
    exists O. intros [|fuel] _; cbn [ReadFull]; by rewrite decide_True. }
  destruct (fr_Read_ok (n - zlen got) rd (rc_src c) p ltac:(lia) Hr)
    as (data & e & rd' & src' & p' & Er & -> & Hlen & Hms & Hcase).
  rewrite zlen_app in Hn. rewrite app_assoc.
  destruct Hcase as [(-> & Hr' & Hl')|(-> & -> & Hi)].
  - destruct (IH (fr_left rd' src') ltac:(lia) rd' (set_src src' c) p' (got ++ data) ltac:(done) Hr')
      as (rd2 & src2 & Hf & Hms2 & Hb); [zlen_lia|].
    exists rd2, src2. split; [|split; [simpl in Hms2; congruence|done]].
    eapply returns_step; [|exact Hf]. intros fuel. cbn [ReadFull]. rewrite decide_False by done.
    by erewrite bind_Ret by (apply on_src_run; exact Er).
  - exists rd', src'. rewrite app_nil_r. split; [|split; [done|by left]].
    exists 1%nat. intros [|fuel] Hf; [lia|]. cbn [ReadFull]. rewrite decide_False by done.
    erewrite bind_Ret by (apply on_src_run; exact Er).
    cbv beta iota zeta. by rewrite decide_True by (rewrite zlen_app; change (zlen (A:=byte) []) with 0 in Hn; lia).
Qed.

Lemma ReadAll_ok piece rd c p got :
  0 < piece → fr_rest rd (rc_src c) = Some p →
  ∃ rd' src', returns (λ fuel, ReadAll fuel piece rd got) c (got ++ p, None, rd') (set_src src' c) ∧
    fr_msgs src' = fr_msgs (rc_src c) ∧ fr_idle rd'.
Proof.
  intros Hp. remember (fr_left rd (rc_src c)) as left eqn:El.
  assert (fr_left rd (rc_src c) ≤ left)%nat as Hl by lia. clear El.
  revert rd c p got Hl. induction left as [left IH] using lt_wf_ind; intros rd c p got Hl Hr.
  destruct (fr_Read_ok piece rd (rc_src c) p Hp Hr) as (data & e & rd' & src' & p' & Er & -> & _ & Hms & Hcase).
  rewrite app_assoc. destruct Hcase as [(-> & Hr' & Hl')|(-> & -> & Hi)].
  - destruct (IH (fr_left rd' src') ltac:(lia) rd' (set_src src' c) p' (got ++ data) ltac:(done) Hr')
      as (rd2 & src2 & Hf & Hms2 & Hb).
    exists rd2, src2. split; [|split; [simpl in Hms2; congruence|done]].
    eapply returns_step; [|exact Hf]. intros fuel. cbn [ReadAll].
    by erewrite bind_Ret by (apply on_src_run; exact Er).
  - exists rd', src'. rewrite app_nil_r. split; [|done].
    exists 1%nat. intros [|fuel] Hf; [lia|]. cbn [ReadAll].
    by erewrite bind_Ret by (apply on_src_run; exact Er).
Qed.

(** *** Frames *)

Lemma ws_handle_ok h rd c p :
  fr_IsControl (h_OpCode h) = true → h_Length h = zlen p → fr_rest rd (rc_src c) = Some p →
  ∃ e rd' src', returns (λ fuel, ws_handle fuel h rd) c (e, rd') (set_src src' c) ∧
    fr_msgs src' = fr_msgs (rc_src c) ∧ (e = None → between rd' src').
Proof.
  intros Hop Hlen Hr. apply fr_IsControl_ok in Hop.
  assert (Hlib : ∀ f, f = fr_HandlePing ∨ f = fr_HandlePong ∨ f = fr_HandleClose →
    ∃ e rd' src', returns (λ _, on_src (f h rd)) c (e, rd') (set_src src' c) ∧
      fr_msgs src' = fr_msgs (rc_src c) ∧ (e = None → between rd' src')).
  { intros f Hf. destruct (fr_Handle_ok f h rd (rc_src c) p Hf Hr) as (e & rd' & src' & E & Hms & Hb).
    exists e, rd', src'. split; [by apply returns_const, on_src_run|done]. }
  assert (Hcus : ∀ f, ∃ e rd' src', returns (λ fuel, handleCustomized fuel f h rd) c (e, rd') (set_src src' c) ∧
      fr_msgs src' = fr_msgs (rc_src c) ∧ (e = None → between rd' src')).
  { intros f. destruct (ReadFull_ok (h_Length h) rd c p [] Hr Hlen) as (rd' & src' & Hf & Hms & Hb).
    exists (f p), rd', src'. split; [|done]. eapply fuel_returns_bind; [exact Hf|]. by apply returns_const. }
  unfold ws_handle, r_handlePing, r_handlePong. destruct Hop as [E|[E|E]]; rewrite E.
  - apply Hlib. auto.
  - destruct (rc_pingHandler c) eqn:Eh; [destruct (Hcus o) as (e & rd' & src' & Hf & Ho)
      |destruct (Hlib fr_HandlePing) as (e & rd' & src' & Hf & Ho); [auto|]];
      (exists e, rd', src'; split; [|done]); (eapply fuel_returns_bind; [by apply returns_const|]); by rewrite Eh.
  - destruct (rc_pongHandler c) eqn:Eh; [destruct (Hcus o) as (e & rd' & src' & Hf & Ho)
      |destruct (Hlib fr_HandlePong) as (e & rd' & src' & Hf & Ho); [auto|]];
      (exists e, rd', src'; split; [|done]); (eapply fuel_returns_bind; [by apply returns_const|]); by rewrite Eh.
Qed.

(** [NextMessageReader] serves the control frames in front of the next message. *)
Lemma next_message_ok ms rd c :
  between rd (rc_src c) → fr_msgs (rc_src c) = ms →
  ∃ tp r src', returns (λ fuel, next_message_loop fuel rd) c (tp, r) (set_src src' c) ∧
    ∃ ctl ms', ms = ctl ++ ms' ∧ Forall control ctl ∧
    match r with
    | Ok rd' => ∃ op p ms'', ms' = (op, p) :: ms'' ∧ fr_IsControl op = false ∧ tp = toMessageType op ∧
        fr_rest rd' src' = Some p ∧ fr_msgs src' = ms''
    | Err _ => ms' = [] ∨ ctl ≠ []
    end.
Proof.
  revert rd c. induction ms as [|[op p] ms IH]; intros rd c Hb Hms.
  - destruct (fr_NextFrame_end rd (rc_src c) Hb Hms) as (h & e & rd' & src' & Ef).
    exists (toMessageType (h_OpCode h)), (Err e), src'. split; [|exists [], []; auto].
    exists 1%nat. intros [|fuel] Hf; [lia|]. cbn [next_message_loop].
    by erewrite bind_Ret by (apply on_src_run; exact Ef).
  - destruct (fr_NextFrame_ok rd (rc_src c) op p ms Hb Hms) as (h & rd1 & src1 & Ef & Eop & Hlen & Hr & Hms1).
    destruct (fr_IsControl op) eqn:Ec.
    + destruct (ws_handle_ok h rd1 (set_src src1 c) p) as (e & rd2 & src2 & Hh & Hms2 & Hb2);
        [by rewrite Eop|by apply Hlen|done|]. simpl in Hms2. destruct e as [err|].
      * exists (toMessageType op), (Err err), src2. split; [|exists [(op, p)], ms; split; [done|]; split; [by constructor|by right]].
        destruct Hh as [N HN]. exists (S N). intros [|fuel] Hf; [lia|]. cbn [next_message_loop].
        erewrite bind_Ret by (apply on_src_run; exact Ef). cbv beta iota zeta. rewrite Eop, Ec.
        erewrite bind_Ret by (apply HN; lia). done.
      * destruct (IH rd2 (set_src src2 c) (Hb2 eq_refl)) as (tp & r & src3 & Hl & ctl & ms' & -> & Hctl & Hcase).
        { simpl. congruence. }
        exists tp, r, src3. split.
        -- destruct Hh as [N HN], Hl as [N' HN']. exists (S (N `max` N')). intros [|fuel] Hf; [lia|].
           cbn [next_message_loop]. erewrite bind_Ret by (apply on_src_run; exact Ef). cbv beta iota zeta. rewrite Eop, Ec.
           erewrite bind_Ret by (apply HN; lia). cbv beta iota zeta. by rewrite HN' by lia.
        -- exists ((op, p) :: ctl), ms'. split; [done|]. split; [by constructor|].
           destruct r; [done|]. by right.
    + exists (toMessageType op), (Ok rd1), src1. split.
      * exists 1%nat. intros [|fuel] Hf; [lia|]. cbn [next_message_loop].
        erewrite bind_Ret by (apply on_src_run; exact Ef). cbv beta iota zeta. by rewrite Eop, Ec.
      * exists [], ((op, p) :: ms). split; [done|]. split; [constructor|]. by exists op, p, ms.
Qed.

(** *** Read *)

(** The reader of the connection has [p] of its message left, and [ms] follow. *)
Definition reading c (p : list byte) ms : Prop :=
  match rc_reader c with
  | None => p = []
  | Some rd => fr_rest rd (rc_src c) = Some p
  end ∧ fr_msgs (rc_src c) = ms.

(** The reader of the connection has no message any more. *)
Definition finished c : Prop := ∃ rd, rc_reader c = Some rd ∧ fr_idle rd.

(** What a read into [n] bytes gives. *)
Definition read_post (n : Z) (mt : MessageType) (p : list byte) ms (data : list byte) (e : option rerr) c' : Prop :=
  rc_messageType c' = mt ∧
  match e with
  | None => zlen data ≤ n ∧ ∃ p' ms', reading c' p' ms' ∧ p ++ stream mt ms = data ++ p' ++ stream mt ms'
  | Some _ =>
      data = [] ∧ p = [] ∧ ∃ pre ms', ms = pre ++ ms' ∧ Forall (blank mt) pre ∧
        ((∃ op q ms'', ms' = (op, q) :: ms'' ∧ fr_IsControl op = false ∧ toMessageType op ≠ mt ∧
            e = Some RInconsistent ∧ finished c') ∨
         (rc_reader c' = None ∧ (ms' = [] ∨ pre ≠ [])))
  end.

Lemma read_post_blank n mt pre ms data e c' :
  Forall (blank mt) pre → read_post n mt [] ms data e c' → read_post n mt [] (pre ++ ms) data e c'.
Proof.
  intros Hpre [Ht Hp]. split; [done|]. destruct e.
  - destruct Hp as (-> & _ & pre' & ms' & -> & Hpre' & Hcase). split; [done|]. split; [done|].
    exists (pre ++ pre'), ms'. split; [by rewrite app_assoc|]. split; [by apply Forall_app|].
    destruct Hcase as [?|[? [?|Hne]]]; [by left|by right; auto|right]. split; [done|right].
    intros [_ ?]%app_eq_nil. done.
  - by rewrite stream_blank.
Qed.

Lemma read_some_ok n c rd q ms (again : nat → M (rconn Rd Src) (list byte * option rerr)) :
  0 < n → fr_rest rd (rc_src c) = Some q → fr_msgs (rc_src c) = ms →
  (∀ c1, rc_reader c1 = None → fr_msgs (rc_src c1) = ms → rc_messageType c1 = rc_messageType c →
     ∃ data e c', returns again c1 (data, e) c' ∧ read_post n (rc_messageType c) [] ms data e c') →
  ∃ data e c', returns (λ fuel, read_some (again fuel) n rd) c (data, e) c' ∧
    read_post n (rc_messageType c) q ms data e c'.
Proof.
  intros Hn Hr Hms Hagain. destruct (fr_Read_ok n rd (rc_src c) q Hn Hr)
    as (data & e & rd' & src' & p' & Er & -> & Hlen & Hms' & Hcase).
  destruct Hcase as [(-> & Hr' & _)|(-> & -> & Hi)].
  - exists data, None, (set_reader (Some rd') (set_src src' c)). split.
    + exists O. intros fuel _. unfold read_some. by erewrite bind_Ret by (apply on_src_run; exact Er).
    + split; [done|]. split; [done|]. exists p', ms. split; [|by rewrite app_assoc].
      split; [done|]. simpl. congruence.
  - set (c1 := set_reader None (set_reader (Some rd') (set_src src' c))).
    destruct (decide (0 < zlen data)) as [Hd|Hd].
    + exists data, None, c1. split.
      * exists O. intros fuel _. unfold read_some. erewrite bind_Ret by (apply on_src_run; exact Er).
        cbv beta iota zeta. mpure. rewrite decide_True by done. mpure. by rewrite decide_True.
      * split; [done|]. split; [done|]. exists [], ms. split; [|by rewrite app_nil_r].
        split; [done|]. simpl. congruence.
    + assert (data = []) as -> by (apply zlen_0_inv; pose proof (zlen_nonneg data); lia).
      destruct (Hagain c1) as (data & e & c' & [N HN] & Hp); [done|simpl; congruence|done|].
      exists data, e, c'. split; [|done]. exists N. intros fuel Hf. unfold read_some.
      erewrite bind_Ret by (apply on_src_run; exact Er).
      cbv beta iota zeta. mpure. rewrite decide_True by done. mpure. rewrite decide_False by done. by apply HN.
Qed.

Lemma next_of_type_ok c ms :
  fr_msgs (rc_src c) = ms →
  ∃ r c', returns next_of_type c r c' ∧ rc_messageType c' = rc_messageType c ∧
    ∃ pre ms', ms = pre ++ ms' ∧ Forall control pre ∧
    match r with
    | Ok rd => ∃ op q ms'', ms' = (op, q) :: ms'' ∧ fr_IsControl op = false ∧ toMessageType op = rc_messageType c ∧
        rc_reader c' = Some rd ∧ fr_rest rd (rc_src c') = Some q ∧ fr_msgs (rc_src c') = ms''
    | Err e =>
        (∃ op q ms'', ms' = (op, q) :: ms'' ∧ fr_IsControl op = false ∧ toMessageType op ≠ rc_messageType c ∧
           e = RInconsistent ∧ finished c') ∨
        (rc_reader c' = None ∧ (ms' = [] ∨ pre ≠ []))
    end.
Proof.
  intros Hms. destruct (next_message_ok ms fr_new c (or_introl fr_new_idle) Hms)
    as (tp & r & src' & Hnext & pre & ms' & Hsplit & Hpre & Hcase).
  assert (Hbind : ∀ (g : nat → MessageType * result rerr Rd → M (rconn Rd Src) (result rerr Rd)) b c2,
    returns (λ fuel, g fuel (tp, r)) (set_src src' c) b c2 →
    returns (λ fuel, NextMessageReader fuel ≫= g fuel) c b c2) by (intros g b c2; by apply fuel_returns_bind).
  destruct r as [rd|err]; cycle 0.
  - destruct Hcase as (op & q & ms'' & -> & Hc & -> & Hr & Hms'').
    destruct (decide (toMessageType op = rc_messageType c)) as [Ht|Ht].
    + exists (Ok rd), (set_reader (Some rd) (set_src src' c)). split; [|split; [done|]].
      * unfold next_of_type. apply Hbind. exists O. intros fuel _. mpure. by rewrite decide_False by tauto.
      * exists pre, ((op, q) :: ms''). split; [done|]. split; [done|]. by exists op, q, ms''.
    + destruct (ReadAll_ok 8192 rd (set_src src' c) q [] ltac:(lia) Hr) as (rd' & src2 & [N HN] & _ & Hi).
      exists (Err RInconsistent), (set_reader (Some rd') (set_src src2 (set_src src' c))). split; [|split; [done|]].
      * unfold next_of_type. apply Hbind. exists N. intros fuel Hf. mpure. rewrite decide_True by done.
        by erewrite bind_Ret by (by apply HN).
      * exists pre, ((op, q) :: ms''). split; [done|]. split; [done|]. left. exists op, q, ms''.
        split; [done|]. split; [done|]. split; [done|]. split; [done|]. by exists rd'.
  - exists (Err err), (set_reader None (set_src src' c)). split; [|split; [done|]].
    + unfold next_of_type. apply Hbind. by exists O.
    + exists pre, ms'. split; [done|]. split; [done|]. by right.
Qed.

Lemma read_loop_start n ms c :
  0 < n → rc_reader c = None → fr_msgs (rc_src c) = ms →
  ∃ data e c', returns (λ fuel, ws_Read_loop fuel n) c (data, e) c' ∧
    read_post n (rc_messageType c) [] ms data e c'.
Proof.
  intros Hn. remember (length ms) as k eqn:Ek. assert (length ms ≤ k)%nat as Hk by lia. clear Ek.
  revert ms c Hk. induction k as [k IH] using lt_wf_ind; intros ms c Hk Hrd Hms.
  destruct (next_of_type_ok c ms Hms) as (r & c1 & [N HN] & Ht & pre & ms' & -> & Hpre & Hcase).
  destruct r as [rd|err].
  - destruct Hcase as (op & q & ms'' & -> & Hc & Htp & Hr1 & Hr2 & Hms'').
    rewrite length_app in Hk. simpl in Hk.
    destruct (read_some_ok n c1 rd q ms'' (λ fuel, ws_Read_loop fuel n) Hn Hr2 Hms'')
      as (data & e & c' & [N' HN'] & Hp).
    { intros c2 Hr Hm Hmt. rewrite <-Hmt. apply (IH (length ms'')); [lia|done|done|done]. }
    exists data, e, c'. split.
    + exists (S (N `max` N')). intros [|fuel] Hf; [lia|]. cbn [ws_Read_loop]. mpure. rewrite Hrd.
      erewrite bind_Ret by (apply HN; lia). apply HN'. lia.
    + apply read_post_blank; [by apply control_blank|]. rewrite Ht in Hp. destruct Hp as [Hp1 Hp2].
      split; [done|]. destruct e.
      * destruct Hp2 as (-> & -> & pre2 & ms2 & -> & Hb & Hc2). split; [done|]. split; [done|].
        exists ((op, []) :: pre2), ms2. split; [done|]. split; [constructor; [by right|done]|].
        destruct Hc2 as [?|[? ?]]; [by left|right]. split; [done|by right].
      * simpl. by rewrite Hc, decide_True.
  - exists [], (Some err), c1. split.
    + exists (S N). intros [|fuel] Hf; [lia|]. cbn [ws_Read_loop]. mpure. rewrite Hrd.
      by erewrite bind_Ret by (apply HN; lia).
    + split; [done|]. split; [done|]. split; [done|]. exists pre, ms'. split; [done|].
      split; [by apply control_blank|]. destruct Hcase as [(op & q & ms'' & H1 & H2 & H3 & -> & H5)|?]; [left|by right].
      by exists op, q, ms''.
Qed.


(** After a message of another type the reader is kept although it has nothing left:
    every later [Read] fails, although messages of the right type may follow. *)
Theorem mismatched_message_ends_reading fuel n c :
  rc_messageType c = Text ∨ rc_messageType c = Binary → finished c →
  ws_Read (S fuel) n c = Ret (([], Some RNoFrameAdvance), c).
Proof.
  intros Ht (rd & Er & Hi). unfold ws_Read. mpure.
  rewrite decide_False by (destruct Ht as [->| ->]; intros []; done). cbn [ws_Read_loop]. mpure. rewrite Er. mpure.
  unfold read_some. erewrite bind_Ret by (apply on_src_run; by apply fr_Read_idle).
  cbv beta iota zeta. mpure. rewrite decide_False by done. unfold mret, M_ret. do 3 f_equal. rewrite <-Er. by destruct c.
Qed.

(** [ReadMessage] returns the next message whole, after serving the control frames in
    front of it. *)
Theorem ws_read_message piece c ms :
  0 < piece → fr_msgs (rc_src c) = ms →
  ∃ tp bts e src', returns (λ fuel, ReadMessage fuel piece) c (tp, bts, e) (set_src src' c) ∧
    ∃ pre ms', ms = pre ++ ms' ∧ Forall control pre ∧
    match e with
    | None => ∃ op ms'', ms' = (op, bts) :: ms'' ∧ fr_IsControl op = false ∧ tp = toMessageType op ∧ fr_msgs src' = ms''
    | Some _ => bts = [] ∧ (ms' = [] ∨ pre ≠ [])
    end.
Proof.
  intros Hp Hms. destruct (next_message_ok ms fr_new c (or_introl fr_new_idle) Hms)
    as (tp & r & src' & Hnext & pre & ms' & Hsplit & Hpre & Hcase).
  destruct r as [rd|err].
  - destruct Hcase as (op & q & ms'' & -> & Hc & -> & Hr & Hms'').
    destruct (ReadAll_ok piece rd (set_src src' c) q [] Hp Hr) as (rd' & src2 & [N HN] & Hms2 & _).
    exists (toMessageType op), q, None, src2. split.
    + eapply fuel_returns_bind; [exact Hnext|]. exists N. intros fuel Hf. cbv beta iota.
      by erewrite bind_Ret by (by apply HN).
    + exists pre, ((op, q) :: ms''). split; [done|]. split; [done|]. exists op, ms''. by rewrite Hms2.
  - exists tp, [], (Some err), src'. split.
    + eapply fuel_returns_bind; [exact Hnext|]. by exists O.
    + by exists pre, ms'.
Qed.

End Props.

(** ** Concrete runs *)

(** Messages that are there at once; a reader holds the rest of its message. *)
#[local] Instance ready_frames : FrameReader (option (list byte)) (list message) := {
  fr_new := None;
  fr_IsControl op := bool_decide (op = OpClose ∨ op = OpPing ∨ op = OpPong);
  fr_NextFrame _ src :=
    match src with
    | [] => ((Header OpContinuation 0, Some (ROther 0)), (None, []))
    | (op, p) :: ms => ((Header op (zlen p), None), (Some p, ms))
    end;
  fr_Read n rd src :=
    match rd with
    | None => (([], Some RNoFrameAdvance), (None, src))
    | Some p => if decide (n < zlen p) then ((ztake n p, None), (Some (zdrop n p), src)) else ((p, Some REOF), (None, src))
    end;
  fr_HandlePing _ _ src := (None, (None, src));
  fr_HandlePong _ _ src := (None, (None, src));
  fr_HandleClose _ _ src := (Some (ROther 1), (None, src))
}.

#[local] Program Instance ready_laws : FrameReaderLaws (option (list byte)) (list message) := {
  fr_msgs src := src;
  fr_idle rd := rd = None;
  fr_rest rd _ := rd;
  fr_left rd _ := match rd with Some p => length p | None => O end
}.
Next Obligation. done. Qed.
Next Obligation. intros op. simpl. apply bool_decide_eq_true. Qed.
Next Obligation.
  intros rd src op p ms _ ->. exists (Header op (zlen p)), (Some p), ms. by repeat split.
Qed.
Next Obligation. intros rd src _ ->. by eexists _, _, _, _. Qed.
Next Obligation.
  intros n rd src p Hn ->. simpl. case_decide.
  - exists (ztake n p), None, (Some (zdrop n p)), src, (zdrop n p).
    split; [done|]. split; [by rewrite ztake_zdrop|]. split; [zlen_lia|]. split; [done|]. left.
    split; [done|]. split; [done|]. unfold zdrop, zlen in *. rewrite length_drop. lia.
  - exists p, (Some REOF), None, src, []. split; [done|]. split; [by rewrite app_nil_r|]. split; [lia|]. auto.
Qed.
Next Obligation. by intros n rd src ->. Qed.
Next Obligation.
  intros f h rd src p [->|[->| ->]] _; simpl; eexists _, _, _; (split; [done|]); auto.
Qed.

Definition demo_reader (ms : list message) : rconn (option (list byte)) (list message) := RConn ms None Text None None.

Definition demo_messages : list message := [(OpText, [1; 2; 3]); (OpPing, [7]); (OpText, []); (OpText, [4]); (OpBinary, [9]); (OpText, [5])].

Example demo_reads :
  ((data ← ws_Read 10 2; data' ← ws_Read 10 2; data'' ← ws_Read 10 2; bad ← ws_Read 10 2; bad' ← ws_Read 10 2;
    mret [data; data'; data''; bad; bad']) : M (rconn (option (list byte)) (list message)) _) (demo_reader demo_messages)
  = Ret ([([1; 2], None); ([3], None); ([4], None); ([], Some RInconsistent); ([], Some RNoFrameAdvance)],
         RConn [(OpText, [5])] (Some None) Text None None).
Proof. vm_compute. reflexivity. Qed.

