(* ===== verification/WsSetup.v ===== *)
(** * Setting up WebSocket connections (src/extensions/websocket)

    What happens before messages flow: the options of servers and clients
    (options.go), the configuration of the service below and the upgrade of a
    connection at its first request (server.go), dialling with its handshake
    (client.go), and the settings of a connection (conn.go).  The handshakes of
    gobwas/ws and the parsing of URLs are parameters; so are hooks and handlers,
    which are names that parameters run. *)

From Stdlib Require Import Ascii String.
From stdpp Require Import base option list numbers strings.
From S2P Require Import Prelude LinkedBuffer SafeJob Threads Timer AsyncTimer Kernel DescCache Poller NetFD TcpService TcpConn TcpClose NetAddr Options TcpSetup StreamConn Tls WebSocket.

Local Open Scope Z_scope.

(** ** Addresses *)

Definition bracket : ascii := "]"%char.

Definition createHostPortAddress (host defaultPort : string) : string * string :=
  let colon := LastIndexByte host colon in
  let bracket := IndexByte host bracket in
  match colon with
  | Some i =>
      if match bracket with Some j => bool_decide (j < i)%nat | None => true end
      then (substring 0 i host, host) else (host, host +:+ defaultPort)%string
  | None => (host, host +:+ defaultPort)%string
  end.

Definition httpPort : string := ":80".
Definition httpsPort : string := ":443".

(** ** Options *)

(** The names of hooks and handlers: before and after the handshake, for a new context,
    of the negotiation of protocols, for control frames, requests and closed connections. *)
Class WsNames : Type := {
  n_before : Type; n_after : Type; n_context : Type; n_select : Type; n_custom : Type;
  n_control : Type; n_handler : Type; n_closed : Type; n_header : Type; n_onHeader : Type; n_onStatus : Type
}.

Section WsOptions.
Context {CR : Type} `{N : WsNames}.

(** A hook: the default, or the user's; [None] is nil. *)
Inductive hook (A : Type) : Type := Standard | Custom (a : A).

Record ws_serverOptions : Type := WsServerOptions {
  so_beforeHandshake : option (hook n_before);
  so_afterHandshake : option (hook n_after);
  so_newHandshakeContext : option (hook n_context);
  so_protocolSelect : option n_select;
  so_protocolCustom : option n_custom;
  so_pingHandler : option n_control;
  so_pongHandler : option n_control;
  so_messageType : MessageType;
  so_tlsConfig : option (Config CR);
  so_keepAlive : Z;
  so_idleTimeout : Z;
  so_onClosed : option n_closed;
  so_combineWrites : bool;
  so_outboundBufferLimit : Z
}.

Definition defaultServerOptions : ws_serverOptions :=
  WsServerOptions (Some (Standard _)) (Some (Standard _)) (Some (Standard _)) None None None None 0 None 0 0 None false 0.

Definition ws_ServerOption : Type := ws_serverOptions → ws_serverOptions.

Definition WithHookBeforeHandshake (h : option n_before) : ws_ServerOption := λ o,
  WsServerOptions (Custom _ <$> h) (so_afterHandshake o) (so_newHandshakeContext o) (so_protocolSelect o) (so_protocolCustom o)
    (so_pingHandler o) (so_pongHandler o) (so_messageType o) (so_tlsConfig o) (so_keepAlive o) (so_idleTimeout o)
    (so_onClosed o) (so_combineWrites o) (so_outboundBufferLimit o).
Definition WithHookAfterHandshake (h : option n_after) : ws_ServerOption := λ o,
  WsServerOptions (so_beforeHandshake o) (Custom _ <$> h) (so_newHandshakeContext o) (so_protocolSelect o) (so_protocolCustom o)
    (so_pingHandler o) (so_pongHandler o) (so_messageType o) (so_tlsConfig o) (so_keepAlive o) (so_idleTimeout o)
    (so_onClosed o) (so_combineWrites o) (so_outboundBufferLimit o).
Definition WithNewHandshakeContext (h : option n_context) : ws_ServerOption := λ o,
  WsServerOptions (so_beforeHandshake o) (so_afterHandshake o) (Custom _ <$> h) (so_protocolSelect o) (so_protocolCustom o)
    (so_pingHandler o) (so_pongHandler o) (so_messageType o) (so_tlsConfig o) (so_keepAlive o) (so_idleTimeout o)
    (so_onClosed o) (so_combineWrites o) (so_outboundBufferLimit o).
Definition WithProtocolSelect (h : option n_select) : ws_ServerOption := λ o,
  WsServerOptions (so_beforeHandshake o) (so_afterHandshake o) (so_newHandshakeContext o) h (so_protocolCustom o)
    (so_pingHandler o) (so_pongHandler o) (so_messageType o) (so_tlsConfig o) (so_keepAlive o) (so_idleTimeout o)
    (so_onClosed o) (so_combineWrites o) (so_outboundBufferLimit o).
Definition WithProtocolCustom (h : option n_custom) : ws_ServerOption := λ o,
  WsServerOptions (so_beforeHandshake o) (so_afterHandshake o) (so_newHandshakeContext o) (so_protocolSelect o) h
    (so_pingHandler o) (so_pongHandler o) (so_messageType o) (so_tlsConfig o) (so_keepAlive o) (so_idleTimeout o)
    (so_onClosed o) (so_combineWrites o) (so_outboundBufferLimit o).
Definition WithPingHandler (h : option n_control) : ws_ServerOption := λ o,
  WsServerOptions (so_beforeHandshake o) (so_afterHandshake o) (so_newHandshakeContext o) (so_protocolSelect o) (so_protocolCustom o)
    h (so_pongHandler o) (so_messageType o) (so_tlsConfig o) (so_keepAlive o) (so_idleTimeout o)
    (so_onClosed o) (so_combineWrites o) (so_outboundBufferLimit o).
Definition WithPongHandler (h : option n_control) : ws_ServerOption := λ o,
  WsServerOptions (so_beforeHandshake o) (so_afterHandshake o) (so_newHandshakeContext o) (so_protocolSelect o) (so_protocolCustom o)
    (so_pingHandler o) h (so_messageType o) (so_tlsConfig o) (so_keepAlive o) (so_idleTimeout o)
    (so_onClosed o) (so_combineWrites o) (so_outboundBufferLimit o).
Definition WithServerMessageType (tp : MessageType) : ws_ServerOption := λ o,
  WsServerOptions (so_beforeHandshake o) (so_afterHandshake o) (so_newHandshakeContext o) (so_protocolSelect o) (so_protocolCustom o)
    (so_pingHandler o) (so_pongHandler o) tp (so_tlsConfig o) (so_keepAlive o) (so_idleTimeout o)
    (so_onClosed o) (so_combineWrites o) (so_outboundBufferLimit o).
Definition WithServerTLSConfig (cfg : option (Config CR)) : ws_ServerOption := λ o,
  WsServerOptions (so_beforeHandshake o) (so_afterHandshake o) (so_newHandshakeContext o) (so_protocolSelect o) (so_protocolCustom o)
    (so_pingHandler o) (so_pongHandler o) (so_messageType o) cfg (so_keepAlive o) (so_idleTimeout o)
    (so_onClosed o) (so_combineWrites o) (so_outboundBufferLimit o).
Definition ws_WithTCPKeepAlive (keepAlive : Z) : ws_ServerOption := λ o,
  WsServerOptions (so_beforeHandshake o) (so_afterHandshake o) (so_newHandshakeContext o) (so_protocolSelect o) (so_protocolCustom o)
    (so_pingHandler o) (so_pongHandler o) (so_messageType o) (so_tlsConfig o) keepAlive (so_idleTimeout o)
    (so_onClosed o) (so_combineWrites o) (so_outboundBufferLimit o).
Definition WithIdleTimeout (idleTimeout : Z) : ws_ServerOption := λ o,
  WsServerOptions (so_beforeHandshake o) (so_afterHandshake o) (so_newHandshakeContext o) (so_protocolSelect o) (so_protocolCustom o)
    (so_pingHandler o) (so_pongHandler o) (so_messageType o) (so_tlsConfig o) (so_keepAlive o) idleTimeout
    (so_onClosed o) (so_combineWrites o) (so_outboundBufferLimit o).
Definition ws_WithOnClosed (h : option n_closed) : ws_ServerOption := λ o,
  WsServerOptions (so_beforeHandshake o) (so_afterHandshake o) (so_newHandshakeContext o) (so_protocolSelect o) (so_protocolCustom o)
    (so_pingHandler o) (so_pongHandler o) (so_messageType o) (so_tlsConfig o) (so_keepAlive o) (so_idleTimeout o)
    h (so_combineWrites o) (so_outboundBufferLimit o).
Definition WithServerCombinedWrites (enabled : bool) : ws_ServerOption := λ o,
  WsServerOptions (so_beforeHandshake o) (so_afterHandshake o) (so_newHandshakeContext o) (so_protocolSelect o) (so_protocolCustom o)
    (so_pingHandler o) (so_pongHandler o) (so_messageType o) (so_tlsConfig o) (so_keepAlive o) (so_idleTimeout o)
    (so_onClosed o) enabled (so_outboundBufferLimit o).
Definition WithServerOutboundBufferLimit (limit : Z) : ws_ServerOption := λ o,
  WsServerOptions (so_beforeHandshake o) (so_afterHandshake o) (so_newHandshakeContext o) (so_protocolSelect o) (so_protocolCustom o)
    (so_pingHandler o) (so_pongHandler o) (so_messageType o) (so_tlsConfig o) (so_keepAlive o) (so_idleTimeout o)
    (so_onClosed o) (so_combineWrites o) limit.

Definition defaultTimeout : Z := 10 * Second.

Record ws_clientOptions : Type := WsClientOptions {
  co_timeout : Z;
  co_subprotocols : list string;
  co_handshakeHeader : option n_header;
  co_onHandshakeHeader : option n_onHeader;
  co_onHandshakeStatusError : option n_onStatus;
  co_messageType : MessageType;
  co_tlsConfig : option (Config CR);
  co_combineWrites : bool
}.

Definition ws_setDefaults (o : ws_clientOptions) : ws_clientOptions :=
  WsClientOptions defaultTimeout (co_subprotocols o) (co_handshakeHeader o) (co_onHandshakeHeader o)
    (co_onHandshakeStatusError o) (co_messageType o) (co_tlsConfig o) (co_combineWrites o).

Definition ws_zero_client : ws_clientOptions := WsClientOptions 0 [] None None None 0 None false.

Definition ws_ClientOption : Type := ws_clientOptions → ws_clientOptions.

Definition WithTimeout (timeout : Z) : ws_ClientOption := λ o,
  WsClientOptions timeout (co_subprotocols o) (co_handshakeHeader o) (co_onHandshakeHeader o)
    (co_onHandshakeStatusError o) (co_messageType o) (co_tlsConfig o) (co_combineWrites o).
Definition WithSubProtocols (subprotocols : list string) : ws_ClientOption := λ o,
  WsClientOptions (co_timeout o) subprotocols (co_handshakeHeader o) (co_onHandshakeHeader o)
    (co_onHandshakeStatusError o) (co_messageType o) (co_tlsConfig o) (co_combineWrites o).
Definition WithClientHandshakeRequestHeader (header : option n_header) : ws_ClientOption := λ o,
  WsClientOptions (co_timeout o) (co_subprotocols o) header (co_onHandshakeHeader o)
    (co_onHandshakeStatusError o) (co_messageType o) (co_tlsConfig o) (co_combineWrites o).
Definition WithClientOnHandshakeResponseHeader (onHeader : option n_onHeader) : ws_ClientOption := λ o,
  WsClientOptions (co_timeout o) (co_subprotocols o) (co_handshakeHeader o) onHeader
    (co_onHandshakeStatusError o) (co_messageType o) (co_tlsConfig o) (co_combineWrites o).
Definition WithClientOnHandshakeResponseStatusError (onStatus : option n_onStatus) : ws_ClientOption := λ o,
  WsClientOptions (co_timeout o) (co_subprotocols o) (co_handshakeHeader o) (co_onHandshakeHeader o)
    onStatus (co_messageType o) (co_tlsConfig o) (co_combineWrites o).
Definition WithClientMessageType (tp : MessageType) : ws_ClientOption := λ o,
  WsClientOptions (co_timeout o) (co_subprotocols o) (co_handshakeHeader o) (co_onHandshakeHeader o)
    (co_onHandshakeStatusError o) tp (co_tlsConfig o) (co_combineWrites o).
Definition WithClientTLSConfig (cfg : option (Config CR)) : ws_ClientOption := λ o,
  WsClientOptions (co_timeout o) (co_subprotocols o) (co_handshakeHeader o) (co_onHandshakeHeader o)
    (co_onHandshakeStatusError o) (co_messageType o) cfg (co_combineWrites o).
Definition WithClientCombinedWrites (enabled : bool) : ws_ClientOption := λ o,
  WsClientOptions (co_timeout o) (co_subprotocols o) (co_handshakeHeader o) (co_onHandshakeHeader o)
    (co_onHandshakeStatusError o) (co_messageType o) (co_tlsConfig o) enabled.

(** The closures a service gives to the service below: the request handler and the
    closed handler of the connection, over TCP or TLS. *)
Inductive ws_closure : Type :=
| WcHandle (handler : n_handler) (options : ws_serverOptions)
| WcClosed (onClosed : option n_closed).

Definition tcpServiceOptions (options : ws_serverOptions) : list (Option ws_closure) :=
  [WithTCPKeepAlive (so_keepAlive options);
   WithTCPIdleTimeout (so_idleTimeout options);
   WithOnTCPClosed (Some (WcClosed (so_onClosed options)));
   WithFlushWrite true;
   WithTCPOutboundBufferLimit (so_outboundBufferLimit options)].

Definition tlsServiceOptions (options : ws_serverOptions) : list (tls_ServerOption CR ws_closure) :=
  [tls_WithTCPKeepAlive (so_keepAlive options);
   tls_WithServerIdleTimeout (so_idleTimeout options);
   tls_WithServerTLSConfig (so_tlsConfig options);
   tls_WithOnClosed (Some (WcClosed (so_onClosed options)));
   tls_WithServerFlushWrite true;
   tls_WithServerOutboundBufferLimit (so_outboundBufferLimit options)].

(** What [NewService] asks of the service below: of TLS, or of TCP. *)
Definition ws_NewService (handler : n_handler) (opts : list ws_ServerOption) :
    (tls_closure CR ws_closure * list (Option (tls_closure CR ws_closure))) + (ws_closure * list (Option ws_closure)) :=
  let options := foldl (λ o opt, opt o) defaultServerOptions opts in
  match so_tlsConfig options with
  | Some _ => inl (tls_NewService (WcHandle handler options) (tlsServiceOptions options))
  | None => inr (WcHandle handler options, tcpServiceOptions options)
  end.

End WsOptions.

Arguments Standard {A}.
Arguments Custom {A} a.
Arguments ws_serverOptions _ {N}.
Arguments ws_clientOptions _ {N}.
Arguments ws_ServerOption _ {N}.
Arguments ws_ClientOption _ {N}.
Arguments ws_closure _ {N}.

(** [neturl.URL]: the fields that are used. *)
Record URL : Type := MkURL { u_Scheme : string; u_Host : string }.

(** ** Contexts *)

Inductive ctx_key : Type := graderKey | localAddrKey | remoteAddrKey | userKey (k : nat).

#[export] Instance ctx_key_eq_dec : EqDecision ctx_key.
Proof. solve_decision. Defined.

(** [VGrader] points to the upgrader of the handshake that is going on. *)
Inductive ctx_val : Type := VGrader | VAddr (a : Addr) | VUser (v : nat) | VNil.

(** [context.WithValue] and [Value]: the latest value of a key. *)
Definition context : Type := list (ctx_key * ctx_val).
Definition WithValue (ctx : context) (k : ctx_key) (v : ctx_val) : context := (k, v) :: ctx.
Fixpoint Value (ctx : context) (k : ctx_key) : ctx_val :=
  match ctx with
  | [] => VNil
  | (k', v) :: ctx => if decide (k' = k) then v else Value ctx k
  end.

Definition of_addr (a : option Addr) : ctx_val := match a with Some a => VAddr a | None => VNil end.

Definition NewContextWithWSUpgrader (ctx : context) : context := WithValue ctx graderKey VGrader.
Definition UpgraderFromContext (ctx : context) : bool := match Value ctx graderKey with VGrader => true | _ => false end.
Definition NewContextWithLocalAddr (ctx : context) (a : option Addr) : context := WithValue ctx localAddrKey (of_addr a).
Definition LocalAddrFromContext (ctx : context) : option Addr := match Value ctx localAddrKey with VAddr a => Some a | _ => None end.
Definition NewContextWithRemoteAddr (ctx : context) (a : option Addr) : context := WithValue ctx remoteAddrKey (of_addr a).
Definition RemoteAddrFromContext (ctx : context) : option Addr := match Value ctx remoteAddrKey with VAddr a => Some a | _ => None end.

(** ** Connections *)

Section WsSetup.
Context {CR TC U UR S : Type} `{N : WsNames} `{SC : StreamConn S}.

(** A handler of control frames, as it is or handed to the task pool. *)
Inductive control : Type := Inline (h : n_control) | Submitted (h : n_control).

(** [conn]: what is set when the connection is made.  [wo_source] is what a client's
    handshake has read too much, to be read before the connection. *)
Record wsobj : Type := WsObj {
  wo_client : bool;
  wo_source : option (list byte);
  wo_subprotocol : string;
  wo_messageType : MessageType;
  wo_combineWrites : bool;
  wo_pingHandler : option control;
  wo_pongHandler : option control;
  wo_metaData : option (metadata U)
}.

Abbreviation L := (layered (TC := TC) (U := U) (WO := wsobj) (S := S)).
Abbreviation LT := (thread L).
Implicit Types l : L.
Context `{TL : !TlsLib (CR := CR) (TC := TC) (U := U) (WO := wsobj) (S := S)}.
Variable zero_rest : CR.

(** The raw connection of the WebSocket: the TCP connection, or the TLS connection in a
    [rawConn]. *)
Definition raw_meta (l : L) : option (metadata U) := match ly_tls l with Some _ => ly_tlsMeta l | None => ly_meta l end.
Definition raw_GetMetaData : LT (option (metadata U)) := read raw_meta.
Definition raw_SetMetaData (m : option (metadata U)) : LT () :=
  write (λ l, match ly_tls l with Some _ => set_tlsMeta m l | None => set_meta m l end).
Definition raw_SetDeadline (d : option Z) : LT (result nerr ()) :=
  t ← read ly_tls;
  match t with Some _ => tls_std_SetDeadline d | None => on_raw (sc_SetDeadline d) end.
Definition raw_SetReadDeadline (d : option Z) : LT (result nerr ()) :=
  t ← read ly_tls;
  match t with Some _ => tls_std_SetReadDeadline d | None => on_raw (sc_SetReadDeadline d) end.
Definition raw_SetWriteDeadline (d : option Z) : LT (result nerr ()) :=
  t ← read ly_tls;
  match t with Some _ => tls_std_SetWriteDeadline d | None => on_raw (sc_SetWriteDeadline d) end.
Definition raw_Close : LT () :=
  t ← read ly_tls;
  match t with Some _ => tls_Close | None => on_raw sc_Close end.

(** Methods of [conn] that set or pass on. *)
Definition on_ws (f : wsobj → wsobj) : LT () := write (λ l, set_ws (f <$> ly_ws l) l).

Definition with_meta m w :=
  WsObj (wo_client w) (wo_source w) (wo_subprotocol w) (wo_messageType w) (wo_combineWrites w) (wo_pingHandler w) (wo_pongHandler w) m.
Definition with_ping h w :=
  WsObj (wo_client w) (wo_source w) (wo_subprotocol w) (wo_messageType w) (wo_combineWrites w) h (wo_pongHandler w) (wo_metaData w).
Definition with_pong h w :=
  WsObj (wo_client w) (wo_source w) (wo_subprotocol w) (wo_messageType w) (wo_combineWrites w) (wo_pingHandler w) h (wo_metaData w).

Definition ws_SetMetaData (m : option (metadata U)) : LT () := on_ws (with_meta m).
Definition ws_GetMetaData : LT (option (metadata U)) := read (λ l, match ly_ws l with Some w => wo_metaData w | None => None end).
Definition ws_Close : LT () := raw_Close.
Definition Subprotocol : LT string := read (λ l, default "" (wo_subprotocol <$> ly_ws l)).
Definition SetPingHandler (h : option n_control) : LT () := on_ws (with_ping (Inline <$> h)).
Definition SetPongHandler (h : option n_control) : LT () := on_ws (with_pong (Inline <$> h)).
Definition SetAsyncPingHandler (h : n_control) : LT () := on_ws (with_ping (Some (Submitted h))).
Definition SetAsyncPongHandler (h : n_control) : LT () := on_ws (with_pong (Some (Submitted h))).
Definition ws_SetIdleTimeout (d : Z) : LT (result nerr ()) := on_raw (sc_SetIdleTimeout d).
Definition ws_SetDeadline (d : option Z) : LT (result nerr ()) := raw_SetDeadline d.
Definition ws_SetReadDeadline (d : option Z) : LT (result nerr ()) := raw_SetReadDeadline d.
Definition ws_SetWriteDeadline (d : option Z) : LT (result nerr ()) := raw_SetWriteDeadline d.
Definition ws_SetWriteIdleTimeout (d : Z) : LT (result nerr ()) :=
  t ← read ly_tls;
  match t with Some _ => tls_SetWriteIdleTimeout d | None => on_raw (sc_SetWriteIdleTimeout d) end.
Definition ws_SetReadIdleTimeout (d : Z) : LT (result nerr ()) :=
  t ← read ly_tls;
  match t with Some _ => tls_SetReadIdleTimeout d | None => on_raw (sc_SetReadIdleTimeout d) end.
Definition ws_OutboundBuffered : LT Z := on_raw sc_OutboundBuffered.

(** ** Serving *)

Record Upgrader : Type := MkUpgrader {
  ug_Protocol : option n_select;
  ug_ProtocolCustom : option n_custom;
  ug_rest : UR   (* fields that only hooks set *)
}.

(** [ws.Upgrader.Upgrade], with the protocol of the handshake, and [ws.Dialer.Upgrade],
    with the bytes it has read too much if there is a reader. *)
Class WsLib : Type := {
  Upgrader_Upgrade : Upgrader → LT (result lerr string);
  Dialer_Upgrade : list string → option n_header → option n_onHeader → option n_onStatus → URL →
    LT (result lerr (option (list byte) * string))
}.
Context `{WL : WsLib}.
Variable zero_upgrader : UR.
Variables (LocalAddr RemoteAddr : S → option Addr).
(** Running the user's hooks and handlers; the hook before the handshake may change the
    upgrader. *)
Variable run_context : n_context → LT context.
Variable run_before : n_before → context → Upgrader → LT (result lerr context * Upgrader).
Variable run_after : n_after → context → LT (option lerr).
Variable run_handler : n_handler → LT (option lerr).
Variable run_wsclosed : n_closed → LT (option lerr).

(** Calling a hook: a nil one panics. *)
Definition call_context (h : option (hook n_context)) : LT context :=
  match h with Some Standard => Fin [] | Some (Custom h) => run_context h | None => atomically panic end.
Definition call_before (h : option (hook n_before)) (ctx : context) (up : Upgrader) : LT (result lerr context * Upgrader) :=
  match h with Some Standard => Fin (Ok ctx, up) | Some (Custom h) => run_before h ctx up | None => atomically panic end.
Definition call_after (h : option (hook n_after)) (ctx : context) : LT (option lerr) :=
  match h with Some Standard => Fin None | Some (Custom h) => run_after h ctx | None => atomically panic end.

Definition server_object (options : ws_serverOptions CR) (protocol : string) : wsobj :=
  WsObj false None protocol (so_messageType options) (so_combineWrites options)
    (Inline <$> so_pingHandler options) (Inline <$> so_pongHandler options) None.

(** The upgrade of a connection. *)
Definition handshake (options : ws_serverOptions CR) : LT (option lerr) :=
  let upgrader := MkUpgrader (so_protocolSelect options) (so_protocolCustom options) zero_upgrader in
  ctx ← call_context (so_newHandshakeContext options);
  laddr ← read (λ l, LocalAddr (ly_conn l));
  raddr ← read (λ l, RemoteAddr (ly_conn l));
  let ctx := NewContextWithRemoteAddr (NewContextWithLocalAddr (NewContextWithWSUpgrader ctx) laddr) raddr in
  x ← call_before (so_beforeHandshake options) ctx upgrader;
  let '(r, upgrader) := x : result lerr context * Upgrader in
  match r with
  | Err e => Fin (Some e)
  | Ok ctx =>
      h ← Upgrader_Upgrade upgrader;
      match h with
      | Err e => Fin (Some e)
      | Ok protocol =>
          _ ← write (set_ws (Some (server_object options protocol)));
          _ ← raw_SetMetaData (Some MWs);
          call_after (so_afterHandshake options) ctx
      end
  end.

Definition handleWithOptions (handler : n_handler) (options : ws_serverOptions CR) : LT (option lerr) :=
  m ← raw_GetMetaData;
  match m with
  | None => handshake options
  | Some MWs => run_handler handler
  | Some _ => Fin (Some LNotWs)
  end.

Definition onClosed (h : option n_closed) : LT (option lerr) :=
  match h with
  | None => Fin None
  | Some h =>
      m ← read ly_meta;
      match m with Some MWs => run_wsclosed h | _ => Fin (Some LNotWs) end
  end.

Definition onClosedTLS (h : option n_closed) : LT (option lerr) :=
  match h with
  | None => Fin None
  | Some h =>
      m ← tls_GetMetaData;
      match m with Some MWs => run_wsclosed h | _ => Fin (Some LNotWs) end
  end.

(** The request handler that [SetOnRequest] registers. *)
Definition ws_onRequest (handler : n_handler) : LT (option lerr) := handleWithOptions handler defaultServerOptions.

(** The closures that [SetOnRequest] and [SetOnClosed] register, with the TCP connection or
    with the TLS connection around it. *)
Inductive ws_conn_closure : Type :=
| WsRequest (handler : n_handler)
| WsOnClosed (h : option n_closed).

Section Handlers.
Context {C : Type} `{SH : !StreamHandlers S C}.
Variables (wrap : ws_conn_closure → C) (wrap_tls : tls_conn_closure ws_conn_closure → C).

Definition ws_SetOnRequest (handler : n_handler) : LT (result nerr ()) :=
  t ← read ly_tls;
  match t with
  | None => on_raw (sc_SetOnRequest (Some (wrap (WsRequest handler))))
  | Some _ => tls_SetOnRequest wrap_tls (Some (WsRequest handler))
  end.

Definition ws_SetOnClosed (oc : option n_closed) : LT (result nerr ()) :=
  t ← read ly_tls;
  match t with
  | None => on_raw (sc_SetOnClosed (Some (wrap (WsOnClosed oc))))
  | Some _ => tls_SetOnClosed wrap_tls (Some (WsOnClosed oc))
  end.

End Handlers.

(** What the layer below runs when it calls such a closure. *)
Definition ws_run_closure (k : ws_conn_closure) : LT (option lerr) :=
  match k with
  | WsRequest handler => ws_onRequest handler
  | WsOnClosed oc =>
      t ← read ly_tls;
      match t with None => onClosed oc | Some _ => onClosedTLS oc end
  end.

(** ** Dialling *)

Variable ParseRequestURI : string → result lerr URL.

(** The configuration of a dial to [hostname]: the caller's object, changed in place. *)
Definition wss_config (cfg : option (Config CR)) (hostname : string) : Config CR :=
  let cfg := default (MkConfig "" zero_rest) cfg in
  if decide (cfg_ServerName cfg = "") then MkConfig hostname (cfg_rest cfg) else cfg.

(** [dial]; with it, what the caller's configuration is afterwards. *)
Definition ws_dial (u : URL) (options : ws_clientOptions CR) : LT (result lerr () * option (Config CR)) :=
  if decide (u_Scheme u = "ws") then
    let '(_, addr) := createHostPortAddress (u_Host u) httpPort in
    r ← on_raw (sc_dial "tcp" addr (co_timeout options));
    match r with
    | Err e => Fin (Err (LNet e), co_tlsConfig options)
    | Ok _ => _ ← on_raw (sc_SetFlushWrite true); Fin (Ok (), co_tlsConfig options)
    end
  else if decide (u_Scheme u = "wss") then
    let '(hostname, addr) := createHostPortAddress (u_Host u) httpsPort in
    let cfg := wss_config (co_tlsConfig options) hostname in
    let after := match co_tlsConfig options with Some _ => Some cfg | None => None end in
    r ← tls_Dial zero_rest "tcp" addr [tls_WithClientTLSConfig (Some cfg); tls_WithTimeout (co_timeout options)];
    match r with
    | Err e => Fin (Err e, after)
    | Ok _ => _ ← tls_SetFlushWrite true; Fin (Ok (), after)
    end
  else Fin (Err LScheme, co_tlsConfig options).

Definition client_object (options : ws_clientOptions CR) (source : option (list byte)) (protocol : string) : wsobj :=
  WsObj true source protocol (co_messageType options) (co_combineWrites options) None None None.

(** The bytes that the reader of the handshake holds. *)
Definition prefix_of (br : option (list byte)) : option (list byte) :=
  match br with Some (b :: bs) => Some (b :: bs) | _ => None end.

Definition ws_Dial (url : string) (opts : list (ws_ClientOption CR)) : LT (result lerr ()) :=
  match ParseRequestURI url with
  | Err e => Fin (Err e)
  | Ok u =>
      let options := foldl (λ o opt, opt o) (ws_setDefaults ws_zero_client) opts in
      start ← read (λ l, sc_now (ly_conn l));
      x ← ws_dial u options;
      match (x : result lerr () * option (Config CR)).1 with
      | Err e => Fin (Err e)
      | Ok _ =>
          _ ← (if decide (0 < co_timeout options) then raw_SetDeadline (Some (start + co_timeout options)) else Fin (Ok ()));
          r ← Dialer_Upgrade (co_subprotocols options) (co_handshakeHeader options) (co_onHandshakeHeader options)
                (co_onHandshakeStatusError options) u;
          match r with
          | Err e => _ ← raw_Close; Fin (Err e)
          | Ok (br, protocol) =>
              _ ← (if decide (0 < co_timeout options) then raw_SetDeadline None else Fin (Ok ()));
              _ ← write (set_ws (Some (client_object options (prefix_of br) protocol)));
              _ ← raw_SetMetaData (Some MWs);
              Fin (Ok ())
          end
      end
  end.

(** ** What is documented of the libraries and asked of the user *)

Context `{SL : !StreamConnLaws S} `{TLL : !TlsLibLaws}.

(** The metadata of the raw connection is left alone. *)
Definition same_meta l l' : Prop :=
  ly_meta l' = ly_meta l ∧ ly_tlsMeta l' = ly_tlsMeta l ∧ (is_Some (ly_tls l) ↔ is_Some (ly_tls l')).

Definition keeps_meta {A} (p : LT A) : Prop := ∀ l x l', run_alone p l = Some (Ret (x, l')) → same_meta l l'.

Class WsLibLaws : Prop := {
  Dialer_ok protocols header onHeader onStatus u l :
    sc_open (ly_conn l) →
    returns (Dialer_Upgrade protocols header onHeader onStatus u) (λ r l',
      match r with
      | Ok _ => keeps_open l l'
      | Err _ => (sc_open (ly_conn l') ∨ sc_shut (ly_conn l')) ∧ (is_Some (ly_tls l) ↔ is_Some (ly_tls l'))
      end) l
}.
Context `{WLL : WsLibLaws}.

Record hooks_ok : Prop := {
  hk_after h ctx : keeps_meta (run_after h ctx);
  hk_handler h : keeps_meta (run_handler h)
}.

Lemma same_meta_raw l l' : same_meta l l' → raw_meta l' = raw_meta l.
Proof.
  intros (Hm & Ht & Hs). unfold raw_meta. rewrite Hm, Ht.
  destruct (ly_tls l), (ly_tls l'); try done; [destruct (proj1 Hs)|destruct (proj2 Hs)]; by try eexists.
Qed.

Lemma same_meta_refl l : same_meta l l.
Proof. done. Qed.

Lemma same_meta_trans l1 l2 l3 : same_meta l1 l2 → same_meta l2 l3 → same_meta l1 l3.
Proof. intros (A1 & A2 & A3) (B1 & B2 & B3). split; [congruence|]. split; [congruence|tauto]. Qed.

(** *** The upgrade happens once *)

(** The handler of a connection, called for one request after the other until it fails. *)
Fixpoint calls (n : nat) (p : LT (option lerr)) : LT (option lerr) :=
  match n with
  | O => Fin None
  | Datatypes.S n => e ← p; match e with Some e => Fin (Some e) | None => calls n p end
  end.

(** First one program and, when it has succeeded, another. *)
Definition first_then {A} (p : LT (option lerr)) (fail : lerr → A) (q : LT A) : LT A :=
  e ← p; match e with Some e => Fin (fail e) | None => q end.

Lemma calls_run n p l :
  run_alone (calls (Datatypes.S n) p) l = run_alone (e ← p; match e with Some e => Fin (Some e) | None => calls n p end) l.
Proof. done. Qed.

Lemma loop_run n p l :
  run_alone (tls_request_loop (Datatypes.S n) p) l =
  run_alone (active ← tls_IsActive;
             if negb active then Fin (LNet NConnClosed)
             else e ← p; match e with Some e => Fin e | None => tls_request_loop n p end) l.
Proof. done. Qed.

Lemma upgraded_handle h o l :
  raw_meta l = Some MWs → run_alone (handleWithOptions h o) l = run_alone (run_handler h) l.
Proof. intros Hm. unfold handleWithOptions, raw_GetMetaData. apure. by rewrite Hm. Qed.

Lemma upgraded_calls h o n l :
  keeps_meta (run_handler h) → raw_meta l = Some MWs →
  run_alone (calls n (handleWithOptions h o)) l = run_alone (calls n (run_handler h)) l.
Proof.
  intros Hk. revert l. induction n as [|n IH]; intros l Hm; [done|]. rewrite !calls_run, !run_alone_then.
  rewrite (upgraded_handle h o l Hm). destruct (run_alone (run_handler h) l) as [[[[e|] l']| |]|] eqn:E; try done.
  apply IH. rewrite <-Hm. apply same_meta_raw. by eapply Hk.
Qed.

Lemma on_raw_meta {A} (p : thread S A) : keeps_meta (on_raw p).
Proof.
  intros l x l'. revert l. induction p as [r|B a k IH]; intros l; simpl; [by intros [= <- <-]|].
  destruct (a (ly_conn l)) as [[[y t]| |]|]; [|done..]. intros Hr. apply IH in Hr.
  by eapply same_meta_trans; [|exact Hr].
Qed.

Lemma upgraded_loop h o n l :
  keeps_meta (run_handler h) → raw_meta l = Some MWs →
  run_alone (tls_request_loop n (handleWithOptions h o)) l = run_alone (tls_request_loop n (run_handler h)) l.
Proof.
  intros Hk. revert l. induction n as [|n IH]; intros l Hm; [done|]. rewrite !loop_run, !run_alone_then.
  destruct (run_alone tls_IsActive l) as [[[a l1]| |]|] eqn:E1; try done.
  assert (Hm1 : raw_meta l1 = Some MWs) by (rewrite <-Hm; apply same_meta_raw; by eapply on_raw_meta).
  destruct a; [|done]. cbn [negb]. rewrite !run_alone_then, (upgraded_handle h o l1 Hm1).
  destruct (run_alone (run_handler h) l1) as [[[[e|] l']| |]|] eqn:E; try done.
  apply IH. rewrite <-Hm1. apply same_meta_raw. by eapply Hk.
Qed.

Lemma call_after_keeps h ctx : hooks_ok → keeps_meta (call_after h ctx).
Proof. intros Hh l x l'. destruct h as [[|h]|]; [by intros [= <- <-]|by apply Hh|done]. Qed.

(** A thread in the middle of a program that has returned. *)
Lemma run_alone_split {A B} (p : LT A) (f : A → LT B) l x l' :
  run_alone (p ≫= f) l = Some (Ret (x, l')) →
  ∃ y l1, run_alone p l = Some (Ret (y, l1)) ∧ run_alone (f y) l1 = Some (Ret (x, l')).
Proof. rewrite run_alone_then. destruct (run_alone p l) as [[[y l1]| |]|]; [by eexists _, _|done..]. Qed.

(** Storing the WebSocket object in the metadata of the raw connection. *)
Definition stored (w : wsobj) (l : L) : L :=
  match ly_tls l with
  | Some _ => set_tlsMeta (Some MWs) (set_ws (Some w) l)
  | None => set_meta (Some MWs) (set_ws (Some w) l)
  end.

Lemma stored_ok w l :
  ly_conn (stored w l) = ly_conn l ∧ ly_tls (stored w l) = ly_tls l ∧ raw_meta (stored w l) = Some MWs ∧
  ly_ws (stored w l) = Some w.
Proof. unfold stored, raw_meta. by destruct l as [? ? [?|] ? ?]. Qed.

(** What has been done when [handshake] succeeds. *)
Lemma handshake_ok o l l1 :
  hooks_ok → run_alone (handshake o) l = Some (Ret (None, l1)) →
  raw_meta l1 = Some MWs ∧
  ∃ ctx protocol l0, ly_ws l0 = Some (server_object o protocol) ∧ raw_meta l0 = Some MWs ∧
    run_alone (call_after (so_afterHandshake o) ctx) l0 = Some (Ret (None, l1)).
Proof.
  intros Hh (ctx & l2 & _ & E)%run_alone_split. do 2 (apply run_alone_split in E as (? & ? & [= <- <-] & E)).
  apply run_alone_split in E as ([[ctx2|e] up] & l3 & _ & E); [|done].
  apply run_alone_split in E as ([protocol|e] & l4 & _ & E); [|done].
  do 2 (apply run_alone_split in E as (? & ? & [= <- <-] & E)).
  change (run_alone (call_after (so_afterHandshake o) ctx2) (stored (server_object o protocol) l4) = Some (Ret (None, l1))) in E.
  destruct (stored_ok (server_object o protocol) l4) as (_ & _ & Hm0 & Hw0).
  split; [rewrite <-Hm0; apply same_meta_raw; by eapply call_after_keeps|].
  by exists ctx2, protocol, (stored (server_object o protocol) l4).
Qed.

(** C19: a server upgrades a connection exactly once.  Over TCP, any number of
    requests of a connection without metadata is one handshake and then calls of the
    user's handler only; over TLS so is the request loop.  A handshake that succeeds has
    stored the connection configured as the options say, with the negotiated protocol,
    before the hook after the handshake runs. *)
Theorem ws_upgrades_once (n : nat) (h : n_handler) (o : ws_serverOptions CR) l :
  hooks_ok → raw_meta l = None →
  run_alone (calls (Datatypes.S n) (handleWithOptions h o)) l =
    run_alone (first_then (handshake o) Some (calls n (run_handler h))) l ∧
  (ly_meta l = Some MTls → sc_open (ly_conn l) →
   run_alone (tls_handleFunc (Datatypes.S n) (handleWithOptions h o)) l =
     run_alone (first_then (handshake o) id (tls_request_loop n (run_handler h))) l) ∧
  (∀ l1, run_alone (handshake o) l = Some (Ret (None, l1)) →
     ∃ ctx protocol l0, ly_ws l0 = Some (server_object o protocol) ∧ raw_meta l0 = Some MWs ∧
       run_alone (call_after (so_afterHandshake o) ctx) l0 = Some (Ret (None, l1))).
Proof.
  intros Hh Hm. split; [|split].
  - rewrite calls_run. unfold first_then. rewrite !run_alone_then. unfold handleWithOptions at 1, raw_GetMetaData. apure. rewrite Hm.
    destruct (run_alone (handshake o) l) as [[[[e|] l1]| |]|] eqn:E; try done.
    apply upgraded_calls; [apply Hh|]. by eapply handshake_ok.
  - intros Ht Ho. unfold tls_handleFunc. apure. rewrite Ht, loop_run.
    arun (run_on_raw _ l _ _ (sc_IsActive_open _ Ho)). cbn [negb]. assert (set_conn (ly_conn l) l = l) as -> by by destruct l.
    unfold first_then. rewrite !run_alone_then. unfold handleWithOptions at 1, raw_GetMetaData. apure. rewrite Hm.
    destruct (run_alone (handshake o) l) as [[[[e|] l1]| |]|] eqn:E; try done.
    apply upgraded_loop; [apply Hh|]. by eapply handshake_ok.
  - intros l1 E. by destruct (handshake_ok o l l1 Hh E) as [_ ?].
Qed.

(** *** Dialling *)

Lemma raw_Close_ok l :
  sc_open (ly_conn l) ∨ sc_shut (ly_conn l) → returns raw_Close (λ _ l', sc_shut (ly_conn l')) l.
Proof.
  intros Hl. unfold raw_Close. apply returns_bind, returns_read. destruct (ly_tls l) eqn:E.
  - apply tls_Close_ok; [done|by rewrite E].
  - eapply returns_on_raw; [by apply sc_Close_ok|done].
Qed.

Lemma raw_SetDeadline_ok d l :
  sc_open (ly_conn l) →
  returns (raw_SetDeadline d) (λ _ l', sc_open (ly_conn l') ∧ sc_deadline (ly_conn l') d ∧
    sc_safe (ly_conn l') = sc_safe (ly_conn l) ∧ same_objects l l') l.
Proof.
  intros Ho. unfold raw_SetDeadline. apply returns_bind, returns_read. destruct (ly_tls l) eqn:E.
  - eapply returns_mono; [apply tls_SetDeadline_ok; [done|by rewrite E]|]. by intros r l' (_ & H).
  - eapply returns_on_raw; [by apply sc_SetDeadline_ok|]. intros r t (_ & ? & ? & ?). by repeat (split; [done|]).
Qed.

(** Setting the deadline of the handshake, or clearing it, when there is a timeout. *)
Lemma maybe_deadline_ok {P : Prop} (b : Decision P) d l :
  sc_open (ly_conn l) →
  returns (if b then raw_SetDeadline d else Fin (Ok ())) (λ _ l', sc_open (ly_conn l') ∧
    (if b then sc_deadline (ly_conn l') d else ∀ d', sc_deadline (ly_conn l) d' → sc_deadline (ly_conn l') d') ∧
    sc_safe (ly_conn l') = sc_safe (ly_conn l) ∧ same_objects l l') l.
Proof. intros Ho. destruct b; [by apply raw_SetDeadline_ok|]. by apply returns_fin. Qed.

(** A dialled connection: open, without a deadline, over TLS with safe writes. *)
Record dialled l : Prop := {
  di_open : sc_open (ly_conn l);
  di_deadline : sc_deadline (ly_conn l) None;
  di_safe : is_Some (ly_tls l) → sc_safe (ly_conn l) = true
}.

Lemma ws_dial_ok u options l :
  sc_ready (ly_conn l) → ly_tls l = None →
  returns (ws_dial u options) (λ r l',
    match r.1 with
    | Ok _ => dialled l' ∧ ((u_Scheme u = "ws" ∧ ly_tls l' = None) ∨
                              (u_Scheme u = "wss" ∧ is_Some (ly_tls l') ∧ 0 < co_timeout options))
    | Err _ => sc_ready (ly_conn l') ∨ sc_shut (ly_conn l')
    end) l.
Proof.
  intros Hr Hn. unfold ws_dial. case_decide as Hws.
  - destruct (createHostPortAddress (u_Host u) httpPort) as [hostname addr]. apply returns_bind.
    eapply returns_on_raw; [by apply sc_dial_ok|]. cbv beta. intros r t Ht. destruct r as [[]|e]; [|by apply returns_fin].
    destruct Ht as (Ho & Hd & _). apply returns_bind.
    eapply returns_run; [by apply run_on_raw, sc_SetFlushWrite_ok|]. apply returns_fin. simpl.
    split; [|by left]. split; [done|done|]. simpl. rewrite Hn. by intros [? ?].
  - case_decide as Hwss; [|by apply returns_fin; left].
    destruct (createHostPortAddress (u_Host u) httpsPort) as [hostname addr]. apply returns_bind.
    eapply returns_mono; [by apply tls_dial_ok|]. cbv beta. intros r l1 H1. destruct r as [[]|e]; [|by apply returns_fin].
    destruct H1 as (Ho & Hd & Hs & Ht & _ & _ & _ & Hpos). apply returns_bind.
    eapply returns_run; [by apply run_on_raw, sc_SetFlushWrite_ok|]. apply returns_fin. simpl in *.
    split; [by split|]. by right.
Qed.

(** What is known of a successful dial. *)
Record connected options l : Prop := {
  cn_dialled : dialled l;
  cn_meta : raw_meta l = Some MWs;
  cn_object : ∃ br protocol, ly_ws l = Some (client_object options (prefix_of br) protocol)
}.

Lemma ws_Dial_ok url opts l :
  sc_ready (ly_conn l) → ly_tls l = None →
  let options := foldl (λ o opt, opt o) (ws_setDefaults ws_zero_client) opts in
  returns (ws_Dial url opts) (λ r l',
    match r with
    | Ok _ => connected options l' ∧ ∃ u, ParseRequestURI url = Ok u ∧
                ((u_Scheme u = "ws" ∧ ly_tls l' = None) ∨
                 (u_Scheme u = "wss" ∧ is_Some (ly_tls l') ∧ 0 < co_timeout options))
    | Err _ => sc_ready (ly_conn l') ∨ sc_shut (ly_conn l')
    end) l.
Proof.
  intros Hr Hn options. unfold ws_Dial. destruct (ParseRequestURI url) as [u|e] eqn:Eu; [|by apply returns_fin; left].
  fold options. apply returns_bind, returns_read, returns_bind.
  eapply returns_mono; [by apply ws_dial_ok|]. cbv beta. intros [r cfg] l1 H1. simpl fst in *.
  destruct r as [[]|e]; [|by apply returns_fin]. destruct H1 as ([Ho1 Hd1 Hs1] & Hsch). apply returns_bind.
  eapply returns_mono.
  { apply (maybe_deadline_ok (decide (0 < co_timeout options))); exact Ho1. }
  cbv beta. intros _ l2 (Ho2 & Hd2 & Hs2 & (_ & _ & _ & Ht2)). apply returns_bind.
  eapply returns_mono; [by apply Dialer_ok|]. cbv beta. intros r l3 H3. destruct r as [[br protocol]|e].
  - destruct H3 as (Ho3 & Hd3 & Hs3 & (_ & _ & _ & Ht3)). apply returns_bind.
    eapply returns_mono; [apply (maybe_deadline_ok (decide (0 < co_timeout options))); exact Ho3|].
    cbv beta. intros _ l4 (Ho4 & Hd4 & Hs4 & (_ & _ & _ & Ht4)).
    apply returns_bind, returns_write, returns_bind, returns_write, returns_fin.
    set (w := client_object options (prefix_of br) protocol). destruct (stored_ok w l4) as (Ec & Et & Em & Ew).
    change (match ly_tls _ with Some _ => _ | None => _ end) with (stored w l4).
    assert (Hiff : is_Some (ly_tls l1) ↔ is_Some (ly_tls (stored w l4))) by (rewrite Et; tauto).
    split; [split; [split| |]|].
    + by rewrite Ec.
    + rewrite Ec. repeat case_decide; auto.
    + intros Hi. rewrite Ec, Hs4, Hs3, Hs2. apply Hs1. tauto.
    + done.
    + by eexists _, _.
    + exists u. split; [done|]. destruct Hsch as [[? Hn1]|[? Hs]]; [left; split; [done|]|right; split; [done|]; tauto].
      destruct (ly_tls (stored w l4)); [|done]. rewrite Hn1 in Hiff. by destruct (proj2 Hiff).
  - apply returns_bind. eapply returns_mono; [apply raw_Close_ok; apply H3|]. cbv beta. intros _ l4 H4.
    apply returns_fin. by right.
Qed.


(** A timeout of zero means no timeout to a "ws" dial, and to the TCP dial of a
    "wss" one; but then [tls.dial] makes it the context of the handshake, which has
    expired before it begins.  Such a dial never succeeds. *)
Theorem wss_without_timeout_never_connects url u opts l :
  sc_ready (ly_conn l) → ly_tls l = None → ParseRequestURI url = Ok u → u_Scheme u = "wss" →
  co_timeout (foldl (λ o opt, opt o) (ws_setDefaults ws_zero_client) opts) <= 0 →
  ∃ e l', run_alone (ws_Dial url opts) l = Some (Ret (Err e, l')).
Proof.
  intros Hr Hn Hu Hs Ht. destruct (ws_Dial_ok url opts l Hr Hn) as ([[]|e] & l' & Hrun & Hp); [|by exists e, l'].
  destruct Hp as (_ & u' & Hu' & Hc). assert (u' = u) as -> by congruence. rewrite Hs in Hc.
  destruct Hc as [[? _]|(_ & _ & ?)]; [done|lia].
Qed.

(** The name that a second dial with the same configuration verifies is the host of the
    first: [dial] has written it into the caller's object. *)
Theorem second_dial_verifies_first_host (cfg : Config CR) (host1 host2 addr : string) :
  cfg_ServerName cfg = "" → host1 ≠ "" →
  cfg_ServerName (fixConfig zero_rest (Some (wss_config (Some (wss_config (Some cfg) host1)) host2)) addr) = host1.
Proof.
  intros Hc Hh. destruct cfg as [name r]. simpl in Hc. subst name. unfold fixConfig, wss_config. simpl.
  rewrite (decide_False (P := host1 = "")) by done. simpl. by rewrite decide_True.
Qed.

End WsSetup.

(** ** Hosts and ports *)

Definition no_byte (c : ascii) (s : string) : Prop := IndexByte s c = None.

Lemma LastIndexByte_none s c : no_byte c s → LastIndexByte s c = None.
Proof.
  induction s as [|a s IH]; [done|]. unfold no_byte. simpl. destruct (decide (a = c)); [done|].
  destruct (IndexByte s c) eqn:E; [done|]. intros _. by rewrite IH.
Qed.

Lemma append_cons a (s t : string) : String a s +:+ t = String a (s +:+ t).
Proof. done. Qed.

Lemma append_nil_l (t : string) : "" +:+ t = t.
Proof. done. Qed.

Lemma LastIndexByte_app s t c :
  LastIndexByte (s +:+ t) c = match LastIndexByte t c with
                              | Some i => Some (String.length s + i)%nat
                              | None => LastIndexByte s c
                              end.
Proof.
  induction s as [|a s IH]; [rewrite append_nil_l; by destruct (LastIndexByte t c)|].
  rewrite append_cons. simpl. rewrite IH. by destruct (LastIndexByte t c).
Qed.

Lemma IndexByte_app s t c :
  IndexByte (s +:+ t) c = match IndexByte s c with
                          | Some i => Some i
                          | None => (λ i, String.length s + i)%nat <$> IndexByte t c
                          end.
Proof.
  induction s as [|a s IH]; [rewrite append_nil_l; by destruct (IndexByte t c)|].
  rewrite append_cons. simpl. destruct (decide (a = c)); [done|]. rewrite IH. destruct (IndexByte s c); [done|]. by destruct (IndexByte t c).
Qed.

Lemma IndexByte_bound s c i : IndexByte s c = Some i → (i < String.length s)%nat.
Proof.
  revert i. induction s as [|a s IH]; intros i; simpl; [done|]. destruct (decide (a = c)); [intros [= <-]; lia|].
  destruct (IndexByte s c) as [j|]; [|done]. intros [= <-]. specialize (IH j eq_refl). lia.
Qed.

Lemma substring_app s t : substring 0 (String.length s) (s +:+ t) = s.
Proof. induction s as [|a s IH]; [by destruct t|]. rewrite append_cons. simpl. by rewrite IH. Qed.

(** A host with a port is left as it is. *)
Lemma host_with_port h p d :
  no_byte colon p → no_byte bracket p → createHostPortAddress (h +:+ ":" +:+ p) d = (h, h +:+ ":" +:+ p).
Proof.
  intros Hc Hb. unfold createHostPortAddress.
  rewrite LastIndexByte_app. rewrite append_cons, append_nil_l. cbn [LastIndexByte]. rewrite (LastIndexByte_none p colon Hc).
  rewrite decide_True by done. rewrite Nat.add_0_r.
  rewrite IndexByte_app. cbn [IndexByte]. rewrite decide_False by done. unfold no_byte in Hb. rewrite Hb. simpl.
  destruct (IndexByte h bracket) as [j|] eqn:E; [|by rewrite substring_app].
  rewrite bool_decide_true by (by eapply IndexByte_bound). by rewrite substring_app.
Qed.

(** A name without a port, or an IPv6 address in brackets, gets the default port. *)
Lemma host_without_port h d :
  no_byte colon h ∨ (∃ v6, h = "[" +:+ v6 +:+ "]" ∧ no_byte bracket v6) → createHostPortAddress h d = (h, h +:+ d).
Proof.
  intros [Hc|(v6 & -> & Hb)]; unfold createHostPortAddress.
  - by rewrite (LastIndexByte_none h colon Hc).
  - assert (Hi : IndexByte ("[" +:+ v6 +:+ "]") bracket = Some (Datatypes.S (String.length v6))).
    { rewrite !IndexByte_app. simpl. unfold no_byte in Hb. rewrite Hb. simpl. by rewrite Nat.add_0_r. }
    rewrite Hi. destruct (LastIndexByte ("[" +:+ v6 +:+ "]") colon) as [i|] eqn:E; [|done].
    rewrite bool_decide_false; [done|].
    revert E. rewrite !LastIndexByte_app. simpl. destruct (LastIndexByte v6 colon) as [j|] eqn:Ej; [|done].
    intros [= <-]. assert (j < String.length v6)%nat; [|lia]. clear -Ej. revert j Ej.
    induction v6 as [|a s IH]; intros j; simpl; [done|]. destruct (LastIndexByte s colon) as [k|]; [|by destruct (decide _); intros [= <-]; lia].
    intros [= <-]. specialize (IH k eq_refl). lia.
Qed.

(** ** Concrete connections *)

(** The names of hooks and handlers are numbers. *)
#[local] Instance demo_names : WsNames := {|
  n_before := nat; n_after := nat; n_context := nat; n_select := nat; n_custom := nat;
  n_control := nat; n_handler := nat; n_closed := nat; n_header := nat; n_onHeader := nat; n_onStatus := nat
|}.

(** A TLS library without cryptography, and handshakes that succeed, the client's with
    two bytes too many. *)
Section Demo.
Context {S : Type} `{SL : StreamConnLaws S}.
Abbreviation L := (layered (TC := nat) (U := nat) (WO := wsobj (U := nat)) (S := S)).

#[local] Instance demo_tls : TlsLib (CR := nat) (TC := nat) (U := nat) (WO := wsobj (U := nat)) (S := S) := {|
  tls_Server _ := 0%nat;
  tls_Client _ := 1%nat;
  tls_HandshakeContext d :=
    now ← read (λ l : L, sc_now (ly_conn l));
    if decide (now < d) then Fin None else _ ← on_raw sc_Close; Fin (Some (LLib 0));
  tls_Close := on_raw sc_Close;
  tls_std_SetDeadline d := on_raw (sc_SetDeadline d);
  tls_std_SetReadDeadline d := on_raw (sc_SetReadDeadline d);
  tls_std_SetWriteDeadline d := on_raw (sc_SetWriteDeadline d)
|}.

#[local] Instance demo_ws : WsLib (TC := nat) (U := nat) (UR := nat) (S := S) := {|
  Upgrader_Upgrade _ := Fin (Ok "chat"%string);
  Dialer_Upgrade _ _ _ _ _ := Fin (Ok (Some [129; 0], "chat"%string))
|}.

Lemma demo_tls_laws : TlsLibLaws (TL := demo_tls).
Proof.
  split.
  - intros d l Ho Ht. simpl. apply (returns_bind (read (λ l : L, sc_now (ly_conn l)))), returns_read.
    case_decide as Hd; [by apply returns_fin|]. apply returns_bind.
    eapply returns_on_raw; [by apply sc_Close_ok; left|]. cbv beta. intros _ t Hs. apply returns_fin. by right.
  - intros l Hl Ht. eapply returns_on_raw; [by apply sc_Close_ok|done].
  - intros d l Ho Ht. eapply returns_on_raw; [by apply sc_SetDeadline_ok|]. intros r t (-> & ? & ? & ?).
    by repeat (split; [done|]).
Qed.

Lemma demo_ws_laws : WsLibLaws (WL := demo_ws).
Proof. split. intros. by apply returns_fin. Qed.

End Demo.

(** *** Dialling from a real process *)

Abbreviation demo_tcp := (tcpconn nat nat script nat).

#[local] Instance demo_ops : StreamConn demo_tcp :=
  tcp_stream_ops 1200 (λ _ w, w) (λ _, Fin ()) 0%nat 1%nat 2%nat (Some 0%nat)
    (λ _ _ _ w, (Ok (9, Some 9), w)) 7%nat.
#[local] Instance demo_stream : StreamConnLaws demo_tcp :=
  tcp_stream 1200 (λ _ w, w) (λ _, Fin ()) 0%nat 1%nat 2%nat (Some 0%nat)
    (λ _ _ _ w, (Ok (9, Some 9), w)) 7%nat.

Abbreviation demo_layered := (layered (TC := nat) (U := nat) (WO := wsobj (U := nat)) (S := demo_tcp)).

Definition undialled : demo_layered := Layered listening None None None None.

Definition demo_url (url : string) : result lerr URL :=
  if decide (url = "wss://example.org/chat"%string) then Ok (MkURL "wss" "example.org")
  else if decide (url = "ws://example.org/chat"%string) then Ok (MkURL "ws" "example.org")
  else Err (LLib 1).


Lemma wss_without_timeout_never_connects_witness :
  ∃ e l', run_alone (ws_Dial (TL := demo_tls) (WL := demo_ws) 0%nat demo_url "wss://example.org/chat" [WithTimeout 0]) undialled
          = Some (Ret (Err e, l')).
Proof.
  apply (wss_without_timeout_never_connects (TL := demo_tls) (WL := demo_ws) (TLL := demo_tls_laws) (WLL := demo_ws_laws)
           0%nat demo_url "wss://example.org/chat" (MkURL "wss" "example.org") [WithTimeout 0] undialled).
  - exists [], [], ∅. exact listening_ok.
  - reflexivity.
  - reflexivity.
  - reflexivity.
  - by vm_compute.
Defined.

(** *** Requests of a connection accepted over TLS *)

Definition accepted_tls : demo_layered := Layered listening (Some MTls) (Some 0%nat) None None.

Definition demo_before (h : nat) (ctx : context) (up : Upgrader (UR := nat)) :
    thread demo_layered (result lerr context * Upgrader (UR := nat)) :=
  Fin (if decide (h = 0%nat) then Err (LUser 7) else Ok (WithValue ctx (userKey 1) (VUser 2)), up).

Lemma demo_hooks_ok :
  hooks_ok (TC := nat) (U := nat) (S := demo_tcp) (λ _ _, Fin None) (λ _, Fin None).
Proof. by split; intros; intros l' x l'' [= <- <-]. Qed.

Lemma ws_upgrades_once_witness :
  let o := foldl (λ o opt, opt o) (defaultServerOptions (CR := nat)) [WithHookBeforeHandshake (Some 1%nat); WithServerMessageType Text] in
  let hand := handshake (WL := demo_ws) 0%nat (λ _, None) (λ _, None) (λ _, Fin []) demo_before (λ _ _, Fin None) o in
  let run := handleWithOptions (WL := demo_ws) 0%nat (λ _, None) (λ _, None) (λ _, Fin []) demo_before (λ _ _, Fin None)
               (λ _, Fin None) 5%nat o in
  run_alone (calls 4 run) accepted_tls = run_alone (first_then hand Some (calls 3 (Fin None))) accepted_tls ∧
  (ly_meta accepted_tls = Some MTls → sc_open (ly_conn accepted_tls) →
   run_alone (tls_handleFunc 4 run) accepted_tls = run_alone (first_then hand id (tls_request_loop 3 (Fin None))) accepted_tls) ∧
  (∀ l1, run_alone hand accepted_tls = Some (Ret (None, l1)) →
     ∃ ctx protocol l0, ly_ws l0 = Some (server_object o protocol) ∧ raw_meta l0 = Some MWs ∧
       run_alone (call_after (λ _ _, Fin None) (so_afterHandshake o) ctx) l0 = Some (Ret (None, l1))).
Proof.
  apply (ws_upgrades_once (WL := demo_ws) 0%nat (λ _, None) (λ _, None) (λ _, Fin []) demo_before
           (λ _ _, Fin None) (λ _, Fin None) 3 5%nat _ accepted_tls).
  - exact demo_hooks_ok.
  - reflexivity.
Defined.
