(* ===== verification/Service.v ===== *)
(** * TCP services: serving, draining and restarting (src/tcpservice.go, src/tnet.go, src/tcplistener.go)

    A service and the goroutines around it: the poller that accepts connections and
    reports the hang-up of the listener, connections that end, [Serve], [Restart]
    and the goroutines [waitConnections] starts to watch its context.  Their methods
    are programs of atomic actions ([Threads]); the condition variable is the count
    of its broadcasts, a waiter remembers the count it started with.  Starting the
    child process is a parameter: whether it starts.  Contexts are names.

    The theorem: for every interleaving, waiting never misses the end of the last
    connection or of the context, at most one child is started, with one descriptor
    in its environment, and a restart that succeeds has closed the listener.
    One execution shows a connection that the end of the service overlooks. *)

From stdpp Require Import base gmap sets list numbers strings.
From S2P Require Import Prelude SafeJob AsyncTimer Threads TcpService.

(** ** The environment of the child process *)

Definition gracefulRestartFDEnv : string := "GRACEFUL_RESTART_FD".
Definition gracefulRestartFD : string := "3".

Definition cleanAndAppendEnv (env : list string) (key value : string) : list string :=
  let prefix := (key +:+ "=")%string in
  filter (λ e, String.prefix prefix e = false) env ++ [(prefix +:+ value)%string].

(** Exactly one entry of the key is left, and the other entries keep their order. *)
Lemma cleanAndAppendEnv_ok env key value :
  let is_entry e := String.prefix (key +:+ "=") e = true in
  filter is_entry (cleanAndAppendEnv env key value) = [((key +:+ "=") +:+ value)%string] ∧
  filter (λ e, ¬ is_entry e) (cleanAndAppendEnv env key value) = filter (λ e, ¬ is_entry e) env.
Proof.
  intros is_entry.
  assert (Hp : ∀ p v, String.prefix p (p +:+ v) = true).
  { intros p v. induction p as [|a p IH]; [by destruct v|]. simpl. destruct (Ascii.ascii_dec a a); [exact IH|done]. }
  unfold cleanAndAppendEnv. set (last := ((key +:+ "=") +:+ value)%string).
  assert (Hl : is_entry last) by apply Hp. clearbody last.
  split; induction env as [|e env IH].
  - change (filter _ ([] : list string) ++ [last]) with [last]. by rewrite filter_cons_True.
  - rewrite filter_cons. case_decide as He; [|done].
    cbn [app]. rewrite filter_cons_False; [done|]. unfold is_entry. by rewrite He.
  - change (filter _ ([] : list string) ++ [last]) with [last]. rewrite filter_cons_False; [done|naive_solver].
  - rewrite !(filter_cons _ e). case_decide as He.
    + cbn [app]. rewrite decide_True by (unfold is_entry; by rewrite He).
      rewrite filter_cons_True by (unfold is_entry; by rewrite He). by rewrite IH.
    + rewrite decide_False; [done|]. unfold is_entry. destruct (String.prefix _ e); naive_solver.
Qed.

(** ** The service *)

(** What [Serve] and [Restart] return. *)
Inductive sret : Type :=
| RNil
| RClosed        (* "service is closed" *)
| RRestarting    (* "service is already restarting" *)
| RStart         (* the child did not start *)
| RContext       (* [ctx.Err()] *)
| RListener      (* "listener is closed" *)
| RSchedule      (* the listener could not be scheduled *)
| RAccept.       (* "tcp service on read error during accepting" *)

#[export] Instance sret_eq_dec : EqDecision sret.
Proof. solve_decision. Defined.

Record svc : Type := Svc {
  v_s : tcpservice;
  v_mu : bool;
  v_lnClosed : bool;                (* the listener's [netFD] is closed *)
  v_closedConns : list cid;         (* connections [closeAll] has closed *)
  v_children : list (list string);  (* the environments of the processes that were started *)
  v_ended : gset nat;               (* contexts that have ended *)
  v_watched : gset nat;             (* contexts [waitConnections] has started a goroutine for *)
  v_stopped : gset nat;             (* and those whose [stop] is closed *)
  v_coins : list bool;              (* the choices of [select] *)
  v_returned : gmap nat sret        (* history: what calls have returned *)
}.

Definition set_s x v := Svc x (v_mu v) (v_lnClosed v) (v_closedConns v) (v_children v) (v_ended v) (v_watched v) (v_stopped v) (v_coins v) (v_returned v).
Definition set_mu x v := Svc (v_s v) x (v_lnClosed v) (v_closedConns v) (v_children v) (v_ended v) (v_watched v) (v_stopped v) (v_coins v) (v_returned v).
Definition set_lnClosed x v := Svc (v_s v) (v_mu v) x (v_closedConns v) (v_children v) (v_ended v) (v_watched v) (v_stopped v) (v_coins v) (v_returned v).
Definition log_close c v := Svc (v_s v) (v_mu v) (v_lnClosed v) (v_closedConns v ++ [c]) (v_children v) (v_ended v) (v_watched v) (v_stopped v) (v_coins v) (v_returned v).
Definition add_child e v := Svc (v_s v) (v_mu v) (v_lnClosed v) (v_closedConns v) (e :: v_children v) (v_ended v) (v_watched v) (v_stopped v) (v_coins v) (v_returned v).
Definition end_ctx k v := Svc (v_s v) (v_mu v) (v_lnClosed v) (v_closedConns v) (v_children v) ({[k]} ∪ v_ended v) (v_watched v) (v_stopped v) (v_coins v) (v_returned v).
Definition add_watched k v := Svc (v_s v) (v_mu v) (v_lnClosed v) (v_closedConns v) (v_children v) (v_ended v) ({[k]} ∪ v_watched v) (v_stopped v) (v_coins v) (v_returned v).
Definition add_stopped k v := Svc (v_s v) (v_mu v) (v_lnClosed v) (v_closedConns v) (v_children v) (v_ended v) (v_watched v) ({[k]} ∪ v_stopped v) (v_coins v) (v_returned v).
Definition flip v := Svc (v_s v) (v_mu v) (v_lnClosed v) (v_closedConns v) (v_children v) (v_ended v) (v_watched v) (v_stopped v) (tail (v_coins v)) (v_returned v).
Definition log_return k r v := Svc (v_s v) (v_mu v) (v_lnClosed v) (v_closedConns v) (v_children v) (v_ended v) (v_watched v) (v_stopped v) (v_coins v) (<[k := r]> (v_returned v)).

Abbreviation V := (thread svc).

Definition on_s {A} (m : MS A) : V A := method v_s set_s m.
Definition mu_Lock : V () := await (λ v, if v_mu v then None else Some ((), set_mu true v)).
Definition mu_Unlock : V () := write (set_mu false).

(** [select] over two channels that get closed: when both are, either may be taken. *)
Definition select (f g : svc → bool) : V bool :=
  await (λ v,
    match f v, g v with
    | false, false => None
    | true, false => Some (true, v)
    | false, true => Some (false, v)
    | true, true => Some (hd true (v_coins v), flip v)
    end).

Definition ctx_Err (k : nat) (v : svc) : bool := bool_decide (k ∈ v_ended v).

(** [connCond.Wait]: the ticket is taken while the lock is held. *)
Definition connCond_Wait : V () :=
  t ← read (λ v, sv_broadcasts (v_s v));
  _ ← mu_Unlock;
  _ ← await (λ v, if decide (t < sv_broadcasts (v_s v))%nat then Some ((), v) else None);
  mu_Lock.

Section Service.
(** [os.Environ()], the duration of the grace period, and the rounds of a waiting loop. *)
Variables (environ : list string) (gracefulRestartTimeout : Z) (fuel : nat).

Definition svc_storeConn (fd : Z) (conn : cid) : V () :=
  is_closed ← read (λ v, sv_closed (v_s v));
  if (is_closed : bool) then Fin ()
  else
    _ ← mu_Lock;
    _ ← on_s (modify (λ s, set_conns (<[fd := conn]> (sv_conns s)) s));
    mu_Unlock.

Definition svc_deleteConn (fd : Z) : V () :=
  _ ← mu_Lock;
  _ ← on_s (deleteConn fd);
  mu_Unlock.

(** [conn.Close()], as far as the service is concerned: the connection takes itself
    out of the table. *)
Fixpoint close_conns (conns : list (Z * cid)) : V () :=
  match conns with
  | [] => Fin ()
  | (fd, conn) :: conns =>
      _ ← write (log_close conn);
      _ ← svc_deleteConn fd;
      close_conns conns
  end.

Definition svc_closeAll : V () :=
  is_closed ← read (λ v, sv_closed (v_s v));
  if negb (is_closed : bool) then Fin ()
  else
    _ ← mu_Lock;
    conns ← on_s (s ← get; _ ← modify (λ s, broadcast (set_conns ∅ s)); mret (map_to_list (sv_conns s)));
    _ ← mu_Unlock;
    close_conns conns.

(** [tcpListener.Close] *)
Definition ln_Close : V () := write (set_lnClosed true).

Definition svc_close : V () :=
  _ ← on_s (modify (set_sv_closed true));
  _ ← svc_closeAll;
  ln_Close.

(** An accept that the poller runs: the listener has a connection, which is opened
    for the service, or a failure. *)
Inductive accepted : Type :=
| AcOpened (fd : Z) (conn : cid)
| AcOpenFailed (fd : Z) (conn : cid)    (* [onTCPOpened] returned an error; [accept] closes the connection *)
| AcFailed (temporary : bool).

Definition svc_OnRead (a : accepted) : V sret :=
  is_closed ← read (λ v, sv_closed (v_s v));
  if (is_closed : bool) then Fin RClosed
  else
    match a with
    | AcOpened fd conn => _ ← svc_storeConn fd conn; _ ← on_s accept_succeeded; Fin RNil
    | AcOpenFailed fd conn => _ ← svc_storeConn fd conn; _ ← svc_deleteConn fd; Fin RAccept
    | AcFailed temporary =>
        waited ← on_s (accept_failed temporary);
        Fin (if (waited : bool) then RNil else RAccept)
    end.

Definition svc_OnHup : V () := on_s tcpServiceOnHup.

(** The goroutine that [waitConnections] starts for the context of call [k]. *)
Definition watch_ctx (k : nat) : V () :=
  ended ← select (λ v, bool_decide (k ∈ v_watched v) && ctx_Err k v)
                 (λ v, bool_decide (k ∈ v_watched v) && bool_decide (k ∈ v_stopped v));
  if (ended : bool) then
    _ ← mu_Lock;
    _ ← on_s (modify broadcast);
    mu_Unlock
  else Fin ().

(** The loop of [waitConnections], with the lock held. *)
Fixpoint conns_loop (n : nat) (k : nat) : V sret :=
  match n with
  | O => crash
  | S n =>
      some ← read (λ v, bool_decide (sv_conns (v_s v) ≠ ∅));
      ended ← read (ctx_Err k);
      if (some : bool) then
        if (ended : bool) then Fin RContext
        else _ ← connCond_Wait; conns_loop n k
      else Fin (if (ended : bool) then RContext else RNil)
  end.

Definition svc_waitConnections (k : nat) : V sret :=
  _ ← write (add_watched k);
  _ ← mu_Lock;
  r ← conns_loop fuel k;
  _ ← mu_Unlock;
  _ ← write (add_stopped k);
  Fin r.

Definition svc_Restart (k : nat) (starts : bool) : V sret :=
  is_closed ← read (λ v, sv_closed (v_s v));
  if (is_closed : bool) then Fin RClosed
  else
    swapped ← await (λ v, if sv_restarting (v_s v) then Some (false, v) else Some (true, set_s (set_restarting true (v_s v)) v));
    if negb (swapped : bool) then Fin RRestarting
    else if starts then
      _ ← write (add_child (cleanAndAppendEnv environ gracefulRestartFDEnv gracefulRestartFD));
      _ ← on_s (modify (sleep gracefulRestartTimeout));
      _ ← ln_Close;
      _ ← svc_OnHup;
      svc_waitConnections k
    else
      _ ← on_s (modify (set_restarting false));
      Fin RStart.

Definition svc_Serve (k : nat) (scheduled : bool) : V sret :=
  if negb scheduled then Fin RSchedule
  else
    ended ← select (ctx_Err k) (λ v, sv_hup (v_s v));
    if (ended : bool) then _ ← svc_close; Fin RContext
    else
      restarting ← read (λ v, sv_restarting (v_s v));
      if (restarting : bool) then svc_waitConnections k
      else _ ← svc_close; Fin RListener.

(** *** Goroutines *)

Inductive scall : Type :=
| ScRead (a : accepted)
| ScHup
| ScConnClosed (fd : Z)       (* a connection closes *)
| ScCancel (k : nat)          (* the context of call [k] ends *)
| ScServe (scheduled : bool)
| ScRestart (starts : bool).

Definition run_scall (k : nat) (x : scall) : V sret :=
  match x with
  | ScRead a => svc_OnRead a
  | ScHup => _ ← svc_OnHup; Fin RNil
  | ScConnClosed fd => _ ← svc_deleteConn fd; Fin RNil
  | ScCancel j => _ ← write (end_ctx j); Fin RNil
  | ScServe b => svc_Serve k b
  | ScRestart b => svc_Restart k b
  end.

(** Call number [k], and the goroutine that watches its context. *)
Definition call_threads (k : nat) (x : scall) : list (V ()) :=
  [r ← run_scall k x; write (log_return k r); watch_ctx k].

Fixpoint svc_threads (k : nat) (xs : list scall) : list (V ()) :=
  match xs with
  | [] => []
  | x :: xs => call_threads k x ++ svc_threads (S k) xs
  end.

End Service.

(** ** The invariant *)

(** What a goroutine is in the middle of.  [r] and [t] count broadcasts: a waiter in
    its round [r] has seen at least [r] of them. *)
Inductive phase : Type :=
| Run (r : nat)         (* not holding the lock *)
| Hold (r : nat)        (* holding it *)
| Seen (r : nat)        (* holding it, with connections in the table *)
| Going (r : nat)       (* and with the context found alive: about to wait *)
| Ticket (t : nat)
| Sleep (t : nat)       (* waiting for the broadcast after the first [t] *)
| Sel                   (* in the [select] of [Serve] *)
| Own                   (* between setting [restarting] and starting the child *)
| Stopped               (* past [close(stop)] *)
| Over
| W0                    (* watching its context *)
| W1                    (* the context has ended *)
| WHold
| WPost                 (* has broadcast *)
| WOver.

#[export] Instance phase_eq_dec : EqDecision phase.
Proof. solve_decision. Defined.

Record ghost : Type := G {
  g_call : option scall;  (* [None]: the goroutine that watches the context *)
  g_id : nat;
  g_tok : nat;            (* broadcasts and connections it may still add *)
  g_started : nat;        (* 1: it has started a child, 2: and closed the listener, 3: and hung up *)
  g_watch : bool;         (* the goroutine watching its context has been started *)
  g_ph : phase
}.

Definition is_restart (c : option scall) : bool := match c with Some (ScRestart _) => true | _ => false end.
Definition is_serve (c : option scall) : bool := match c with Some (ScServe _) => true | _ => false end.

Definition holding (g : ghost) : Prop :=
  match g_ph g with Hold _ | Seen _ | Going _ | Ticket _ | WHold | WPost => True | _ => False end.

Lemma holding_dec g : {holding g} + {¬ holding g}.
Proof. unfold holding. destruct (g_ph g); (left; done) || (right; intros []). Defined.

Definition owning (g : ghost) : Prop := g_ph g = Own.

(** The goroutine watching a context has not broadcast yet. *)
Definition pending (g : ghost) : Prop := match g_ph g with W0 | W1 | WHold => True | _ => False end.

Abbreviation seen v := (sv_broadcasts (v_s v)).
Abbreviation table v := (sv_conns (v_s v)).

Definition watching (g : ghost) : Prop :=
  match g_ph g with W0 | W1 | WHold | WPost | WOver => True | _ => False end.

(** It relies on the goroutine that watches its context. *)
Definition needs (v : svc) (g : ghost) : Prop :=
  match g_ph g with Going _ | Ticket _ => True | Sleep t => t = seen v | _ => False end.

Definition own_ok (v : svc) (g : ghost) : Prop :=
  ((1 ≤ g_started g → v_children v ≠ []) ∧ (2 ≤ g_started g → v_lnClosed v = true) ∧
   (3 ≤ g_started g → sv_hup (v_s v) = true)) ∧
  (g_watch g = true → g_id g ∈ v_watched v) ∧
  (holding g → v_mu v = true) ∧
  (g_call g = None ↔ watching g) ∧
  (¬ watching g → g_ph g ≠ Over → v_returned v !! g_id g = None) ∧
  match g_ph g with
  | Run r | Hold r => r ≤ seen v ∧ g_id g ∉ v_stopped v
  | Seen r | Going r =>
      r ≤ seen v ∧ g_id g ∉ v_stopped v ∧ table v ≠ ∅ ∧ g_watch g = true ∧ (is_restart (g_call g) || is_serve (g_call g)) = true
  | Ticket t =>
      t = seen v ∧ g_id g ∉ v_stopped v ∧ table v ≠ ∅ ∧ g_watch g = true ∧ (is_restart (g_call g) || is_serve (g_call g)) = true
  | Sleep t =>
      t ≤ seen v ∧ g_id g ∉ v_stopped v ∧ (t = seen v → table v ≠ ∅) ∧ g_watch g = true ∧
      (is_restart (g_call g) || is_serve (g_call g)) = true
  | Sel => g_id g ∉ v_stopped v ∧ is_serve (g_call g) = true
  | Own => g_id g ∉ v_stopped v ∧ sv_restarting (v_s v) = true ∧ v_children v = []
  | Over =>
      ∃ r, v_returned v !! g_id g = Some r ∧ (r = RNil → is_restart (g_call g) = true → g_started g = 3)
  | Stopped | W0 => True
  | W1 | WHold | WPost => g_id g ∈ v_ended v
  | WOver => g_id g ∈ v_ended v ∨ g_id g ∈ v_stopped v
  end.

Definition compat (g g' : ghost) : Prop :=
  (holding g → holding g' → False) ∧ (owning g → owning g' → False) ∧
  ((g_call g = None ↔ g_call g' = None) → g_id g ≠ g_id g').

Lemma compat_sym g g' : compat g g' → compat g' g.
Proof. unfold compat. intuition congruence. Qed.

Definition sum_tok (gs : list ghost) : nat := foldr (λ g n, g_tok g + n) 0 gs.

Lemma sum_tok_insert gs i g g' :
  gs !! i = Some g → sum_tok (<[i := g']> gs) + g_tok g = sum_tok gs + g_tok g'.
Proof.
  unfold sum_tok. revert i. induction gs as [|x gs IH]; intros [|i]; [done..| |].
  - intros [= ->]. cbn. lia.
  - intros Hi. change (<[S i := g']> (x :: gs)) with (x :: <[i := g']> gs). cbn [foldr].
    specialize (IH i Hi). lia.
Qed.

Section Drain.
Variables (environ : list string) (fuel : nat) (calls : list scall).

Record global (v : svc) : Prop := {
  gl_one : length (v_children v) ≤ 1;
  gl_env : Forall (λ e, e = cleanAndAppendEnv environ gracefulRestartFDEnv gracefulRestartFD) (v_children v);
  gl_idle : sv_restarting (v_s v) = false → v_children v = []
}.

Record svc_inv (v : svc) (gs : list ghost) : Prop := {
  si_own j g : gs !! j = Some g → own_ok v g;
  si_compat j j' g g' : j ≠ j' → gs !! j = Some g → gs !! j' = Some g' → compat g g';
  si_mu : v_mu v = true → ∃ j g, gs !! j = Some g ∧ holding g;
  si_watch j g :
    gs !! j = Some g → g_call g ≠ None →
    ∃ j' w, gs !! j' = Some w ∧ g_call w = None ∧ g_id w = g_id g ∧ (needs v g → pending w);
  si_calls k x : calls !! k = Some x → ∃ j g, gs !! j = Some g ∧ g_call g = Some x ∧ g_id g = k;
  si_fuel : seen v + size (table v) + sum_tok gs < fuel;
  si_global : global v
}.

(** What a step of goroutine [g] does to the state the others rely on. *)
Record evolve (v : svc) (g : ghost) (v' : svc) : Prop := {
  ev_children : v_children v ≠ [] → v_children v' ≠ [];
  ev_ln : v_lnClosed v = true → v_lnClosed v' = true;
  ev_hup : sv_hup (v_s v) = true → sv_hup (v_s v') = true;
  ev_watched : v_watched v ⊆ v_watched v';
  ev_ended : v_ended v ⊆ v_ended v';
  ev_stopped : v_stopped v ⊆ v_stopped v';
  ev_stopped_by k : k ∈ v_stopped v' → k ∈ v_stopped v ∨ (k = g_id g ∧ g_call g ≠ None);
  ev_returned k : v_returned v' !! k = v_returned v !! k ∨ (k = g_id g ∧ g_call g ≠ None);
  ev_seen : seen v ≤ seen v';
  ev_table : table v ≠ ∅ → table v' ≠ ∅ ∨ seen v < seen v';
  ev_lock : holding g ∨ (table v' = table v ∧ seen v' = seen v);
  ev_mu : v_mu v = true → holding g ∨ v_mu v' = true;
  ev_own : owning g ∨ ((sv_restarting (v_s v) = true → sv_restarting (v_s v') = true) ∧ v_children v' = v_children v)
}.

(** A step of one goroutine. *)
Record step_ok (v : svc) (g : ghost) (v' : svc) (g' : ghost) : Prop := {
  so_id : g_call g' = g_call g ∧ g_id g' = g_id g;
  so_own : own_ok v' g';
  so_evolve : evolve v g v';
  so_lock : holding g' → holding g ∨ v_mu v = false;
  so_swap : owning g' → owning g ∨ sv_restarting (v_s v) = false;
  so_mu : v_mu v' = true → holding g' ∨ (v_mu v = true ∧ ¬ holding g);
  so_needs :
    needs v' g' → needs v g ∨
    ∀ w, own_ok v w → g_call w = None → g_id w = g_id g → pending w;
  so_pending :
    pending g → pending g' ∨
    ∀ g1, compat g g1 → own_ok v g1 → g_call g1 ≠ None → g_id g1 = g_id g → ¬ needs v' g1;
  so_fuel : seen v' + size (table v') + g_tok g' ≤ seen v + size (table v) + g_tok g;
  so_global : global v'
}.

Lemma evolve_own v g v' g1 : evolve v g v' → compat g g1 → own_ok v g1 → own_ok v' g1.
Proof.
  intros Hev (Hh & Ho & Hk) (Hst & Hwt & Hmu & Hcall & Hret & Hph). split; [|split; [|split; [|split; [|split]]]].
  - destruct Hst as (H1 & H2 & H3). destruct Hev. auto.
  - intros Hw. apply (ev_watched _ _ _ Hev). auto.
  - intros H1. destruct (ev_mu _ _ _ Hev (Hmu H1)); [by destruct (Hh H)|done].
  - done.
  - intros H1 H2. destruct (ev_returned _ _ _ Hev (g_id g1)) as [->|[E Hc]]; [auto|]. destruct Hk; [tauto|done].
  - assert (Hstop : ¬ watching g1 → g_id g1 ∉ v_stopped v → g_id g1 ∉ v_stopped v').
    { intros Hn1 Hn2 Hin. destruct (ev_stopped_by _ _ _ Hev _ Hin) as [?|[E Hc]]; [done|].
      apply Hk; [|done]. tauto. }
    assert (Hlk : holding g1 → table v' = table v ∧ seen v' = seen v).
    { intros H1. destruct (ev_lock _ _ _ Hev) as [H2|?]; [by destruct (Hh H2)|done]. }
    pose proof (ev_seen _ _ _ Hev) as Hle. pose proof (ev_ended _ _ _ Hev) as Hen.
    pose proof (ev_stopped _ _ _ Hev) as Hss.
    unfold watching, holding, owning in *. destruct (g_ph g1); simpl in *; try done.
    1,2: destruct Hph as (H1 & H2); split; [lia|]; apply Hstop; [intros []|done].
    1,2,3: destruct Hlk as [-> ->]; [done|]; destruct Hph as (H1 & H2 & H3); split; [done|]; split; [apply Hstop; [intros []|done]|done].
    + destruct Hph as (H1 & H2 & H3 & H4). split; [lia|]. split; [apply Hstop; [intros []|done]|].
      split; [|done]. intros E. destruct (ev_table _ _ _ Hev); [|done|lia]. apply H3. lia.
    + destruct Hph as (H1 & H2). split; [apply Hstop; [intros []|done]|done].
    + destruct (ev_own _ _ _ Hev) as [H1|[H1 H2]]; [by destruct (Ho H1)|]. 
      destruct Hph as (H3 & H4 & H5). rewrite H2. split; [apply Hstop; [intros []|done]|]. by split; [apply H1|].
    + destruct Hph as (r & Hr & Hr'). exists r. split; [|done].
      destruct (ev_returned _ _ _ Hev (g_id g1)) as [->|[E Hc]]; [done|]. destruct Hk; [tauto|done].
    + set_solver.
    + set_solver.
    + set_solver.
    + set_solver.
Qed.

Lemma evolve_needs v g v' g1 : evolve v g v' → own_ok v g1 → needs v' g1 → needs v g1.
Proof.
  intros Hev (_ & _ & _ & _ & _ & Hph) Hn. pose proof (ev_seen _ _ _ Hev).
  unfold needs in *. destruct (g_ph g1); try done. lia.
Qed.

Lemma inv_step v gs i g v' g' :
  svc_inv v gs → gs !! i = Some g → step_ok v g v' g' → svc_inv v' (<[i := g']> gs).
Proof.
  intros HI Hg Hs. destruct (so_id _ _ _ _ Hs) as [Hc Hk].
  assert (Hlen : i < length gs) by (by eapply lookup_lt_Some).
  assert (Hi : <[i := g']> gs !! i = Some g') by (by apply list_lookup_insert_eq).
  assert (Hne : ∀ j, j ≠ i → <[i := g']> gs !! j = gs !! j) by (intros; by apply list_lookup_insert_ne).
  assert (Hfr : ∀ j g1, j ≠ i → gs !! j = Some g1 →
    compat g' g1 ∧ own_ok v' g1 ∧ (needs v' g1 → needs v g1)).
  { intros j g1 Hj H1. pose proof (si_compat _ _ HI i j g g1 ltac:(done) Hg H1) as Hcp.
    pose proof (si_own _ _ HI _ _ H1) as Ho1. pose proof (so_evolve _ _ _ _ Hs) as Hev.
    split; [|split; [by eapply evolve_own|by eapply evolve_needs]].
    destruct Hcp as (Ha & Hb & Hd). split; [|split].
    - intros Hh Hh1. destruct (so_lock _ _ _ _ Hs Hh); [by apply Ha|].
      destruct Ho1 as (_ & _ & Hmu & _). rewrite Hmu in H; done.
    - intros Hw Hw1. destruct (so_swap _ _ _ _ Hs Hw); [by apply Hb|].
      destruct Ho1 as (_ & _ & _ & _ & _ & Hph). unfold owning in Hw1. rewrite Hw1 in Hph.
      destruct Hph as (_ & Hr & _). congruence.
    - rewrite Hc, Hk. done. }
  split.
  - intros j g1 H1. destruct (decide (j = i)) as [->|Hj].
    + rewrite Hi in H1. injection H1 as <-. apply (so_own _ _ _ _ Hs).
    + rewrite Hne in H1 by done. by apply (Hfr j).
  - intros j j' g1 g2 Hjj H1 H2. destruct (decide (j = i)) as [->|Hj].
    + rewrite Hi in H1. injection H1 as <-. rewrite Hne in H2 by done. by apply (Hfr j').
    + rewrite Hne in H1 by done. destruct (decide (j' = i)) as [->|Hj'].
      * rewrite Hi in H2. injection H2 as <-. apply compat_sym. by apply (Hfr j).
      * rewrite Hne in H2 by done. by apply (si_compat _ _ HI j j').
  - intros Hm. destruct (so_mu _ _ _ _ Hs Hm) as [Hh|[Hm' Hnh]]; [by exists i, g'|].
    destruct (si_mu _ _ HI Hm') as (j & g1 & H1 & Hh). exists j, g1. split; [|done].
    rewrite Hne; [done|]. intros ->. congruence.
  - intros j g1 H1 Hc1. destruct (decide (j = i)) as [->|Hj].
    + rewrite Hi in H1. injection H1 as <-. rewrite Hc in Hc1.
      destruct (si_watch _ _ HI i g Hg Hc1) as (j' & w & Hw & Hcw & Hkw & Hp).
      exists j', w. rewrite Hne by (intros ->; congruence). split; [done|]. split; [done|].
      split; [congruence|]. intros Hn. destruct (so_needs _ _ _ _ Hs Hn) as [Hn'|Hall]; [by apply Hp|].
      by apply Hall; [apply (si_own _ _ HI _ _ Hw)|..].
    + rewrite Hne in H1 by done. destruct (Hfr j g1 Hj H1) as (_ & _ & Hn).
      destruct (si_watch _ _ HI j g1 H1 Hc1) as (j' & w & Hw & Hcw & Hkw & Hp).
      destruct (decide (j' = i)) as [->|Hj'].
      * assert (w = g) as -> by congruence. exists i, g'. split; [done|]. split; [congruence|].
        split; [congruence|]. intros Hn'. destruct (so_pending _ _ _ _ Hs (Hp (Hn Hn'))) as [Hq|Hall]; [done|].
        exfalso. apply (Hall g1); try done; [|by apply (si_own _ _ HI j)].
        apply (si_compat _ _ HI i j); try done.
      * exists j', w. rewrite Hne by done. tauto.
  - intros k x Hx. destruct (si_calls _ _ HI k x Hx) as (j & g1 & H1 & Hc1 & Hk1).
    destruct (decide (j = i)) as [->|Hj]; [exists i, g'|exists j, g1; by rewrite Hne].
    assert (g1 = g) as -> by congruence. split; [done|]. split; congruence.
  - pose proof (sum_tok_insert gs i g g' Hg). pose proof (so_fuel _ _ _ _ Hs).
    pose proof (si_fuel _ _ HI). lia.
  - apply (so_global _ _ _ _ Hs).
Qed.

(** Who must be able to go on. *)
Definition svc_busy (v : svc) (g : ghost) : Prop :=
  match g_ph g with
  | Run _ | W1 => v_mu v = false
  | Sleep t => t < seen v
  | Sel => g_id g ∈ v_ended v ∨ sv_hup (v_s v) = true
  | W0 => g_id g ∈ v_watched v ∧ (g_id g ∈ v_ended v ∨ g_id g ∈ v_stopped v)
  | Over | WOver => False
  | _ => True
  end.

Definition wps {A} (p : V A) (g : ghost) (Q : A → ghost → Prop) : Prop :=
  wp (λ _, True) svc_inv svc_busy p g Q.

Lemma wps_bind {A B} (p : V A) (f : A → V B) g Q (P : A → ghost → Prop) :
  wps p g P → (∀ x g', P x g' → wps (f x) g' Q) → wps (p ≫= f) g Q.
Proof. intros Hp Hf. apply wp_bind. eapply wp_mono; [|exact Hp]. exact Hf. Qed.

(** One action that goes through. *)
Lemma wps_act {A} (a : act svc A) g (Q : A → ghost → Prop) :
  (∀ v, own_ok v g → global v →
     match a v with
     | Some (Ret (x, v')) => ∃ g', step_ok v g v' g' ∧ Q x g'
     | None => ¬ svc_busy v g
     | _ => False
     end) →
  wps (atomic a) g Q.
Proof.
  intros Ha. unfold wps, atomic. simpl. intros v gs i Hg _ HI.
  specialize (Ha v (si_own _ _ HI _ _ Hg) (si_global _ _ HI)).
  destruct (a v) as [[[x v']| |]|]; try done. intros _.
  destruct Ha as (g' & Hs & HQ). exists g'. split; [by eapply inv_step|done].
Qed.

End Drain.

Section Actions.
Variables (environ : list string) (fuel : nat) (calls : list scall).
Abbreviation wps := (wps environ fuel calls).
Abbreviation step_ok := (step_ok environ).

(** Steps that leave alone what the invariant looks at. *)
Definition same_view (v v' : svc) : Prop :=
  v_mu v' = v_mu v ∧ v_lnClosed v' = v_lnClosed v ∧ v_children v' = v_children v ∧
  v_ended v' = v_ended v ∧ v_watched v' = v_watched v ∧ v_stopped v' = v_stopped v ∧
  v_returned v' = v_returned v ∧ sv_conns (v_s v') = sv_conns (v_s v) ∧
  sv_restarting (v_s v') = sv_restarting (v_s v) ∧ sv_hup (v_s v') = sv_hup (v_s v) ∧
  sv_broadcasts (v_s v') = sv_broadcasts (v_s v).

Lemma own_ok_same v v' g : same_view v v' → own_ok v g → own_ok v' g.
Proof.
  intros (E1 & E2 & E3 & E4 & E5 & E6 & E7 & E8 & E9 & E10 & E11).
  unfold own_ok. by rewrite E1, E2, E3, E4, E5, E6, E7, E8, E9, E10, E11.
Qed.

Lemma needs_same v v' g : same_view v v' → needs v' g → needs v g.
Proof.
  intros (_ & _ & _ & _ & _ & _ & _ & _ & _ & _ & E11). unfold needs. by rewrite E11.
Qed.

Lemma global_same v v' : same_view v v' → global environ v → global environ v'.
Proof.
  intros (_ & _ & E3 & _ & _ & _ & _ & _ & E9 & _ & _) [H1 H2 H3].
  split; by rewrite ?E3, ?E9.
Qed.

Lemma evolve_same v g v' : same_view v v' → evolve v g v'.
Proof.
  intros (E1 & E2 & E3 & E4 & E5 & E6 & E7 & E8 & E9 & E10 & E11).
  split; rewrite ?E1, ?E2, ?E3, ?E4, ?E5, ?E6, ?E7, ?E8, ?E9, ?E10, ?E11; auto.
Qed.

Lemma step_same v v' g g' :
  same_view v v' → global environ v → own_ok v g →
  g_call g' = g_call g → g_id g' = g_id g → g_tok g' = g_tok g →
  own_ok v g' → (holding g' ↔ holding g) → (owning g' → owning g) →
  (needs v g' → needs v g ∨ ∀ w, own_ok v w → g_call w = None → g_id w = g_id g → pending w) →
  (pending g → pending g' ∨ ∀ g1, compat g g1 → own_ok v g1 → g_call g1 ≠ None → g_id g1 = g_id g → ¬ needs v g1) →
  step_ok v g v' g'.
Proof.
  intros Hs Hgl Hok Hc Hk Ht Hok' Hh Ho Hn Hp. pose proof Hs as (E1 & _ & _ & _ & _ & _ & _ & E8 & _ & _ & E11).
  split; try done.
  - by eapply own_ok_same.
  - by apply evolve_same.
  - tauto.
  - tauto.
  - rewrite E1. intros Hm. destruct (holding_dec g) as [H|H]; [left; tauto|right; tauto].
  - intros H. apply Hn. by eapply needs_same.
  - intros H. destruct (Hp H) as [?|Hall]; [by left|right]. intros g1 Hcp Ho1 Hc1 Hk1 Hn1.
    apply (Hall g1 Hcp Ho1 Hc1 Hk1). by eapply needs_same.
  - rewrite E8, E11, Ht. lia.
  - by eapply global_same.
Qed.

(** A look at the state, or a change nothing depends on. *)
Lemma wps_same {A} (m : M svc A) g (P : A → Prop) :
  (∀ v, ∃ x v', m v = Ret (x, v') ∧ same_view v v' ∧ (own_ok v g → P x)) →
  wps (atomically m) g (λ x g', P x ∧ g' = g).
Proof.
  intros Hm. apply wps_act. intros v Hok Hgl. destruct (Hm v) as (x & v' & -> & Hs & HP).
  exists g. split; [|by auto]. apply step_same; try done; intros; by left.
Qed.

Lemma same_view_refl v : same_view v v.
Proof. by repeat split. Qed.

Lemma wps_read {A} (f : svc → A) g (P : A → Prop) :
  (∀ v, own_ok v g → P (f v)) → wps (read f) g (λ x g', P x ∧ g' = g).
Proof.
  intros HP. apply wps_same. intros v. exists (f v), v.
  split; [done|]. split; [apply same_view_refl|apply HP].
Qed.

(** What is left of a step once the new state of the goroutine is given. *)
Ltac look := unfold own_ok, needs, pending, owning, holding, watching in *; cbn in *.
Ltac settle :=
  try match goal with H : _ ∈ {[_]} ∪ _ |- _ => apply elem_of_union in H as [->%elem_of_singleton|H] end;
  try done; try congruence; auto;
  try match goal with
      | |- ?A ⊆ ?A => reflexivity
      | |- _ ⊆ {[_]} ∪ _ => set_solver
      end;
  try (intuition (congruence || lia || match goal with |- _ ∈ {[_]} ∪ _ => set_solver end)).
Ltac step_by g' :=
  exists g'; split; [split; [by split|..]|try done; by first [by eexists|look; intuition lia]];
  [look; settle|split; cbn; intros; auto; look; settle|look; settle|look; settle|look; settle
  |look; settle|first [by intros []|intros _; left; exact I|idtac]|look; settle
  |match goal with H : global _ _ |- _ => destruct H end; split; look; settle].
Ltac action := apply wps_act; intros v Hok Hgl; cbn.

Lemma needs_live v v' g1 : own_ok v g1 → needs v' g1 → ¬ watching g1 ∧ g_id g1 ∉ v_stopped v ∧ g_call g1 ≠ None.
Proof.
  intros (_ & _ & _ & Hc & _ & Hph). unfold needs, watching in *. destruct (g_ph g1); try done; tauto.
Qed.

Lemma stopped_not_needed v v' g k :
  k ∈ v_stopped v → g_id g = k →
  ∀ g1, compat g g1 → own_ok v g1 → g_call g1 ≠ None → g_id g1 = g_id g → ¬ needs v' g1.
Proof.
  intros Hk <- g1 _ H1 _ E Hn. destruct (needs_live _ _ _ H1 Hn) as (_ & Hx & _). by rewrite E in Hx.
Qed.

Lemma broadcast_not_needed v v' g :
  holding g → seen v < seen v' →
  ∀ g1, compat g g1 → own_ok v g1 → g_call g1 ≠ None → g_id g1 = g_id g → ¬ needs v' g1.
Proof.
  intros Hh Hlt g1 (Hcp & _) (_ & _ & _ & _ & _ & Hph) _ _ Hn. specialize (Hcp Hh).
  unfold needs, holding in *. destruct (g_ph g1); try done; [by apply Hcp..|lia].
Qed.

(** The lock. *)
Lemma wps_lock c k t st w r :
  wps mu_Lock (G c k t st w (Run r)) (λ _ g, g = G c k t st w (Hold r)).
Proof.
  action. destruct (v_mu v) eqn:Hmu; [unfold svc_busy; cbn; congruence|].
  step_by (G c k t st w (Hold r)).
Qed.

Lemma wps_unlock c k t st w r :
  wps mu_Unlock (G c k t st w (Hold r)) (λ _ g, g = G c k t st w (Run r)).
Proof. action. step_by (G c k t st w (Run r)). Qed.

(** The goroutine that watches a context. *)
Lemma wps_watch k :
  wps (watch_ctx k) (G None k 1 0 false W0) (λ _ g, ∃ t, g = G None k t 0 false WOver).
Proof.
  unfold watch_ctx. eapply wps_bind with
    (P := λ (x : bool) g, g = G None k 1 0 false (if x then W1 else WOver)).
  - action. destruct (decide (k ∈ v_watched v)) as [Hw|Hw]; cycle 1.
    { rewrite bool_decide_eq_false_2 by done. cbn. unfold svc_busy. cbn. tauto. }
    rewrite bool_decide_eq_true_2 by done. cbn. unfold ctx_Err.
    destruct (decide (k ∈ v_ended v)) as [He|He], (decide (k ∈ v_stopped v)) as [Hs|Hs];
      rewrite ?(bool_decide_eq_true_2 _ He), ?(bool_decide_eq_false_2 _ He), ?(bool_decide_eq_true_2 _ Hs),
        ?(bool_decide_eq_false_2 _ Hs); cbn.
    + destruct (hd true (v_coins v)).
      * step_by (G None k 1 0 false W1).
      * step_by (G None k 1 0 false WOver). right. by eapply stopped_not_needed.
    + step_by (G None k 1 0 false W1).
    + step_by (G None k 1 0 false WOver). right. by eapply stopped_not_needed.
    + unfold svc_busy. cbn. tauto.
  - intros [] g ->; [|by eexists].
    eapply wps_bind with (P := λ _ g, g = G None k 1 0 false WHold).
    { action. destruct (v_mu v) eqn:Hmu; [unfold svc_busy; cbn; congruence|].
      step_by (G None k 1 0 false WHold). }
    intros [] g ->. eapply wps_bind with (P := λ _ g, g = G None k 0 0 false WPost).
    { action. step_by (G None k 0 0 false WPost). right. apply broadcast_not_needed; [done|cbn; lia]. }
    intros [] g ->. action. step_by (G None k 0 0 false WOver).
Qed.

(** The table. *)
Lemma size_store (m : gmap Z cid) fd c : size (<[fd := c]> m) ≤ S (size m).
Proof.
  destruct (m !! fd) eqn:E; [rewrite map_size_insert_Some by (by eexists); lia|].
  by rewrite map_size_insert_None.
Qed.

Lemma size_remove (m : gmap Z cid) fd x : m !! fd = Some x → S (size (delete fd m)) = size m.
Proof.
  intros E. assert (size m ≠ 0) by (intros E0; apply map_size_empty_inv in E0; by rewrite E0, lookup_empty in E).
  rewrite map_size_delete_Some by (by eexists). lia.
Qed.

Lemma wps_store x k n st w r fd c :
  wps (on_s (modify (λ s, set_conns (<[fd := c]> (sv_conns s)) s)))
    (G x k (S n) st w (Hold r)) (λ _ g, g = G x k n st w (Hold r)).
Proof.
  action. pose proof (size_store (table v) fd c) as Hsz. pose proof (insert_non_empty (table v) fd c) as Hne.
  step_by (G x k n st w (Hold r)).
Qed.

Lemma wps_delete x k n st w r fd :
  wps (on_s (deleteConn fd)) (G x k n st w (Hold r)) (λ _ g, g = G x k n st w (Hold r)).
Proof.
  action. unfold deleteConn, zoom, get, mbind, M_bind, modify. destruct (table v !! fd) as [y|] eqn:E; cbn.
  - pose proof (size_remove _ _ _ E) as Hsz. step_by (G x k n st w (Hold r)).
  - step_by (G x k n st w (Hold r)).
Qed.

Lemma wps_take x k n st w r :
  wps (on_s (s ← get; _ ← modify (λ s, broadcast (set_conns ∅ s)); mret (map_to_list (sv_conns s))))
    (G x k (S n) st w (Hold r)) (λ _ g, g = G x k n st w (Hold r)).
Proof.
  action. assert (size (∅ : gmap Z cid) = 0) as Hsz by apply map_size_empty.
  step_by (G x k n st w (Hold r)).
Qed.

(** A critical section. *)
Lemma wps_section {A} (p : V A) x k n n' st w r :
  wps p (G x k n st w (Hold r)) (λ _ g, g = G x k n' st w (Hold r)) →
  wps (_ ← mu_Lock; _ ← p; mu_Unlock) (G x k n st w (Run r)) (λ _ g, g = G x k n' st w (Run r)).
Proof.
  intros Hp. eapply wps_bind; [apply wps_lock|]. intros [] g ->.
  eapply wps_bind; [exact Hp|]. intros y g ->. apply wps_unlock.
Qed.

Lemma wps_svc_storeConn x k n st w r fd c :
  wps (svc_storeConn fd c) (G x k (S n) st w (Run r)) (λ _ g, ∃ n', g = G x k n' st w (Run r)).
Proof.
  unfold svc_storeConn. eapply wps_bind; [by apply (wps_read _ _ (λ _, True))|].
  intros [] g [_ ->]; [by eexists|]. eapply wp_mono; [|apply wps_section, wps_store].
  intros [] g ->. by eexists.
Qed.

Lemma wps_svc_deleteConn x k n st w r fd :
  wps (svc_deleteConn fd) (G x k n st w (Run r)) (λ _ g, g = G x k n st w (Run r)).
Proof. apply wps_section, wps_delete. Qed.

Lemma wps_close_conns x k n st w r conns :
  wps (close_conns conns) (G x k n st w (Run r)) (λ _ g, g = G x k n st w (Run r)).
Proof.
  induction conns as [|[fd c] conns IH]; [done|]. cbn [close_conns].
  eapply wps_bind with (P := λ _ g, g = G x k n st w (Run r)).
  { eapply wp_mono; [|apply (wps_same _ _ (λ _, True)); intros v; eexists _, _; split; [done|]; split; [by repeat split|done]].
    by intros [] g [_ ->]. }
  intros [] g ->. eapply wps_bind; [apply wps_svc_deleteConn|]. by intros [] g ->.
Qed.

(** A method of the table that the invariant does not look at. *)
Lemma wps_on_s {A} (m : MS A) g :
  (∀ s, ∃ a s', m s = Ret (a, s') ∧ sv_conns s' = sv_conns s ∧ sv_restarting s' = sv_restarting s ∧
     sv_hup s' = sv_hup s ∧ sv_broadcasts s' = sv_broadcasts s) →
  wps (on_s m) g (λ _ g', g' = g).
Proof.
  intros Hm. eapply wp_mono; [|apply (wps_same _ _ (λ _, True))].
  { by intros a g' [_ ->]. }
  intros v. destruct (Hm (v_s v)) as (a & s' & Hr & H1 & H2 & H3 & H4).
  exists a, (set_s s' v). split; [by apply zoom_Ret|]. split; [by repeat split|done].
Qed.

Lemma wps_accept_failed g temporary : wps (on_s (accept_failed temporary)) g (λ _ g', g' = g).
Proof.
  apply wps_on_s. intros s. destruct temporary; cbn; [|by eexists _, _].
  unfold accept_failed, doTempDelay, modify, mbind, M_bind. cbn.
  eexists _, _. split; [done|]. repeat (case_decide; cbn); done.
Qed.

Lemma wps_ln_Close x k n st w r :
  wps ln_Close (G x k n st w (Run r)) (λ _ g, g = G x k n (if decide (st = 1) then 2 else st) w (Run r)).
Proof.
  destruct (decide (st = 1)) as [->|Hst].
  - action. pose proof (proj1 (proj1 Hok) (le_n 1)) as Hch. step_by (G x k n 2 w (Run r)).
  - action. step_by (G x k n st w (Run r)).
Qed.

Lemma wps_svc_close x k n st w r :
  wps svc_close (G x k (S n) st w (Run r)) (λ _ g, ∃ n' st', g = G x k n' st' w (Run r)).
Proof.
  unfold svc_close. eapply wps_bind; [apply wps_on_s; intros s; by eexists _, _|].
  intros [] g ->. eapply wps_bind with (P := λ _ g, ∃ n', g = G x k n' st w (Run r)).
  - unfold svc_closeAll. eapply wps_bind; [by apply (wps_read _ _ (λ _, True))|].
    intros [] g [_ ->]; [|by eexists]. cbn [negb].
    eapply wps_bind; [apply wps_lock|]. intros [] g ->.
    eapply wps_bind; [apply wps_take|]. intros conns g ->.
    eapply wps_bind; [apply wps_unlock|]. intros [] g ->.
    eapply wp_mono; [|apply wps_close_conns]. intros [] g ->. by eexists.
  - intros [] g [n' ->]. eapply wp_mono; [|apply wps_ln_Close]. intros [] g ->. by eexists _, _.
Qed.

(** Waiting. *)
Lemma wps_connCond_Wait x k n st r :
  wps connCond_Wait (G x k n st true (Going r)) (λ _ g, ∃ t, r ≤ t ∧ g = G x k n st true (Hold (S t))).
Proof.
  unfold connCond_Wait.
  eapply wps_bind with (P := λ t g, r ≤ t ∧ g = G x k n st true (Ticket t)).
  { action. step_by (G x k n st true (Ticket (seen v))). }
  intros t g [Hle ->]. eapply wps_bind with (P := λ _ g, g = G x k n st true (Sleep t)).
  { action. step_by (G x k n st true (Sleep t)). }
  intros [] g ->. eapply wps_bind with (P := λ _ g, g = G x k n st true (Run (S t))).
  { action. case_decide; [|done]. cbn. step_by (G x k n st true (Run (S t))). }
  intros [] g ->. eapply wp_mono; [|apply wps_lock]. intros [] g ->. by eexists.
Qed.

Lemma wps_out_of_rounds {A} x k n st w r (Q : A → ghost → Prop) :
  fuel ≤ r → wps crash (G x k n st w (Hold r)) Q.
Proof.
  intros Hr. unfold wps, crash, atomically, atomic. cbn. intros v gs i Hg _ HI.
  pose proof (si_fuel _ _ _ _ _ HI) as Hf. pose proof (si_own _ _ _ _ _ HI _ _ Hg) as (_ & _ & _ & _ & _ & Hph).
  cbn in Hph. lia.
Qed.

Lemma wps_conns_loop x k n st m r :
  (is_restart x || is_serve x) = true → fuel ≤ m + r →
  wps (conns_loop m k) (G x k n st true (Hold r)) (λ _ g, ∃ r', g = G x k n st true (Hold r')).
Proof.
  intros Hx. revert r. induction m as [|m IH]; intros r Hf; cbn [conns_loop].
  { apply wps_out_of_rounds. lia. }
  eapply wps_bind with (P := λ (some : bool) g, g = G x k n st true (if some then Seen r else Hold r)).
  { action. destruct (decide (table v = ∅)) as [E|E].
    - rewrite bool_decide_eq_false_2 by tauto. step_by (G x k n st true (Hold r)).
    - rewrite bool_decide_eq_true_2 by done. step_by (G x k n st true (Seen r)). }
  intros some g ->.
  eapply wps_bind with (P := λ (ended : bool) g,
    g = G x k n st true (if some then if ended then Hold r else Going r else Hold r)).
  { action. destruct (ctx_Err k v) eqn:Hc; unfold ctx_Err in Hc; destruct some.
    - step_by (G x k n st true (Hold r)).
    - step_by (G x k n st true (Hold r)).
    - step_by (G x k n st true (Going r)). intros _. right. intros y (_ & _ & _ & Hw & _ & Hph) Hcy Hky.
      apply bool_decide_eq_false_1 in Hc. destruct Hok as (_ & _ & _ & _ & _ & _ & Hst & _). cbn in *. subst.
      apply Hw in Hcy. unfold watching in Hcy. unfold pending. destruct (g_ph y); naive_solver.
    - step_by (G x k n st true (Hold r)). }
  intros ended g ->. destruct some; [destruct ended; [by eexists|]|by eexists].
  eapply wps_bind; [apply wps_connCond_Wait|]. intros [] g (t & Ht & ->). apply IH. lia.
Qed.

Variables (gracefulRestartTimeout : Z).

(** A call that is about to return. *)
Definition ready (x : scall) (k : nat) (res : sret) (g : ghost) : Prop :=
  ∃ n st w ph, g = G (Some x) k n st w ph ∧ (ph = Stopped ∨ ∃ r, ph = Run r) ∧
    (res = RNil → is_restart (Some x) = true → st = 3).

Lemma ready_run x k n st w r res :
  (res = RNil → is_restart (Some x) = true → st = 3) → ready x k res (G (Some x) k n st w (Run r)).
Proof. intros H. exists n, st, w, (Run r). eauto. Qed.

Lemma wps_svc_waitConnections x k n st r :
  (is_restart (Some x) || is_serve (Some x)) = true → (is_restart (Some x) = true → st = 3) →
  wps (svc_waitConnections fuel k) (G (Some x) k n st false (Run r)) (ready x k).
Proof.
  intros Hx Hst. unfold svc_waitConnections.
  eapply wps_bind with (P := λ _ g, g = G (Some x) k n st true (Run r)).
  { action. step_by (G (Some x) k n st true (Run r)). }
  intros [] g ->. eapply wps_bind; [apply wps_lock|]. intros [] g ->.
  eapply wps_bind; [apply wps_conns_loop; [done|lia]|]. intros res g [r' ->].
  eapply wps_bind; [apply wps_unlock|]. intros [] g ->.
  eapply wps_bind with (P := λ _ g, g = G (Some x) k n st true Stopped).
  { action. step_by (G (Some x) k n st true Stopped). }
  intros [] g ->. exists n, st, true, Stopped. auto.
Qed.

Lemma wps_svc_Restart b k n r :
  wps (svc_Restart environ gracefulRestartTimeout fuel k b)
    (G (Some (ScRestart b)) k n 0 false (Run r)) (ready (ScRestart b) k).
Proof.
  set (x := ScRestart b). unfold svc_Restart.
  eapply wps_bind; [by apply (wps_read _ _ (λ _, True))|]. intros [] g [_ ->]; [by apply ready_run|].
  eapply wps_bind with (P := λ (swapped : bool) g, g = G (Some x) k n 0 false (if swapped then Own else Run r)).
  { action. destruct (sv_restarting (v_s v)) eqn:E.
    - step_by (G (Some x) k n 0 false (Run r)).
    - pose proof (gl_idle _ _ Hgl E) as Hch. step_by (G (Some x) k n 0 false Own). }
  intros [] g ->; cbn [negb]; [|by apply ready_run]. destruct b; cycle 1.
  - eapply wps_bind with (P := λ _ g, g = G (Some x) k n 0 false (Run 0)); [|intros [] g ->; by apply ready_run].
    action. step_by (G (Some x) k n 0 false (Run 0)).
  - eapply wps_bind with (P := λ _ g, g = G (Some x) k n 1 false (Run 0)).
    { action. assert (v_children v = []) as Hch by apply Hok.
      destruct v; cbn in Hch; subst. step_by (G (Some x) k n 1 false (Run 0)). }
    intros [] g ->. eapply wps_bind; [apply wps_on_s; intros s; by eexists _, _|]. intros [] g ->.
    eapply wps_bind; [apply wps_ln_Close|]. intros [] g ->. change (if decide (1 = 1) then 2 else 1) with 2.
    eapply wps_bind with (P := λ _ g, g = G (Some x) k n 3 false (Run 0)).
    { action. destruct Hok as ((H1 & H2 & H3) & Hok). cbn in H1, H2. specialize (H1 ltac:(lia)). specialize (H2 ltac:(lia)).
      step_by (G (Some x) k n 3 false (Run 0)). }
    intros [] g ->. by apply wps_svc_waitConnections.
Qed.

Lemma wps_svc_Serve b k n :
  wps (svc_Serve fuel k b) (G (Some (ScServe b)) k (S n) 0 false (if b then Sel else Run 0)) (ready (ScServe b) k).
Proof.
  set (x := ScServe b). unfold svc_Serve. destruct b; cbn [negb]; [|by apply ready_run].
  eapply wps_bind with (P := λ (_ : bool) g, g = G (Some x) k (S n) 0 false (Run 0)).
  { action. unfold ctx_Err. destruct (decide (k ∈ v_ended v)) as [E|E];
      [rewrite bool_decide_eq_true_2 by done|rewrite bool_decide_eq_false_2 by done];
      destruct (sv_hup (v_s v)) eqn:Eh; cbn;
      [step_by (G (Some x) k (S n) 0 false (Run 0))..|unfold svc_busy; cbn; intuition congruence]. }
  intros [] g ->.
  - eapply wps_bind; [apply wps_svc_close|]. intros [] g (n' & st' & ->). by apply ready_run.
  - eapply wps_bind; [by apply (wps_read _ _ (λ _, True))|]. intros [] g [_ ->].
    + by apply wps_svc_waitConnections.
    + eapply wps_bind; [apply wps_svc_close|]. intros [] g (n' & st' & ->). by apply ready_run.
Qed.

Lemma wps_svc_OnRead a k n :
  wps (svc_OnRead a) (G (Some (ScRead a)) k (S n) 0 false (Run 0)) (ready (ScRead a) k).
Proof.
  unfold svc_OnRead. eapply wps_bind; [by apply (wps_read _ _ (λ _, True))|].
  intros [] g [_ ->]; [by apply ready_run|]. destruct a as [fd c|fd c|temporary].
  - eapply wps_bind; [apply wps_svc_storeConn|]. intros [] g [n' ->].
    eapply wps_bind; [apply wps_on_s; intros s; by eexists _, _|]. intros [] g ->. by apply ready_run.
  - eapply wps_bind; [apply wps_svc_storeConn|]. intros [] g [n' ->].
    eapply wps_bind; [apply wps_svc_deleteConn|]. intros [] g ->. by apply ready_run.
  - eapply wps_bind; [apply wps_accept_failed|]. intros waited g ->. by apply ready_run.
Qed.

Definition start_phase (x : scall) : phase := match x with ScServe true => Sel | _ => Run 0 end.

Lemma wps_run_scall x k :
  wps (run_scall environ gracefulRestartTimeout fuel k x) (G (Some x) k 1 0 false (start_phase x)) (ready x k).
Proof.
  destruct x as [a| |fd|j|b|b]; cbn [run_scall].
  - apply wps_svc_OnRead.
  - eapply wps_bind with (P := λ _ g, g = G (Some ScHup) k 1 0 false (Run 0)); [|intros [] g ->; by apply ready_run].
    action. step_by (G (Some ScHup) k 1 0 false (Run 0)).
  - eapply wps_bind; [apply wps_svc_deleteConn|]. intros [] g ->. by apply ready_run.
  - eapply wps_bind with (P := λ _ g, g = G (Some (ScCancel j)) k 1 0 false (Run 0)); [|intros [] g ->; by apply ready_run].
    action. step_by (G (Some (ScCancel j)) k 1 0 false (Run 0)).
  - apply (wps_svc_Serve b k 0).
  - apply wps_svc_Restart.
Qed.

Lemma wps_main x k :
  wps (r ← run_scall environ gracefulRestartTimeout fuel k x; write (log_return k r))
    (G (Some x) k 1 0 false (start_phase x)) (λ _ g, g_ph g = Over).
Proof.
  eapply wps_bind; [apply wps_run_scall|]. intros res g (n & st & w & ph & -> & Hph & Hst).
  assert (Hret : ∀ v j, <[k := res]> (v_returned v) !! j = v_returned v !! j ∨ (j = k ∧ Some x ≠ None)).
  { intros v j. destruct (decide (j = k)) as [->|Hj]; [by right|left]. by rewrite lookup_insert_ne. }
  assert (Hlog : ∀ v, <[k := res]> (v_returned v) !! k = Some res) by (intros v; apply lookup_insert_eq).
  destruct Hph as [->|[r ->]]; action; exists (G (Some x) k n st w Over); (split; [split; [by split|..]|done]).
  1, 10: look; intuition eauto.
  1, 9: split; cbn; intros; auto.
  all: look; settle; destruct Hgl; split; settle.
Qed.

End Actions.

(** ** Whole executions *)

(** A service that has not been served yet. *)
Record unserved (v : svc) : Prop := {
  fr_mu : v_mu v = false;
  fr_broadcasts : sv_broadcasts (v_s v) = 0;
  fr_restarting : sv_restarting (v_s v) = false;
  fr_children : v_children v = [];
  fr_stopped : v_stopped v = ∅;
  fr_returned : v_returned v = ∅
}.

Fixpoint svc_ghosts (k : nat) (xs : list scall) : list ghost :=
  match xs with
  | [] => []
  | x :: xs => G (Some x) k 1 0 false (start_phase x) :: G None k 1 0 false W0 :: svc_ghosts (S k) xs
  end.

Lemma ghosts_elem k xs g :
  g ∈ svc_ghosts k xs → ∃ i x, xs !! i = Some x ∧
    (g = G (Some x) (k + i) 1 0 false (start_phase x) ∨ g = G None (k + i) 1 0 false W0).
Proof.
  revert k. induction xs as [|x xs IH]; intros k; cbn; [by intros ?%elem_of_nil|].
  rewrite !elem_of_cons. intros [->|[->|(i & y & Hi & Hg)%IH]].
  - exists 0, x. rewrite Nat.add_0_r. auto.
  - exists 0, x. rewrite Nat.add_0_r. auto.
  - exists (S i), y. rewrite Nat.add_succ_r. auto.
Qed.

Lemma ghosts_lookup k xs i x :
  xs !! i = Some x →
  svc_ghosts k xs !! (2 * i) = Some (G (Some x) (k + i) 1 0 false (start_phase x)) ∧
  svc_ghosts k xs !! S (2 * i) = Some (G None (k + i) 1 0 false W0).
Proof.
  revert k i. induction xs as [|y xs IH]; intros k [|i] Hi; try done.
  - injection Hi as ->. cbn. by rewrite Nat.add_0_r.
  - replace (2 * S i) with (S (S (2 * i))) by lia. rewrite Nat.add_succ_r. by apply (IH (S k) i).
Qed.

Lemma start_quiet x : ¬ holding (G (Some x) 0 1 0 false (start_phase x)) ∧ ∀ k, start_phase x ≠ Own ∧
  (g_call (G (Some x) k 1 0 false (start_phase x)) = None ↔ watching (G (Some x) k 1 0 false (start_phase x))).
Proof. destruct x as [| | | |[]|]; cbn; intuition done. Qed.

Lemma ghosts_compat k xs j j' g g' :
  j ≠ j' → svc_ghosts k xs !! j = Some g → svc_ghosts k xs !! j' = Some g' → compat g g'.
Proof.
  assert (Hq : ∀ g k xs, g ∈ svc_ghosts k xs → ¬ holding g ∧ ¬ owning g ∧ k ≤ g_id g).
  { clear. intros g k xs (i & x & _ & [->| ->])%ghosts_elem; [|by split; [intros []|split; [|cbn; lia]]].
    destruct x as [| | | |[]|]; cbn; (split; [intros []|split; [done|lia]]). }
  assert (Hkey : ∀ g g', j ≠ j' → svc_ghosts k xs !! j = Some g → svc_ghosts k xs !! j' = Some g' →
    (g_call g = None ↔ g_call g' = None) → g_id g ≠ g_id g').
  { clear g g'. revert k j j'. induction xs as [|x xs IH]; intros k j j' g g' Hj; [done|]. cbn [svc_ghosts].
    destruct j as [|[|j]], j' as [|[|j']]; try done; cbn; intros Hg Hg'; simplify_eq/=; try (intuition congruence).
    1, 2: apply list_elem_of_lookup_2, Hq in Hg'; lia.
    1, 2: apply list_elem_of_lookup_2, Hq in Hg; lia.
    apply (IH (S k) j j'); [lia|done..]. }
  intros Hj Hg Hg'. destruct (Hq g k xs) as (H1 & H2 & _); [by eapply list_elem_of_lookup_2|].
  split; [tauto|]. split; [tauto|]. by apply Hkey.
Qed.

Lemma ghosts_tok k xs : sum_tok (svc_ghosts k xs) = 2 * length xs.
Proof.
  unfold sum_tok. revert k. induction xs as [|x xs IH]; intros k; [done|].
  cbn [svc_ghosts foldr g_tok length]. rewrite IH. lia.
Qed.

Section Executions.
Variables (environ : list string) (gracefulRestartTimeout : Z) (fuel : nat) (calls : list scall).
Abbreviation svc_pool v := (Pool v (svc_threads environ gracefulRestartTimeout fuel 0 calls)).

Lemma unserved_inv v :
  unserved v → size (table v) + 2 * length calls < fuel → svc_inv environ fuel calls v (svc_ghosts 0 calls).
Proof.
  intros [H1 H2 H3 H4 H5 H6] Hf. split.
  - intros j g (i & x & _ & [->| ->])%list_elem_of_lookup_2%ghosts_elem.
    + unfold own_ok. rewrite H5, H6. destruct x as [| | | |[]|]; cbn; intuition (done || lia || set_solver).
    + unfold own_ok. cbn. intuition (done || lia).
  - intros j j' g g'. apply ghosts_compat.
  - by rewrite H1.
  - intros j g (i & x & Hi & [->| ->])%list_elem_of_lookup_2%ghosts_elem Hc; [|done].
    destruct (ghosts_lookup 0 _ _ _ Hi) as [_ Hw]. eexists _, _. split; [exact Hw|]. by repeat split.
  - intros k x Hx. destruct (ghosts_lookup 0 _ _ _ Hx) as [Hg _]. eexists _, _. by split; [exact Hg|].
  - rewrite H2, ghosts_tok. lia.
  - split; rewrite ?H4; auto.
Qed.

Lemma unserved_pool_ok v :
  unserved v → size (table v) + 2 * length calls < fuel →
  pool_ok (λ _, True) (svc_inv environ fuel calls) svc_busy (svc_pool v).
Proof.
  intros Hv Hf. exists (svc_ghosts 0 calls). split; [by apply unserved_inv|]. simpl p_threads.
  assert (∀ xs k, Forall2 (λ p g, wps environ fuel calls p g (λ _ g', ∀ s, ¬ svc_busy s g'))
                    (svc_threads environ gracefulRestartTimeout fuel k xs) (svc_ghosts k xs)) as H; [|apply H].
  induction xs as [|x xs IH]; intros k; [constructor|].
  cbn [svc_threads svc_ghosts call_threads app]. constructor; [|constructor; [|apply IH]].
  - eapply wp_mono; [|apply wps_main]. intros [] g Hg s. unfold svc_busy. rewrite Hg. by intros [].
  - eapply wp_mono; [|apply wps_watch]. intros [] g [t ->] s. by intros [].
Qed.

(** Who is still there when nobody can go on. *)
Lemma quiet_call v gs k x :
  svc_inv environ fuel calls v gs → Forall (λ g, ¬ svc_busy v g) gs → calls !! k = Some x →
  (∃ r, v_returned v !! k = Some r) ∨
  (k ∉ v_ended v ∧
   ((is_restart (Some x) || is_serve (Some x)) = true ∧ table v ≠ ∅ ∨
    is_serve (Some x) = true ∧ sv_hup (v_s v) = false)).
Proof.
  intros HI Hq Hx. rewrite Forall_lookup in Hq.
  assert (Hmu : v_mu v = false).
  { destruct (v_mu v) eqn:Hmu; [|done]. destruct (si_mu _ _ _ _ _ HI Hmu) as (j & g & Hg & Hh).
    destruct (Hq j g Hg). unfold svc_busy, holding in *. by destruct (g_ph g). }
  destruct (si_calls _ _ _ _ _ HI k x Hx) as (j & g & Hg & Hc & Hk).
  pose proof (Hq j g Hg) as Hb. pose proof (si_own _ _ _ _ _ HI j g Hg) as (_ & Hw & _ & Hcw & _ & Hph).
  unfold svc_busy in Hb. destruct (g_ph g) eqn:Ep; cbn in Hph; try (by destruct Hb).
  - destruct Hph as (H1 & H2 & H3 & H4 & H5). rewrite Hc in H5. right.
    assert (t = seen v) as E by lia.
    destruct (si_watch _ _ _ _ _ HI j g Hg) as (j' & w & Hgw & Hcww & Hkw & Hp); [by rewrite Hc|].
    pose proof (Hq j' w Hgw) as Hbw. unfold needs in Hp. rewrite Ep in Hp. specialize (Hp E).
    unfold pending, svc_busy in Hp, Hbw. rewrite Hkw, Hk in Hbw. specialize (Hw H4). rewrite Hk in Hw.
    split; [|left; auto]. intros He. destruct (g_ph w); try done; apply Hbw; auto.
  - right. destruct Hph as [_ H2]. rewrite Hc in H2. split; [rewrite <-Hk; tauto|right].
    split; [done|]. destruct (sv_hup (v_s v)); [tauto|done].
  - left. destruct Hph as (r & Hr & _). exists r. by rewrite <-Hk.
  - unfold watching in Hcw. rewrite Ep, Hc in Hcw. by destruct Hcw as [_ Hcw]; specialize (Hcw I).
  - unfold watching in Hcw. rewrite Ep, Hc in Hcw. by destruct Hcw as [_ Hcw]; specialize (Hcw I).
Qed.

(** C8: restarting drains the service: for every interleaving of any number of
    accepts, connections that close, hang-ups, contexts that end, calls of [Serve]
    and calls of [Restart], waiting loops end within their rounds and nothing
    panics; at most one child process is started, and its environment has one entry
    for the inherited descriptor; a [Restart] that returns nil has started it and
    closed the listener; and when nobody can go on, every call has returned but those
    whose context is alive and that either wait while connections are in the table or
    serve a listener that has not hung up. *)
Theorem restart_drains_the_service (v : svc) (w : pool svc) :
  unserved v → size (table v) + 2 * length calls < fuel →
  pool_reach (λ _, True) (svc_pool v) w →
  let v' := p_state w in
  (∀ i, pool_next i w ≠ Some Panic) ∧
  (v_children v' = [] ∨
   v_children v' = [cleanAndAppendEnv environ gracefulRestartFDEnv gracefulRestartFD]) ∧
  (∀ k b, calls !! k = Some (ScRestart b) → v_returned v' !! k = Some RNil →
     v_children v' ≠ [] ∧ v_lnClosed v' = true) ∧
  (quiescent w → ∀ k x, calls !! k = Some x →
     (∃ r, v_returned v' !! k = Some r) ∨
     (k ∉ v_ended v' ∧
      ((is_restart (Some x) || is_serve (Some x)) = true ∧ table v' ≠ ∅ ∨
       is_serve (Some x) = true ∧ sv_hup (v_s v') = false))).
Proof.
  intros Hv Hf Hr v'. pose proof (unserved_pool_ok v Hv Hf) as Hok.
  destruct (pool_invariant _ _ _ _ _ Hok Hr) as (gs & HI & _ & Hnp).
  split; [done|]. split; [|split].
  - destruct (si_global _ _ _ _ _ HI) as [H1 H2 _]. fold v' in H1, H2.
    destruct (v_children v') as [|e [|]]; [by left| |cbn in H1; lia]. right. by inversion H2; subst.
  - intros k b Hk Hret. destruct (si_calls _ _ _ _ _ HI k _ Hk) as (j & g & Hg & Hc & Hid).
    pose proof (si_own _ _ _ _ _ HI j g Hg) as ((H1 & H2 & H3) & _ & _ & Hw & Hn & Hph). rewrite Hid in *.
    destruct (decide (g_ph g = Over)) as [E|E].
    + rewrite E, Hc in Hph. destruct Hph as (r & Hr' & Hst). fold v' in Hr'. assert (r = RNil) as -> by congruence.
      rewrite Hst in H1, H2 by done. split; [apply H1|apply H2]; lia.
    + assert (Hnw : ¬ watching g) by (intros Hwt; apply Hw in Hwt; congruence).
      specialize (Hn Hnw E). fold v' in Hn. congruence.
  - intros Hq k x Hx. destruct (pool_progress _ _ _ _ _ Hok Hr Hq) as (gs' & HI' & Hb & _).
    by apply (quiet_call v' gs').
Qed.

End Executions.

(** ** Concrete runs *)

Definition demo_svc : svc :=
  Svc (TcpService {[7%Z := 1; 8%Z := 2]} false false 0 false 0 []) false false [] [] ∅ ∅ ∅ [] ∅.

(** Two connections end while the service is restarted twice at once. *)
Definition demo_calls : list scall :=
  [ScServe true; ScRestart true; ScRestart true; ScConnClosed 7; ScConnClosed 8; ScRead (AcFailed true)].

Definition demo_svc_pool : pool svc :=
  Pool demo_svc (svc_threads ["HOME=/"; "GRACEFUL_RESTART_FD=9"] Second 20 0 demo_calls).
Definition demo_svc_end : pool svc := pool_run (concat (replicate 30 (seq 0 12))) demo_svc_pool.

Example demo_svc_answers :
  (map (λ k, v_returned (p_state demo_svc_end) !! k) (seq 0 6), v_children (p_state demo_svc_end))
  = ([Some RNil; Some RNil; Some RRestarting; Some RNil; Some RNil; Some RNil],
     [["HOME=/"; "GRACEFUL_RESTART_FD=3"]]).
Proof. vm_compute. reflexivity. Qed.

Lemma demo_svc_quiescent : quiescent demo_svc_end.
Proof.
  intros i. destruct (decide (i < 12)%nat) as [Hi|Hi].
  - do 12 (destruct i as [|i]; [vm_compute; reflexivity|]). lia.
  - unfold pool_next. rewrite lookup_ge_None_2; [done|].
    assert (length (p_threads demo_svc_end) = 12) as -> by (vm_compute; reflexivity). lia.
Qed.

Lemma demo_svc_reached : pool_reach (λ _, True) demo_svc_pool demo_svc_end.
Proof. apply pool_run_reach. by apply Forall_forall. Qed.

Lemma restart_drains_the_service_witness :
  (∀ i, pool_next i demo_svc_end ≠ Some Panic) ∧ v_children (p_state demo_svc_end) ≠ [] ∧
  v_lnClosed (p_state demo_svc_end) = true ∧
  ∃ r, v_returned (p_state demo_svc_end) !! 0 = Some r.
Proof.
  destruct (restart_drains_the_service ["HOME=/"; "GRACEFUL_RESTART_FD=9"] Second 20 demo_calls demo_svc demo_svc_end)
    as (H1 & _ & H3 & H4).
  - split; reflexivity.
  - vm_compute. lia.
  - exact demo_svc_reached.
  - split; [exact H1|]. destruct (H3 1 true) as [Hc Hl]; [reflexivity|vm_compute; reflexivity|].
    split; [exact Hc|]. split; [exact Hl|].
    destruct (H4 demo_svc_quiescent 0 (ScServe true)) as [Hr|(_ & [[_ Ht]|[_ Hh]])]; [reflexivity|exact Hr| |].
    + exfalso. apply Ht. vm_compute. reflexivity.
    + exfalso. revert Hh. vm_compute. discriminate.
Defined.

(** [storeConn] looks at [closed] before it takes the lock: a service that ends in
    between closes the connections it finds and returns, and the new connection is
    put into the table afterwards, where nobody will close it. *)
Theorem late_connection_survives_close :
  let w := pool_run ([0; 0] ++ concat (replicate 20 [2; 4]) ++ concat (replicate 12 [0])) (Pool demo_svc
             (svc_threads [] Second 20 0 [ScRead (AcOpened 9 3); ScServe true; ScCancel 1])) in
  v_returned (p_state w) !! 1 = Some RContext ∧ v_closedConns (p_state w) = [1; 2] ∧
  table (p_state w) = {[9%Z := 3]}.
Proof. vm_compute. repeat split; reflexivity. Qed.
