(* ===== verification/UdpService.v ===== *)
(** * UDP services (src/udpservice.go, part of src/dialer.go)

    A UDP service serves a fixed list of connections that listen on one address.  Its
    state holds the connections; the wait group that [Close] counts down is shared by
    all of them, so a method of a connection runs on the connection with the counter
    of the service ([on_conn]).  Every connection brings its poller, as the state of
    [UdpConn] has it.  Starting the child process is a parameter, and the context is
    the flag whether it has ended.

    The theorem: however the handlers are set and the poller answers, [Serve] of a
    context that ends returns with every connection closed and the counter at zero,
    which never goes below. *)

From stdpp Require Import base gmap sets list numbers strings.
From S2P Require Import Prelude MCache Node LinkedBuffer BufferInv BufferMem BufferSpec AutoPostpone SafeJob Closer AsyncTimer Options Threads Timer Kernel IOVec DescCache Poller NetFD NetAddr TcpService TcpConn TcpClose UdpPacket UdpConn Service.

Local Open Scope Z_scope.

(** Errors of the service. *)
Inductive userr : Type :=
| UNoListeners                  (* "listeners can't be nil" *)
| UDifferentAddr                (* "listeners have different local address" *)
| UNotUdpconn                   (* "listeners are not of udpconn type" *)
| UListen                       (* "udp listen error" *)
| UConn (e : nerr)              (* an error of a connection *)
| UContext                      (* ctx.Err() *)
| UAllClosed                    (* "all connection is closed" *)
| UNoConn                       (* "no UDP conn to restart" *)
| UStart.                       (* the child did not start *)

#[export] Instance userr_eq_dec : EqDecision userr.
Proof. solve_decision. Defined.

Section UdpService.
Context {D CB W H : Type} `{K : Kernel W} `{UK : UdpKernel W} `{I : Interfaces}.
Abbreviation conn := (udpconn D CB W H).
Implicit Types c : conn.
Variable pdSize : Z.
Variable sock_Close : Z → W → W.
Variable run_closed : H → thread conn ().
(** The callbacks of UDP connections, and the poller that the manager picks. *)
Variables (udpOnRead udpOnWrite : CB) (mgr : option nat).
(** [net.Addr.String], [os.Environ]. *)
Variable addr_String : option Addr → string.
Variable environ : list string.

(** [udpconn.schedule]: no callback for a hang-up. *)
Definition u_schedule (data : D) : thread conn (result nerr ()) :=
  u_net (Schedule pdSize None mgr (Some udpOnRead) (Some udpOnWrite) None data).

Record udpservice : Type := UdpService {
  us_reqHandle : option H;
  us_conns : list conn;
  us_opts : options H;
  us_allConnClosed : Z;          (* the wait group's counter *)
  us_ended : bool;               (* the context of [Serve] has ended *)
  us_coins : list bool;          (* the choices of [select] *)
  us_children : list (list string);
  us_slept : list Z
}.

Definition set_us_conns v s := UdpService (us_reqHandle s) v (us_opts s) (us_allConnClosed s) (us_ended s) (us_coins s) (us_children s) (us_slept s).
Definition set_us_wg v s := UdpService (us_reqHandle s) (us_conns s) (us_opts s) v (us_ended s) (us_coins s) (us_children s) (us_slept s).
Definition us_flip s := UdpService (us_reqHandle s) (us_conns s) (us_opts s) (us_allConnClosed s) (us_ended s) (drop 1 (us_coins s)) (us_children s) (us_slept s).
Definition add_us_child e s := UdpService (us_reqHandle s) (us_conns s) (us_opts s) (us_allConnClosed s) (us_ended s) (us_coins s) (e :: us_children s) (us_slept s).
Definition us_sleep d s := UdpService (us_reqHandle s) (us_conns s) (us_opts s) (us_allConnClosed s) (us_ended s) (us_coins s) (us_children s) (us_slept s ++ [d]).

Definition end_context s := UdpService (us_reqHandle s) (us_conns s) (us_opts s) (us_allConnClosed s) true (us_coins s) (us_children s) (us_slept s).

Abbreviation S := (thread udpservice).

(** The connection with the shared counter, and putting both back. *)
Definition us_get (i : nat) (s : udpservice) : option conn :=
  uset_closeService (Some (us_allConnClosed s)) <$> us_conns s !! i.

Definition us_put (i : nat) (c : conn) (s : udpservice) : udpservice :=
  set_us_wg (default (us_allConnClosed s) (uc_closeService c)) (set_us_conns (<[i := c]> (us_conns s)) s).

(** A method of connection [i]. *)
Fixpoint on_conn {A} (i : nat) (p : thread conn A) : S A :=
  match p with
  | Fin r => Fin r
  | Do B a k =>
      Do B (λ s, match us_get i s with
                 | None => Some Panic
                 | Some c =>
                     match a c with
                     | Some (Ret (x, c')) => Some (Ret (x, us_put i c' s))
                     | Some Panic => Some Panic
                     | Some NoFuel => Some NoFuel
                     | None => None
                     end
                 end) (λ x, on_conn i (k x))
  end.

(** [for _, conn := range s.conns { ... }], which ends at the first error. *)
Fixpoint each_conn (is_ : list nat) (f : nat → S (result userr ())) : S (result userr ()) :=
  match is_ with
  | [] => Fin (Ok ())
  | i :: is_ =>
      r ← f i;
      match r with
      | Err e => Fin (Err e)
      | Ok _ => each_conn is_ f
      end
  end.

Definition all_conns (f : nat → S (result userr ())) : S (result userr ()) :=
  n ← read (λ s, length (us_conns s)); each_conn (seq 0 n) f.

Definition conn_error {A} (r : result nerr A) : result userr () := match r with Ok _ => Ok () | Err e => Err (UConn e) end.

(** ** Creating *)

Inductive packetConn : Type := PcUdp (c : conn) | PcOther (addr : option Addr).

Definition pc_LocalAddr (p : packetConn) : option Addr := match p with PcUdp c => uc_laddr c | PcOther a => a end.

Fixpoint same_addr (first : option Addr) (lns : list packetConn) : bool :=
  match lns with
  | [] => true
  | ln :: lns => if decide (addr_String (pc_LocalAddr ln) = addr_String first) then same_addr first lns else false
  end.

Definition validateListeners (lns : list packetConn) : result userr () :=
  match lns with
  | [] => Err UNoListeners
  | ln :: lns => if same_addr (pc_LocalAddr ln) lns then Ok () else Err UDifferentAddr
  end.

(** What the constructor does to one connection. *)
Definition adopt (opts : options H) (wg : Z) (c : conn) : conn :=
  uset_closeService (Some wg)
    (uset_nfd (NetFD (nfd_desc (uc_nfd c)) (nfd_sock (uc_nfd c)) (nfd_fd (uc_nfd c)) (nfd_fdtype (uc_nfd c))
                 (nfd_closed (uc_nfd c)) (o_maxUDPPacketSize opts) (o_exactUDPBufferSizeEnabled opts)) c).

Fixpoint adopt_all (opts : options H) (wg : Z) (lns : list packetConn) : result userr (list conn) :=
  match lns with
  | [] => Ok []
  | PcOther _ :: _ => Err UNotUdpconn
  | PcUdp c :: lns =>
      match adopt_all opts wg lns with
      | Err e => Err e
      | Ok conns => Ok (adopt opts wg c :: conns)
      end
  end.

Definition newUDPService (lns : list packetConn) (handler : option H) (opt : list (Option H)) : result userr udpservice :=
  let opts := newOptions opt in
  match adopt_all opts (zlen lns) lns with
  | Err e => Err e
  | Ok conns => Ok (UdpService handler conns opts (zlen lns) false [] [] [])
  end.

Definition NewUDPService (lns : list packetConn) (handler : option H) (opt : list (Option H)) : result userr udpservice :=
  match validateListeners lns with
  | Err e => Err e
  | Ok _ => newUDPService lns handler opt
  end.

(** ** Serving *)

Definition us_close : S (result userr ()) := all_conns (λ i, _ ← on_conn i (u_Close sock_Close run_closed); Fin (Ok ())).

(** The body of the loop of [Serve]; [data] is the connection as its descriptor stores it. *)
Definition serve_conn (data : nat → D) (i : nat) : S (result userr ()) :=
  h ← read us_reqHandle;
  opts ← read us_opts;
  r ← on_conn i (u_SetOnRequest h);
  match r with
  | Err e => Fin (Err (UConn e))
  | Ok _ =>
      _ ← on_conn i (u_SetNonBlocking (o_nonblocking opts));
      _ ← (match o_onUDPClosed opts with
           | Some h => on_conn i (u_SetOnClosed (Some h))
           | None => Fin (Ok ())
           end);
      r ← on_conn i (u_schedule (data i));
      Fin (conn_error r)
  end.

(** [select] on the context and on the goroutine that waits for the wait group. *)
Definition us_select : S bool :=
  await (λ s,
    match us_ended s, bool_decide (us_allConnClosed s = 0) with
    | false, false => None
    | true, false => Some (true, s)
    | false, true => Some (false, s)
    | true, true => Some (hd true (us_coins s), us_flip s)
    end).

Definition us_Serve (data : nat → D) : S userr :=
  r ← all_conns (serve_conn data);
  match r with
  | Err e => _ ← us_close; Fin e
  | Ok _ =>
      ended ← us_select;
      _ ← us_close;
      Fin (if (ended : bool) then UContext else UAllClosed)
  end.

Definition us_Restart (starts : bool) : S (result userr ()) :=
  n ← read (λ s, length (us_conns s));
  if decide (n = 0%nat) then Fin (Err UNoConn)
  else if starts then
    opts ← read us_opts;
    _ ← write (add_us_child (cleanAndAppendEnv environ gracefulRestartFDEnv gracefulRestartFD));
    _ ← write (us_sleep (o_gracefulRestartTimeout opts));
    us_close
  else Fin (Err UStart).

(** ** Opening sockets *)

Definition u_sys {A} (f : W → A * W) : thread conn A := u_net (net_syscall f).

(** [&udpconn{...}] with its buffers initialised, around a socket of the standard
    library; pools, poller and clock are those of the process. *)
Definition fresh_udpconn (fd : Z) (laddr raddr : option Addr) (ib ob : Buffer) (c : conn) : conn :=
  UdpConn None None None (Chan false false) ib ob None None
    (NetFD None true fd fdUDP false defaultUDPBufferSize false) laddr raddr zero_closer
    (zero_postpone (pw_metrics (uc_postpone c))) unlocked unlocked false None (uc_msgs c) (uc_poll c) (uc_clock c)
    (uc_coins c) 0.

Definition make_udpconn (fd : Z) (laddr raddr : option Addr) : M conn () := λ c,
  match New (mc (uc_inBuffer c)) (cfg (uc_inBuffer c)), New (mc (uc_outBuffer c)) (cfg (uc_outBuffer c)) with
  | Ret (_, ib), Ret (_, ob) => Ret ((), fresh_udpconn fd laddr raddr ib ob c)
  | NoFuel, _ | Ret _, NoFuel => NoFuel
  | _, _ => Panic
  end.

(** A socket of the standard library: its own descriptor, what [GetFD] finds, its
    addresses. *)
Record libsock : Type := LibSock { ls_id : Z; ls_fd : option Z; ls_laddr : option Addr; ls_raddr : option Addr }.

Definition newUDPConn (l : libsock) : thread conn (result nerr ()) :=
  match ls_fd l with
  | None => _ ← u_sys (λ w, ((), sock_Close (ls_id l) w)); Fin (Err NOther)
  | Some fd => _ ← atomically (make_udpconn fd (ls_laddr l) None); Fin (Ok ())
  end.

(** Only a socket on UDP is wrapped; one without a local address has no network. *)
Definition NewPacketConn (l : libsock) : thread conn (result nerr ()) :=
  match ls_laddr l with
  | None => crash
  | Some a => match ValidateUDP a with Err _ => Fin (Err NOther) | Ok _ => newUDPConn l end
  end.

(** [net.ListenPacket] and its counterpart in go_reuseport. *)
Variable ListenPacket : bool → string → string → W → result nerr libsock * W.

Fixpoint listen_loop (n : nat) (reuseport : bool) (network address : string) (lns : list conn)
    : thread conn (result userr (list conn)) :=
  match n with
  | O => Fin (Ok lns)
  | Datatypes.S n =>
      rawConn ← u_sys (ListenPacket reuseport network address);
      match rawConn with
      | Err _ => Fin (Err UListen)
      | Ok l =>
          r ← newUDPConn l;
          match r with
          | Err e => Fin (Err (UConn e))
          | Ok _ =>
              c ← read id;
              listen_loop n reuseport network (addr_String (ls_laddr l)) (lns ++ [c])
          end
      end
  end.

(** [listenUDP]; [NumPollers] is the number of pollers. *)
Definition listenUDP (NumPollers : nat) (network address : string) (reuseport : bool)
    : thread conn (result userr (list conn)) :=
  listen_loop (if reuseport then NumPollers else 1) reuseport network address [].

Definition ListenPackets := listenUDP.

(** The networks of UDP. *)
Definition udp_network (network : string) : bool :=
  bool_decide (network = "udp" ∨ network = "udp4" ∨ network = "udp6")%string.

(** [dialUDP]; [DialTimeout] is that of the standard library, its timeout applied. *)
Definition dialUDP (DialTimeout : string → string → W → result nerr libsock * W) (network address : string) (data : D)
    : thread conn (result nerr ()) :=
  r ← u_sys (DialTimeout network address);
  match r with
  | Err e => Fin (Err e)
  | Ok l =>
      match ls_fd l with
      | None => _ ← u_sys (λ w, ((), sock_Close (ls_id l) w)); Fin (Err NOther)
      | Some fd =>
          _ ← atomically (make_udpconn fd (ls_laddr l) (ls_raddr l));
          r ← u_schedule data;
          match r with
          | Err e => _ ← u_Close sock_Close run_closed; Fin (Err e)
          | Ok _ => Fin (Ok ())
          end
      end
  end.

Definition DialUDP (DialTimeout : string → string → W → result nerr libsock * W) (network address : string) (data : D)
    : thread conn (result nerr ()) :=
  if negb (udp_network network) then Fin (Err NOther) else dialUDP DialTimeout network address data.

(** ** One connection *)

(** Nobody has closed it, and nothing runs on it. *)
Record u_rest (c : conn) : Prop := {
  ur_closer : uc_closer c = zero_closer;
  ur_trigger : ch_closed (uc_readTrigger c) = false;
  ur_open : nfd_closed (uc_nfd c) = false;
  ur_type : nfd_fdtype (uc_nfd c) = fdUDP;
  ur_desc desc : nfd_desc (uc_nfd c) = Some desc → served (unet_of c) desc
}.

(** It is closed, its socket too. *)
Record u_shut (c : conn) : Prop := {
  us_closer : closed (uc_closer c) = true;
  us_socket : nfd_closed (uc_nfd c) = true
}.

(** *** Nothing but [Close] touches the wait group *)

Fixpoint keeps_attached {A} (p : thread conn A) : Prop :=
  match p with
  | Fin _ => True
  | Do B a k => ∀ c x c', uc_closeService c ≠ None → a c = Some (Ret (x, c')) →
                          uc_closeService c' ≠ None ∧ keeps_attached (k x)
  end.

Lemma attached_bind {A B} (p : thread conn A) (f : A → thread conn B) :
  keeps_attached p → (∀ x, keeps_attached (f x)) → keeps_attached (p ≫= f).
Proof.
  intros Hp Hf. induction p as [r|B' a k IH]; simpl in *; [apply Hf|].
  intros c x c' Hc Ha. destruct (Hp c x c' Hc Ha) as [? ?]. split; [done|]. by apply IH.
Qed.

Lemma attached_atomically {A} (m : M conn A) :
  (∀ c x c', uc_closeService c ≠ None → m c = Ret (x, c') → uc_closeService c' ≠ None) → keeps_attached (atomically m).
Proof. intros Hm c x c' Hc. intros [= E]. split; [by eapply Hm|done]. Qed.

Lemma attached_read {A} (f : conn → A) : keeps_attached (read f).
Proof. apply attached_atomically. intros c x c' Hc [= _ <-]. done. Qed.

Lemma attached_write (f : conn → conn) : (∀ c, uc_closeService (f c) = uc_closeService c) → keeps_attached (write f).
Proof. intros Hf. apply attached_atomically. intros c x c' Hc [= <- <-]. by rewrite Hf. Qed.

Lemma attached_job {R} (p : prog closer R) : keeps_attached (of_job uc_closer uset_closer p).
Proof.
  induction p as [r|a k IH]; [done|]. intros c x c' Hc. simpl.
  destruct (a (uc_closer c)) as [[b cl]|]; [|done]. intros [= <- <-]. by split.
Qed.

Lemma attached_net {A} (m : M (net_env D CB W) A) : keeps_attached (u_net m).
Proof.
  apply attached_atomically. intros c x c' Hc. unfold zoom. destruct (m (unet_of c)) as [[y e]| |]; [|done..].
  by intros [= _ <-].
Qed.

(** Handlers of the user: they return, and do not touch the connection. *)
Definition u_harmless (h : option H) : Prop :=
  ∀ h', h = Some h' → keeps_attached (run_closed h') ∧ ∀ c, run_alone (run_closed h') c = Some (Ret ((), c)).

Lemma attached_Close : (∀ h, keeps_attached (run_closed h)) → keeps_attached (u_Close sock_Close run_closed).
Proof.
  intros Hh. unfold u_Close. apply attached_bind; [apply attached_job|]. intros first.
  destruct (negb first); [done|].
  apply attached_bind; [apply attached_job|]. intros _.
  apply attached_bind.
  { apply attached_atomically. intros c x c' Hc. destruct (ch_closed _); [done|]. by intros [= <- <-]. }
  intros _. apply attached_bind; [apply attached_job|]. intros _.
  apply attached_bind; [apply attached_read|]. intros h.
  apply attached_bind; [destruct h; [apply Hh|done]|]. intros _.
  apply attached_bind; [by apply attached_write|]. intros _.
  apply attached_bind; [apply attached_write; intros c; by destruct (uc_rtimer c)|]. intros _.
  apply attached_bind; [apply attached_write; intros c; by destruct (uc_wtimer c)|]. intros _.
  apply attached_bind.
  { apply attached_atomically. intros c x c' Hc. destruct (uc_closeService c) eqn:E; [|done].
    case_decide; [done|]. by intros [= <- <-]. }
  intros _. apply attached_bind; [apply attached_net|]. intros _. apply attached_job.
Qed.

(** What running on connection [i] changes of the service. *)
Record only_conn (i : nat) (s s' : udpservice) : Prop := {
  oc_others j : j ≠ i → us_conns s' !! j = us_conns s !! j;
  oc_length : length (us_conns s') = length (us_conns s);
  oc_handle : us_reqHandle s' = us_reqHandle s;
  oc_opts : us_opts s' = us_opts s;
  oc_ended : us_ended s' = us_ended s
}.

Lemma only_conn_refl i s : only_conn i s s.
Proof. by split. Qed.

Lemma only_conn_trans i s1 s2 s3 : only_conn i s1 s2 → only_conn i s2 s3 → only_conn i s1 s3.
Proof.
  intros [A1 A2 A3 A4 A5] [B1 B2 B3 B4 B5]. split; try congruence. intros j Hj. by rewrite B1, A1.
Qed.

Lemma us_get_put i c s :
  uc_closeService c ≠ None → is_Some (us_get i s) → us_get i (us_put i c s) = Some c.
Proof.
  intros Ha [c0 Hg]. unfold us_get in *. destruct (us_conns s !! i) as [c1|] eqn:Ec; [|done]. simpl.
  rewrite list_lookup_insert_eq by (by eapply lookup_lt_Some). simpl.
  destruct (uc_closeService c) as [n|] eqn:En; [|done]. simpl. f_equal. destruct c. simpl in *. by subst.
Qed.

(** A method that runs on a connection runs on the service. *)
Lemma on_conn_alone {A} i (p : thread conn A) s c x c' :
  keeps_attached p → us_get i s = Some c → run_alone p c = Some (Ret (x, c')) →
  ∃ s', run_alone (on_conn i p) s = Some (Ret (x, s')) ∧ us_get i s' = Some c' ∧ only_conn i s s'.
Proof.
  revert s c. induction p as [r|B a k IH]; intros s c Hk Hg Hr; simpl in *.
  { injection Hr as <- <-. exists s. split; [done|]. split; [done|apply only_conn_refl]. }
  assert (Ha : uc_closeService c ≠ None).
  { unfold us_get in Hg. destruct (us_conns s !! i); [|done]. by injection Hg as <-. }
  rewrite Hg. destruct (a c) as [[[y c1]| |]|] eqn:Ea; try done.
  destruct (Hk c y c1 Ha Ea) as [Ha1 Hk1].
  destruct (IH y (us_put i c1 s) c1 Hk1) as (s' & Hr' & Hg' & Hs'); [apply us_get_put; [done|by eexists]|done|].
  exists s'. split; [exact Hr'|]. split; [exact Hg'|]. eapply only_conn_trans; [|exact Hs'].
  split; try reflexivity; simpl.
  - intros j Hj. apply list_lookup_insert_ne. congruence.
  - by rewrite length_insert.
Qed.

(** ** Closing one connection *)

Lemma u_closer_alone {R} (p : prog closer R) c r cl :
  run_prog p (uc_closer c) = Some (r, cl) →
  run_alone (of_job uc_closer uset_closer p) c = Some (Ret (r, uset_closer cl c)).
Proof. apply run_of_job; by intros []. Qed.

Lemma u_stop_timer_alone (field : conn → option timer) upd c :
  upd (field c) c = c → run_alone (u_stop_timer field upd) c = Some (Ret ((), upd (
    (λ t, match tm_timer t with None => t | Some g => MkTimer None (Some (stopped_and_drained g)) end) <$> field c) c)).
Proof.
  intros Hid. unfold u_stop_timer, write, atomically, atomic. cbn. unfold modify.
  destruct (field c) as [t|] eqn:E; [done|]. simpl. by rewrite Hid.
Qed.

Lemma u_Close_alone c n :
  u_rest c → uc_closeService c = Some n → 1 ≤ n → u_harmless (uc_closeHandle c) →
  ∃ c', run_alone (u_Close sock_Close run_closed) c = Some (Ret ((), c')) ∧
        u_shut c' ∧ uc_closeService c' = Some (n - 1) ∧ uc_closeHandle c' = uc_closeHandle c.
Proof.
  intros [Hcl Htr Hop _ Hde] Hn Hn1 Hh. unfold u_Close.
  set (cl1 := Closer job_zero job_zero job_zero job_zero job_zero true). set (c1 := uset_closer cl1 c).
  assert (Hs1 : run_alone (u_begin Closer.closeAll) c = Some (Ret (true, c1)))
    by (apply u_closer_alone; by rewrite Hcl).
  arun Hs1. cbn [negb]. cbv iota. clear Hs1.
  set (cl2 := Closer (EUJob unlocked true) job_zero job_zero job_zero job_zero true). set (c2 := uset_closer cl2 c1).
  assert (Hs2 : run_alone (u_closeJob kSysRead) c1 = Some (Ret ((), c2))) by (by apply u_closer_alone).
  arun Hs2. clear Hs2. erewrite run_alone_bind by (apply run_atomically; simpl; rewrite Htr; reflexivity).
  set (c3 := uset_readTrigger _ c2). set (c4 := uset_closer closed_closer c3).
  assert (Hs4 : run_alone u_closeAllJobs c3 = Some (Ret ((), c4))) by (by apply u_closer_alone).
  arun Hs4. clear Hs4. apure. change (uc_closeHandle c4) with (uc_closeHandle c).
  assert (Hs5 : run_alone (match uc_closeHandle c with Some h => run_closed h | None => Fin () end) c4
                = Some (Ret ((), c4))) by (destruct (uc_closeHandle c) as [h|]; [by apply (Hh h eq_refl)|done]).
  arun Hs5. clear Hs5. apure. set (c5 := uset_metaData None c4).
  assert (Hs6 := u_stop_timer_alone uc_rtimer uset_rtimer c5 ltac:(by destruct c)).
  arun Hs6. clear Hs6. set (c6 := uset_rtimer _ c5).
  assert (Hs7 := u_stop_timer_alone uc_wtimer uset_wtimer c6 ltac:(by destruct c)).
  arun Hs7. clear Hs7. set (c7 := uset_wtimer _ c6). set (c8 := uset_closeService (Some (n - 1)) c7).
  assert (Hs8 : run_alone closeService_Done c7 = Some (Ret ((), c8))).
  { apply run_atomically. change (uc_closeService c7) with (uc_closeService c). rewrite Hn, decide_False by lia. done. }
  arun Hs8. clear Hs8. destruct (nfd_close_ok sock_Close (unet_of c8) Hop Hde) as (e & He & Hec & _ & _).
  assert (Hs9 : run_alone (u_net (nfd_close sock_Close)) c8 = Some (Ret ((), uset_net e c8)))
    by (by apply (run_method unet_of uset_net)).
  arun Hs9. clear Hs9. set (c9 := uset_net e c8).
  exists (uset_closer closed_closer c9). split; [by apply u_closer_alone|].
  split; [split; [reflexivity|exact Hec]|split; reflexivity].
Qed.

(** Closing again. *)
Lemma u_Close_again c : u_shut c → run_alone (u_Close sock_Close run_closed) c = Some (Ret ((), c)).
Proof.
  intros [Hcl _]. unfold u_Close.
  assert (Hs1 : run_alone (u_begin Closer.closeAll) c = Some (Ret (false, c))).
  { unfold u_begin. rewrite (u_closer_alone _ c false (uc_closer c)); [by destruct c|].
    destruct (uc_closer c) as [j1 j2 j3 j4 j5 j6]. change (j6 = true) in Hcl. by subst j6. }
  by arun Hs1.
Qed.

(** ** The service *)

Definition open_count (c : conn) : Z := if closed (uc_closer c) then 0 else 1.

(** Every connection is at rest or shut, and the wait group counts those at rest. *)
Record us_ok s : Prop := {
  uk_conns : Forall (λ c, u_rest c ∨ u_shut c) (us_conns s);
  uk_handles : Forall (λ c, u_harmless (uc_closeHandle c)) (us_conns s);
  uk_count : us_allConnClosed s = sumZ (map open_count (us_conns s))
}.

Lemma sumZ_insert (f : conn → Z) l i c c' :
  l !! i = Some c → sumZ (map f (<[i := c']> l)) = sumZ (map f l) - f c + f c'.
Proof.
  revert i. induction l as [|x l IH]; intros [|i]; simpl; try done.
  - intros [= ->]. unfold sumZ. simpl. lia.
  - intros Hi. specialize (IH i Hi). unfold sumZ in *. simpl. lia.
Qed.

Lemma sumZ_open_nonneg l : 0 ≤ sumZ (map open_count l).
Proof. induction l as [|c l IH]; [done|]. unfold sumZ in *. simpl. unfold open_count at 1. destruct (closed _); lia. Qed.

Lemma sumZ_open_pos l i c : l !! i = Some c → closed (uc_closer c) = false → 1 ≤ sumZ (map open_count l).
Proof.
  intros Hi Hc. pose proof (sumZ_insert open_count l i c c Hi) as He.
  assert (Hd : sumZ (map open_count l) = open_count c + sumZ (map open_count (delete i l))).
  { clear He. revert i Hi. induction l as [|x l IH]; intros [|i]; simpl; try done.
    - by intros [= ->].
    - intros Hi. specialize (IH i Hi). unfold sumZ in *. simpl in *. lia. }
  pose proof (sumZ_open_nonneg (delete i l)). unfold open_count at 2 in Hd. rewrite Hc in Hd. lia.
Qed.

(** The counter of the service in place of the connection's copy. *)
Lemma rest_attach c n : u_rest c → u_rest (uset_closeService n c).
Proof. intros []. by split. Qed.
Lemma shut_attach c n : u_shut c → u_shut (uset_closeService n c).
Proof. intros []. by split. Qed.

(** A method on one connection keeps the service in order. *)
Lemma us_step {A} i (p : thread conn A) s c x c' :
  keeps_attached p → us_ok s → us_conns s !! i = Some c →
  run_alone p (uset_closeService (Some (us_allConnClosed s)) c) = Some (Ret (x, c')) →
  u_rest c' ∨ u_shut c' → u_harmless (uc_closeHandle c') →
  uc_closeService c' = Some (us_allConnClosed s - open_count c + open_count c') →
  ∃ s' c'' n, run_alone (on_conn i p) s = Some (Ret (x, s')) ∧ us_ok s' ∧ only_conn i s s' ∧
    us_conns s' !! i = Some c'' ∧ c' = uset_closeService n c''.
Proof.
  intros Hk [Hc Hh Hw] Hi Hr Hc' Hh' Hw'.
  destruct (on_conn_alone i p s _ x c' Hk ltac:(unfold us_get; by rewrite Hi) Hr) as (s' & Hr' & Hg' & Ho).
  unfold us_get in Hg'. destruct (us_conns s' !! i) as [c''|] eqn:Ei; [|done]. injection Hg' as Eg.
  exists s', c'', (Some (us_allConnClosed s')). split; [exact Hr'|]. split; [|by split; [|split]].
  assert (Hl : us_conns s' = <[i := c'']> (us_conns s)).
  { apply list_eq. intros j. destruct (decide (j = i)) as [->|Hj].
    - rewrite list_lookup_insert_eq by (by eapply lookup_lt_Some). done.
    - rewrite list_lookup_insert_ne by done. by apply Ho. }
  rewrite <-Eg in Hc', Hh', Hw'. simpl in Hw'. split.
  - rewrite Hl. apply Forall_insert; [done|]. destruct Hc' as [[]|[]]; [left|right]; by split.
  - rewrite Hl. by apply Forall_insert.
  - rewrite Hl, (sumZ_insert _ _ _ _ _ Hi). injection Hw' as ->. rewrite Hw. done.
Qed.

(** The loops over the connections. *)
Lemma each_conn_ok (P : nat → udpservice → Prop) (Q : userr → udpservice → Prop) f k n s :
  P k s →
  (∀ i s, (k ≤ i < k + n)%nat → P i s →
     ∃ r s', run_alone (f i) s = Some (Ret (r, s')) ∧ match r with Ok _ => P (Datatypes.S i) s' | Err e => Q e s' end) →
  ∃ r s', run_alone (each_conn (seq k n) f) s = Some (Ret (r, s')) ∧
          match r with Ok _ => P (k + n)%nat s' | Err e => Q e s' end.
Proof.
  revert k s. induction n as [|n IH]; intros k s HP Hf.
  { exists (Ok ()), s. split; [done|]. by rewrite Nat.add_0_r. }
  destruct (Hf k s ltac:(lia) HP) as (r & s1 & Hr & Hs1). cbn [seq each_conn]. arun Hr.
  destruct r as [u|e]; [|by exists (Err e), s1].
  destruct (IH (Datatypes.S k) s1 Hs1) as (r2 & s2 & Hr2 & Hs2); [intros; apply Hf; [lia|done]|].
  exists r2, s2. split; [exact Hr2|]. by rewrite <-Nat.add_succ_comm.
Qed.

Hypothesis run_closed_attached : ∀ h, keeps_attached (run_closed h).

Definition shut_below (k : nat) s : Prop := ∀ i c, (i < k)%nat → us_conns s !! i = Some c → u_shut c.

(** [close] closes every connection, those that are closed already too. *)
Lemma us_close_ok s :
  us_ok s →
  ∃ s', run_alone (us_close) s = Some (Ret (Ok (), s')) ∧ Forall u_shut (us_conns s') ∧
        us_allConnClosed s' = 0 ∧ length (us_conns s') = length (us_conns s).
Proof.
  intros Hok. unfold us_close, all_conns. apure. set (n := length (us_conns s)).
  destruct (each_conn_ok (λ k s, us_ok s ∧ shut_below k s ∧ length (us_conns s) = n) (λ _ _, False)
              (λ i, _ ← on_conn i (u_Close sock_Close run_closed); Fin (Ok ())) 0 n s) as (r & s' & Hr & Hs').
  - split; [exact Hok|]. split; [intros i c Hi; lia|done].
  - intros i s1 Hi (Hok1 & Hsb & Hl1). destruct (lookup_lt_is_Some_2 (us_conns s1) i ltac:(lia)) as [c Hc].
    pose proof (Forall_lookup_1 _ _ _ _ (uk_conns _ Hok1) Hc) as Hcase.
    pose proof (Forall_lookup_1 _ _ _ _ (uk_handles _ Hok1) Hc) as Hhc.
    set (c1 := uset_closeService (Some (us_allConnClosed s1)) c).
    assert (∃ c', run_alone (u_Close sock_Close run_closed) c1 = Some (Ret ((), c')) ∧ u_shut c' ∧
              u_harmless (uc_closeHandle c') ∧
              uc_closeService c' = Some (us_allConnClosed s1 - open_count c + open_count c')) as (c' & Hr & Hsh & Hha & Hcs).
    { destruct Hcase as [Hre|Hsh].
      - assert (Hcl : closed (uc_closer c) = false) by (by rewrite (ur_closer _ Hre)).
        destruct (u_Close_alone c1 (us_allConnClosed s1)) as (c' & Hr & Hsh & Hcs & Eh); [by apply rest_attach|done| |done|].
        { rewrite (uk_count _ Hok1). by eapply sumZ_open_pos. }
        exists c'. split; [exact Hr|]. split; [exact Hsh|]. split; [|].
        + by rewrite Eh.
        + rewrite Hcs. unfold open_count. rewrite Hcl, (us_closer _ Hsh). f_equal. lia.
      - exists c1. split; [apply u_Close_again; by apply shut_attach|]. split; [by apply shut_attach|].
        split; [done|]. unfold open_count. rewrite (us_closer _ Hsh). simpl. rewrite (us_closer _ Hsh). f_equal. lia. }
    destruct (us_step i (u_Close sock_Close run_closed) s1 c () c' (attached_Close run_closed_attached) Hok1 Hc Hr
                (or_intror Hsh) Hha Hcs) as (s2 & c'' & m & Hr2 & Hok2 & Ho2 & Hc2 & Ec).
    arun Hr2. exists (Ok ()), s2. split; [done|]. split; [exact Hok2|]. split.
    + intros j d Hj Hd. destruct (decide (j = i)) as [->|Hne].
      * assert (d = c'') as -> by congruence. rewrite Ec in Hsh. destruct Hsh. by split.
      * rewrite (oc_others _ _ _ Ho2) in Hd by done. apply (Hsb j d); [lia|done].
    + rewrite (oc_length _ _ _ Ho2). done.
  - destruct r as [[]|e]; [|done]. destruct Hs' as (Hok' & Hsb & Hl). exists s'. split; [exact Hr|].
    assert (Hall : Forall u_shut (us_conns s')).
    { apply Forall_lookup_2. intros i c Hc. apply (Hsb i c); [|done]. apply lookup_lt_Some in Hc. lia. }
    split; [exact Hall|]. split; [|by rewrite Hl].
    rewrite (uk_count _ Hok'). clear -Hall. induction Hall as [|c l Hc _ IH]; [done|].
    unfold sumZ in *. simpl. rewrite IH. unfold open_count. by rewrite (us_closer _ Hc).
Qed.

(** A connection that is not scheduled yet, and whose poller can take it. *)
Definition ready (c : conn) : Prop :=
  u_rest c ∧ nfd_desc (uc_nfd c) = None ∧
  ∃ free marked inuse, dc_ok (ep_cache (uc_poll c)) free marked inuse ∧ dc_room pdSize (ep_cache (uc_poll c)).

(** Setting it up. *)
Lemma us_setup {A} i (p : thread conn A) s c x c' :
  keeps_attached p → us_ok s → us_conns s !! i = Some c → u_rest c →
  run_alone p (uset_closeService (Some (us_allConnClosed s)) c) = Some (Ret (x, c')) →
  u_rest c' → u_harmless (uc_closeHandle c') → uc_closeService c' = Some (us_allConnClosed s) →
  ∃ s' c'' n, run_alone (on_conn i p) s = Some (Ret (x, s')) ∧ us_ok s' ∧ only_conn i s s' ∧
    us_conns s' !! i = Some c'' ∧ c' = uset_closeService n c''.
Proof.
  intros Hk Hok Hc Hre Hr Hre' Hh Hcs. apply (us_step i p s c x c' Hk Hok Hc Hr (or_introl Hre') Hh).
  unfold open_count. rewrite (ur_closer _ Hre), (ur_closer _ Hre'). simpl. rewrite Hcs. f_equal. lia.
Qed.

Lemma ready_attach n c : ready (uset_closeService n c) → ready c.
Proof. intros ([] & ? & ?). split; [by split|]. by split. Qed.

Hypothesis pdSize_pos : 0 < pdSize.

Lemma u_schedule_alone data c :
  ready c → ∃ r c', run_alone (u_schedule data) c = Some (Ret (r, c')) ∧ u_rest c' ∧
    uc_closeService c' = uc_closeService c ∧ uc_closeHandle c' = uc_closeHandle c.
Proof.
  intros ([H1 H2 H3 H4 H5] & Hd & free & marked & inuse & Hdc & Hroom).
  destruct (Schedule_ok pdSize mgr (Some udpOnRead) (Some udpOnWrite) None data (unet_of c) free marked inuse)
    as (desc & e & Hs & _ & _ & Hn & _ & Hserved); [done|exact Hd|exact H3| |exact Hdc|exact Hroom|].
  { simpl. by rewrite H4. }
  eexists _, (uset_net e c). split; [by apply (run_method unet_of uset_net)|]. split; [|done].
  split; [exact H1|exact H2| | |].
  - simpl. rewrite Hn. by destruct mgr.
  - simpl. rewrite Hn. by destruct mgr.
  - intros desc' Hd'. simpl in Hd'. rewrite Hn in Hd'. destruct mgr as [pn|]; [|simpl in Hd'; congruence].
    injection Hd' as <-. by apply Hserved.
Qed.

(** A setting of a connection that is not scheduled yet. *)
Definition core (c : conn) := (uc_closer c, uc_readTrigger c, uc_nfd c, uc_poll c, uc_closeService c).

Lemma ready_core c c' : core c' = core c → ready c → ready c'.
Proof.
  unfold core. intros [= E1 E2 E3 E4 _] ([H1 H2 H3 H4 H5] & Hd & Hs).
  split; [|by rewrite E3, E4]. split; rewrite ?E1, ?E2, ?E3; try done.
  intros desc Hd'. specialize (H5 desc Hd'). unfold served, unet_of in *. simpl in *. by rewrite E3, E4.
Qed.

Lemma us_config {A} i (p : thread conn A) f s c x :
  keeps_attached p → us_ok s → us_conns s !! i = Some c → ready c →
  (∀ c, ready c → run_alone p c = Some (Ret (x, f c))) → (∀ c, core (f c) = core c) →
  (∀ c, u_harmless (uc_closeHandle c) → u_harmless (uc_closeHandle (f c))) →
  ∃ s' c'', run_alone (on_conn i p) s = Some (Ret (x, s')) ∧ us_ok s' ∧ only_conn i s s' ∧
    us_conns s' !! i = Some c'' ∧ ready c''.
Proof.
  intros Hk Hok Hc Hrd Hr Hf Hh. set (c1 := uset_closeService (Some (us_allConnClosed s)) c).
  assert (Hrd1 : ready c1) by (destruct Hrd as ([] & ? & ?); split; by split).
  pose proof (ready_core c1 (f c1) (Hf c1) Hrd1) as Hrd2.
  destruct (us_setup i p s c x (f c1) Hk Hok Hc (proj1 Hrd) (Hr c1 Hrd1) (proj1 Hrd2)) as (s' & c'' & n & Hr' & Hok' & Ho & Hc'' & E).
  - apply Hh. exact (Forall_lookup_1 _ _ _ _ (uk_handles _ Hok) Hc).
  - pose proof (Hf c1) as E. unfold core in E. by injection E as _ _ _ _ ->.
  - exists s', c''. split; [exact Hr'|]. split; [exact Hok'|]. split; [exact Ho|]. split; [exact Hc''|].
    apply (ready_attach n). by rewrite <-E.
Qed.

Lemma serve_conn_ok data i s c :
  us_ok s → us_conns s !! i = Some c → ready c → u_harmless (o_onUDPClosed (us_opts s)) →
  ∃ r s' c', run_alone (serve_conn data i) s = Some (Ret (r, s')) ∧ us_ok s' ∧ only_conn i s s' ∧
    us_conns s' !! i = Some c' ∧ u_rest c' ∧ match r with Ok _ => True | Err e => ∃ x, e = UConn x end.
Proof.
  intros Hok Hc Hrd Hou. unfold serve_conn. apure. apure.
  unfold u_SetOnRequest. destruct (us_reqHandle s) as [h|];
    cycle 1.
  { exists (Err (UConn NOther)), s, c. split; [done|]. split; [done|]. split; [apply only_conn_refl|].
    split; [done|]. split; [apply Hrd|by eexists]. }
  destruct (us_config i (_ ← write (uset_reqHandle (Some h)); Fin (Ok ()) : thread conn (result nerr ()))
              (uset_reqHandle (Some h)) s c (Ok ())) as (s1 & c1 & Hr1 & Hok1 & Ho1 & Hc1 & Hrd1);
    [apply attached_bind; [by apply attached_write|done]|done..|].
  arun Hr1. unfold u_SetNonBlocking.
  destruct (us_config i (write (uset_nonblocking (o_nonblocking (us_opts s)))) (uset_nonblocking (o_nonblocking (us_opts s)))
              s1 c1 ()) as (s2 & c2 & Hr2 & Hok2 & Ho2 & Hc2 & Hrd2); [by apply attached_write|done..|].
  arun Hr2.
  assert (∃ s3 c3, run_alone (match o_onUDPClosed (us_opts s) with
       | Some h => on_conn i (u_SetOnClosed (Some h)) | None => Fin (Ok ()) end) s2 = Some (Ret (Ok (), s3)) ∧
     us_ok s3 ∧ only_conn i s2 s3 ∧ us_conns s3 !! i = Some c3 ∧ ready c3) as (s3 & c3 & Hr3 & Hok3 & Ho3 & Hc3 & Hrd3).
  { destruct (o_onUDPClosed (us_opts s)) as [h'|].
    - apply (us_config i (u_SetOnClosed (Some h')) (uset_closeHandle (Some h')) s2 c2 (Ok ())); try done.
      + unfold u_SetOnClosed. apply attached_bind; [apply attached_read|]. intros active.
        destruct (negb active); [done|]. apply attached_bind; [by apply attached_write|done].
      + intros c' Hrd'. unfold u_SetOnClosed, u_IsActive. apure. by rewrite (ur_closer _ (proj1 Hrd')).
    - exists s2, c2. split; [done|]. split; [done|]. split; [apply only_conn_refl|done]. }
  arun Hr3. set (c4 := uset_closeService (Some (us_allConnClosed s3)) c3).
  destruct (u_schedule_alone (data i) c4) as (r & c5 & Hr5 & Hre5 & Hcs5 & Hch5).
  { destruct Hrd3 as ([] & ? & ?). split; by split. }
  destruct (us_setup i (u_schedule (data i)) s3 c3 r c5 (attached_net _) Hok3 Hc3 (proj1 Hrd3) Hr5 Hre5)
    as (s5 & c6 & n & Hr6 & Hok5 & Ho5 & Hc6 & E6).
  { rewrite Hch5. exact (Forall_lookup_1 _ _ _ _ (uk_handles _ Hok3) Hc3). }
  { by rewrite Hcs5. }
  arun Hr6. exists (conn_error r), s5, c6. split; [done|]. split; [exact Hok5|]. split.
  { eapply only_conn_trans; [exact Ho1|]. eapply only_conn_trans; [exact Ho2|]. by eapply only_conn_trans. }
  split; [exact Hc6|]. rewrite E6 in Hre5. split; [destruct Hre5; by split|]. destruct r; [done|by eexists].
Qed.

(** A service as the constructor leaves it, around connections that nobody has used. *)
Record new_service s : Prop := {
  ns_ready : Forall ready (us_conns s);
  ns_handles : Forall (λ c, u_harmless (uc_closeHandle c)) (us_conns s);
  ns_some : us_conns s ≠ [];
  ns_count : us_allConnClosed s = zlen (us_conns s)
}.

Lemma new_service_ok s : new_service s → us_ok s.
Proof.
  intros [Hr Hh _ Hw]. split; [|done|].
  - eapply list.Forall_impl; [exact Hr|]. intros c Hc. left. apply Hc.
  - rewrite Hw. clear -Hr. induction Hr as [|c l Hc _ IH]; [done|]. rewrite zlen_cons, IH.
    unfold sumZ. simpl. unfold open_count at 2. rewrite (ur_closer _ (proj1 Hc)). simpl. lia.
Qed.

Definition pc_fresh (p : packetConn) : Prop :=
  match p with PcUdp c => ready c ∧ u_harmless (uc_closeHandle c) | PcOther _ => True end.

Lemma adopt_all_ok opts wg lns conns :
  adopt_all opts wg lns = Ok conns → Forall pc_fresh lns →
  Forall ready conns ∧ Forall (λ c, u_harmless (uc_closeHandle c)) conns ∧ length conns = length lns.
Proof.
  revert conns. induction lns as [|[c|a] lns IH]; intros conns; simpl; [by intros [= <-]| |done].
  destruct (adopt_all opts wg lns) as [conns1|e]; [|done]. intros [= <-] [[Hrd Hh] Hl]%Forall_cons_1.
  destruct (IH conns1 eq_refl Hl) as (H1 & H2 & H3). simpl. split; [|split; [|by rewrite H3]].
  - constructor; [|done]. destruct Hrd as ([] & ? & ?). split; by split.
  - by constructor.
Qed.

(** The constructor refuses an empty list of listeners, and attaches all of the others. *)
Lemma NewUDPService_ok lns handler opt s :
  NewUDPService lns handler opt = Ok s → Forall pc_fresh lns → new_service s.
Proof.
  unfold NewUDPService, newUDPService, validateListeners. destruct lns as [|ln lns]; [done|].
  destruct (same_addr _ lns); [|done]. destruct (adopt_all _ _ _) as [conns|e] eqn:Ea; [|done].
  intros [= <-] Hf. destruct (adopt_all_ok _ _ _ _ Ea Hf) as (H1 & H2 & H3).
  split; [exact H1|exact H2|simpl; by destruct conns|]. simpl. unfold zlen. by rewrite H3.
Qed.

Lemma Serve_ok (data : nat → D) s :
  new_service s → u_harmless (o_onUDPClosed (us_opts s)) → us_ended s = true →
  ∃ e s', run_alone (us_Serve data) s = Some (Ret (e, s')) ∧ (e = UContext ∨ ∃ x, e = UConn x) ∧
    Forall u_shut (us_conns s') ∧ us_allConnClosed s' = 0 ∧ length (us_conns s') = length (us_conns s).
Proof.
  intros Hs Hou Hend. unfold us_Serve. set (n := length (us_conns s)).
  set (P := λ k s', us_ok s' ∧ (∀ i, (k ≤ i)%nat → us_conns s' !! i = us_conns s !! i) ∧
                    length (us_conns s') = n ∧ us_opts s' = us_opts s ∧ us_ended s' = true ∧
                    (∀ i c, us_conns s' !! i = Some c → closed (uc_closer c) = false)).
  assert (Hloop : ∃ r s', run_alone (all_conns (serve_conn data)) s = Some (Ret (r, s')) ∧
                    match r with Ok _ => P n s' | Err e => (∃ x, e = UConn x) ∧ us_ok s' ∧ length (us_conns s') = n end).
  { unfold all_conns. apure.
    apply (each_conn_ok P (λ e s', (∃ x, e = UConn x) ∧ us_ok s' ∧ length (us_conns s') = n) (serve_conn data) 0 n).
    - split; [by apply new_service_ok|]. split; [done|]. split; [done|]. split; [done|]. split; [done|].
      intros i c Hc. pose proof (Forall_lookup_1 _ _ _ _ (ns_ready _ Hs) Hc) as [Hre _]. by rewrite (ur_closer _ Hre).
    - intros i s1 Hi (Hok & Hsame & Hl & Ho & He & Hopen).
      destruct (lookup_lt_is_Some_2 (us_conns s1) i ltac:(lia)) as [c Hc].
      assert (Hrd : ready c) by (rewrite Hsame in Hc by lia; exact (Forall_lookup_1 _ _ _ _ (ns_ready _ Hs) Hc)).
      destruct (serve_conn_ok data i s1 c Hok Hc Hrd) as (r & s2 & c' & Hr & Hok2 & Hoc & Hc' & Hre & Hx); [by rewrite Ho|].
      exists r, s2. split; [exact Hr|]. destruct Hoc as [O1 O2 O3 O4 O5].
      destruct r as [u|e]; [|by rewrite O2]. split; [exact Hok2|]. split; [intros j Hj; rewrite O1 by lia; apply Hsame; lia|].
      split; [congruence|]. split; [congruence|]. split; [congruence|]. intros j d Hd.
      destruct (decide (j = i)) as [->|Hj]; [|rewrite O1 in Hd by done; by eapply Hopen].
      assert (d = c') as -> by congruence. by rewrite (ur_closer _ Hre). }
  destruct Hloop as (r & s1 & Hr & Hs1). arun Hr. destruct r as [[]|e].
  - destruct Hs1 as (Hok & _ & Hl & _ & He & Hopen).
    assert (∃ c, us_conns s1 !! 0%nat = Some c) as [c Hc].
    { apply lookup_lt_is_Some_2. rewrite Hl. unfold n. pose proof (ns_some _ Hs). destruct (us_conns s); simpl; [done|lia]. }
    assert (Hsel : run_alone us_select s1 = Some (Ret (true, s1))).
    { unfold us_select, await, atomic. simpl. rewrite He, bool_decide_eq_false_2; [done|].
      rewrite (uk_count _ Hok). pose proof (sumZ_open_pos _ _ _ Hc (Hopen _ _ Hc)). lia. }
    arun Hsel. destruct (us_close_ok s1 Hok) as (s2 & Hr2 & Hsh & Hw & Hl2). arun Hr2.
    exists UContext, s2. split; [done|]. split; [by left|]. split; [done|]. split; [done|]. congruence.
  - destruct Hs1 as (He & Hok & Hl). destruct (us_close_ok s1 Hok) as (s2 & Hr2 & Hsh & Hw & Hl2). arun Hr2.
    exists e, s2. split; [done|]. split; [by right|]. split; [done|]. split; [done|]. congruence.
Qed.


End UdpService.

(** *** Two sockets on one address *)

Definition two_listeners : list packetConn :=
  let c fd := uset_poll (Epoll 1%positive (MkIOData None None) 3 0 false 0 init_cache (udp_kernel [] []) [])
                (uset_nfd (NetFD None true fd fdUDP false 100 false) (demo_udpconn empty_buffer false None (udp_kernel [] []))) in
  [PcUdp (c 9); PcUdp (c 10)].

Definition two_service : udpservice (D := nat) (CB := nat) (W := uscript) (H := nat) :=
  match NewUDPService (λ _, "192.0.2.1:53"%string) two_listeners (Some 0%nat) [WithMaxUDPPacketSize 1400] with
  | Ok s => s
  | Err _ => UdpService None [] zero_options 0 false [] [] []
  end.

